(** * RPS Arena: host-authoritative simulation and network protocol

    A shallow embedding of the game core of the repository
    (src/game/Game.js, src/game/Army.js, src/game/Soldier.js,
    src/game/Arena.js, src/game/PowerUpManager.js,
    src/network/NetworkManager.js, src/utils/constants.js)
    and the properties of its specification.

    Conventions of the embedding:
    - JavaScript numbers that carry positions, speeds and sizes are exact
      rationals ([Q]), without the rounding of doubles; counters and
      colours are integers ([Z]).
    - Soldier objects are shared between rosters, the [leader] field and
      deferred callbacks, so they live in an object store ([Heap]) and are
      named by reference; [indexOf] compares references, [find] compares
      the [id] field.
    - [Map] objects keyed by faction name are association lists in
      insertion order ([JsMap]), the order in which [forEach] and
      [entries] visit them.
    - Calls into collaborators (audio, UI, relay) are recorded in a log.
    - A read of a field of [null] or [undefined] that the source does
      not guard is an exception: it is recorded in the same log as a
      [TypeError], and the tick of the host stops there.
    - [Math.sqrt], [Math.sin], [Math.cos], [Math.atan2], [Date.now] and
      [Math.random] belong to the host environment ([Host]). *)

From Stdlib Require Import ZArith QArith Lqa Lia Bool List String Ascii.
From Stdlib Require Import Qminmax Qabs Qround.
From stdpp Require Import base option list pretty.

Local Open Scope string_scope.
Local Open Scope Z_scope.
Local Open Scope list_scope.

(* ===================================================================== *)
(** ** src/utils/constants.js *)
(* ===================================================================== *)

Module SOLDIER_TYPES.
Definition ROCK : string := "rock".
Definition PAPER : string := "paper".
Definition SCISSORS : string := "scissors".
(** [Object.values(SOLDIER_TYPES)] *)
Definition values : list string := [ROCK; PAPER; SCISSORS].
End SOLDIER_TYPES.

Module GAME_STATES.
Definition MENU : string := "menu".
Definition LOBBY : string := "lobby".
Definition PLACEMENT : string := "placement".
Definition PLAYING : string := "playing".
Definition ENDED : string := "ended".
End GAME_STATES.

Module GAME_CONFIG.
Definition ARENA_WIDTH : Q := 40%Q.
Definition ARENA_HEIGHT : Q := 24%Q.
Definition SOLDIERS_PER_ARMY : Z := 5.
Definition SOLDIER_BASE_SPEED : Q := 5%Q.
Definition SOLDIER_SIZE : Q := (45 # 100)%Q.
Definition LEADER_SIZE : Q := (65 # 100)%Q.
Definition SOLDIER_COLLISION_RADIUS : Q := (5 # 10)%Q.
Definition SPEED_PENALTY_PER_SOLDIER : Q := (12 # 1000)%Q.
Definition MIN_SPEED_MULTIPLIER : Q := (75 # 100)%Q.
Definition PLACEMENT_TIME : Q := 10%Q.
Definition POWERUP_SPAWN_INTERVAL : Q := 8%Q.
Definition POWERUP_SPAWN_VARIANCE : Q := 3%Q.
Definition POWERUP_SIZE : Q := (6 # 10)%Q.
Definition FOLLOW_DISTANCE : Q := 1%Q.
Definition FOLLOW_SMOOTHING : Q := (15 # 100)%Q.
Definition SYNC_RATE : Z := 30.
End GAME_CONFIG.

(** One entry of [COLORS] for a faction. *)
Record Palette := { main : Z; light : Z; dark : Z }.

Module COLORS.
Definition rock : Palette := {| main := 0x8B7355; light := 0xB09979; dark := 0x5D4B3D |}.
Definition paper : Palette := {| main := 0xFFFAE6; light := 0xFFFFFF; dark := 0xE6DFC6 |}.
Definition scissors : Palette := {| main := 0xC0C0C0; light := 0xE8E8E8; dark := 0x808080 |}.
(** [COLORS[type]]; [None] is JavaScript's [undefined]. *)
Definition get (type : string) : option Palette :=
  if String.eqb type "rock" then Some rock
  else if String.eqb type "paper" then Some paper
  else if String.eqb type "scissors" then Some scissors
  else None.
End COLORS.

Module POWERUP_TYPES.
Definition SPEED_BOOST : string := "speed_boost".
Definition INVINCIBILITY : string := "invincibility".
Definition REINFORCEMENT : string := "reinforcement".
Definition MAGNET_AURA : string := "magnet_aura".
Definition SPLIT_FORMATION : string := "split_formation".
Definition CLONE_LEADER : string := "clone_leader".
Definition REVERSE_CONTROL : string := "reverse_control".
End POWERUP_TYPES.

(** [POWERUP_CONFIG[type]]: the fields the simulation reads and the
    icon it hands to the UI. *)
Record PowerUpConfig := {
  duration : option Q;
  multiplier : option Q;
  soldiersToRestore : option Z;
  icon : string
}.

Module POWERUP_CONFIG.
Definition get (type : string) : option PowerUpConfig :=
  if String.eqb type "speed_boost" then
    Some {| duration := Some 5%Q; multiplier := Some (16 # 10)%Q; soldiersToRestore := None;
            icon := "⚡" |}
  else if String.eqb type "invincibility" then
    Some {| duration := Some 4%Q; multiplier := None; soldiersToRestore := None;
            icon := "🛡️" |}
  else if String.eqb type "reinforcement" then
    Some {| duration := None; multiplier := None; soldiersToRestore := Some 2;
            icon := "👥" |}
  else if String.eqb type "magnet_aura" then
    Some {| duration := Some 4%Q; multiplier := None; soldiersToRestore := None;
            icon := "🧲" |}
  else if String.eqb type "split_formation" then
    Some {| duration := Some 2%Q; multiplier := None; soldiersToRestore := None;
            icon := "💫" |}
  else if String.eqb type "clone_leader" then
    Some {| duration := Some 6%Q; multiplier := None; soldiersToRestore := None;
            icon := "👤" |}
  else if String.eqb type "reverse_control" then
    Some {| duration := Some 2%Q; multiplier := None; soldiersToRestore := None;
            icon := "🔄" |}
  else None.
End POWERUP_CONFIG.

(* ===================================================================== *)
(** ** The host environment *)
(* ===================================================================== *)

(** What the browser supplies: the transcendental functions of [Math],
    the clock and the random source.  [random k] is the value of the
    [k]-th call of [Math.random()] made by the operation at hand. *)
Record Host := {
  Math_sqrt : Q -> Q;
  Math_sin : Q -> Q;
  Math_cos : Q -> Q;
  Math_atan2 : Q -> Q -> Q;
  Math_PI : Q;
  Date_now : Z;
  Math_random : nat -> Q;
  (** [String.prototype.charCodeAt(0)] of an id, as a number *)
  charCodeAt0 : string -> Q
}.

(* ===================================================================== *)
(** ** src/game/Soldier.js *)
(* ===================================================================== *)

Record Vector3 := { x : Q; y : Q; z : Q }.

(** The [THREE.Mesh] built by [createTypeModel]: which faction's geometry
    it has, at which size, and its material. *)
Record ModelMesh := {
  geometry : string;
  geometry_size : Q;
  material_color : Z;
  material_emissive : Z;
  material_emissiveIntensity : Q
}.

(** The ring added by [addLeaderGlow]. *)
Record LeaderRing := {
  ring_color : Z;
  ring_opacity : Q;
  ring_rotation_z : Q
}.

Module Soldier.

Record t := {
  type : string;
  isLeader : bool;
  isConverting : bool;
  isDragging : bool;
  id : string;
  position : Vector3;      (* this.mesh.position *)
  rotation_y : Q;          (* this.mesh.rotation.y *)
  scale : Q;               (* this.mesh.scale (uniform) *)
  modelMesh : option ModelMesh;
  leaderRing : option LeaderRing
}.

Definition set_type (v : string) (s : t) : t :=
  {| type := v; isLeader := isLeader s; isConverting := isConverting s;
     isDragging := isDragging s; id := id s; position := position s;
     rotation_y := rotation_y s; scale := scale s;
     modelMesh := modelMesh s; leaderRing := leaderRing s |}.

Definition set_isLeader (v : bool) (s : t) : t :=
  {| type := type s; isLeader := v; isConverting := isConverting s;
     isDragging := isDragging s; id := id s; position := position s;
     rotation_y := rotation_y s; scale := scale s;
     modelMesh := modelMesh s; leaderRing := leaderRing s |}.

Definition set_isConverting (v : bool) (s : t) : t :=
  {| type := type s; isLeader := isLeader s; isConverting := v;
     isDragging := isDragging s; id := id s; position := position s;
     rotation_y := rotation_y s; scale := scale s;
     modelMesh := modelMesh s; leaderRing := leaderRing s |}.

Definition set_position (v : Vector3) (s : t) : t :=
  {| type := type s; isLeader := isLeader s; isConverting := isConverting s;
     isDragging := isDragging s; id := id s; position := v;
     rotation_y := rotation_y s; scale := scale s;
     modelMesh := modelMesh s; leaderRing := leaderRing s |}.

Definition set_rotation_y (v : Q) (s : t) : t :=
  {| type := type s; isLeader := isLeader s; isConverting := isConverting s;
     isDragging := isDragging s; id := id s; position := position s;
     rotation_y := v; scale := scale s;
     modelMesh := modelMesh s; leaderRing := leaderRing s |}.

Definition set_scale (v : Q) (s : t) : t :=
  {| type := type s; isLeader := isLeader s; isConverting := isConverting s;
     isDragging := isDragging s; id := id s; position := position s;
     rotation_y := rotation_y s; scale := v;
     modelMesh := modelMesh s; leaderRing := leaderRing s |}.

Definition set_modelMesh (v : option ModelMesh) (s : t) : t :=
  {| type := type s; isLeader := isLeader s; isConverting := isConverting s;
     isDragging := isDragging s; id := id s; position := position s;
     rotation_y := rotation_y s; scale := scale s;
     modelMesh := v; leaderRing := leaderRing s |}.

Definition set_leaderRing (v : option LeaderRing) (s : t) : t :=
  {| type := type s; isLeader := isLeader s; isConverting := isConverting s;
     isDragging := isDragging s; id := id s; position := position s;
     rotation_y := rotation_y s; scale := scale s;
     modelMesh := modelMesh s; leaderRing := v |}.

(** [COLORS[type].light] / [.main], for the three factions, the only
    types the game makes armies of.  For any other string the source
    raises a [TypeError] at this read; the embedding does not follow
    that exception, and what is stated of the colours below is stated
    for the three factions. *)
Definition colorOf (type : string) (leader : bool) : Z :=
  match COLORS.get type with
  | Some c => if leader then light c else main c
  | None => 0
  end.

(** [createTypeModel(type, size, color)]: the material is new, and a
    new [THREE.MeshStandardMaterial] that is given no emissive colour
    has black at intensity 1. *)
Definition createTypeModel (type : string) (size : Q) (color : Z) : ModelMesh :=
  {| geometry := type; geometry_size := size; material_color := color;
     material_emissive := 0; material_emissiveIntensity := 1%Q |}.

Definition sizeOf (leader : bool) : Q :=
  if leader then GAME_CONFIG.LEADER_SIZE else GAME_CONFIG.SOLDIER_SIZE.

(** [new Soldier(scene, type, isLeader, id)], for a caller that passes
    an id (both callers in Army.js do). *)
Definition new (type : string) (isLeader : bool) (id : string) : t :=
  {| type := type; isLeader := isLeader; isConverting := false;
     isDragging := false; id := id;
     position := {| x := 0%Q; y := 0%Q; z := 0%Q |};
     rotation_y := 0%Q; scale := 1%Q;
     modelMesh := Some (createTypeModel type (sizeOf isLeader) (colorOf type isLeader));
     leaderRing :=
       if isLeader
       then Some {| ring_color := colorOf type true; ring_opacity := (6 # 10)%Q;
                    ring_rotation_z := 0%Q |}
       else None |}.

Definition setPosition (px py pz : Q) (s : t) : t :=
  set_position {| x := px; y := py; z := pz |} s.

Definition getPosition (s : t) : Vector3 := position s.

(** [update(delta)]: the bobbing animation and the ring pulse. *)
Definition update (host : Host) (delta : Q) (s : t) : t :=
  let time := (inject_Z (Date_now host) * (3 # 1000))%Q in
  let bobHeight := if isLeader s then (15 # 100)%Q else (8 # 100)%Q in
  let baseY := (GAME_CONFIG.SOLDIER_SIZE * (15 # 10))%Q in
  let p := position s in
  let s1 :=
    set_position
      {| x := x p;
         y := (baseY + Math_sin host (time + charCodeAt0 host (id s)) * bobHeight)%Q;
         z := z p |} s in
  match leaderRing s1 with
  | Some r =>
      set_leaderRing
        (Some {| ring_color := ring_color r;
                 ring_opacity := ((4 # 10) + Math_sin host (time * 2) * (2 # 10))%Q;
                 ring_rotation_z := (ring_rotation_z r + delta * (5 # 10))%Q |}) s1
  | None => s1
  end.

(** [changeType(newType)]: the faction tag is overwritten and the model
    rebuilt for the new faction; the ring, when there is one, is
    recoloured. *)
Definition changeType (newType : string) (s : t) : t :=
  let s1 := set_type newType s in
  let size := sizeOf (isLeader s1) in
  let color := colorOf newType (isLeader s1) in
  let s2 := set_modelMesh (Some (createTypeModel newType size color)) s1 in
  match leaderRing s2 with
  | Some r =>
      set_leaderRing
        (Some {| ring_color := colorOf newType true; ring_opacity := ring_opacity r;
                 ring_rotation_z := ring_rotation_z r |}) s2
  | None => s2
  end.

End Soldier.

(** The object store: a soldier object is named by its index. *)
Abbreviation ref := nat (only parsing).
Abbreviation Heap := (list Soldier.t) (only parsing).

(** [new Soldier(...)] allocates a fresh object. *)
Definition alloc (s : Soldier.t) (h : Heap) : ref * Heap := (length h, h ++ [s]).

(** In-place mutation of the object behind a reference. *)
Definition modify (r : ref) (f : Soldier.t -> Soldier.t) (h : Heap) : Heap :=
  match h !! r with
  | Some s => <[r := f s]> h
  | None => h
  end.

(** [roster.find(s => s.id === id)]: the first soldier of the roster
    that carries this id. *)
Definition findById (h : Heap) (id : string) (roster : list ref) : option ref :=
  List.find
    (fun r => match h !! r with
              | Some s => String.eqb (Soldier.id s) id
              | None => false
              end)
    roster.

(** Reading a boolean property through a reference. *)
Definition readb (f : Soldier.t -> bool) (h : Heap) (r : ref) : bool :=
  match h !! r with
  | Some s => f s
  | None => false
  end.

(* ===================================================================== *)
(** ** JavaScript [Map] with string keys *)
(* ===================================================================== *)

Module JsMap.
Section Ops.
Context {V : Type}.

Definition t := list (string * V).

Definition empty : t := [].

Fixpoint get (k : string) (m : t) : option V :=
  match m with
  | [] => None
  | (k', v) :: m' => if String.eqb k k' then Some v else get k m'
  end.

Definition has (k : string) (m : t) : bool :=
  match get k m with Some _ => true | None => false end.

(** [set] overwrites the value of a present key where it stands and
    appends an absent one. *)
Fixpoint set (k : string) (v : V) (m : t) : t :=
  match m with
  | [] => [(k, v)]
  | (k', v') :: m' =>
      if String.eqb k k' then (k', v) :: m' else (k', v') :: set k v m'
  end.

Definition entries (m : t) : list (string * V) := m.
Definition keys (m : t) : list string := map fst m.
Definition values (m : t) : list V := map snd m.
End Ops.
Arguments t : clear implicits.
End JsMap.

(* ===================================================================== *)
(** ** Rational comparisons as the source writes them *)
(* ===================================================================== *)

Definition Qltb (a b : Q) : bool := negb (Qle_bool b a).
Definition Qgtb (a b : Q) : bool := Qltb b a.
Definition Qneq0 (a : Q) : bool := negb (Qeq_bool a 0).

(** [String.prototype.toLowerCase] on ASCII.  A character outside ASCII
    is left as it is; the source would map some of them to other
    characters outside ASCII, which this embedding never compares. *)
Definition downcase (c : ascii) : ascii :=
  let n := nat_of_ascii c in
  if Nat.leb 65 n && Nat.leb n 90 then ascii_of_nat (n + 32) else c.

Fixpoint toLowerCase (s : string) : string :=
  match s with
  | EmptyString => EmptyString
  | String c s' => String (downcase c) (toLowerCase s')
  end.

(** [{ x, z }] objects: movement input, 2D points. *)
Record Input := { input_x : Q; input_z : Q }.

(* ===================================================================== *)
(** ** src/game/Arena.js *)
(* ===================================================================== *)

Record Bounds := { minX : Q; maxX : Q; minZ : Q; maxZ : Q }.

Record Zone := {
  center_x : Q;
  center_y : Q;
  radius : Q;
  zone_multiplier : Q   (* slowMultiplier or speedMultiplier *)
}.

Record Rect := { rect_x : Q; rect_z : Q; width : Q; height : Q }.

(** The answer of [checkWallCollision]. *)
Record Collision := { collision : bool; pushX : Q; pushZ : Q }.

Module Arena.

Record t := {
  walls : list Bounds;
  slowZones : list Zone;
  speedZones : list Zone;
  spawnZones : JsMap.t Rect;
  neutralZone : Rect
}.

Definition wallBounds (wx wz w d : Q) : Bounds :=
  {| minX := (wx - w / 2)%Q; maxX := (wx + w / 2)%Q;
     minZ := (wz - d / 2)%Q; maxZ := (wz + d / 2)%Q |}.

(** [create()]: spawn zones, the four inner walls, the zones, then the
    four boundary walls, in this order. *)
Definition create : t :=
  let W := GAME_CONFIG.ARENA_WIDTH in
  let H := GAME_CONFIG.ARENA_HEIGHT in
  let thickness := (5 # 10)%Q in
  {| spawnZones :=
       [ (SOLDIER_TYPES.ROCK,
          {| rect_x := (- W / 3)%Q; rect_z := (H / 3 - 1)%Q; width := 10%Q; height := 8%Q |});
         (SOLDIER_TYPES.PAPER,
          {| rect_x := (W / 3)%Q; rect_z := (H / 3 - 1)%Q; width := 10%Q; height := 8%Q |});
         (SOLDIER_TYPES.SCISSORS,
          {| rect_x := 0%Q; rect_z := (- H / 3 + 1)%Q; width := 10%Q; height := 8%Q |}) ];
     neutralZone := {| rect_x := 0%Q; rect_z := 0%Q; width := 8%Q; height := 8%Q |};
     walls :=
       [ wallBounds (-5)%Q 0%Q (15 # 10)%Q 4%Q;
         wallBounds 5%Q 0%Q (15 # 10)%Q 4%Q;
         wallBounds 0%Q 5%Q 4%Q (15 # 10)%Q;
         wallBounds 0%Q (-5)%Q 4%Q (15 # 10)%Q;
         wallBounds 0%Q (- H / 2 - thickness / 2)%Q (W + thickness * 2)%Q thickness;
         wallBounds 0%Q (H / 2 + thickness / 2)%Q (W + thickness * 2)%Q thickness;
         wallBounds (- W / 2 - thickness / 2)%Q 0%Q thickness H;
         wallBounds (W / 2 + thickness / 2)%Q 0%Q thickness H ];
     slowZones :=
       [ {| center_x := (- W / 5)%Q; center_y := 0%Q; radius := 2%Q; zone_multiplier := (5 # 10)%Q |};
         {| center_x := (W / 5)%Q; center_y := 0%Q; radius := 2%Q; zone_multiplier := (5 # 10)%Q |} ];
     speedZones :=
       [ {| center_x := (- W / 3)%Q; center_y := (- H / 4)%Q; radius := 2%Q; zone_multiplier := (15 # 10)%Q |};
         {| center_x := (W / 3)%Q; center_y := (- H / 4)%Q; radius := 2%Q; zone_multiplier := (15 # 10)%Q |} ] |}.

Definition getSpawnZone (type : string) (a : t) : option Rect :=
  JsMap.get type (spawnZones a).

Definition inRect (px pz : Q) (zone : Rect) : bool :=
  Qle_bool (rect_x zone - width zone / 2) px &&
  Qle_bool px (rect_x zone + width zone / 2) &&
  Qle_bool (rect_z zone - height zone / 2) pz &&
  Qle_bool pz (rect_z zone + height zone / 2).

Definition isInNeutralZone (px pz : Q) (a : t) : bool :=
  inRect px pz (neutralZone a).

(** The loop of [checkWallCollision] over the remaining walls. *)
Fixpoint checkWalls (px pz r : Q) (ws : list Bounds) : Collision :=
  match ws with
  | [] => {| collision := false; pushX := 0%Q; pushZ := 0%Q |}
  | bounds :: ws' =>
      let closestX := Qmax (minX bounds) (Qmin px (maxX bounds)) in
      let closestZ := Qmax (minZ bounds) (Qmin pz (maxZ bounds)) in
      let distX := (px - closestX)%Q in
      let distZ := (pz - closestZ)%Q in
      let distSquared := (distX * distX + distZ * distZ)%Q in
      if Qltb distSquared (r * r)
      then {| collision := true; pushX := distX; pushZ := distZ |}
      else checkWalls px pz r ws'
  end.

Definition checkWallCollision (px pz r : Q) (a : t) : Collision :=
  checkWalls px pz r (walls a).

(** The first zone of the list that contains the point, if any. *)
Fixpoint zoneAt (host : Host) (px pz : Q) (zs : list Zone) : option Q :=
  match zs with
  | [] => None
  | zone :: zs' =>
      let dx := (px - center_x zone)%Q in
      let dz := (pz - center_y zone)%Q in
      let dist := Math_sqrt host (dx * dx + dz * dz)%Q in
      if Qltb dist (radius zone) then Some (zone_multiplier zone)
      else zoneAt host px pz zs'
  end.

(** Speed zones are looked at before slow zones. *)
Definition getSlowMultiplier (host : Host) (px pz : Q) (a : t) : Q :=
  match zoneAt host px pz (speedZones a) with
  | Some m => m
  | None =>
      match zoneAt host px pz (slowZones a) with
      | Some m => m
      | None => 1%Q
      end
  end.

(** [isInSpawnZone(x, z, type)]; a type without a spawn zone makes the
    source read a field of [undefined], a [TypeError] ([None]). *)
Definition isInSpawnZone (px pz : Q) (type : string) (a : t) : option bool :=
  inRect px pz <$> getSpawnZone type a.

(** The loop of [getRandomPowerUpPosition]: [attempts] more tries, the
    next draw being number [k]; the centre of the arena when none is
    left. *)
Fixpoint samplePosition (host : Host) (attempts k : nat) (a : t) : Input :=
  match attempts with
  | O => {| input_x := 0%Q; input_z := 0%Q |}
  | S attempts' =>
      let margin := 3%Q in
      let px := ((Math_random host k - (5 # 10)) * (GAME_CONFIG.ARENA_WIDTH - margin * 2))%Q in
      let pz := ((Math_random host (S k) - (5 # 10)) * (GAME_CONFIG.ARENA_HEIGHT - margin * 2))%Q in
      if negb (collision (checkWallCollision px pz (15 # 10)%Q a))
      then {| input_x := px; input_z := pz |}
      else samplePosition host attempts' (S (S k)) a
  end.

(** [getRandomPowerUpPosition()] *)
Definition getRandomPowerUpPosition (host : Host) (a : t) : Input :=
  samplePosition host 20 0 a.

(** The number of [Math.random()] calls the same loop makes. *)
Fixpoint sampleDraws (host : Host) (attempts k : nat) (a : t) : nat :=
  match attempts with
  | O => O
  | S attempts' =>
      let margin := 3%Q in
      let px := ((Math_random host k - (5 # 10)) * (GAME_CONFIG.ARENA_WIDTH - margin * 2))%Q in
      let pz := ((Math_random host (S k) - (5 # 10)) * (GAME_CONFIG.ARENA_HEIGHT - margin * 2))%Q in
      if negb (collision (checkWallCollision px pz (15 # 10)%Q a))
      then 2%nat
      else S (S (sampleDraws host attempts' (S (S k)) a))
  end.

End Arena.

(* ===================================================================== *)
(** ** src/game/Army.js *)
(* ===================================================================== *)

(** What a pending [setTimeout] of a power-up will undo. *)
Inductive TimerAction := ResetSpeed | ResetInvincible | ResetReversed | ResetMagnet.

(** [Array.prototype.indexOf] on a roster: the first position holding
    this very object. *)
Fixpoint indexOf (r : ref) (l : list ref) : option nat :=
  match l with
  | [] => None
  | r' :: l' => if Nat.eqb r' r then Some O else S <$> indexOf r l'
  end.

(** [Math.max(lo, Math.min(hi, v))] *)
Definition clamp (lo hi v : Q) : Q := Qmax lo (Qmin hi v).

Module Army.

Record t := {
  type : string;
  isLocal : bool;
  soldiers : list ref;
  leader : option ref;
  isInvincible : bool;
  speedMultiplier : Q;
  isReversed : bool;
  magnetActive : bool;
  maxSoldiers : Z;
  aiWanderDir : Input;
  spawnCounter : Z;
  timers : list (Q * TimerAction)   (* pending setTimeout(callback, ms) *)
}.

Definition set_soldiers (v : list ref) (a : t) : t :=
  {| type := type a; isLocal := isLocal a; soldiers := v; leader := leader a;
     isInvincible := isInvincible a; speedMultiplier := speedMultiplier a;
     isReversed := isReversed a; magnetActive := magnetActive a;
     maxSoldiers := maxSoldiers a; aiWanderDir := aiWanderDir a;
     spawnCounter := spawnCounter a; timers := timers a |}.

Definition set_leader (v : option ref) (a : t) : t :=
  {| type := type a; isLocal := isLocal a; soldiers := soldiers a; leader := v;
     isInvincible := isInvincible a; speedMultiplier := speedMultiplier a;
     isReversed := isReversed a; magnetActive := magnetActive a;
     maxSoldiers := maxSoldiers a; aiWanderDir := aiWanderDir a;
     spawnCounter := spawnCounter a; timers := timers a |}.

Definition set_isInvincible (v : bool) (a : t) : t :=
  {| type := type a; isLocal := isLocal a; soldiers := soldiers a; leader := leader a;
     isInvincible := v; speedMultiplier := speedMultiplier a;
     isReversed := isReversed a; magnetActive := magnetActive a;
     maxSoldiers := maxSoldiers a; aiWanderDir := aiWanderDir a;
     spawnCounter := spawnCounter a; timers := timers a |}.

Definition set_speedMultiplier (v : Q) (a : t) : t :=
  {| type := type a; isLocal := isLocal a; soldiers := soldiers a; leader := leader a;
     isInvincible := isInvincible a; speedMultiplier := v;
     isReversed := isReversed a; magnetActive := magnetActive a;
     maxSoldiers := maxSoldiers a; aiWanderDir := aiWanderDir a;
     spawnCounter := spawnCounter a; timers := timers a |}.

Definition set_isReversed (v : bool) (a : t) : t :=
  {| type := type a; isLocal := isLocal a; soldiers := soldiers a; leader := leader a;
     isInvincible := isInvincible a; speedMultiplier := speedMultiplier a;
     isReversed := v; magnetActive := magnetActive a;
     maxSoldiers := maxSoldiers a; aiWanderDir := aiWanderDir a;
     spawnCounter := spawnCounter a; timers := timers a |}.

Definition set_magnetActive (v : bool) (a : t) : t :=
  {| type := type a; isLocal := isLocal a; soldiers := soldiers a; leader := leader a;
     isInvincible := isInvincible a; speedMultiplier := speedMultiplier a;
     isReversed := isReversed a; magnetActive := v;
     maxSoldiers := maxSoldiers a; aiWanderDir := aiWanderDir a;
     spawnCounter := spawnCounter a; timers := timers a |}.

Definition set_aiWanderDir (v : Input) (a : t) : t :=
  {| type := type a; isLocal := isLocal a; soldiers := soldiers a; leader := leader a;
     isInvincible := isInvincible a; speedMultiplier := speedMultiplier a;
     isReversed := isReversed a; magnetActive := magnetActive a;
     maxSoldiers := maxSoldiers a; aiWanderDir := v;
     spawnCounter := spawnCounter a; timers := timers a |}.

Definition set_spawnCounter (v : Z) (a : t) : t :=
  {| type := type a; isLocal := isLocal a; soldiers := soldiers a; leader := leader a;
     isInvincible := isInvincible a; speedMultiplier := speedMultiplier a;
     isReversed := isReversed a; magnetActive := magnetActive a;
     maxSoldiers := maxSoldiers a; aiWanderDir := aiWanderDir a;
     spawnCounter := v; timers := timers a |}.

Definition set_timers (v : list (Q * TimerAction)) (a : t) : t :=
  {| type := type a; isLocal := isLocal a; soldiers := soldiers a; leader := leader a;
     isInvincible := isInvincible a; speedMultiplier := speedMultiplier a;
     isReversed := isReversed a; magnetActive := magnetActive a;
     maxSoldiers := maxSoldiers a; aiWanderDir := aiWanderDir a;
     spawnCounter := spawnCounter a; timers := v |}.

(** The [for] loop of [createSoldiers]: the regular soldiers, with ids
    [type_0], [type_1], ... taken from [spawnCounter]. *)
Fixpoint createRegulars (n : nat) (a : t) (h : Heap) : t * Heap :=
  match n with
  | O => (a, h)
  | S n' =>
      let id := String.append (type a) (String.append "_" (pretty (spawnCounter a))) in
      let a1 := set_spawnCounter (spawnCounter a + 1) a in
      let '(r, h1) := alloc (Soldier.new (type a) false id) h in
      createRegulars n' (set_soldiers (soldiers a1 ++ [r]) a1) h1
  end.

(** [createSoldiers()], the definition in force (the later one of the
    class body): the leader first, then the regular soldiers. *)
Definition createSoldiers (a : t) (h : Heap) : t * Heap :=
  let a0 := set_spawnCounter 0 a in
  let leaderId := String.append (type a0) "_LEADER" in
  let '(l, h1) := alloc (Soldier.new (type a0) true leaderId) h in
  let a1 := set_soldiers (soldiers a0 ++ [l]) (set_leader (Some l) a0) in
  createRegulars (Z.to_nat (GAME_CONFIG.SOLDIERS_PER_ARMY - 1)) a1 h1.

(** [new Army(scene, type, isLocal, arena)] *)
Definition new (type : string) (isLocal : bool) (h : Heap) : t * Heap :=
  createSoldiers
    {| type := type; isLocal := isLocal; soldiers := []; leader := None;
       isInvincible := false; speedMultiplier := 1%Q; isReversed := false;
       magnetActive := false; maxSoldiers := GAME_CONFIG.SOLDIERS_PER_ARMY;
       aiWanderDir := {| input_x := 0%Q; input_z := 0%Q |};
       spawnCounter := 0; timers := [] |} h.

(** Wall collision (axis-locked slide) and the arena bounds, shared by
    [moveLeader] and [updateFollowers]: from the current position
    [(cx, cz)] and the wanted one to the position taken. *)
Definition resolveMove (arena : Arena.t) (cx cz newX newZ : Q) : Q * Q :=
  let c := Arena.checkWallCollision newX newZ GAME_CONFIG.SOLDIER_COLLISION_RADIUS arena in
  let '(newX, newZ) :=
    if collision c
    then if Qgtb (Qabs (pushX c)) (Qabs (pushZ c)) then (cx, newZ) else (newX, cz)
    else (newX, newZ) in
  let margin := GAME_CONFIG.SOLDIER_COLLISION_RADIUS in
  (clamp (- GAME_CONFIG.ARENA_WIDTH / 2 + margin) (GAME_CONFIG.ARENA_WIDTH / 2 - margin) newX,
   clamp (- GAME_CONFIG.ARENA_HEIGHT / 2 + margin) (GAME_CONFIG.ARENA_HEIGHT / 2 - margin) newZ).

Definition moveTo (host : Host) (newX newZ dirX dirZ : Q) (s : Soldier.t) : Soldier.t :=
  let p := Soldier.position s in
  let s1 := Soldier.set_position {| x := newX; y := y p; z := newZ |} s in
  if Qneq0 dirX || Qneq0 dirZ
  then Soldier.set_rotation_y (Math_atan2 host dirX dirZ) s1
  else s1.

Definition moveLeader (host : Host) (delta inputX inputZ speed : Q)
    (arena : Arena.t) (a : t) (h : Heap) : Heap :=
  match leader a with
  | None => h
  | Some l =>
      match h !! l with
      | None => h
      | Some s =>
          let movement := (speed * delta)%Q in
          let p := Soldier.position s in
          let newX := (x p + inputX * movement)%Q in
          let newZ := (z p + inputZ * movement)%Q in
          let '(newX, newZ) := resolveMove arena (x p) (z p) newX newZ in
          <[l := moveTo host newX newZ inputX inputZ s]> h
      end
  end.

(** One step of the [forEach] of [updateFollowers]: [soldier] chases
    [target], read at its position of this very moment. *)
Definition follow (host : Host) (speed : Q) (arena : Arena.t)
    (target : option ref) (soldier : ref) (h : Heap) : Heap :=
  match target with
  | None => h
  | Some tr =>
      match h !! tr, h !! soldier with
      | Some tg, Some s =>
          let targetPos := Soldier.position tg in
          let currentPos := Soldier.position s in
          let dx := (x targetPos - x currentPos)%Q in
          let dz := (z targetPos - z currentPos)%Q in
          let distance := Math_sqrt host (dx * dx + dz * dz)%Q in
          if Qgtb distance GAME_CONFIG.FOLLOW_DISTANCE then
            let moveSpeed :=
              (speed * GAME_CONFIG.FOLLOW_SMOOTHING
               * (1 + (distance - GAME_CONFIG.FOLLOW_DISTANCE)))%Q in
            let newX := (x currentPos + (dx / distance) * moveSpeed)%Q in
            let newZ := (z currentPos + (dz / distance) * moveSpeed)%Q in
            let '(newX, newZ) := resolveMove arena (x currentPos) (z currentPos) newX newZ in
            <[soldier := moveTo host newX newZ dx dz s]> h
          else h
      | _, _ => h
      end
  end.

(** The [forEach] itself: the first follower chases the leader, each
    other one the follower before it. *)
Fixpoint followChain (host : Host) (speed : Q) (arena : Arena.t)
    (target : option ref) (followers : list ref) (h : Heap) : Heap :=
  match followers with
  | [] => h
  | soldier :: rest =>
      followChain host speed arena (Some soldier) rest
        (follow host speed arena target soldier h)
  end.

Definition updateFollowers (host : Host) (delta speed : Q) (arena : Arena.t)
    (a : t) (h : Heap) : Heap :=
  let followers := List.filter (fun r => negb (readb Soldier.isLeader h r)) (soldiers a) in
  followChain host speed arena (leader a) followers h.

(** [this.soldiers.forEach(soldier => soldier.update(delta))] *)
Definition animate (host : Host) (delta : Q) (a : t) (h : Heap) : Heap :=
  fold_left (fun h r => modify r (Soldier.update host delta) h) (soldiers a) h.

(** [update(delta, input, arena)]; a [null] or [undefined] input is
    [None]. *)
Definition update (host : Host) (delta : Q) (input : option Input)
    (arena : Arena.t) (a : t) (h : Heap) : t * Heap :=
  match input with
  | None => (a, h)
  | Some input =>
      if Nat.eqb (length (soldiers a)) 0 then (a, h)
      else
        let baseSpeed := GAME_CONFIG.SOLDIER_BASE_SPEED in
        let sizePenalty :=
          (1 - inject_Z (Z.max 0 (Z.of_nat (length (soldiers a)) - GAME_CONFIG.SOLDIERS_PER_ARMY))
               * GAME_CONFIG.SPEED_PENALTY_PER_SOLDIER)%Q in
        let speedMult := Qmax sizePenalty GAME_CONFIG.MIN_SPEED_MULTIPLIER in
        let leaderPos :=
          match leader a ≫= (fun l => h !! l) with
          | Some s => Soldier.getPosition s
          | None => {| x := 0%Q; y := 0%Q; z := 0%Q |}
          end in
        let zoneMult := Arena.getSlowMultiplier host (x leaderPos) (z leaderPos) arena in
        let finalSpeed := (baseSpeed * speedMult * zoneMult * speedMultiplier a)%Q in
        let moveX := input_x input in
        let moveZ := input_z input in
        let '(moveX, moveZ) :=
          if isReversed a then ((- moveX)%Q, (- moveZ)%Q) else (moveX, moveZ) in
        let h1 := moveLeader host delta moveX moveZ finalSpeed arena a h in
        let h2 := updateFollowers host delta finalSpeed arena a h1 in
        (a, animate host delta a h2)
  end.

(** [updatePlacement(delta)] *)
Definition updatePlacement (host : Host) (delta : Q) (a : t) (h : Heap) : t * Heap :=
  (a, animate host delta a h).

Definition addSoldier (soldier : ref) (a : t) : t :=
  set_soldiers (soldiers a ++ [soldier]) a.

(** [promoteNewLeader()]: the first soldier of the roster gets the
    flag, the leader size and the light colour of this army. *)
Definition promoteNewLeader (a : t) (h : Heap) : t * Heap :=
  match soldiers a with
  | [] => (set_leader None a, h)
  | newLeader :: _ =>
      let size := (GAME_CONFIG.LEADER_SIZE / GAME_CONFIG.SOLDIER_SIZE)%Q in
      let recolour (s : Soldier.t) :=
        match Soldier.modelMesh s with
        | Some m =>
            Soldier.set_modelMesh
              (Some {| geometry := geometry m; geometry_size := geometry_size m;
                       material_color := Soldier.colorOf (type a) true;
                       material_emissive := material_emissive m;
                       material_emissiveIntensity := material_emissiveIntensity m |}) s
        | None => s
        end in
      (set_leader (Some newLeader) a,
       modify newLeader
         (fun s => recolour (Soldier.set_scale size (Soldier.set_isLeader true s))) h)
  end.

(** [removeSoldier(soldier)]: [splice] at the soldier's index, then the
    two branches on the removed soldier's own flag. *)
Definition removeSoldier (soldier : ref) (a : t) (h : Heap) : t * Heap :=
  match indexOf soldier (soldiers a) with
  | Some index =>
      let a1 := set_soldiers (delete index (soldiers a)) a in
      if readb Soldier.isLeader h soldier && negb (Nat.eqb (length (soldiers a1)) 0)
      then promoteNewLeader a1 h
      else if readb Soldier.isLeader h soldier
      then (set_leader None a1, h)
      else (a1, h)
  | None => (a, h)
  end.

(** Power-up methods: the field is set and a timer armed that resets
    it [duration * 1000] milliseconds later. *)
Definition activateSpeedBoost (duration multiplier : Q) (a : t) : t :=
  let a1 := set_speedMultiplier multiplier a in
  set_timers (timers a1 ++ [((duration * 1000)%Q, ResetSpeed)]) a1.

Definition setEmissive (color : Z) (intensity : Q) (s : Soldier.t) : Soldier.t :=
  match Soldier.modelMesh s with
  | Some m =>
      Soldier.set_modelMesh
        (Some {| geometry := geometry m; geometry_size := geometry_size m;
                 material_color := material_color m;
                 material_emissive := color;
                 material_emissiveIntensity := intensity |}) s
  | None => s
  end.

Definition activateInvincibility (duration : Q) (a : t) (h : Heap) : t * Heap :=
  let a1 := set_isInvincible true a in
  let h1 := fold_left (fun h r => modify r (setEmissive 0xffd700 (5 # 10)%Q) h) (soldiers a1) h in
  (set_timers (timers a1 ++ [((duration * 1000)%Q, ResetInvincible)]) a1, h1).

Definition activateReverseControl (duration : Q) (a : t) : t :=
  let a1 := set_isReversed true a in
  set_timers (timers a1 ++ [((duration * 1000)%Q, ResetReversed)]) a1.

Definition activateMagnet (duration : Q) (a : t) : t :=
  let a1 := set_magnetActive true a in
  set_timers (timers a1 ++ [((duration * 1000)%Q, ResetMagnet)]) a1.

(** The callback of a timer, when it fires. *)
Definition fire (act : TimerAction) (a : t) (h : Heap) : t * Heap :=
  match act with
  | ResetSpeed => (set_speedMultiplier 1%Q a, h)
  | ResetInvincible =>
      (set_isInvincible false a,
       fold_left (fun h r => modify r (setEmissive 0 0%Q) h) (soldiers a) h)
  | ResetReversed => (set_isReversed false a, h)
  | ResetMagnet => (set_magnetActive false a, h)
  end.

(** The body of the [for] loop of [reinforceSoldiers], for the
    iterations [i, i+1, ..., i+n-1]. *)
Fixpoint reinforceLoop (host : Host) (n : nat) (i : nat) (a : t) (h : Heap) : t * Heap :=
  match n with
  | O => (a, h)
  | S n' =>
      let id :=
        String.append (type a)
          (String.append "_R_"
             (String.append (pretty (Date_now host))
                (String.append "_" (pretty (Z.of_nat i))))) in
      let soldier := Soldier.new (type a) false id in
      let soldier :=
        match leader a ≫= (fun l => h !! l) with
        | Some ld =>
            let leaderPos := Soldier.getPosition ld in
            let angle := (Math_random host i * Math_PI host * 2)%Q in
            let dist := (GAME_CONFIG.FOLLOW_DISTANCE * 2)%Q in
            Soldier.setPosition
              (x leaderPos + Math_cos host angle * dist)%Q
              GAME_CONFIG.SOLDIER_SIZE
              (z leaderPos + Math_sin host angle * dist)%Q
              soldier
        | None => soldier
        end in
      let '(r, h1) := alloc soldier h in
      reinforceLoop host n' (S i) (set_soldiers (soldiers a ++ [r]) a) h1
  end.

(** The [others.forEach] of [setSpawnPosition]: soldier number [i] of
    the ring around the centre. *)
Fixpoint placeRing (host : Host) (centerX centerZ spacing angleStep : Q)
    (i : nat) (others : list ref) (h : Heap) : Heap :=
  match others with
  | [] => h
  | soldier :: rest =>
      let angle := (angleStep * inject_Z (Z.of_nat i))%Q in
      let px := (centerX + Math_cos host angle * spacing)%Q in
      let pz := (centerZ + Math_sin host angle * spacing)%Q in
      placeRing host centerX centerZ spacing angleStep (S i) rest
        (modify soldier (Soldier.setPosition px GAME_CONFIG.SOLDIER_SIZE pz) h)
  end.

(** [setSpawnPosition(centerX, centerZ)].  The source dereferences
    [this.leader] without a test; it is called right after
    construction, when the leader exists. *)
Definition setSpawnPosition (host : Host) (centerX centerZ : Q) (a : t) (h : Heap) : Heap :=
  let spacing := (GAME_CONFIG.FOLLOW_DISTANCE * (18 # 10))%Q in
  let h1 :=
    match leader a with
    | Some l => modify l (Soldier.setPosition centerX GAME_CONFIG.SOLDIER_SIZE centerZ) h
    | None => h
    end in
  let others := List.filter (fun r => negb (readb Soldier.isLeader h1 r)) (soldiers a) in
  let angleStep := (Math_PI host * 2 / inject_Z (Z.max (Z.of_nat (length others)) 1))%Q in
  placeRing host centerX centerZ spacing angleStep 0 others h1.

(** [destroy()] *)
Definition destroy (a : t) : t := set_leader None (set_soldiers [] a).

(** [reinforceSoldiers(count)] *)
Definition reinforceSoldiers (host : Host) (count : Z) (a : t) (h : Heap) : t * Heap :=
  let currentCount := Z.of_nat (length (soldiers a)) in
  let toAdd := Z.min count (maxSoldiers a - currentCount) in
  reinforceLoop host (Z.to_nat toAdd) 0 a h.

End Army.

(* ===================================================================== *)
(** ** src/game/PowerUpManager.js (state) and the collaborators *)
(* ===================================================================== *)

(** A [PowerUp] object: its type, where its mesh floats and how it is
    turned, the flag, and the time of its construction.  The shape and
    the glow of the mesh are the renderer's. *)
Record PowerUp := {
  powerUp_type : string;
  powerUp_x : Q;
  powerUp_y : Q;
  powerUp_z : Q;
  powerUp_rotation_y : Q;
  isCollected : bool;
  startTime : Z
}.

Module PowerUpManager.
Record t := {
  powerUps : list PowerUp;
  isSpawning : bool;
  spawnTimer : Q
}.

(** [new PowerUpManager(scene, game)] *)
Definition new : t := {| powerUps := []; isSpawning := false; spawnTimer := 0%Q |}.

Definition startSpawning (m : t) : t :=
  {| powerUps := powerUps m; isSpawning := true;
     spawnTimer := GAME_CONFIG.POWERUP_SPAWN_INTERVAL |}.

Definition stopSpawning (m : t) : t :=
  {| powerUps := []; isSpawning := false; spawnTimer := spawnTimer m |}.

Definition set_powerUps (v : list PowerUp) (m : t) : t :=
  {| powerUps := v; isSpawning := isSpawning m; spawnTimer := spawnTimer m |}.

Definition set_spawnTimer (v : Q) (m : t) : t :=
  {| powerUps := powerUps m; isSpawning := isSpawning m; spawnTimer := v |}.
End PowerUpManager.

(** A call into a collaborator of the simulation (audio, UI, relay), or
    an exception leaving the running handler. *)
Inductive Call :=
| audio_playConvert
| audio_playVictory
| audio_playClick
| audio_playPowerUp
| ui_showPlacementUI
| ui_showMainMenu
| ui_showGameHUD
| ui_showGameOver (winnerType : string) (count : nat)
| ui_updateSoldierCounts (counts : list (string * nat))
| ui_showPowerUpActive (icon : string) (duration : Q)
| scene_addDecoy (px pz duration : Q)
| network_sendConversion (soldierId fromType toType : string)
| TypeError (reading : string).

(** A running [playConversionEffect]: the closure of [convertSoldier]
    waiting for the animation to end.  The armies are kept by their key
    in [game.armies], under which the closure's objects stay registered
    for the whole match. *)
Record Conversion := {
  conv_soldier : ref;
  conv_fromArmy : string;
  conv_toArmy : string;
  conv_startScale : Q
}.

(* ===================================================================== *)
(** ** src/game/Game.js *)
(* ===================================================================== *)

Module Game.

Record t := {
  state : string;
  localPlayerType : option string;
  armies : JsMap.t Army.t;
  heap : Heap;
  arena : option Arena.t;
  powerUpManager : option PowerUpManager.t;
  isSoloTest : bool;
  aiUpdateTimers : JsMap.t Z;     (* faction to the time of its last wander pick *)
  placementTimer : Q;
  isReady : bool;
  keys : JsMap.t bool;            (* this.keys: key name to pressed *)
conversions : list Conversion;  (* conversion animations in flight *)
  randomCalls : nat;              (* Math.random() calls made so far *)
  calls : list Call               (* collaborator calls, oldest first *)
}.

Definition set_state (v : string) (g : t) : t :=
  {| state := v; localPlayerType := localPlayerType g; armies := armies g;
     heap := heap g; arena := arena g; powerUpManager := powerUpManager g;
     isSoloTest := isSoloTest g; aiUpdateTimers := aiUpdateTimers g; placementTimer := placementTimer g;
     isReady := isReady g; keys := keys g; conversions := conversions g;
     randomCalls := randomCalls g; calls := calls g |}.

Definition set_localPlayerType (v : option string) (g : t) : t :=
  {| state := state g; localPlayerType := v; armies := armies g;
     heap := heap g; arena := arena g; powerUpManager := powerUpManager g;
     isSoloTest := isSoloTest g; aiUpdateTimers := aiUpdateTimers g; placementTimer := placementTimer g;
     isReady := isReady g; keys := keys g; conversions := conversions g;
     randomCalls := randomCalls g; calls := calls g |}.

Definition set_armies (v : JsMap.t Army.t) (g : t) : t :=
  {| state := state g; localPlayerType := localPlayerType g; armies := v;
     heap := heap g; arena := arena g; powerUpManager := powerUpManager g;
     isSoloTest := isSoloTest g; aiUpdateTimers := aiUpdateTimers g; placementTimer := placementTimer g;
     isReady := isReady g; keys := keys g; conversions := conversions g;
     randomCalls := randomCalls g; calls := calls g |}.

Definition set_heap (v : Heap) (g : t) : t :=
  {| state := state g; localPlayerType := localPlayerType g; armies := armies g;
     heap := v; arena := arena g; powerUpManager := powerUpManager g;
     isSoloTest := isSoloTest g; aiUpdateTimers := aiUpdateTimers g; placementTimer := placementTimer g;
     isReady := isReady g; keys := keys g; conversions := conversions g;
     randomCalls := randomCalls g; calls := calls g |}.

Definition set_arena (v : option Arena.t) (g : t) : t :=
  {| state := state g; localPlayerType := localPlayerType g; armies := armies g;
     heap := heap g; arena := v; powerUpManager := powerUpManager g;
     isSoloTest := isSoloTest g; aiUpdateTimers := aiUpdateTimers g; placementTimer := placementTimer g;
     isReady := isReady g; keys := keys g; conversions := conversions g;
     randomCalls := randomCalls g; calls := calls g |}.

Definition set_powerUpManager (v : option PowerUpManager.t) (g : t) : t :=
  {| state := state g; localPlayerType := localPlayerType g; armies := armies g;
     heap := heap g; arena := arena g; powerUpManager := v;
     isSoloTest := isSoloTest g; aiUpdateTimers := aiUpdateTimers g; placementTimer := placementTimer g;
     isReady := isReady g; keys := keys g; conversions := conversions g;
     randomCalls := randomCalls g; calls := calls g |}.

Definition set_isSoloTest (v : bool) (g : t) : t :=
  {| state := state g; localPlayerType := localPlayerType g; armies := armies g;
     heap := heap g; arena := arena g; powerUpManager := powerUpManager g;
     isSoloTest := v; aiUpdateTimers := aiUpdateTimers g; placementTimer := placementTimer g;
     isReady := isReady g; keys := keys g; conversions := conversions g;
     randomCalls := randomCalls g; calls := calls g |}.

Definition set_placement (timer : Q) (ready : bool) (g : t) : t :=
  {| state := state g; localPlayerType := localPlayerType g; armies := armies g;
     heap := heap g; arena := arena g; powerUpManager := powerUpManager g;
     isSoloTest := isSoloTest g; aiUpdateTimers := aiUpdateTimers g; placementTimer := timer;
     isReady := ready; keys := keys g; conversions := conversions g;
     randomCalls := randomCalls g; calls := calls g |}.

Definition set_conversions (v : list Conversion) (g : t) : t :=
  {| state := state g; localPlayerType := localPlayerType g; armies := armies g;
     heap := heap g; arena := arena g; powerUpManager := powerUpManager g;
     isSoloTest := isSoloTest g; aiUpdateTimers := aiUpdateTimers g; placementTimer := placementTimer g;
     isReady := isReady g; keys := keys g; conversions := v;
     randomCalls := randomCalls g; calls := calls g |}.

Definition set_randomCalls (v : nat) (g : t) : t :=
  {| state := state g; localPlayerType := localPlayerType g; armies := armies g;
     heap := heap g; arena := arena g; powerUpManager := powerUpManager g;
     isSoloTest := isSoloTest g; aiUpdateTimers := aiUpdateTimers g; placementTimer := placementTimer g;
     isReady := isReady g; keys := keys g; conversions := conversions g;
     randomCalls := v; calls := calls g |}.

Definition set_keys (v : JsMap.t bool) (g : t) : t :=
{| state := state g; localPlayerType := localPlayerType g; armies := armies g;
heap := heap g; arena := arena g; powerUpManager := powerUpManager g;
isSoloTest := isSoloTest g; aiUpdateTimers := aiUpdateTimers g; placementTimer := placementTimer g;
isReady := isReady g; keys := v; conversions := conversions g;
randomCalls := randomCalls g; calls := calls g |}.

(** One more call into a collaborator. *)
Definition call (c : Call) (g : t) : t :=
  {| state := state g; localPlayerType := localPlayerType g; armies := armies g;
     heap := heap g; arena := arena g; powerUpManager := powerUpManager g;
     isSoloTest := isSoloTest g; aiUpdateTimers := aiUpdateTimers g; placementTimer := placementTimer g;
     isReady := isReady g; keys := keys g; conversions := conversions g;
     randomCalls := randomCalls g; calls := calls g ++ [c] |}.

Definition set_aiUpdateTimers (v : JsMap.t Z) (g : t) : t :=
  {| state := state g; localPlayerType := localPlayerType g; armies := armies g;
     heap := heap g; arena := arena g; powerUpManager := powerUpManager g;
     isSoloTest := isSoloTest g; aiUpdateTimers := v; placementTimer := placementTimer g;
     isReady := isReady g; keys := keys g; conversions := conversions g;
     randomCalls := randomCalls g; calls := calls g |}.

(** An exception left the operation that took [g] to [g']: the log
    grew by a [TypeError]. *)
Definition isTypeError (c : Call) : bool :=
  match c with TypeError _ => true | _ => false end.

Definition raised (g g' : t) : bool :=
  existsb isTypeError (drop (length (calls g)) (calls g')).

(** [f(); k()]: the statement after one that raised does not run. *)
Definition andThen (f k : t -> t) (g : t) : t :=
  let g1 := f g in if raised g g1 then g1 else k g1.

(** [list.forEach(body)], which the first exception leaves. *)
Definition forEach {A : Type} (body : A -> t -> t) (l : list A) (g : t) : t :=
  fold_left (fun g1 item => if raised g g1 then g1 else body item g1) l g.

(** [Math.random()] *)
Definition random (host : Host) (g : t) : Q * t :=
  (Math_random host (randomCalls g), set_randomCalls (S (randomCalls g)) g).

(** A method call on the army object registered under [key]: the
    object is mutated where it is, together with the soldiers it
    touches. *)
Definition onArmy (key : string) (f : Army.t -> Heap -> Army.t * Heap) (g : t) : t :=
  match JsMap.get key (armies g) with
  | Some a =>
      let '(a', h') := f a (heap g) in
      set_heap h' (set_armies (JsMap.set key a' (armies g)) g)
  | None => g
  end.

(** The [keys] object of the constructor, and the one [startGame] and
[reset] put in its place, which has no arrow keys. *)
Definition allKeys : JsMap.t bool :=
[("w", false); ("a", false); ("s", false); ("d", false);
 ("arrowup", false); ("arrowleft", false); ("arrowdown", false); ("arrowright", false)].

Definition wasdKeys : JsMap.t bool :=
[("w", false); ("a", false); ("s", false); ("d", false)].

(** The [keydown] and [keyup] listeners, for an event whose [key]
    property is [eventKey]. *)
Definition onKey (eventKey : string) (pressed : bool) (g : t) : t :=
  let key := toLowerCase eventKey in
  if JsMap.has key (keys g) then set_keys (JsMap.set key pressed (keys g)) g else g.

(** [new Game(app)] *)
Definition new : t :=
  {| state := GAME_STATES.MENU; localPlayerType := None; armies := JsMap.empty;
     heap := []; arena := None; powerUpManager := None; isSoloTest := false;
     aiUpdateTimers := JsMap.empty;
     placementTimer := GAME_CONFIG.PLACEMENT_TIME; isReady := false;
     keys := allKeys;
     conversions := []; randomCalls := 0%nat; calls := [] |}.

(** [cleanup()] *)
Definition cleanup (g : t) : t :=
  set_powerUpManager None (set_arena None (set_armies JsMap.empty g)).

(** The body of the [forEach] of [startGame] that creates the army of
    one faction and puts it on its spawn zone. *)
Definition createArmy (host : Host) (playerType : string) (g : t) (type : string) : t :=
  let isLocal := String.eqb type playerType in
  let '(army, h1) := Army.new type isLocal (heap g) in
  let g1 := set_heap h1 (set_armies (JsMap.set type army (armies g)) g) in
  match arena g1 ≫= Arena.getSpawnZone type with
  | Some spawnZone =>
      set_heap (Army.setSpawnPosition host (rect_x spawnZone) (rect_z spawnZone) army (heap g1)) g1
  | None => call (TypeError "spawnZone.x") g1
  end.

(** [startGame(playerType)] *)
Definition startGame (host : Host) (playerType : string) (g : t) : t :=
  let g1 := set_localPlayerType (Some playerType) g in
  let g2 := set_state GAME_STATES.PLACEMENT g1 in
  let g3 := set_keys wasdKeys (set_placement GAME_CONFIG.PLACEMENT_TIME false g2) in
  let g4 := cleanup g3 in
  let g5 := set_arena (Some Arena.create) g4 in
  let g6 := fold_left (createArmy host playerType) SOLDIER_TYPES.values g5 in
  let g7 := set_powerUpManager (Some PowerUpManager.new) g6 in
  call ui_showPlacementUI g7.

(** [startSoloTest()] *)
Definition startSoloTest (host : Host) (g : t) : t :=
  let g1 := set_isSoloTest true g in
  let g2 := set_localPlayerType (Some SOLDIER_TYPES.ROCK) g1 in
  startGame host SOLDIER_TYPES.ROCK g2.

(** [startBattle()] *)
Definition startBattle (g : t) : t :=
  let g1 := set_state GAME_STATES.PLAYING g in
  let g2 := call ui_showGameHUD g1 in
  match powerUpManager g2 with
  | Some m =>
      call audio_playClick (set_powerUpManager (Some (PowerUpManager.startSpawning m)) g2)
  | None => call (TypeError "powerUpManager.startSpawning") g2
  end.

(** [getRPSWinner(type1, type2)]; [null] is [None]. *)
Definition getRPSWinner (type1 type2 : string) : option string :=
  if String.eqb type1 type2 then None
  else if String.eqb type1 SOLDIER_TYPES.ROCK && String.eqb type2 SOLDIER_TYPES.SCISSORS then Some type1
  else if String.eqb type2 SOLDIER_TYPES.ROCK && String.eqb type1 SOLDIER_TYPES.SCISSORS then Some type2
  else if String.eqb type1 SOLDIER_TYPES.SCISSORS && String.eqb type2 SOLDIER_TYPES.PAPER then Some type1
  else if String.eqb type2 SOLDIER_TYPES.SCISSORS && String.eqb type1 SOLDIER_TYPES.PAPER then Some type2
  else if String.eqb type1 SOLDIER_TYPES.PAPER && String.eqb type2 SOLDIER_TYPES.ROCK then Some type1
  else if String.eqb type2 SOLDIER_TYPES.PAPER && String.eqb type1 SOLDIER_TYPES.ROCK then Some type2
  else None.

(** The frame of [playConversionEffect] that [animate()] runs before it
    returns.  The clock still reads [startTime], so [progress] is 0 and
    both sines are [Math.sin(0)], which is 0: the flash is off (black,
    intensity 0) and the scale written is [startScale + 0 * 0.4], the
    scale read a moment before. *)
Definition firstFrame (startScale : Q) (s : Soldier.t) : Soldier.t :=
  Soldier.set_scale startScale (Army.setEmissive 0 0%Q s).

(** [convertSoldier(soldier, fromArmy, toArmy)], up to the point where
    the animation is running: its first frame is drawn, the mutation
    itself waits in [conversions]. *)
Definition convertSoldier (soldier : ref) (fromArmy toArmy : string) (g : t) : t :=
  let g1 := set_heap (modify soldier (Soldier.set_isConverting true) (heap g)) g in
  let g2 := call audio_playConvert g1 in
  let startScale :=
    match heap g2 !! soldier with Some s => Soldier.scale s | None => 1%Q end in
  let g3 := set_heap (modify soldier (firstFrame startScale) (heap g2)) g2 in
  set_conversions
    (conversions g3 ++
       [{| conv_soldier := soldier; conv_fromArmy := fromArmy;
           conv_toArmy := toArmy; conv_startScale := startScale |}]) g3.

(** [army.type] of the army registered under [key]. *)
Definition typeOf (key : string) (g : t) : string :=
  match JsMap.get key (armies g) with
  | Some a => Army.type a
  | None => key
  end.

(** The callback handed to [playConversionEffect]: the move of the
    soldier from one roster to the other. *)
Definition conversionCallback (soldier : ref) (fromArmy toArmy : string) (g : t) : t :=
  let g1 := onArmy fromArmy (Army.removeSoldier soldier) g in
  let g2 := onArmy toArmy (fun a h => (Army.addSoldier soldier a, h)) g1 in
  let g3 := set_heap (modify soldier (Soldier.changeType (typeOf toArmy g2)) (heap g2)) g2 in
  let g4 := set_heap (modify soldier (Soldier.set_isConverting false) (heap g3)) g3 in
  if negb (isSoloTest g4) then
    match heap g4 !! soldier with
    | Some s =>
        call (network_sendConversion (Soldier.id s) (typeOf fromArmy g4) (typeOf toArmy g4)) g4
    | None => g4
    end
  else g4.

(** The last frame of [playConversionEffect]: the scale is restored,
    the flash switched off and the callback run. *)
Definition finishConversion (c : Conversion) (g : t) : t :=
  let g1 :=
    set_heap
      (modify (conv_soldier c)
         (fun s => Army.setEmissive 0 0%Q (Soldier.set_scale (conv_startScale c) s))
         (heap g)) g in
  conversionCallback (conv_soldier c) (conv_fromArmy c) (conv_toArmy c) g1.

(** The oldest running animation ends (all last 400 ms, so they end in
    the order in which they started). *)
Definition conversionEnds (g : t) : t :=
  match conversions g with
  | [] => g
  | c :: rest => finishConversion c (set_conversions rest g)
  end.

(** [handleCollision(soldier1, soldier2, army1, army2)] *)
Definition handleCollision (soldier1 soldier2 : ref) (army1 army2 : string) (g : t) : t :=
  match JsMap.get army1 (armies g), JsMap.get army2 (armies g) with
  | Some a1, Some a2 =>
      if Army.isInvincible a1 || Army.isInvincible a2 then g
      else
        let type1 := Army.type a1 in
        let type2 := Army.type a2 in
        let winner := getRPSWinner type1 type2 in
        if bool_decide (winner = Some type1) then convertSoldier soldier2 army2 army1 g
        else if bool_decide (winner = Some type2) then convertSoldier soldier1 army1 army2 g
        else g
  | _, _ => g
  end.

(** [updateSoldierCounts()] *)
Definition updateSoldierCounts (g : t) : t :=
  call (ui_updateSoldierCounts
          (map (fun '(type, army) => (type, length (Army.soldiers army)))
               (JsMap.entries (armies g)))) g.

(** [endGame(winnerType)] *)
Definition endGame (winnerType : string) (g : t) : t :=
  let g1 := set_state GAME_STATES.ENDED g in
  match powerUpManager g1 with
  | None => call (TypeError "powerUpManager.stopSpawning") g1
  | Some m =>
      let g2 := set_powerUpManager (Some (PowerUpManager.stopSpawning m)) g1 in
      match JsMap.get winnerType (armies g2) with
      | None => call (TypeError "winnerArmy.soldiers") g2
      | Some winnerArmy =>
          call audio_playVictory
            (call (ui_showGameOver winnerType (length (Army.soldiers winnerArmy))) g2)
      end
  end.

(** [reset()] *)
Definition reset (g : t) : t :=
  let g1 := cleanup g in
  let g2 := set_state GAME_STATES.MENU g1 in
  let g3 := set_localPlayerType None g2 in
  call ui_showMainMenu (set_keys wasdKeys (set_isSoloTest false g3)).

(** The [activeArmies] of [checkWinCondition]: the entries of
    [this.armies] whose roster is not empty. *)
Definition activeArmies (g : t) : list (string * Army.t) :=
  List.filter (fun '(type, army) => Nat.ltb 0 (length (Army.soldiers army)))
              (JsMap.entries (armies g)).

(** [checkWinCondition()] *)
Definition checkWinCondition (g : t) : t :=
  if Nat.eqb (length (activeArmies g)) 1 then
    match activeArmies g with
    | (winnerType, _) :: _ => endGame winnerType g
    | [] => g
    end
  else g.

(** [a.distanceTo(b)] of two [THREE.Vector3]. *)
Definition distanceTo (host : Host) (a b : Vector3) : Q :=
  Math_sqrt host
    ((x a - x b) * (x a - x b) + (y a - y b) * (y a - y b) + (z a - z b) * (z a - z b))%Q.

(** The innermost loop body of [checkArmyCollisions]: [soldier1], which
    passed its own test when the loop over [soldiers2] began, against one
    [soldier2]. *)
Definition collideWith (host : Host) (army1 army2 : string) (soldier1 : ref)
    (g : t) (soldier2 : ref) : t :=
  if readb Soldier.isConverting (heap g) soldier2 then g
  else
    match heap g !! soldier1, heap g !! soldier2 with
    | Some s1, Some s2 =>
        let distance := distanceTo host (Soldier.position s1) (Soldier.position s2) in
        let collisionDist := (GAME_CONFIG.SOLDIER_COLLISION_RADIUS * 2)%Q in
        if Qltb distance collisionDist
        then handleCollision soldier1 soldier2 army1 army2 g
        else g
    | _, _ => g
    end.

(** The loop over [soldiers1]: a converting [soldier1] is passed over,
    any other one meets every soldier of [soldiers2]. *)
Definition collideSoldier (host : Host) (army1 army2 : string) (soldiers2 : list ref)
    (g : t) (soldier1 : ref) : t :=
  if readb Soldier.isConverting (heap g) soldier1 then g
  else fold_left (collideWith host army1 army2 soldier1) soldiers2 g.

(** One pair of armies, with the two rosters as copied at this point. *)
Definition collideArmies (host : Host) (army1 : string * Army.t) (g : t)
    (army2 : string * Army.t) : t :=
  fold_left
    (collideSoldier host (fst army1) (fst army2) (Army.soldiers (snd army2)))
    (Army.soldiers (snd army1)) g.

(** The two outer loops: every army with each army after it. *)
Fixpoint collidePairs (host : Host) (armyArray : list (string * Army.t)) (g : t) : t :=
  match armyArray with
  | [] => g
  | army1 :: rest =>
      collidePairs host rest (fold_left (collideArmies host army1) rest g)
  end.

(** [checkArmyCollisions()] *)
Definition checkArmyCollisions (host : Host) (g : t) : t :=
  collidePairs host (JsMap.entries (armies g)) g.

(** [onMouseMove(e)], for the soldier held in [this.draggedSoldier] and
    the point where the ray of the pointer meets the ground plane. *)
Definition onMouseMove (draggedSoldier : option ref) (intersection : Vector3) (g : t) : t :=
  match draggedSoldier with
  | None => g
  | Some soldier =>
      if negb (String.eqb (state g) GAME_STATES.PLACEMENT) then g
      else
        match arena g with
        | None => call (TypeError "arena.getSpawnZone") g
        | Some arena =>
            match localPlayerType g ≫= (fun type => Arena.getSpawnZone type arena) with
            | None => call (TypeError "zone.width") g
            | Some zone =>
                let halfW := (width zone / 2)%Q in
                let halfH := (height zone / 2)%Q in
                let px := Qmax (rect_x zone - halfW + 1)
                               (Qmin (rect_x zone + halfW - 1) (x intersection)) in
                let pz := Qmax (rect_z zone - halfH + 1)
                               (Qmin (rect_z zone + halfH - 1) (z intersection)) in
                if negb (Arena.isInNeutralZone px pz arena)
                then
                  set_heap
                    (modify soldier
                       (fun s =>
                          Soldier.set_position
                            {| x := px; y := y (Soldier.position s); z := pz |} s)
                       (heap g)) g
                else g
            end
        end
  end.

(** The calls of [updatePlacement] into the UI and the audio, in the
    order made; they come before those of [startBattle]. *)
Inductive PlacementCall :=
| ui_updatePlacementTimer (seconds : Z)
| audio_playCountdown (final : bool).

(** [updatePlacement(delta)] *)
Definition updatePlacement (host : Host) (delta : Q) (g : t) : t * list PlacementCall :=
  let g1 := set_placement (placementTimer g - delta)%Q (isReady g) g in
  let shown := [ui_updatePlacementTimer (Qceiling (placementTimer g1))] in
  let beep :=
    if (Qceiling (placementTimer g1) <=? 3)
       && (Qceiling (placementTimer g1 + delta) >? Qceiling (placementTimer g1))
    then [audio_playCountdown (Qle_bool (placementTimer g1) 1)]
    else [] in
  let g2 := if Qle_bool (placementTimer g1) 0 then startBattle g1 else g1 in
  if Qle_bool (placementTimer g1) 0 && negb (bool_decide (is_Some (powerUpManager g1)))
  then (g2, shown ++ beep)   (* the [TypeError] of [startBattle] ends the tick *)
  else
    let g3 :=
      fold_left (fun g type => onArmy type (Army.updatePlacement host delta) g)
                (JsMap.keys (armies g2)) g2 in
    (g3, shown ++ beep).

End Game.

(* ===================================================================== *)
(** ** src/game/PowerUpManager.js (effects) *)
(* ===================================================================== *)

Module PowerUpEffects.

(** [config.duration], [config.multiplier], [config.soldiersToRestore]:
    each case of [applyPowerUp] reads fields its entry of
    [POWERUP_CONFIG] has. *)
Definition durationOf (c : PowerUpConfig) : Q := default 0%Q (duration c).
Definition multiplierOf (c : PowerUpConfig) : Q := default 1%Q (multiplier c).
Definition soldiersToRestoreOf (c : PowerUpConfig) : Z := default 0 (soldiersToRestore c).

(** The random stream as an operation started now sees it. *)
Definition hostFrom (host : Host) (k : nat) : Host :=
  {| Math_sqrt := Math_sqrt host; Math_sin := Math_sin host; Math_cos := Math_cos host;
     Math_atan2 := Math_atan2 host; Math_PI := Math_PI host; Date_now := Date_now host;
     Math_random := fun i => Math_random host (k + i)%nat;
     charCodeAt0 := charCodeAt0 host |}.

(** The inner [forEach] of [applySplitToEnemies] on one soldier. *)
Definition scatter (host : Host) (g : Game.t) (soldier : ref) : Game.t :=
  if readb Soldier.isLeader (Game.heap g) soldier then g
  else
    let '(r, g1) := Game.random host g in
    let angle := (r * Math_PI host * 2)%Q in
    let force := 3%Q in
    Game.set_heap
      (modify soldier
         (fun s =>
            let p := Soldier.position s in
            Soldier.set_position
              {| x := (x p + Math_cos host angle * force)%Q; y := y p;
                 z := (z p + Math_sin host angle * force)%Q |} s)
         (Game.heap g1)) g1.

(** [applySplitToEnemies(army)] *)
Definition applySplitToEnemies (host : Host) (armyType : string) (g : Game.t) : Game.t :=
  fold_left
    (fun g '(type, enemyArmy) =>
       if String.eqb type armyType then g
       else fold_left (scatter host) (Army.soldiers enemyArmy) g)
    (JsMap.entries (Game.armies g)) g.

(** [createCloneLeader(army, duration)]: a decoy for the renderer. *)
Definition createCloneLeader (host : Host) (army : Army.t) (duration : Q) (g : Game.t) : Game.t :=
  match Army.leader army ≫= (fun l => Game.heap g !! l) with
  | None => Game.call (TypeError "army.leader.getPosition") g
  | Some ld =>
      let leaderPos := Soldier.getPosition ld in
      let '(r1, g1) := Game.random host g in
      let '(r2, g2) := Game.random host g1 in
      Game.call
        (scene_addDecoy (x leaderPos + (r1 - (5 # 10)) * 4)%Q
                        (z leaderPos + (r2 - (5 # 10)) * 4)%Q duration) g2
  end.

(** [applyReverseToRandomEnemy(army, duration)] *)
Definition applyReverseToRandomEnemy (host : Host) (armyType : string) (duration : Q)
    (g : Game.t) : Game.t :=
  let enemyTypes :=
    List.filter (fun t => negb (String.eqb t armyType)) (JsMap.keys (Game.armies g)) in
  if Nat.eqb (length enemyTypes) 0 then g
  else
    let '(r, g1) := Game.random host g in
    let index := Z.to_nat (Qfloor (r * inject_Z (Z.of_nat (length enemyTypes)))) in
    match enemyTypes !! index with
    | Some randomType =>
        Game.onArmy randomType
          (fun a h => (Army.activateReverseControl duration a, h)) g1
    | None => g1
    end.

(** [applyPowerUp(type, army)], for the army registered under [key]. *)
Definition applyPowerUp (host : Host) (type : string) (key : string) (g : Game.t) : Game.t :=
  match JsMap.get key (Game.armies g), POWERUP_CONFIG.get type with
  | Some army, Some config =>
      if String.eqb type POWERUP_TYPES.SPEED_BOOST then
        Game.onArmy key
          (fun a h => (Army.activateSpeedBoost (durationOf config) (multiplierOf config) a, h)) g
      else if String.eqb type POWERUP_TYPES.INVINCIBILITY then
        Game.onArmy key (Army.activateInvincibility (durationOf config)) g
      else if String.eqb type POWERUP_TYPES.REINFORCEMENT then
        let g1 :=
          Game.onArmy key
            (Army.reinforceSoldiers (hostFrom host (Game.randomCalls g))
               (soldiersToRestoreOf config)) g in
        let added := (length (Game.heap g1) - length (Game.heap g))%nat in
        match Army.leader army with
        | Some _ => Game.set_randomCalls (Game.randomCalls g1 + added) g1
        | None => g1
        end
      else if String.eqb type POWERUP_TYPES.MAGNET_AURA then
        Game.onArmy key (fun a h => (Army.activateMagnet (durationOf config) a, h)) g
      else if String.eqb type POWERUP_TYPES.SPLIT_FORMATION then
        applySplitToEnemies host (Army.type army) g
      else if String.eqb type POWERUP_TYPES.CLONE_LEADER then
        createCloneLeader host army (durationOf config) g
      else if String.eqb type POWERUP_TYPES.REVERSE_CONTROL then
        applyReverseToRandomEnemy host (Army.type army) (durationOf config) g
      else g
  | _, _ => g
  end.

(** [Object.values(POWERUP_TYPES)] *)
Definition types : list string :=
  [POWERUP_TYPES.SPEED_BOOST; POWERUP_TYPES.INVINCIBILITY; POWERUP_TYPES.REINFORCEMENT;
   POWERUP_TYPES.MAGNET_AURA; POWERUP_TYPES.SPLIT_FORMATION; POWERUP_TYPES.CLONE_LEADER;
   POWERUP_TYPES.REVERSE_CONTROL].

(** [new PowerUp(scene, type, x, z)]; [createMesh] reads the shape of
    the type's entry of [POWERUP_CONFIG], a [TypeError] ([None]) for a
    type that has none. *)
Definition PowerUp_new (host : Host) (type : string) (px pz : Q) : option PowerUp :=
  match POWERUP_CONFIG.get type with
  | None => None
  | Some _ =>
      Some {| powerUp_type := type; powerUp_x := px; powerUp_y := (8 # 10)%Q;
              powerUp_z := pz; powerUp_rotation_y := 0%Q; isCollected := false;
              startTime := Date_now host |}
  end.

(** [PowerUp.update(delta)]: floating and turning. *)
Definition PowerUp_update (host : Host) (delta : Q) (p : PowerUp) : PowerUp :=
  if isCollected p then p
  else
    let time := (inject_Z (Date_now host - startTime p) / 1000)%Q in
    {| powerUp_type := powerUp_type p; powerUp_x := powerUp_x p;
       powerUp_y := ((8 # 10) + Math_sin host (time * (25 # 10)) * (25 # 100))%Q;
       powerUp_z := powerUp_z p;
       powerUp_rotation_y := (powerUp_rotation_y p + delta * (15 # 10))%Q;
       isCollected := isCollected p; startTime := startTime p |}.

(** [PowerUp.collect()]: the flag; the animation that follows changes
    the look of the mesh only. *)
Definition PowerUp_collect (p : PowerUp) : PowerUp :=
  {| powerUp_type := powerUp_type p; powerUp_x := powerUp_x p; powerUp_y := powerUp_y p;
     powerUp_z := powerUp_z p; powerUp_rotation_y := powerUp_rotation_y p;
     isCollected := true; startTime := startTime p |}.

(** A method of the power-up manager of the game that changes the
    manager only. *)
Definition onManager (f : PowerUpManager.t -> PowerUpManager.t) (g : Game.t) : Game.t :=
  match Game.powerUpManager g with
  | Some m => Game.set_powerUpManager (Some (f m)) g
  | None => g
  end.

(** [this.powerUps] *)
Definition powerUpsOf (g : Game.t) : list PowerUp :=
  match Game.powerUpManager g with
  | Some m => PowerUpManager.powerUps m
  | None => []
  end.

(** [spawnPowerUp()] *)
Definition spawnPowerUp (host : Host) (g : Game.t) : Game.t :=
  let '(r, g1) := Game.random host g in
  let index := Qfloor (r * inject_Z (Z.of_nat (length types))) in
  let randomType := if index <? 0 then None else types !! Z.to_nat index in
  match Game.arena g1 with
  | None => Game.call (TypeError "arena.getRandomPowerUpPosition") g1
  | Some arena =>
      let drawing := hostFrom host (Game.randomCalls g1) in
      let position := Arena.getRandomPowerUpPosition drawing arena in
      let g2 :=
        Game.set_randomCalls (Game.randomCalls g1 + Arena.sampleDraws drawing 20 0 arena) g1 in
      match randomType ≫= (fun type => PowerUp_new host type (input_x position) (input_z position)) with
      | None => Game.call (TypeError "config.shape") g2
      | Some powerUp =>
          onManager
            (fun m => PowerUpManager.set_powerUps (PowerUpManager.powerUps m ++ [powerUp]) m) g2
      end
  end.

(** [collectPowerUp(powerUp, army)], for the power-up at index [i] of
    [this.powerUps] and the army registered under [key]; the UI is told
    the icon of the type and [config.duration || 0]. *)
Definition collectPowerUp (host : Host) (i : nat) (key : string) (g : Game.t) : Game.t :=
  match powerUpsOf g !! i with
  | None => g
  | Some powerUp =>
      let type := powerUp_type powerUp in
      let g1 :=
        onManager
          (fun m =>
             PowerUpManager.set_powerUps
               (<[i := PowerUp_collect powerUp]> (PowerUpManager.powerUps m)) m) g in
      let g2 := Game.call audio_playPowerUp g1 in
      Game.andThen (applyPowerUp host type key)
        (fun g3 =>
           match POWERUP_CONFIG.get type with
           | Some config => Game.call (ui_showPowerUpActive (icon config) (durationOf config)) g3
           | None => Game.call (TypeError "config.icon") g3
           end) g2
  end.

(** The body of the innermost [forEach] of [checkCollection]: one
    soldier against one power-up. *)
Definition collectNear (host : Host) (key : string) (soldier : ref) (i : nat)
    (g : Game.t) : Game.t :=
  match powerUpsOf g !! i, Game.heap g !! soldier with
  | Some powerUp, Some s =>
      if isCollected powerUp then g
      else
        let dist :=
          Game.distanceTo host (Soldier.position s)
            {| x := powerUp_x powerUp; y := powerUp_y powerUp; z := powerUp_z powerUp |} in
        if Qltb dist (12 # 10)%Q then collectPowerUp host i key g else g
  | _, _ => g
  end.

(** The two inner loops of [checkCollection] for one army: every
    soldier of its roster as it is when the army's turn comes, against
    every power-up. *)
Definition collectFor (host : Host) (key : string) (g : Game.t) : Game.t :=
  match JsMap.get key (Game.armies g) with
  | None => g
  | Some army =>
      Game.forEach
        (fun soldier g1 =>
           Game.forEach (collectNear host key soldier) (seq 0 (length (powerUpsOf g1))) g1)
        (Army.soldiers army) g
  end.

(** [checkCollection()] *)
Definition checkCollection (host : Host) (g : Game.t) : Game.t :=
  Game.forEach (collectFor host) (JsMap.keys (Game.armies g)) g.

(** The first statements of [update]: the timer runs, and when it has
    run out a power-up is spawned and the timer set again. *)
Definition runSpawnTimer (host : Host) (delta : Q) (g : Game.t) : Game.t :=
  let g1 :=
    onManager
      (fun m => PowerUpManager.set_spawnTimer (PowerUpManager.spawnTimer m - delta)%Q m) g in
  match Game.powerUpManager g1 with
  | None => g1
  | Some m =>
      if Qle_bool (PowerUpManager.spawnTimer m) 0
      then
        Game.andThen (spawnPowerUp host)
          (fun g2 =>
             let '(r, g3) := Game.random host g2 in
             onManager
               (PowerUpManager.set_spawnTimer
                  (GAME_CONFIG.POWERUP_SPAWN_INTERVAL
                   + (r - (5 # 10)) * GAME_CONFIG.POWERUP_SPAWN_VARIANCE * 2)%Q) g3) g1
      else g1
  end.

(** [update(delta)] of the power-up manager of the game; the game that
    has none raises. *)
Definition update (host : Host) (delta : Q) (g : Game.t) : Game.t :=
  match Game.powerUpManager g with
  | None => Game.call (TypeError "powerUpManager.update") g
  | Some m =>
      if negb (PowerUpManager.isSpawning m) then g
      else
        Game.andThen (runSpawnTimer host delta)
          (Game.andThen
             (onManager
                (fun m => PowerUpManager.set_powerUps
                            (map (PowerUp_update host delta) (PowerUpManager.powerUps m)) m))
             (Game.andThen (checkCollection host)
                (onManager
                   (fun m => PowerUpManager.set_powerUps
                               (List.filter (fun p => negb (isCollected p))
                                            (PowerUpManager.powerUps m)) m)))) g
  end.

End PowerUpEffects.

(* ===================================================================== *)
(** ** Strings as the protocol uses them *)
(* ===================================================================== *)

(** [String.prototype.toUpperCase] on the characters a party code can
    hold (ASCII). *)
Definition upcase (c : ascii) : ascii :=
  let n := nat_of_ascii c in
  if Nat.leb 97 n && Nat.leb n 122 then ascii_of_nat (n - 32) else c.

Fixpoint toUpperCase (s : string) : string :=
  match s with
  | EmptyString => EmptyString
  | String c s' => String (upcase c) (toUpperCase s')
  end.

(** [s.substring(start, end)] for [start <= end] *)
Definition js_substring (start stop : nat) (s : string) : string :=
  String.substring start (stop - start) s.

(* ===================================================================== *)
(** ** src/network/NetworkManager.js (cloud relay) *)
(* ===================================================================== *)

(** A value of [this.players]. *)
Record Player := { player_id : string; username : string; connected : bool }.

(** An element of the [players] array of a message. *)
Record PlayerEntry := {
  entry_type : string;
  entry_id : string;
  entry_username : string;
  entry_connected : bool
}.

(** An element of [armyData.soldiers] in a [game_state] message. *)
Record ServerSoldier := {
  server_id : string;
  server_x : Q;
  server_z : Q;
  server_isLeader : bool
}.

Record ArmyData := {
  data_soldiers : list ServerSoldier;
  data_isInvincible : bool;
  data_speedMultiplier : Q
}.

(** The messages of the protocol, by their [type] tag. *)
Inductive Payload :=
| join_request (id username : string)
| player_assigned (targetId playerType : string) (players : list PlayerEntry)
| game_start
| player_input (playerType : option string) (px pz : Q)
| game_state (armies : list (string * ArmyData))   (* Object.entries(data.armies) *)
| conversion (soldierId fromType toType : string)
| game_over (winner : string)
| player_left
| party_full (targetId : string).

(** A message on the relay: [broadcast] stamps the sender on it. *)
Record Message := { fromId : string; payload : Payload }.

Inductive UiCall :=
| showLobby (partyId : option string) (type : option string)
| updatePlayerSlots (slots : list (string * bool * string))
| hideJoinModal
| alert (text : string).

(** [IdentityService.currentUser] *)
Record User := { user_id : string; user_name : string }.

Module NetworkManager.

Record t := {
  isHost : bool;
  partyId : option string;
  localPlayerType : option string;
  syncInterval : bool;                 (* is the host broadcast timer armed *)
  players : JsMap.t Player;
  remoteInputs : JsMap.t Input;
  currentUser : User;                  (* IdentityService.currentUser *)
  channel : option string;             (* the relay channel joined *)
  outbox : list Message;               (* RealtimeService.broadcast, oldest first *)
  ui : list UiCall;                    (* calls into app.ui, oldest first *)
  app_game : option Game.t             (* this.app.game *)
}.

Definition set_role (host : bool) (party : option string) (n : t) : t :=
  {| isHost := host; partyId := party; localPlayerType := localPlayerType n;
     syncInterval := syncInterval n; players := players n;
     remoteInputs := remoteInputs n; currentUser := currentUser n;
     channel := channel n; outbox := outbox n; ui := ui n; app_game := app_game n |}.

Definition set_localPlayerType (v : option string) (n : t) : t :=
  {| isHost := isHost n; partyId := partyId n; localPlayerType := v;
     syncInterval := syncInterval n; players := players n;
     remoteInputs := remoteInputs n; currentUser := currentUser n;
     channel := channel n; outbox := outbox n; ui := ui n; app_game := app_game n |}.

Definition set_syncInterval (v : bool) (n : t) : t :=
  {| isHost := isHost n; partyId := partyId n; localPlayerType := localPlayerType n;
     syncInterval := v; players := players n;
     remoteInputs := remoteInputs n; currentUser := currentUser n;
     channel := channel n; outbox := outbox n; ui := ui n; app_game := app_game n |}.

Definition set_players (v : JsMap.t Player) (n : t) : t :=
  {| isHost := isHost n; partyId := partyId n; localPlayerType := localPlayerType n;
     syncInterval := syncInterval n; players := v;
     remoteInputs := remoteInputs n; currentUser := currentUser n;
     channel := channel n; outbox := outbox n; ui := ui n; app_game := app_game n |}.

Definition set_remoteInputs (v : JsMap.t Input) (n : t) : t :=
  {| isHost := isHost n; partyId := partyId n; localPlayerType := localPlayerType n;
     syncInterval := syncInterval n; players := players n;
     remoteInputs := v; currentUser := currentUser n;
     channel := channel n; outbox := outbox n; ui := ui n; app_game := app_game n |}.

Definition set_channel (v : option string) (n : t) : t :=
  {| isHost := isHost n; partyId := partyId n; localPlayerType := localPlayerType n;
     syncInterval := syncInterval n; players := players n;
     remoteInputs := remoteInputs n; currentUser := currentUser n;
     channel := v; outbox := outbox n; ui := ui n; app_game := app_game n |}.

Definition set_game (v : option Game.t) (n : t) : t :=
  {| isHost := isHost n; partyId := partyId n; localPlayerType := localPlayerType n;
     syncInterval := syncInterval n; players := players n;
     remoteInputs := remoteInputs n; currentUser := currentUser n;
     channel := channel n; outbox := outbox n; ui := ui n; app_game := v |}.

Definition uiCall (c : UiCall) (n : t) : t :=
  {| isHost := isHost n; partyId := partyId n; localPlayerType := localPlayerType n;
     syncInterval := syncInterval n; players := players n;
     remoteInputs := remoteInputs n; currentUser := currentUser n;
     channel := channel n; outbox := outbox n; ui := ui n ++ [c]; app_game := app_game n |}.

(** [new NetworkManager(app)] for the signed-in user, once the
    application has built its [Game]. *)
Definition new (user : User) : t :=
  {| isHost := false; partyId := None; localPlayerType := None;
     syncInterval := false; players := JsMap.empty; remoteInputs := JsMap.empty;
     currentUser := user; channel := None; outbox := []; ui := [];
     app_game := Some Game.new |}.

(** [broadcast(data)]: the sender is added, the relay sends. *)
Definition broadcast (data : Payload) (n : t) : t :=
  {| isHost := isHost n; partyId := partyId n; localPlayerType := localPlayerType n;
     syncInterval := syncInterval n; players := players n;
     remoteInputs := remoteInputs n; currentUser := currentUser n;
     channel := channel n;
     outbox := outbox n ++ [{| fromId := user_id (currentUser n); payload := data |}];
     ui := ui n; app_game := app_game n |}.

(** [generatePartyId()]; [random36] is the string
    [Math.random().toString(36)], for instance ["0.i"] when
    [Math.random()] is 0.5. *)
Definition generatePartyId (random36 : string) : string :=
  toUpperCase (js_substring 2 8 random36).

Definition getNextAvailableType (n : t) : option string :=
  let types := [SOLDIER_TYPES.PAPER; SOLDIER_TYPES.SCISSORS] in
  List.find (fun type => negb (JsMap.has type (players n))) types.

Definition getPlayersArray (n : t) : list PlayerEntry :=
  map (fun '(type, data) =>
         {| entry_type := type; entry_id := player_id data;
            entry_username := username data; entry_connected := connected data |})
      (JsMap.entries (players n)).

Definition syncPlayersFromArray (arr : list PlayerEntry) (n : t) : t :=
  set_players
    (fold_left
       (fun m p =>
          JsMap.set (entry_type p)
            {| player_id := entry_id p; username := entry_username p;
               connected := entry_connected p |} m)
       arr JsMap.empty) n.

Definition updatePlayerList (n : t) : t :=
  let playerArray :=
    map (fun '(type, data) =>
           (type, connected data,
            if String.eqb (player_id data) (user_id (currentUser n)) then "You"
            else if String.eqb (username data) EmptyString then "Friend" else username data))
        (JsMap.entries (players n)) in
  uiCall (updatePlayerSlots playerArray) n.

(** [startHostSync()]: the timer is armed on the host. *)
Definition startHostSync (n : t) : t :=
  if negb (isHost n) then n else set_syncInterval true n.

(** [createParty()] *)
Definition createParty (random36 : string) (n : t) : t :=
  let n1 := set_role true (Some (generatePartyId random36)) n in
  let n2 := set_localPlayerType (Some SOLDIER_TYPES.ROCK) n1 in
  let n3 := set_channel (partyId n2) n2 in
  let n4 :=
    set_players
      (JsMap.set SOLDIER_TYPES.ROCK
         {| player_id := user_id (currentUser n3); username := user_name (currentUser n3);
            connected := true |} (players n3)) n3 in
  let n5 := uiCall (showLobby (partyId n4) (localPlayerType n4)) n4 in
  startHostSync (updatePlayerList n5).

(** [joinParty(partyId)] *)
Definition joinParty (party : string) (n : t) : t :=
  let n1 := set_role false (Some (toUpperCase party)) n in
  let n2 := set_channel (partyId n1) n1 in
  broadcast (join_request (user_id (currentUser n2)) (user_name (currentUser n2))) n2.

(** [sendInput(input)] *)
Definition sendInput (input : Input) (n : t) : t :=
  if isHost n then n
  else
    broadcast (player_input (localPlayerType n) (input_x input) (input_z input)) n.

Definition sendConversion (soldierId fromType toType : string) (n : t) : t :=
  broadcast (conversion soldierId fromType toType) n.

(** [leaveParty()] *)
Definition leaveParty (n : t) : t :=
  let n1 := broadcast player_left n in
  let n2 := set_syncInterval false n1 in
  let n3 := set_channel None n2 in
  let n4 := set_remoteInputs JsMap.empty (set_players JsMap.empty n3) in
  set_role false None n4.

(** The loop of [handlePeerDisconnect]: the first player with this id
    is marked disconnected. *)
Fixpoint disconnect (playerId : string) (m : JsMap.t Player) : option (JsMap.t Player) :=
  match m with
  | [] => None
  | (type, data) :: m' =>
      if String.eqb (player_id data) playerId
      then Some ((type, {| player_id := player_id data; username := username data;
                           connected := false |}) :: m')
      else (fun r => (type, data) :: r) <$> disconnect playerId m'
  end.

Definition handlePeerDisconnect (playerId : string) (n : t) : t :=
  match disconnect playerId (players n) with
  | Some m => updatePlayerList (set_players m n)
  | None => n
  end.

(** [getPlayerInput(type)] *)
Definition getPlayerInput (type : string) (n : t) : Input :=
  default {| input_x := 0%Q; input_z := 0%Q |} (JsMap.get type (remoteInputs n)).

(** [handleHostDisconnect()] *)
Definition handleHostDisconnect (n : t) : t :=
  let n1 := uiCall (alert "Host disconnected! Returning to menu.") n in
  let n2 := leaveParty n1 in
  set_game (Game.reset <$> app_game n2) n2.

(** [Number(v.toFixed(2))]: the nearest hundredth, a tie going away
    from zero. *)
Definition toFixed2 (v : Q) : Q :=
  let n := Qfloor (Qabs v * 100 + (1 # 2))%Q in
  if Qltb v 0 then (inject_Z (- n) / 100)%Q else (inject_Z n / 100)%Q.

(** The callback of the timer of [startHostSync]: the whole state of
    the armies goes out as one [game_state] message. *)
Definition hostSync (n : t) : t :=
  match app_game n with
  | None => n
  | Some game =>
      if negb (String.eqb (Game.state game) "playing") then n
      else
        let armyState (army : Army.t) :=
          {| data_soldiers :=
               omap (fun r =>
                       (fun s =>
                          {| server_id := Soldier.id s;
                             server_x := toFixed2 (x (Soldier.position s));
                             server_z := toFixed2 (z (Soldier.position s));
                             server_isLeader := Soldier.isLeader s |})
                       <$> Game.heap game !! r)
                    (Army.soldiers army);
             data_isInvincible := Army.isInvincible army;
             data_speedMultiplier := Army.speedMultiplier army |} in
        broadcast
          (game_state (map (fun '(type, army) => (type, armyState army))
                           (JsMap.entries (Game.armies game)))) n
  end.

(** [const lerpSpeed = 0.5] *)
Definition lerpSpeed : Q := (5 # 10)%Q.

(** [local += (server - local) * lerpSpeed], in the exact arithmetic of
    this embedding.  The source rounds the difference, the product and
    the sum to doubles; what is stated of this function below is its
    place between [local] and [server], not the exact halving. *)
Definition lerp (local server : Q) : Q := (local + (server - local) * lerpSpeed)%Q.

(** The same statement with each of its three operations rounded by
    [fl], as the doubles of the source round them; [lerp] is
    [lerpRounded] with no rounding. *)
Definition lerpRounded (fl : Q -> Q) (local server : Q) : Q :=
  fl (local + fl (fl (server - local) * lerpSpeed))%Q.

(** The inner [forEach] of [handleGameStateSync]: one soldier of the
    message against the local roster of its army. *)
Definition syncSoldier (army : Army.t) (h : Heap) (serverSoldier : ServerSoldier) : Heap :=
  let soldier := findById h (server_id serverSoldier) (Army.soldiers army) in
  match soldier with
  | Some r =>
      modify r
        (fun s =>
           let p := Soldier.position s in
           Soldier.set_position
             {| x := lerp (x p) (server_x serverSoldier); y := y p;
                z := lerp (z p) (server_z serverSoldier) |} s) h
  | None => h
  end.

(** The outer [forEach]: one army of the message. *)
Definition syncArmy (game : Game.t) (entry : string * ArmyData) : Game.t :=
  let '(type, armyData) := entry in
  match JsMap.get type (Game.armies game) with
  | None => game
  | Some army =>
      let h := fold_left (syncSoldier army) (data_soldiers armyData) (Game.heap game) in
      let army' :=
        Army.set_speedMultiplier (data_speedMultiplier armyData)
          (Army.set_isInvincible (data_isInvincible armyData) army) in
      Game.set_armies (JsMap.set type army' (Game.armies game)) (Game.set_heap h game)
  end.

(** [handleGameStateSync(data)] *)
Definition handleGameStateSync (armies : list (string * ArmyData)) (n : t) : t :=
  if isHost n then n
  else
    match app_game n with
    | None => n
    | Some game =>
        if negb (String.eqb (Game.state game) "playing") then n
        else set_game (Some (fold_left syncArmy armies game)) n
    end.

(** [handleRemoteConversion(data)] *)
Definition handleRemoteConversion (soldierId fromType toType : string) (n : t) : t :=
  match app_game n with
  | None => n
  | Some game =>
      match JsMap.get fromType (Game.armies game), JsMap.get toType (Game.armies game) with
      | Some fromArmy, Some toArmy =>
          let soldier := findById (Game.heap game) soldierId (Army.soldiers fromArmy) in
          match soldier with
          | Some r =>
              if negb (readb Soldier.isConverting (Game.heap game) r)
              then set_game (Some (Game.convertSoldier r fromType toType game)) n
              else n
          | None => n
          end
      | _, _ => n
      end
  end.

(** [handleGameStart(data)]: [Game] has no method [startMatch]. *)
Definition handleGameStart (n : t) : t :=
  set_game (Game.call (TypeError "game.startMatch") <$> app_game n) n.

(** The [join_request] case of [handleMessage]. *)
Definition handleJoinRequest (id username : string) (n : t) : t :=
  if isHost n then
    match getNextAvailableType n with
    | Some assignedType =>
        let n1 :=
          set_players
            (JsMap.set assignedType
               {| player_id := id; username := username; connected := true |}
               (players n)) n in
        let n2 := broadcast (player_assigned id assignedType (getPlayersArray n1)) n1 in
        updatePlayerList n2
    | None => broadcast (party_full id) n
    end
  else n.

(** [handleMessage(data)] *)
Definition handleMessage (data : Message) (n : t) : t :=
  if String.eqb (fromId data) (user_id (currentUser n)) then n
  else
    match payload data with
    | join_request id username => handleJoinRequest id username n
    | player_assigned targetId playerType arr =>
        if String.eqb targetId (user_id (currentUser n)) then
          let n1 := set_localPlayerType (Some playerType) n in
          let n2 := syncPlayersFromArray arr n1 in
          let n3 := uiCall (showLobby (partyId n2) (localPlayerType n2)) n2 in
          updatePlayerList (uiCall hideJoinModal n3)
        else updatePlayerList (syncPlayersFromArray arr n)
    | game_start => handleGameStart n
    | player_input playerType px pz =>
        (* a [null] player type would be a key that no [getPlayerInput] reads *)
        match isHost n, playerType with
        | true, Some type =>
            set_remoteInputs
              (JsMap.set type {| input_x := px; input_z := pz |} (remoteInputs n)) n
        | _, _ => n
        end
    | game_state armies => handleGameStateSync armies n
    | conversion soldierId fromType toType =>
        handleRemoteConversion soldierId fromType toType n
    | game_over winner => set_game (Game.endGame winner <$> app_game n) n
    | player_left => handlePeerDisconnect (fromId data) n
    | party_full targetId =>
        if String.eqb targetId (user_id (currentUser n))
        then leaveParty (uiCall (alert "Party is full!") n)
        else n
    end.

End NetworkManager.

(* ===================================================================== *)
(** ** src/network/NetworkManager.js (PeerJS): the party code *)
(* ===================================================================== *)

Module PeerJS.

Definition chars : string := "ABCDEFGHJKLMNPQRSTUVWXYZ23456789".

(** [chars[Math.floor(Math.random() * chars.length)]]; an index
    outside the string gives [undefined], which [+=] spells out. *)
Definition pick (r : Q) : string :=
  let index := Qfloor (r * inject_Z (Z.of_nat (String.length chars)))%Q in
  if Z.ltb index 0 then "undefined"
  else match String.get (Z.to_nat index) chars with
       | Some c => String c EmptyString
       | None => "undefined"
       end.

(** The loop of [generatePartyId]: [n] more characters, the next draw
    being number [k]. *)
Fixpoint generateLoop (host : Host) (n k : nat) (id : string) : string :=
  match n with
  | O => id
  | S n' => generateLoop host n' (S k) (String.append id (pick (Math_random host k)))
  end.

(** [generatePartyId()] *)
Definition generatePartyId (host : Host) : string := generateLoop host 6 0 EmptyString.

End PeerJS.

(* ===================================================================== *)
(** ** src/game/Game.js: the tick of a client *)
(* ===================================================================== *)

Module Client.

(** [this.keys.w]: a key the map does not hold reads [undefined]. *)
Definition keyDown (key : string) (g : Game.t) : bool :=
  default false (JsMap.get key (Game.keys g)).

(** The [movement] object of [updateClient] (and of [updateHost]) once
    the keys are read and a diagonal is normalised. *)
Definition movement (host : Host) (g : Game.t) : Input :=
  let mz := 0%Q in
  let mx := 0%Q in
  let mz := if keyDown "w" g || keyDown "arrowup" g then (mz - 1)%Q else mz in
  let mz := if keyDown "s" g || keyDown "arrowdown" g then (mz + 1)%Q else mz in
  let mx := if keyDown "a" g || keyDown "arrowleft" g then (mx - 1)%Q else mx in
  let mx := if keyDown "d" g || keyDown "arrowright" g then (mx + 1)%Q else mx in
  if Qneq0 mx && Qneq0 mz
  then
    let length := Math_sqrt host (mx * mx + mz * mz)%Q in
    {| input_x := (mx / length)%Q; input_z := (mz / length)%Q |}
  else {| input_x := mx; input_z := mz |}.

(** [!localArmy || localArmy.soldiers.length === 0] *)
Definition isEliminated (g : Game.t) : bool :=
  match Game.localPlayerType g ≫= (fun type => JsMap.get type (Game.armies g)) with
  | Some localArmy => Nat.eqb (length (Army.soldiers localArmy)) 0
  | None => true
  end.

(** [updateClient(delta)], on the application (network manager and
    game); [lastInputTime] is the field of this name, [None] while it is
    [undefined], and the second component is its value afterwards.  The
    loop over the armies runs [soldier.update(delta)] on every soldier of
    every roster, which is the body of [Army.updatePlacement]. *)
Definition updateClient (host : Host) (delta : Q) (lastInputTime : option Z)
    (n : NetworkManager.t) : NetworkManager.t * option Z :=
  match NetworkManager.app_game n with
  | None => (n, lastInputTime)
  | Some game =>
      let now := Date_now host in
      let due :=
        match lastInputTime with
        | None => true
        | Some last => Z.eqb last 0 || Z.gtb (now - last) 50
        end in
      let '(n1, last1) :=
        if negb (isEliminated game) && due
        then (NetworkManager.sendInput (movement host game) n, Some now)
        else (n, lastInputTime) in
      let game1 :=
        fold_left (fun g type => Game.onArmy type (Army.updatePlacement host delta) g)
                  (JsMap.keys (Game.armies game)) game in
      (NetworkManager.set_game (Some (Game.updateSoldierCounts game1)) n1, last1)
  end.

End Client.

(* ===================================================================== *)
(** ** src/game/Game.js: the tick of the host *)
(* ===================================================================== *)

Module HostTick.

(** The body of the inner [forEach] of a scan of [getAIInput]: is this
    soldier nearer to the leader than the nearest one so far, and nearer
    than [limit] if there is one?  No soldier so far is [Infinity]. *)
Definition nearer (host : Host) (leaderPos : Vector3) (limit : option Q) (h : Heap)
    (best : option (Q * Vector3)) (soldier : ref) : option (Q * Vector3) :=
  match h !! soldier with
  | None => best
  | Some s =>
      let dist := Game.distanceTo host leaderPos (Soldier.position s) in
      let inLimit := match limit with Some d => Qltb dist d | None => true end in
      let closer := match best with Some (d, _) => Qltb dist d | None => true end in
      if inLimit && closer then Some (dist, Soldier.position s) else best
  end.

(** One of the two [this.armies.forEach] of [getAIInput]: the nearest
    soldier of the armies that [wanted] picks, our own army and the
    empty ones left out. *)
Definition scan (host : Host) (type : string) (leaderPos : Vector3) (limit : option Q)
    (wanted : string -> bool) (g : Game.t) : option (Q * Vector3) :=
  fold_left
    (fun best '(targetType, targetArmy) =>
       if String.eqb targetType type || Nat.eqb (length (Army.soldiers targetArmy)) 0
       then best
       else if wanted targetType
       then fold_left (nearer host leaderPos limit (Game.heap g)) (Army.soldiers targetArmy) best
       else best)
    (JsMap.entries (Game.armies g)) None.

(** The unit vector from [source] toward [target] on the ground plane;
    [Math.sqrt(...) || 1] guards the division. *)
Definition towards (host : Host) (source target : Vector3) : Input :=
  let dx := (x target - x source)%Q in
  let dz := (z target - z source)%Q in
  let len := Math_sqrt host (dx * dx + dz * dz)%Q in
  let len := if Qeq_bool len 0 then 1%Q else len in
  {| input_x := (dx / len)%Q; input_z := (dz / len)%Q |}.

(** The last part of [getAIInput]: the wander direction of the army,
    picked anew when there was no pick yet or the last one is more than
    2000 ms old. *)
Definition wander (host : Host) (type : string) (g : Game.t) : Input * Game.t :=
  let now := Date_now host in
  let due :=
    match JsMap.get type (Game.aiUpdateTimers g) with
    | None => true
    | Some last => Z.gtb (now - last) 2000
    end in
  let g3 :=
    if due then
      let g1 := Game.set_aiUpdateTimers (JsMap.set type now (Game.aiUpdateTimers g)) g in
      let '(r1, g2) := Game.random host g1 in
      let '(r2, g3) := Game.random host g2 in
      Game.onArmy type
        (fun a h =>
           (Army.set_aiWanderDir
              {| input_x := ((r1 - (5 # 10)) * 2)%Q; input_z := ((r2 - (5 # 10)) * 2)%Q |} a,
            h)) g3
    else g in
  (match JsMap.get type (Game.armies g3) with
   | Some army => Army.aiWanderDir army
   | None => {| input_x := 0%Q; input_z := 0%Q |}
   end, g3).

(** [getAIInput(type)]: away from the nearest soldier of a faction that
    beats ours, if there is one nearer than 10 and it is nearer than 8;
    else toward the nearest soldier of a faction ours beats; else the
    wander direction. *)
Definition getAIInput (host : Host) (type : string) (g : Game.t) : Input * Game.t :=
  let still := {| input_x := 0%Q; input_z := 0%Q |} in
  match (JsMap.get type (Game.armies g) ≫= Army.leader) ≫= (fun l => Game.heap g !! l) with
  | None => (still, g)
  | Some ld =>
      let leaderPos := Soldier.getPosition ld in
      let danger :=
        scan host type leaderPos (Some 10%Q)
          (fun targetType =>
             bool_decide (Game.getRPSWinner type targetType = Some targetType)) g in
      let fleeing :=
        match danger with
        | Some (dangerDistance, dangerPos) =>
            if Qltb dangerDistance 8%Q then Some dangerPos else None
        | None => None
        end in
      match fleeing with
      | Some dangerPos => (towards host dangerPos leaderPos, g)
      | None =>
          let prey :=
            scan host type leaderPos None
              (fun targetType => bool_decide (Game.getRPSWinner type targetType = Some type))
              g in
          match prey with
          | Some (_, preyPos) => (towards host leaderPos preyPos, g)
          | None => wander host type g
          end
      end
  end.

(** [army.update(delta, input, this.arena)] for the army registered
    under [type]: an army that has soldiers reads the arena. *)
Definition move (host : Host) (delta : Q) (type : string) (input : Input) (g : Game.t) : Game.t :=
  match JsMap.get type (Game.armies g) with
  | None => g
  | Some army =>
      if Nat.eqb (length (Army.soldiers army)) 0 then g
      else
        match Game.arena g with
        | None => Game.call (TypeError "arena.getSlowMultiplier") g
        | Some arena => Game.onArmy type (Army.update host delta (Some input) arena) g
        end
  end.

(** The body of the [forEach] of [updateHost]: the input of the army,
    from the keys, the AI or the network, then its update.  [network]
    is [this.app.network]. *)
Definition updateArmy (host : Host) (delta : Q) (network : option NetworkManager.t)
    (movement : Input) (isEliminated : bool) (type : string) (g : Game.t) : Game.t :=
  let isLocalArmy := bool_decide (Game.localPlayerType g = Some type) in
  if isLocalArmy && negb isEliminated then move host delta type movement g
  else if Game.isSoloTest g then
    let '(input, g1) := getAIInput host type g in
    move host delta type input g1
  else
    match network with
    | None => Game.call (TypeError "network.getPlayerInput") g
    | Some n => move host delta type (NetworkManager.getPlayerInput type n) g
    end.

(** [updateHost(delta)] *)
Definition updateHost (host : Host) (delta : Q) (network : option NetworkManager.t)
    (g : Game.t) : Game.t :=
  let isEliminated := Client.isEliminated g in
  let movement :=
    if isEliminated then {| input_x := 0%Q; input_z := 0%Q |} else Client.movement host g in
  Game.andThen
    (Game.forEach (updateArmy host delta network movement isEliminated)
       (JsMap.keys (Game.armies g)))
    (Game.andThen (Game.checkArmyCollisions host)
       (Game.andThen (PowerUpEffects.update host delta)
          (Game.andThen Game.updateSoldierCounts Game.checkWinCondition))) g.

End HostTick.

(* ===================================================================== *)
(** ** The operations that change a soldier's faction *)
(* ===================================================================== *)

(** Everything the game does to flip a faction: a bare [changeType] on
    a soldier, the start of a conversion ([convertSoldier]), the move
    between the rosters that its callback makes, alone or as the end of
    the oldest running animation. *)
Inductive FactionChange :=
| change_type (soldier : ref) (newType : string)
| convert_soldier (soldier : ref) (fromArmy toArmy : string)
| conversion_callback (soldier : ref) (fromArmy toArmy : string)
| conversion_ends.

Definition applyChange (g : Game.t) (c : FactionChange) : Game.t :=
  match c with
  | change_type soldier newType =>
      Game.set_heap (modify soldier (Soldier.changeType newType) (Game.heap g)) g
  | convert_soldier soldier fromArmy toArmy => Game.convertSoldier soldier fromArmy toArmy g
  | conversion_callback soldier fromArmy toArmy =>
      Game.conversionCallback soldier fromArmy toArmy g
  | conversion_ends => Game.conversionEnds g
  end.

(* ===================================================================== *)
(** ** Notions the properties are stated with *)
(* ===================================================================== *)

(** Every object of [h] is still there in [h'], under the same id. *)
Definition same_ids (h h' : Heap) : Prop :=
  forall (r : ref) (s : Soldier.t),
    h !! r = Some s -> exists s', h' !! r = Some s' /\ Soldier.id s' = Soldier.id s.

(** The soldiers of a roster that carry the leader flag. *)
Definition leaders (h : Heap) (a : Army.t) : list ref :=
  List.filter (readb Soldier.isLeader h) (Army.soldiers a).

(** The army has a leader, and this soldier is the one and only flagged
    soldier of its roster. *)
Definition one_leader (h : Heap) (a : Army.t) : Prop :=
  exists l, Army.leader a = Some l /\ leaders h a = [l].

(** A coordinate that went from [old] to [new] moved toward [target]
    and not past it. *)
Definition approaches (old new target : Q) : Prop :=
  (old <= new /\ new <= target)%Q \/ (target <= new /\ new <= old)%Q.

(** What is used of a rounding of numbers to doubles: it keeps the
    order and zero, it takes a number at most as far again from zero,
    and the half of a rounded number is rounded already (as it is for
    binary floating-point numbers that do not underflow). *)
Definition rounding (fl : Q -> Q) : Prop :=
  (forall a b : Q, a <= b -> fl a <= fl b)%Q /\
  (fl 0 == 0)%Q /\
  (forall a : Q, 0 <= a -> fl a <= 2 * a)%Q /\
  (forall a : Q, a <= 0 -> 2 * a <= fl a)%Q /\
  (forall a : Q, fl (fl a * (1 # 2)) == fl a * (1 # 2))%Q.

(** From [h0] to [h], every soldier of id [i] kept its id and moved
    toward the position [(tx, tz)] on both axes. *)
Definition closing_in (i : string) (tx tz : Q) (h0 h : Heap) : Prop :=
  forall (r : ref) (s0 : Soldier.t),
    h0 !! r = Some s0 -> Soldier.id s0 = i ->
    exists s, h !! r = Some s /\ Soldier.id s = i /\
              approaches (x (Soldier.position s0)) (x (Soldier.position s)) tx /\
              approaches (z (Soldier.position s0)) (z (Soldier.position s)) tz.

(** A soldier of a message that, if it carries the id [i], reports the
    position [(tx, tz)]. *)
Definition reports_target (i : string) (tx tz : Q) (serverSoldier : ServerSoldier) : Prop :=
  server_id serverSoldier = i ->
  server_x serverSoldier = tx /\ server_z serverSoldier = tz.

(** The x coordinate a client shows for a soldier. *)
Definition shown_x (n : NetworkManager.t) (r : ref) : Q :=
  match NetworkManager.app_game n ≫= (fun g => Game.heap g !! r) with
  | Some s => x (Soldier.position s)
  | None => 0%Q
  end.

(** The party-code format of the specification: six characters of the
    alphabet without the look-alikes I, O, 0 and 1. *)
Definition inAlphabet (c : ascii) : bool :=
  existsb (Ascii.eqb c) (list_ascii_of_string PeerJS.chars).

Definition confusable (c : ascii) : bool :=
  existsb (Ascii.eqb c) ["I"; "O"; "0"; "1"]%char.

Definition unambiguous (s : string) : bool :=
  forallb (fun c => inAlphabet c && negb (confusable c)) (list_ascii_of_string s).

Definition wellFormedCode (s : string) : bool :=
  Nat.eqb (String.length s) 6 && unambiguous s.

(** The faction [winner] is the only one of the game that has a soldier
    left: its army is not empty, and of the armies listed before and
    after it every one is. *)
Definition sole_survivor (g : Game.t) (winner : string) : Prop :=
  exists before army after,
    JsMap.entries (Game.armies g) = before ++ (winner, army) :: after /\
    Army.soldiers army <> [] /\
    Forall (fun entry => Army.soldiers (snd entry) = []) (before ++ after).

(** The factions of the game, in the order of the map, each with the
    answer to: has its army no soldier left? *)
Definition standing (g : Game.t) : list (string * bool) :=
  map (fun entry => (fst entry, Nat.eqb (length (Army.soldiers (snd entry))) 0))
      (JsMap.entries (Game.armies g)).

(** From [g] to [g'] the match went on: the phase is the same, no army
    came or went, lost its last soldier or got its first one, the game
    has a power-up manager if it had one, and the log only grew. *)
Definition carries_on (g g' : Game.t) : Prop :=
  Game.state g' = Game.state g /\
  standing g' = standing g /\
  (Game.powerUpManager g' = None <-> Game.powerUpManager g = None) /\
  exists new, Game.calls g' = Game.calls g ++ new.

(** The power-up has a type that [POWERUP_CONFIG] knows. *)
Definition configured (p : PowerUp) : Prop :=
  POWERUP_CONFIG.get (powerUp_type p) <> None.

(** Every army that has a soldier has a leader, an object of the
    store. *)
Definition led (g : Game.t) : Prop :=
  forall key army,
    JsMap.get key (Game.armies g) = Some army -> Army.soldiers army <> [] ->
    exists l, Army.leader army = Some l /\ (l < length (Game.heap g))%nat.

(** What a tick of the host reads without a guard, so that none of its
    reads is of [null] or [undefined]: an arena and a power-up manager,
    whose power-ups are of known types; a network manager unless the
    game is a solo test; a leader, an object of the store, in every army
    that has a soldier; and random numbers in [0, 1). *)
Definition ready_for_tick (host : Host) (network : option NetworkManager.t)
    (g : Game.t) : Prop :=
  Game.arena g <> None /\
  Game.powerUpManager g <> None /\
  (Game.isSoloTest g = true \/ network <> None) /\
  (forall k, (0 <= Math_random host k)%Q /\ (Math_random host k < 1)%Q) /\
  Forall configured (PowerUpEffects.powerUpsOf g) /\
  led g.

(** From [g] to [g'] the match went on without an exception: it
    carried on, no [TypeError] was logged, the arena and the mode are
    the same, every army has the leader it had, no object left the
    store, and the power-ups are of known types if they were. *)
Definition steady (g g' : Game.t) : Prop :=
  carries_on g g' /\
  Game.raised g g' = false /\
  Game.arena g' = Game.arena g /\
  Game.isSoloTest g' = Game.isSoloTest g /\
  map (fun entry => (fst entry, Army.leader (snd entry))) (JsMap.entries (Game.armies g'))
  = map (fun entry => (fst entry, Army.leader (snd entry))) (JsMap.entries (Game.armies g)) /\
  (length (Game.heap g) <= length (Game.heap g'))%nat /\
  (Forall configured (PowerUpEffects.powerUpsOf g) ->
   Forall configured (PowerUpEffects.powerUpsOf g')).

(** A queued conversion that the rules of [g] allow: both armies are
    registered, the soldier is on the roster of the losing one, neither
    army is invincible, and the receiving army's faction beats the
    losing one's. *)
Definition fair_conversion (g : Game.t) (c : Conversion) : Prop :=
  exists from to,
    JsMap.get (conv_fromArmy c) (Game.armies g) = Some from /\
    JsMap.get (conv_toArmy c) (Game.armies g) = Some to /\
    In (conv_soldier c) (Army.soldiers from) /\
    Army.isInvincible from = false /\ Army.isInvincible to = false /\
    Game.getRPSWinner (Army.type from) (Army.type to) = Some (Army.type to).

(** The soldier [s] once its conversion has started: the flag is set
    and the first frame of the animation has switched the flash of its
    model off. *)
Definition marked (s : Soldier.t) : Soldier.t :=
  Army.setEmissive 0 0%Q (Soldier.set_isConverting true s).

(** From [g] to [g'] nothing happened but conversions being started:
    the armies and the phase are the same, a soldier differs at most in
    that it is [marked] now, and the queue and the audio calls grew by
    the conversions [new]. *)
Definition only_marks (g g' : Game.t) (new : list Conversion) : Prop :=
  Game.armies g' = Game.armies g /\
  Game.state g' = Game.state g /\
  (forall r, Game.heap g' !! r = Game.heap g !! r \/
             Game.heap g' !! r = marked <$> Game.heap g !! r) /\
  Game.conversions g' = Game.conversions g ++ new /\
  Game.calls g' = Game.calls g ++ repeat audio_playConvert (length new).

(** The conversions [new] were started between [g] and [g']: nothing
    else happened, each of them is allowed by the rules and has its
    soldier flagged, no soldier other than [exempt] was converting
    before, and every soldier flagged since is in [new]. *)
Definition started (exempt : option ref) (g g' : Game.t) (new : list Conversion) : Prop :=
  only_marks g g' new /\
  Forall (fun c => fair_conversion g c /\
                   readb Soldier.isConverting (Game.heap g') (conv_soldier c) = true /\
                   (Some (conv_soldier c) = exempt \/
                    readb Soldier.isConverting (Game.heap g) (conv_soldier c) = false)) new /\
  (forall r, readb Soldier.isConverting (Game.heap g') r = true ->
             readb Soldier.isConverting (Game.heap g) r = true \/
             In r (map conv_soldier new)).

(** [s'] is the soldier [s] moved on the ground plane: nothing but the
    x and z of its position differs. *)
Definition moved_only (s s' : Soldier.t) : Prop :=
  s' = Soldier.set_position
         {| x := x (Soldier.position s'); y := y (Soldier.position s);
            z := z (Soldier.position s') |} s.

(** [a'] is the army [a] with, at most, other values of the two
    properties a [game_state] message carries. *)
Definition retuned (a a' : Army.t) : Prop :=
  a' = Army.set_speedMultiplier (Army.speedMultiplier a')
         (Army.set_isInvincible (Army.isInvincible a') a).

(** [game'] mirrors [game]: the same armies under the same keys with
    the same rosters and leaders, the same soldier objects up to where
    they stand, and everything else of the game as it was. *)
Definition mirrors (game game' : Game.t) : Prop :=
  game' = Game.set_armies (Game.armies game') (Game.set_heap (Game.heap game') game) /\
  JsMap.keys (Game.armies game') = JsMap.keys (Game.armies game) /\
  (forall key a, JsMap.get key (Game.armies game) = Some a ->
                 exists a', JsMap.get key (Game.armies game') = Some a' /\ retuned a a') /\
  length (Game.heap game') = length (Game.heap game) /\
  (forall r s, Game.heap game !! r = Some s ->
               exists s', Game.heap game' !! r = Some s' /\ moved_only s s').

(** The soldier stands inside the boundary walls, a collision radius
    away from them. *)
Definition inArena (s : Soldier.t) : Prop :=
  let margin := GAME_CONFIG.SOLDIER_COLLISION_RADIUS in
  (- GAME_CONFIG.ARENA_WIDTH / 2 + margin <= x (Soldier.position s))%Q /\
  (x (Soldier.position s) <= GAME_CONFIG.ARENA_WIDTH / 2 - margin)%Q /\
  (- GAME_CONFIG.ARENA_HEIGHT / 2 + margin <= z (Soldier.position s))%Q /\
  (z (Soldier.position s) <= GAME_CONFIG.ARENA_HEIGHT / 2 - margin)%Q.

(** [s'] is the soldier [s] with, at most, another look of its model. *)
Definition repainted (s s' : Soldier.t) : Prop :=
  s' = Soldier.set_modelMesh (Soldier.modelMesh s') s.

(** [s'] is the soldier [s] a frame of the idle animation later: it
    differs at most in its height above the ground and the look of its
    ring. *)
Definition bobbed (s s' : Soldier.t) : Prop :=
  s' = Soldier.set_leaderRing (Soldier.leaderRing s')
         (Soldier.set_position
            {| x := x (Soldier.position s); y := y (Soldier.position s');
               z := z (Soldier.position s) |} s).

(** [s'] is the soldier [s] steered and animated: it differs at most
    in position, heading and the look of its ring. *)
Definition steered (s s' : Soldier.t) : Prop :=
  s' = Soldier.set_leaderRing (Soldier.leaderRing s')
         (Soldier.set_rotation_y (Soldier.rotation_y s')
            (Soldier.set_position (Soldier.position s') s)).

(** From [h] to [h'] no object came or went; every soldier was at most
    steered, stayed inside the arena if it was inside, and is untouched
    unless [touched] holds of it. *)
Definition drives (touched : ref -> Prop) (h h' : Heap) : Prop :=
  length h' = length h /\
  forall r s, h !! r = Some s ->
    exists s', h' !! r = Some s' /\ steered s s' /\
               (inArena s -> inArena s') /\ (~ touched r -> s' = s).

(** The square of the distance from a point to the box of a wall, as
    [checkWallCollision] computes it: to the closest point of the box. *)
Definition wallDistSquared (px pz : Q) (bounds : Bounds) : Q :=
  let distX := (px - Qmax (minX bounds) (Qmin px (maxX bounds)))%Q in
  let distZ := (pz - Qmax (minZ bounds) (Qmin pz (maxZ bounds)))%Q in
  (distX * distX + distZ * distZ)%Q.

(** No wall of the list is nearer to the point than [r]. *)
Definition clearOf (px pz r : Q) (ws : list Bounds) : Prop :=
  Forall (fun bounds => (r * r <= wallDistSquared px pz bounds)%Q) ws.

(** From [h] to [h'] no object came or went; a soldier was at most
    moved on the ground plane, and not at all if it is flagged leader or
    [touched] does not hold of it. *)
Definition scatters (touched : ref -> Prop) (h h' : Heap) : Prop :=
  length h' = length h /\
  forall r s, h !! r = Some s ->
    exists s', h' !! r = Some s' /\ moved_only s s' /\
               (Soldier.isLeader s = true -> s' = s) /\ (~ touched r -> s' = s).

(** The army [a], whose roster names objects of a store [l], as it
    reads once [l] sits behind [n] older objects. *)
Definition relocate (n : nat) (a : Army.t) : Army.t :=
  Army.set_leader (Nat.add n <$> Army.leader a)
    (Army.set_soldiers (map (Nat.add n) (Army.soldiers a)) a).

(* ===================================================================== *)
(** ** States used as examples *)
(* ===================================================================== *)

Module Examples.

(** A host for evaluating examples: the clock stands at 0, every
    random draw is 1/2, and [Math] is replaced by rational
    approximations (Newton steps for the root, Taylor polynomials for
    sine and cosine).  No property below depends on these choices. *)
Definition newton (v r : Q) : Q := if Qeq_bool r 0 then 0%Q else ((r + v / r) / 2)%Q.
Definition host : Host :=
  {| Math_sqrt := fun v => newton v (newton v (newton v 1%Q));
     Math_sin := fun v => (v - v * v * v / 6)%Q;
     Math_cos := fun v => (1 - v * v / 2)%Q;
     Math_atan2 := fun a b => if Qeq_bool b 0 then 0%Q else (a / b)%Q;
     Math_PI := (314159 # 100000)%Q;
     Date_now := 0;
     Math_random := fun _ => (1 # 2)%Q;
     charCodeAt0 := fun s =>
       match s with
       | EmptyString => 0%Q
       | String c _ => inject_Z (Z.of_nat (nat_of_ascii c))
       end |}.

(** The three armies as [startGame] creates them for a local Rock
    player, before they are placed on their spawn zones. *)
Definition createArmies : JsMap.t Army.t * Heap :=
  fold_left
    (fun '(m, h) type =>
       let '(army, h1) := Army.new type (String.eqb type SOLDIER_TYPES.ROCK) h in
       (JsMap.set type army m, h1))
    SOLDIER_TYPES.values (JsMap.empty, []).

(** A multiplayer match at the first tick of the battle. *)
Definition battle : Game.t :=
  {| Game.state := GAME_STATES.PLAYING;
     Game.localPlayerType := Some SOLDIER_TYPES.ROCK;
     Game.armies := fst createArmies;
     Game.heap := snd createArmies;
     Game.arena := Some Arena.create;
     Game.powerUpManager := Some (PowerUpManager.startSpawning PowerUpManager.new);
     Game.isSoloTest := false;
     Game.aiUpdateTimers := JsMap.empty;
     Game.placementTimer := 0%Q;
     Game.isReady := false;
     Game.keys := Game.wasdKeys;
     Game.conversions := [];
     Game.randomCalls := 0%nat;
     Game.calls := [] |}.

(** The same match once Paper and Scissors have lost every soldier. *)
Definition lastStanding : Game.t :=
  Game.onArmy SOLDIER_TYPES.SCISSORS (fun a h => (Army.destroy a, h))
    (Game.onArmy SOLDIER_TYPES.PAPER (fun a h => (Army.destroy a, h)) battle).

(** The army of a faction in a game that has one. *)
Definition army (type : string) (g : Game.t) : Army.t :=
  default (Army.destroy (fst (Army.new type false [])))
          (JsMap.get type (Game.armies g)).

Definition rock (g : Game.t) : Army.t := army SOLDIER_TYPES.ROCK g.

(** Rock after two of its soldiers were taken: 3 of 5. *)
Definition depleted : Game.t :=
  Game.onArmy SOLDIER_TYPES.ROCK (Army.removeSoldier 4%nat)
    (Game.onArmy SOLDIER_TYPES.ROCK (Army.removeSoldier 3%nat) battle).

(** Rock after it converted a Scissors soldier: the rock soldier 1
    meets the scissors soldier 11, the animation runs and ends. *)
Definition grown : Game.t :=
  Game.conversionEnds
    (Game.handleCollision 1%nat 11%nat SOLDIER_TYPES.ROCK SOLDIER_TYPES.SCISSORS battle).

(** A solo game right after [startGame]: the placement phase, Rock
    being the local faction. *)
Definition placement : Game.t := Game.startSoloTest host Game.new.

(** A client mirroring the battle, Paper being its faction. *)
Definition client : NetworkManager.t :=
  NetworkManager.set_game (Some battle)
    (NetworkManager.set_localPlayerType (Some SOLDIER_TYPES.PAPER)
       (NetworkManager.set_role false (Some "K3J2X9")
          (NetworkManager.new {| user_id := "u-a"; user_name := "a" |}))).

(** The host reports the Rock leader at x = 4, z = 0. *)
Definition report : list (string * ArmyData) :=
  [(SOLDIER_TYPES.ROCK,
    {| data_soldiers :=
         [{| server_id := "rock_LEADER"; server_x := 4%Q; server_z := 0%Q;
             server_isLeader := true |}];
       data_isInvincible := false;
       data_speedMultiplier := 1%Q |})].

(** A host that has just created a party: only Rock is claimed. *)
Definition lobby : NetworkManager.t :=
  NetworkManager.createParty "0.k3j2x9abcde"
    (NetworkManager.new {| user_id := "u-host"; user_name := "host" |}).

Definition ask (sender name : string) : Message :=
  {| fromId := sender; payload := join_request sender name |}.

(** The same party after two joiners: every faction is claimed. *)
Definition fullLobby : NetworkManager.t :=
  NetworkManager.handleMessage (ask "u-b" "b")
    (NetworkManager.handleMessage (ask "u-a" "a") lobby).

End Examples.

(* ===================================================================== *)
(** * Properties *)
(* ===================================================================== *)

(** ** Rock-paper-scissors dominance *)

Lemma getRPSWinner_same (A : string) : Game.getRPSWinner A A = None.
Proof. unfold Game.getRPSWinner. now rewrite String.eqb_refl. Qed.

Lemma getRPSWinner_sym (A B : string) :
  Game.getRPSWinner A B = Game.getRPSWinner B A.
Proof.
  unfold Game.getRPSWinner.
  destruct (String.eqb_spec A B) as [->|Hne].
  - now rewrite String.eqb_refl.
  - assert (String.eqb B A = false) as -> by (apply String.eqb_neq; congruence).
    unfold SOLDIER_TYPES.ROCK, SOLDIER_TYPES.PAPER, SOLDIER_TYPES.SCISSORS.
    destruct (String.eqb_spec A "rock"), (String.eqb_spec B "rock"),
             (String.eqb_spec A "scissors"), (String.eqb_spec B "scissors"),
             (String.eqb_spec A "paper"), (String.eqb_spec B "paper");
      subst; simpl; congruence.
Qed.

(** C3. The dominance function is defined on every pair of factions and
    does not depend on the order of its arguments; on the three distinct
    pairs it names the dominating faction (rock over scissors, scissors
    over paper, paper over rock), each in both orders; and a faction
    against itself has no winner. *)
Theorem getRPSWinner_total_antisymmetric :
  (forall A B : string, Game.getRPSWinner A B = Game.getRPSWinner B A) /\
  (Game.getRPSWinner SOLDIER_TYPES.ROCK SOLDIER_TYPES.SCISSORS = Some SOLDIER_TYPES.ROCK /\
   Game.getRPSWinner SOLDIER_TYPES.SCISSORS SOLDIER_TYPES.ROCK = Some SOLDIER_TYPES.ROCK /\
   Game.getRPSWinner SOLDIER_TYPES.SCISSORS SOLDIER_TYPES.PAPER = Some SOLDIER_TYPES.SCISSORS /\
   Game.getRPSWinner SOLDIER_TYPES.PAPER SOLDIER_TYPES.SCISSORS = Some SOLDIER_TYPES.SCISSORS /\
   Game.getRPSWinner SOLDIER_TYPES.PAPER SOLDIER_TYPES.ROCK = Some SOLDIER_TYPES.PAPER /\
   Game.getRPSWinner SOLDIER_TYPES.ROCK SOLDIER_TYPES.PAPER = Some SOLDIER_TYPES.PAPER) /\
  (forall A : string, Game.getRPSWinner A A = None).
Proof.
  split; [exact getRPSWinner_sym|].
  split; [repeat split; reflexivity|].
  exact getRPSWinner_same.
Qed.

(** ** The end of a match *)

Lemma endGame_state (w : string) (g : Game.t) :
  Game.state (Game.endGame w g) = GAME_STATES.ENDED.
Proof.
  unfold Game.endGame. simpl.
  destruct (Game.powerUpManager g); simpl; [|reflexivity].
  destruct (JsMap.get w (Game.armies g)); reflexivity.
Qed.

Lemma JsMap_get_elem {V : Type} (k : string) (v : V) (m : JsMap.t V) :
  NoDup (JsMap.keys m) -> In (k, v) m -> JsMap.get k m = Some v.
Proof.
  induction m as [|[k' v'] m IH]; simpl; intros Hnd Hin; [contradiction|].
  apply NoDup_cons in Hnd as [Hnotin Hnd].
  destruct Hin as [Heq|Hin].
  - inversion Heq; subst. now rewrite String.eqb_refl.
  - destruct (String.eqb_spec k k') as [->|Hne].
    + exfalso. apply Hnotin. apply list_elem_of_In.
      change k' with (fst (k', v)). now apply in_map.
    + now apply IH.
Qed.

(** ** An eliminated army is left alone *)

Lemma JsMap_set_get_id {V : Type} (k : string) (v : V) (m : JsMap.t V) :
  JsMap.get k m = Some v -> JsMap.set k v m = m.
Proof.
  induction m as [|[k' v'] m IH]; simpl; [discriminate|].
  destruct (String.eqb_spec k k') as [->|Hne].
  - now intros [= ->].
  - intros H. now rewrite IH.
Qed.

(** C10. [Army.update] on an army with an empty roster, or called with a
    [null]/[undefined] input, returns at once: the army (leader and
    status effects included) and every soldier in the store are exactly
    as before, whatever the delta, the input and the arena.  In the
    update loop of the game the eliminated army therefore stays
    registered under its faction, unchanged. *)
Theorem Army_update_eliminated_noop
    (host : Host) (delta : Q) (input : option Input) (arena : Arena.t)
    (a : Army.t) (h : Heap) :
  Army.soldiers a = [] \/ input = None ->
  Army.update host delta input arena a h = (a, h) /\
  (forall g key,
      JsMap.get key (Game.armies g) = Some a ->
      Game.heap g = h ->
      Game.onArmy key (Army.update host delta input arena) g = g /\
      JsMap.get key (Game.armies (Game.onArmy key (Army.update host delta input arena) g))
      = Some a).
Proof.
  intros Hdead.
  assert (Army.update host delta input arena a h = (a, h)) as Hnoop.
  { unfold Army.update. destruct Hdead as [Hempty | ->]; [|reflexivity].
    destruct input; [|reflexivity]. now rewrite Hempty. }
  split; [exact Hnoop|].
  intros g key Hget Hheap.
  assert (Game.onArmy key (Army.update host delta input arena) g = g) as Hsame.
  { unfold Game.onArmy. rewrite Hget, Hheap, Hnoop.
    rewrite (JsMap_set_get_id _ _ _ Hget). subst h. now destruct g. }
  split; [exact Hsame|]. now rewrite Hsame.
Qed.

Lemma Army_update_eliminated_noop_witness :
  Army.soldiers (Army.destroy (Examples.rock Examples.battle)) = [] /\
  Army.update Examples.host (1 # 60) (Some {| input_x := 1%Q; input_z := 0%Q |})
    Arena.create (Army.destroy (Examples.rock Examples.battle))
    (Game.heap Examples.battle)
  = (Army.destroy (Examples.rock Examples.battle), Game.heap Examples.battle).
Proof.
  split; [reflexivity|].
  apply (Army_update_eliminated_noop Examples.host (1 # 60)
           (Some {| input_x := 1%Q; input_z := 0%Q |}) Arena.create
           (Army.destroy (Examples.rock Examples.battle)) (Game.heap Examples.battle)).
  left. reflexivity.
Defined.

(** By contrast an army with soldiers does move: at the start of the
    battle, a tenth of a second of input to the right takes the Rock
    leader from x = 0 to x = 1/2 (base speed 5, no zone, no boost). *)
Lemma Army_update_moves_live_army :
  let h := snd (Army.update Examples.host (1 # 10)
                  (Some {| input_x := 1%Q; input_z := 0%Q |})
                  Arena.create (Examples.rock Examples.battle)
                  (Game.heap Examples.battle)) in
  exists s, h !! 0%nat = Some s /\
            (x (Soldier.position s) == 1 # 2)%Q /\ (z (Soldier.position s) == 0)%Q.
Proof. cbv zeta. eexists. split; [vm_compute; reflexivity|]. split; reflexivity. Qed.

(** ** Reinforcement *)

Lemma reinforceLoop_roster (host : Host) (n : nat) :
  forall (i : nat) (a : Army.t) (h : Heap),
    Army.soldiers (fst (Army.reinforceLoop host n i a h))
    = Army.soldiers a ++ seq (length h) n.
Proof.
  induction n as [|n IH]; intros i a h; simpl.
  - now rewrite app_nil_r.
  - unfold alloc. rewrite IH. simpl.
    rewrite length_app, <- app_assoc. simpl.
    now rewrite Nat.add_1_r.
Qed.

Lemma reinforceSoldiers_roster (host : Host) (count : Z) (a : Army.t) (h : Heap) :
  Army.soldiers (fst (Army.reinforceSoldiers host count a h))
  = Army.soldiers a
    ++ seq (length h)
           (Z.to_nat (Z.min count (Army.maxSoldiers a - Z.of_nat (length (Army.soldiers a))))).
Proof. unfold Army.reinforceSoldiers. apply reinforceLoop_roster. Qed.

(** The Reinforcement case of [applyPowerUp] is [reinforceSoldiers] with
    the [soldiersToRestore] of the configuration, 2. *)
Lemma applyPowerUp_reinforcement (host : Host) (key : string) (g : Game.t) (a : Army.t) :
  JsMap.get key (Game.armies g) = Some a ->
  Game.armies (PowerUpEffects.applyPowerUp host POWERUP_TYPES.REINFORCEMENT key g)
  = JsMap.set key
      (fst (Army.reinforceSoldiers (PowerUpEffects.hostFrom host (Game.randomCalls g)) 2
              a (Game.heap g)))
      (Game.armies g).
Proof.
  intros Hget. unfold PowerUpEffects.applyPowerUp. rewrite Hget. simpl.
  unfold Game.onArmy. rewrite Hget.
  destruct (Army.reinforceSoldiers _ _ a (Game.heap g)) as [a' h'] eqn:E.
  simpl. destruct (Army.leader a); reflexivity.
Qed.

(** C5, as the code has it.  [reinforceSoldiers(k)] with [k >= 0] only
    ever appends: the roster it finds stays in place, followed by
    [max(0, min(k, maxSoldiers - n))] new soldiers.  So an army of
    [n <= maxSoldiers] soldiers ends at [min(n + k, maxSoldiers)] (3 of 5
    with [k = 2] ends at 5), and an army at or above [maxSoldiers] keeps
    its roster of [n] soldiers as it is: it gains none and loses none. *)
Theorem reinforceSoldiers_capped
    (host : Host) (count : Z) (a : Army.t) (h : Heap) :
  0 <= count ->
  let n := Z.of_nat (length (Army.soldiers a)) in
  let a' := fst (Army.reinforceSoldiers host count a h) in
  (exists new, Army.soldiers a' = Army.soldiers a ++ new) /\
  (n <= Army.maxSoldiers a ->
   Z.of_nat (length (Army.soldiers a')) = Z.min (n + count) (Army.maxSoldiers a)) /\
  (Army.maxSoldiers a <= n -> Army.soldiers a' = Army.soldiers a).
Proof.
  intros Hcount n a'. subst a'.
  rewrite reinforceSoldiers_roster. fold n.
  split; [eexists; reflexivity|]. split.
  - intros Hle. rewrite length_app, length_seq. lia.
  - intros Hge.
    replace (Z.to_nat (Z.min count (Army.maxSoldiers a - n))) with 0%nat by lia.
    simpl. now rewrite app_nil_r.
Qed.

Lemma reinforceSoldiers_capped_witness :
  0 <= 2 /\
  length (Army.soldiers (Examples.rock Examples.depleted)) = 3%nat /\
  Z.of_nat (length (Army.soldiers
     (fst (Army.reinforceSoldiers Examples.host 2 (Examples.rock Examples.depleted)
             (Game.heap Examples.depleted))))) = 5.
Proof.
  split; [lia|]. split; [reflexivity|].
  pose proof (reinforceSoldiers_capped Examples.host 2 (Examples.rock Examples.depleted)
                (Game.heap Examples.depleted)) as H.
  specialize (H ltac:(lia)). cbv zeta in H.
  destruct H as (_ & Hcap & _).
  rewrite Hcap; [reflexivity|]. vm_compute. discriminate.
Defined.

(** C5 as stated fails above the cap: Rock, grown to 6 soldiers by a
    conversion, collects a Reinforcement of 2 and stays at 6, while
    [min(6 + 2, maxSoldiers)] is 5. *)
Lemma reinforceSoldiers_min_formula_fails :
  let a := Examples.rock Examples.grown in
  let a' := fst (Army.reinforceSoldiers Examples.host 2 a (Game.heap Examples.grown)) in
  Army.maxSoldiers a = 5 /\
  length (Army.soldiers a) = 6%nat /\
  length (Army.soldiers a') = 6%nat /\
  Z.of_nat (length (Army.soldiers a'))
  <> Z.min (Z.of_nat (length (Army.soldiers a)) + 2) (Army.maxSoldiers a).
Proof.
  cbv zeta. repeat split; try reflexivity. vm_compute. discriminate.
Qed.

(** ** Joining a party *)

Lemma getNextAvailableType_cases (n : NetworkManager.t) :
  NetworkManager.getNextAvailableType n
  = if negb (JsMap.has SOLDIER_TYPES.PAPER (NetworkManager.players n))
    then Some SOLDIER_TYPES.PAPER
    else if negb (JsMap.has SOLDIER_TYPES.SCISSORS (NetworkManager.players n))
         then Some SOLDIER_TYPES.SCISSORS
         else None.
Proof. reflexivity. Qed.

(** C7. On a [join_request] from another peer the host assigns Paper
    when Paper is unclaimed, otherwise Scissors when Scissors is
    unclaimed, and never Rock; the joiner enters the roster under that
    faction and is told so.  When both are claimed the only effect is a
    [party_full] message carrying the requester's id: the roster, and
    everything else but the outbox, is as before. *)
Theorem join_request_assignment
    (n : NetworkManager.t) (sender id username : string) :
  NetworkManager.isHost n = true ->
  sender <> user_id (NetworkManager.currentUser n) ->
  let n' := NetworkManager.handleMessage
              {| fromId := sender; payload := join_request id username |} n in
  let me := user_id (NetworkManager.currentUser n) in
  let joiner := {| player_id := id; username := username; connected := true |} in
  NetworkManager.getNextAvailableType n <> Some SOLDIER_TYPES.ROCK /\
  (JsMap.has SOLDIER_TYPES.PAPER (NetworkManager.players n) = false ->
   NetworkManager.players n'
   = JsMap.set SOLDIER_TYPES.PAPER joiner (NetworkManager.players n) /\
   NetworkManager.outbox n'
   = NetworkManager.outbox n
     ++ [{| fromId := me;
            payload := player_assigned id SOLDIER_TYPES.PAPER
                         (NetworkManager.getPlayersArray n') |}]) /\
  (JsMap.has SOLDIER_TYPES.PAPER (NetworkManager.players n) = true ->
   JsMap.has SOLDIER_TYPES.SCISSORS (NetworkManager.players n) = false ->
   NetworkManager.players n'
   = JsMap.set SOLDIER_TYPES.SCISSORS joiner (NetworkManager.players n) /\
   NetworkManager.outbox n'
   = NetworkManager.outbox n
     ++ [{| fromId := me;
            payload := player_assigned id SOLDIER_TYPES.SCISSORS
                         (NetworkManager.getPlayersArray n') |}]) /\
  (JsMap.has SOLDIER_TYPES.PAPER (NetworkManager.players n) = true ->
   JsMap.has SOLDIER_TYPES.SCISSORS (NetworkManager.players n) = true ->
   n' = NetworkManager.broadcast (party_full id) n /\
   NetworkManager.players n' = NetworkManager.players n /\
   NetworkManager.outbox n'
   = NetworkManager.outbox n ++ [{| fromId := me; payload := party_full id |}]).
Proof.
  intros Hhost Hother n' me joiner. subst n'.
  unfold NetworkManager.handleMessage. simpl.
  assert (String.eqb sender (user_id (NetworkManager.currentUser n)) = false) as ->
    by (now apply String.eqb_neq).
  unfold NetworkManager.handleJoinRequest. rewrite Hhost.
  rewrite getNextAvailableType_cases.
  split.
  - destruct (JsMap.has SOLDIER_TYPES.PAPER _); simpl; [|discriminate].
    destruct (JsMap.has SOLDIER_TYPES.SCISSORS _); simpl; discriminate.
  - split; [|split].
    + intros ->. simpl. split; reflexivity.
    + intros -> ->. simpl. split; reflexivity.
    + intros -> ->. simpl. repeat split; reflexivity.
Qed.

Lemma join_request_assignment_witness :
  NetworkManager.isHost Examples.fullLobby = true /\
  "u-c" <> user_id (NetworkManager.currentUser Examples.fullLobby) /\
  NetworkManager.players (NetworkManager.handleMessage (Examples.ask "u-c" "c") Examples.fullLobby)
  = NetworkManager.players Examples.fullLobby /\
  JsMap.get SOLDIER_TYPES.PAPER
    (NetworkManager.players (NetworkManager.handleMessage (Examples.ask "u-a" "a") Examples.lobby))
  = Some {| player_id := "u-a"; username := "a"; connected := true |}.
Proof.
  split; [reflexivity|]. split; [discriminate|].
  pose proof (join_request_assignment Examples.fullLobby "u-c" "u-c" "c"
                eq_refl ltac:(discriminate)) as Hfull.
  pose proof (join_request_assignment Examples.lobby "u-a" "u-a" "a"
                eq_refl ltac:(discriminate)) as Hfree.
  cbv zeta in Hfull, Hfree.
  destruct Hfull as (_ & _ & _ & Hfull).
  destruct Hfree as (_ & Hfree & _).
  split.
  - exact (proj1 (proj2 (Hfull eq_refl eq_refl))).
  - unfold Examples.ask. rewrite (proj1 (Hfree eq_refl)). reflexivity.
Defined.

(** ** Conversion messages *)

Lemma handleRemoteConversion_no_game (n : NetworkManager.t) (soldierId fromType toType : string) :
  NetworkManager.app_game n = None ->
  NetworkManager.handleRemoteConversion soldierId fromType toType n = n.
Proof. intros H. unfold NetworkManager.handleRemoteConversion. now rewrite H. Qed.




(** ** Identity of a soldier *)

Lemma same_ids_refl (h : Heap) : same_ids h h.
Proof. intros r s H. now exists s. Qed.

Lemma same_ids_trans (h1 h2 h3 : Heap) :
  same_ids h1 h2 -> same_ids h2 h3 -> same_ids h1 h3.
Proof.
  intros H12 H23 r s H.
  destruct (H12 r s H) as (s2 & H2 & E2).
  destruct (H23 r s2 H2) as (s3 & H3 & E3).
  exists s3. split; [exact H3|congruence].
Qed.

Lemma modify_same_ids (r : ref) (f : Soldier.t -> Soldier.t) (h : Heap) :
  (forall s, Soldier.id (f s) = Soldier.id s) -> same_ids h (modify r f h).
Proof.
  intros Hf r0 s0 H0. unfold modify.
  destruct (h !! r) as [s|] eqn:Hr; [|now exists s0].
  destruct (decide (r = r0)) as [->|Hne].
  - exists (f s). split.
    + apply list_lookup_insert_eq. now apply lookup_lt_Some in Hr.
    + rewrite Hf. congruence.
  - exists s0. split; [|reflexivity].
    now rewrite list_lookup_insert_ne.
Qed.

Lemma changeType_id (newType : string) (s : Soldier.t) :
  Soldier.id (Soldier.changeType newType s) = Soldier.id s.
Proof. unfold Soldier.changeType. simpl. now destruct (Soldier.leaderRing s). Qed.

Lemma setEmissive_id (c : Z) (i : Q) (s : Soldier.t) :
  Soldier.id (Army.setEmissive c i s) = Soldier.id s.
Proof. unfold Army.setEmissive. now destruct (Soldier.modelMesh s). Qed.

Lemma promoteNewLeader_same_ids (a : Army.t) (h : Heap) :
  same_ids h (snd (Army.promoteNewLeader a h)).
Proof.
  unfold Army.promoteNewLeader.
  destruct (Army.soldiers a) as [|newLeader rest]; simpl; [apply same_ids_refl|].
  apply modify_same_ids. intros s. simpl.
  now destruct (Soldier.modelMesh s).
Qed.

Lemma removeSoldier_same_ids (soldier : ref) (a : Army.t) (h : Heap) :
  same_ids h (snd (Army.removeSoldier soldier a h)).
Proof.
  unfold Army.removeSoldier.
  destruct (indexOf soldier (Army.soldiers a)); [|apply same_ids_refl].
  destruct (readb Soldier.isLeader h soldier); simpl.
  - destruct (negb _); [apply promoteNewLeader_same_ids|apply same_ids_refl].
  - apply same_ids_refl.
Qed.

Lemma onArmy_same_ids (key : string) (f : Army.t -> Heap -> Army.t * Heap) (g : Game.t) :
  (forall a h, same_ids h (snd (f a h))) ->
  same_ids (Game.heap g) (Game.heap (Game.onArmy key f g)).
Proof.
  intros Hf. unfold Game.onArmy.
  destruct (JsMap.get key (Game.armies g)) as [a|]; [|apply same_ids_refl].
  specialize (Hf a (Game.heap g)).
  destruct (f a (Game.heap g)) as [a' h']. exact Hf.
Qed.

Lemma convertSoldier_same_ids (soldier : ref) (fromArmy toArmy : string) (g : Game.t) :
  same_ids (Game.heap g) (Game.heap (Game.convertSoldier soldier fromArmy toArmy g)).
Proof.
  unfold Game.convertSoldier. cbv zeta.
  cbn [Game.heap Game.set_heap Game.set_conversions Game.call].
  eapply same_ids_trans; [apply (modify_same_ids soldier (Soldier.set_isConverting true)); now intros s|].
  apply modify_same_ids. intros s. unfold Game.firstFrame. simpl. apply setEmissive_id.
Qed.

Lemma conversionCallback_same_ids (soldier : ref) (fromArmy toArmy : string) (g : Game.t) :
  same_ids (Game.heap g) (Game.heap (Game.conversionCallback soldier fromArmy toArmy g)).
Proof.
  unfold Game.conversionCallback.
  set (g1 := Game.onArmy fromArmy (Army.removeSoldier soldier) g).
  set (g2 := Game.onArmy toArmy _ g1).
  assert (same_ids (Game.heap g) (Game.heap g2)) as H2.
  { eapply same_ids_trans.
    - apply onArmy_same_ids. intros a h. apply removeSoldier_same_ids.
    - apply onArmy_same_ids. intros a h. apply same_ids_refl. }
  set (h3 := modify soldier (Soldier.changeType (Game.typeOf toArmy g2)) (Game.heap g2)).
  set (h4 := modify soldier (Soldier.set_isConverting false) h3).
  assert (same_ids (Game.heap g) h4) as H4.
  { eapply same_ids_trans; [exact H2|].
    eapply same_ids_trans; [apply modify_same_ids; intros s; apply changeType_id|].
    now apply modify_same_ids. }
  simpl. fold h3. fold h4.
  destruct (negb (Game.isSoloTest g2)); simpl; [|exact H4].
  destruct (h4 !! soldier); exact H4.
Qed.

Lemma conversionEnds_same_ids (g : Game.t) :
  same_ids (Game.heap g) (Game.heap (Game.conversionEnds g)).
Proof.
  unfold Game.conversionEnds.
  destruct (Game.conversions g) as [|c rest]; [apply same_ids_refl|].
  unfold Game.finishConversion.
  set (g1 := Game.set_heap _ (Game.set_conversions rest g)).
  apply (same_ids_trans _ (Game.heap g1)); [|apply conversionCallback_same_ids].
  simpl. apply modify_same_ids. intros s. now rewrite setEmissive_id.
Qed.

Lemma applyChange_same_ids (g : Game.t) (c : FactionChange) :
  same_ids (Game.heap g) (Game.heap (applyChange g c)).
Proof.
  destruct c; cbn [applyChange].
  - simpl. apply modify_same_ids. intros s. apply changeType_id.
  - apply convertSoldier_same_ids.
  - apply conversionCallback_same_ids.
  - apply conversionEnds_same_ids.
Qed.

(** C4. Whatever sequence of faction changes runs ([changeType] calls,
    conversions started, soldiers moved from one roster to the other),
    every soldier object is still there afterwards and its [id] is the
    one it had before. *)
Theorem soldier_id_survives_conversion
    (changes : list FactionChange) (g : Game.t) (r : ref) (s : Soldier.t) :
  Game.heap g !! r = Some s ->
  exists s', Game.heap (fold_left applyChange changes g) !! r = Some s' /\
             Soldier.id s' = Soldier.id s.
Proof.
  revert g s. induction changes as [|c changes IH]; intros g s Hs; simpl.
  - now exists s.
  - destruct (applyChange_same_ids g c r s Hs) as (s1 & H1 & E1).
    destruct (IH (applyChange g c) s1 H1) as (s2 & H2 & E2).
    exists s2. split; [exact H2|congruence].
Qed.

Lemma soldier_id_survives_conversion_witness :
  Game.heap Examples.battle !! 11%nat
  = Some (Soldier.new "scissors" false "scissors_0") /\
  exists s',
    Game.heap (fold_left applyChange
                 [convert_soldier 11%nat "scissors" "rock"; conversion_ends;
                  change_type 11%nat "paper"; change_type 11%nat "rock"]
                 Examples.battle) !! 11%nat = Some s' /\
    Soldier.id s' = "scissors_0".
Proof.
  split; [reflexivity|].
  apply (soldier_id_survives_conversion
           [convert_soldier 11%nat "scissors" "rock"; conversion_ends;
            change_type 11%nat "paper"; change_type 11%nat "rock"]
           Examples.battle 11%nat (Soldier.new "scissors" false "scissors_0")).
  reflexivity.
Defined.

(** ** Reconciliation of positions *)

Lemma lerpSpeed_bounds : (0 < NetworkManager.lerpSpeed /\ NetworkManager.lerpSpeed < 1)%Q.
Proof. unfold NetworkManager.lerpSpeed. split; reflexivity. Qed.

Lemma lerp_approaches (local server : Q) :
  approaches local (NetworkManager.lerp local server) server.
Proof.
  unfold approaches, NetworkManager.lerp, NetworkManager.lerpSpeed.
  destruct (Qlt_le_dec server local); [right|left]; split; lra.
Qed.

Lemma rounding_exact : rounding (fun v => v).
Proof. repeat split; intros; lra. Qed.

Lemma rounding_proper (fl : Q -> Q) (a b : Q) :
  rounding fl -> (a == b)%Q -> (fl a == fl b)%Q.
Proof.
  intros (Hmono & _) Heq. apply Qle_antisym; apply Hmono; lra.
Qed.

Lemma lerpRounded_half (fl : Q -> Q) (local server : Q) :
  rounding fl ->
  (fl (fl (server - local) * NetworkManager.lerpSpeed) == fl (server - local) * (1 # 2))%Q.
Proof.
  intros Hfl. pose proof Hfl as (_ & _ & _ & _ & Hhalf).
  rewrite <- Hhalf. apply rounding_proper; [assumption|].
  unfold NetworkManager.lerpSpeed. lra.
Qed.

Lemma lerpRounded_approaches (fl : Q -> Q) (local server : Q) :
  rounding fl -> (fl local == local)%Q -> (fl server == server)%Q ->
  approaches local (NetworkManager.lerpRounded fl local server) server.
Proof.
  intros Hfl Hlocal Hserver. pose proof (lerpRounded_half fl local server Hfl) as Hhalf.
  destruct Hfl as (Hmono & Hzero & Hup & Hdown & _).
  unfold approaches, NetworkManager.lerpRounded.
  set (h := fl (fl (server - local) * NetworkManager.lerpSpeed)%Q) in *.
  destruct (Qlt_le_dec server local) as [Hlt|Hle]; [right|left].
  - assert (fl (server - local) <= 0)%Q as Hneg
      by (rewrite <- Hzero; apply Hmono; lra).
    pose proof (Hdown (server - local)%Q ltac:(lra)) as Hbound.
    split.
    + apply Qle_trans with (fl server); [lra|apply Hmono; lra].
    + apply Qle_trans with (fl local); [apply Hmono; lra|lra].
  - assert (0 <= fl (server - local))%Q as Hpos
      by (rewrite <- Hzero; apply Hmono; lra).
    pose proof (Hup (server - local)%Q ltac:(lra)) as Hbound.
    split.
    + apply Qle_trans with (fl local); [lra|apply Hmono; lra].
    + apply Qle_trans with (fl server); [apply Hmono; lra|lra].
Qed.

Lemma lerpRounded_there (fl : Q -> Q) (server : Q) :
  rounding fl -> (fl server == server)%Q ->
  (NetworkManager.lerpRounded fl server server == server)%Q.
Proof.
  intros Hfl Hserver.
  destruct (lerpRounded_approaches fl server server Hfl Hserver Hserver) as [[? ?]|[? ?]];
    lra.
Qed.

Lemma approaches_here (a t : Q) : approaches a a t.
Proof. unfold approaches. destruct (Qlt_le_dec t a); [right|left]; split; lra. Qed.

Lemma approaches_trans (a b c t : Q) :
  approaches a b t -> approaches b c t -> approaches a c t.
Proof.
  unfold approaches.
  intros [[? ?]|[? ?]] [[? ?]|[? ?]]; [left|left|right|right]; split; lra.
Qed.

Lemma approaches_error (a b t : Q) :
  approaches a b t -> (Qabs (t - b) <= Qabs (t - a))%Q.
Proof.
  unfold approaches. intros [[? ?]|[? ?]].
  - rewrite !Qabs_pos by lra. lra.
  - rewrite !Qabs_neg by lra. lra.
Qed.

Lemma findById_found (h : Heap) (id : string) (roster : list ref) (r : ref) :
  findById h id roster = Some r ->
  exists s, h !! r = Some s /\ Soldier.id s = id.
Proof.
  unfold findById. intros H. apply find_some in H as [_ H].
  destruct (h !! r) as [s|]; [|discriminate].
  exists s. split; [reflexivity|]. now apply String.eqb_eq.
Qed.

(** One matched soldier of a message: its x and z move by the fixed
    factor toward the values of the message, nothing else of it moves. *)
Lemma syncSoldier_matched
    (army : Army.t) (h : Heap) (serverSoldier : ServerSoldier) (r : ref) (s : Soldier.t) :
  findById h (server_id serverSoldier) (Army.soldiers army) = Some r ->
  h !! r = Some s ->
  NetworkManager.syncSoldier army h serverSoldier !! r
  = Some (Soldier.set_position
            {| x := NetworkManager.lerp (x (Soldier.position s)) (server_x serverSoldier);
               y := y (Soldier.position s);
               z := NetworkManager.lerp (z (Soldier.position s)) (server_z serverSoldier) |}
            s).
Proof.
  intros Hfind Hr. unfold NetworkManager.syncSoldier, modify.
  rewrite Hfind, Hr. apply list_lookup_insert_eq. now apply lookup_lt_Some in Hr.
Qed.

Section StationaryTarget.
(** The soldiers that carry the id [i], and the position the host
    reports for that id. *)
Variables (i : string) (tx tz : Q).

Lemma closing_in_start (h : Heap) : closing_in i tx tz h h.
Proof.
  intros r s Hr Hid. exists s. repeat split; try assumption; apply approaches_here.
Qed.

Lemma syncSoldier_closing_in
    (h0 h : Heap) (army : Army.t) (serverSoldier : ServerSoldier) :
  reports_target i tx tz serverSoldier ->
  closing_in i tx tz h0 h ->
  closing_in i tx tz h0 (NetworkManager.syncSoldier army h serverSoldier).
Proof.
  intros Htarget Hinv r s0 Hr0 Hid0.
  destruct (Hinv r s0 Hr0 Hid0) as (s & Hr & Hid & Hx & Hz).
  unfold NetworkManager.syncSoldier.
  destruct (findById h (server_id serverSoldier) (Army.soldiers army)) as [r'|] eqn:Hfind;
    [|now exists s].
  destruct (findById_found _ _ _ _ Hfind) as (s' & Hr' & Hid').
  unfold modify. rewrite Hr'.
  destruct (decide (r' = r)) as [->|Hne].
  - assert (s' = s) as -> by congruence.
    destruct (Htarget ltac:(congruence)) as [-> ->].
    eexists. split; [apply list_lookup_insert_eq; now apply lookup_lt_Some in Hr|].
    simpl. split; [exact Hid|]. split.
    + eapply approaches_trans; [exact Hx|apply lerp_approaches].
    + eapply approaches_trans; [exact Hz|apply lerp_approaches].
  - exists s. rewrite list_lookup_insert_ne by exact Hne. now repeat split.
Qed.

Lemma syncSoldiers_closing_in (h0 : Heap) (army : Army.t) (l : list ServerSoldier) :
  forall h,
    Forall (reports_target i tx tz) l ->
    closing_in i tx tz h0 h ->
    closing_in i tx tz h0 (fold_left (NetworkManager.syncSoldier army) l h).
Proof.
  induction l as [|serverSoldier l IH]; intros h Hall Hinv; simpl; [exact Hinv|].
  apply Forall_cons in Hall as [Hhead Htail].
  apply IH; [exact Htail|]. now apply syncSoldier_closing_in.
Qed.

Lemma syncArmy_closing_in (h0 : Heap) (game : Game.t) (entry : string * ArmyData) :
  Forall (reports_target i tx tz) (data_soldiers (snd entry)) ->
  closing_in i tx tz h0 (Game.heap game) ->
  closing_in i tx tz h0 (Game.heap (NetworkManager.syncArmy game entry)) /\
  Game.state (NetworkManager.syncArmy game entry) = Game.state game.
Proof.
  intros Hall Hinv. destruct entry as [type armyData]. unfold NetworkManager.syncArmy.
  destruct (JsMap.get type (Game.armies game)) as [army|]; [|now split].
  simpl. split; [|reflexivity]. now apply syncSoldiers_closing_in.
Qed.

Lemma syncArmies_closing_in (h0 : Heap) (armies : list (string * ArmyData)) :
  forall game,
    Forall (fun entry => Forall (reports_target i tx tz) (data_soldiers (snd entry))) armies ->
    closing_in i tx tz h0 (Game.heap game) ->
    closing_in i tx tz h0 (Game.heap (fold_left NetworkManager.syncArmy armies game)) /\
    Game.state (fold_left NetworkManager.syncArmy armies game) = Game.state game.
Proof.
  induction armies as [|entry armies IH]; intros game Hall Hinv; simpl; [now split|].
  apply Forall_cons in Hall as [Hhead Htail].
  destruct (syncArmy_closing_in h0 game entry Hhead Hinv) as [Hinv1 Hstate1].
  destruct (IH _ Htail Hinv1) as [Hinv2 Hstate2].
  split; [exact Hinv2|congruence].
Qed.

(** One [game_state] message on a client in the Playing phase. *)
Lemma handleGameStateSync_closing_in
    (n : NetworkManager.t) (g : Game.t) (armies : list (string * ArmyData)) :
  NetworkManager.isHost n = false ->
  NetworkManager.app_game n = Some g ->
  Game.state g = "playing" ->
  Forall (fun entry => Forall (reports_target i tx tz) (data_soldiers (snd entry))) armies ->
  exists g',
    NetworkManager.app_game (NetworkManager.handleGameStateSync armies n) = Some g' /\
    NetworkManager.isHost (NetworkManager.handleGameStateSync armies n) = false /\
    Game.state g' = "playing" /\
    closing_in i tx tz (Game.heap g) (Game.heap g').
Proof.
  intros Hclient Hgame Hplaying Hall. unfold NetworkManager.handleGameStateSync.
  rewrite Hclient, Hgame, Hplaying. simpl.
  destruct (syncArmies_closing_in (Game.heap g) armies g Hall (closing_in_start _))
    as [Hinv Hstate].
  eexists. split; [reflexivity|]. split; [exact Hclient|].
  split; [congruence|exact Hinv].
Qed.

End StationaryTarget.

(** C8, as the code has it.  On a client in the Playing phase a
    [game_state] message replaces the x and z of each matched soldier by
    the interpolation of the old value and the value it carries, with the
    fixed factor 1/2 (strictly between 0 and 1), which lies between the
    two.  While the host keeps reporting one position for a soldier id,
    every application of the message, the first or a repeated one,
    leaves each local soldier of that id between where it was and the
    reported position: the error on each axis never grows and the
    position never passes the reported one.  The place between the two
    values does not depend on the exact arithmetic: it is kept when the
    three operations of the interpolation are rounded, for every
    [rounding] and values that are rounded already, and a coordinate
    that has reached the reported value stays on it.  A repeated message
    is not idempotent, though: there are a client and a message whose
    second application moves a soldier again. *)
Theorem game_state_sync_approaches
    (n : NetworkManager.t) (g : Game.t) (armies : list (string * ArmyData))
    (i : string) (tx tz : Q) (replays : nat) :
  NetworkManager.isHost n = false ->
  NetworkManager.app_game n = Some g ->
  Game.state g = "playing" ->
  (forall type armyData serverSoldier,
      In (type, armyData) armies -> In serverSoldier (data_soldiers armyData) ->
      server_id serverSoldier = i ->
      server_x serverSoldier = tx /\ server_z serverSoldier = tz) ->
  let before := Nat.iter replays (NetworkManager.handleGameStateSync armies) n in
  let after := NetworkManager.handleGameStateSync armies before in
  (0 < NetworkManager.lerpSpeed /\ NetworkManager.lerpSpeed < 1)%Q /\
  (forall army h serverSoldier r s,
      findById h (server_id serverSoldier) (Army.soldiers army) = Some r ->
      h !! r = Some s ->
      NetworkManager.syncSoldier army h serverSoldier !! r
      = Some (Soldier.set_position
                {| x := NetworkManager.lerp (x (Soldier.position s)) (server_x serverSoldier);
                   y := y (Soldier.position s);
                   z := NetworkManager.lerp (z (Soldier.position s)) (server_z serverSoldier) |}
                s)) /\
  (forall local server, approaches local (NetworkManager.lerp local server) server) /\
  (forall local server,
      NetworkManager.lerpRounded (fun v => v) local server = NetworkManager.lerp local server) /\
  (forall fl local server,
      rounding fl -> (fl local == local)%Q -> (fl server == server)%Q ->
      approaches local (NetworkManager.lerpRounded fl local server) server /\
      (NetworkManager.lerpRounded fl server server == server)%Q) /\
  (exists g1 g2,
    NetworkManager.app_game before = Some g1 /\
    NetworkManager.app_game after = Some g2 /\
    forall r s,
      Game.heap g1 !! r = Some s -> Soldier.id s = i ->
      exists s',
        Game.heap g2 !! r = Some s' /\ Soldier.id s' = i /\
        approaches (x (Soldier.position s)) (x (Soldier.position s')) tx /\
        approaches (z (Soldier.position s)) (z (Soldier.position s')) tz /\
        (Qabs (tx - x (Soldier.position s')) <= Qabs (tx - x (Soldier.position s)))%Q /\
        (Qabs (tz - z (Soldier.position s')) <= Qabs (tz - z (Soldier.position s)))%Q) /\
  (exists client message r,
    let once := NetworkManager.handleGameStateSync message client in
    let twice := NetworkManager.handleGameStateSync message once in
    ~ (shown_x twice r == shown_x once r)%Q).
Proof.
  intros Hclient Hgame Hplaying Htarget before after.
  split; [exact lerpSpeed_bounds|]. split; [exact syncSoldier_matched|].
  split; [exact lerp_approaches|].
  split; [reflexivity|].
  split.
  { intros fl local server Hfl Hlocal Hserver.
    split; [now apply lerpRounded_approaches|now apply lerpRounded_there]. }
  split.
  2:{ exists Examples.client, Examples.report, 0%nat. cbv zeta. vm_compute. discriminate. }
  assert (Forall (fun entry => Forall (reports_target i tx tz) (data_soldiers (snd entry)))
                 armies) as Hall.
  { apply Forall_forall. intros [type armyData] Hin.
    apply Forall_forall. intros serverSoldier Hin' Hid. simpl in Hin'.
    apply list_elem_of_In in Hin. apply list_elem_of_In in Hin'.
    now apply (Htarget type armyData serverSoldier). }
  assert (exists g1, NetworkManager.app_game before = Some g1 /\
                     NetworkManager.isHost before = false /\
                     Game.state g1 = "playing") as (g1 & Hg1 & Hc1 & Hp1).
  { subst before. clear after. induction replays as [|k IH]; simpl.
    - now exists g.
    - destruct IH as (gk & Hgk & Hck & Hpk).
      destruct (handleGameStateSync_closing_in i tx tz _ gk armies Hck Hgk Hpk Hall)
        as (g' & Hg' & Hc' & Hp' & _).
      now exists g'. }
  destruct (handleGameStateSync_closing_in i tx tz before g1 armies Hc1 Hg1 Hp1 Hall)
    as (g2 & Hg2 & _ & _ & Hinv).
  exists g1, g2. split; [exact Hg1|]. split; [exact Hg2|].
  intros r s Hr Hid.
  destruct (Hinv r s Hr Hid) as (s' & Hr' & Hid' & Hx & Hz).
  exists s'. repeat split; try assumption; now apply approaches_error.
Qed.

Lemma game_state_sync_approaches_witness :
  NetworkManager.isHost Examples.client = false /\
  NetworkManager.app_game Examples.client = Some Examples.battle /\
  Game.state Examples.battle = "playing" /\
  exists g1 g2,
    NetworkManager.app_game
      (NetworkManager.handleGameStateSync Examples.report Examples.client) = Some g1 /\
    NetworkManager.app_game
      (NetworkManager.handleGameStateSync Examples.report
         (NetworkManager.handleGameStateSync Examples.report Examples.client)) = Some g2 /\
    forall r s,
      Game.heap g1 !! r = Some s -> Soldier.id s = "rock_LEADER" ->
      exists s',
        Game.heap g2 !! r = Some s' /\
        approaches (x (Soldier.position s)) (x (Soldier.position s')) 4.
Proof.
  split; [reflexivity|]. split; [reflexivity|]. split; [reflexivity|].
  assert (forall type armyData serverSoldier,
             In (type, armyData) Examples.report ->
             In serverSoldier (data_soldiers armyData) ->
             server_id serverSoldier = "rock_LEADER" ->
             server_x serverSoldier = 4%Q /\ server_z serverSoldier = 0%Q) as Hreport.
  { intros type armyData serverSoldier [Harmy|[]] Hsoldier _.
    inversion Harmy; subst. simpl in Hsoldier.
    destruct Hsoldier as [<-|[]]. split; reflexivity. }
  destruct (game_state_sync_approaches Examples.client Examples.battle Examples.report
              "rock_LEADER" 4%Q 0%Q 1 eq_refl eq_refl eq_refl Hreport)
    as (_ & _ & _ & _ & _ & (g1 & g2 & Hg1 & Hg2 & Hmove) & _).
  exists g1, g2. split; [exact Hg1|]. split; [exact Hg2|].
  intros r s Hr Hid.
  destruct (Hmove r s Hr Hid) as (s' & Hr' & _ & Hx & _).
  exists s'. split; [exact Hr'|exact Hx].
Defined.

(** C8 as stated fails on the replay: the Rock leader stands at x = 0
    and the host reports x = 4.  One application of the message moves
    the soldier to 2, the second one on to 3: applied twice, the message
    changed the position by 3, applied once by 2.  (All of 0, 2, 3 and 4
    and the differences and halves on the way are doubles, so no
    rounding is involved.) *)
Lemma game_state_replay_changes_more :
  let once := NetworkManager.handleGameStateSync Examples.report Examples.client in
  let twice := NetworkManager.handleGameStateSync Examples.report once in
  (shown_x Examples.client 0 == 0)%Q /\
  (shown_x once 0 == 2)%Q /\
  (shown_x twice 0 == 3)%Q /\
  twice <> once /\
  ~ (Qabs (shown_x twice 0 - shown_x Examples.client 0)
     <= Qabs (shown_x once 0 - shown_x Examples.client 0))%Q.
Proof.
  cbv zeta. split; [reflexivity|]. split; [reflexivity|]. split; [reflexivity|].
  split.
  - intros Heq. apply (f_equal (fun n => Qnum (shown_x n 0))) in Heq.
    vm_compute in Heq. discriminate Heq.
  - vm_compute. intros H. now apply H.
Qed.

(** ** Party codes *)

Lemma length_append (a b : string) :
  String.length (String.append a b) = (String.length a + String.length b)%nat.
Proof. induction a as [|c a IH]; simpl; [reflexivity|now rewrite IH]. Qed.

Lemma list_ascii_append (a b : string) :
  list_ascii_of_string (String.append a b)
  = list_ascii_of_string a ++ list_ascii_of_string b.
Proof. induction a as [|c a IH]; simpl; [reflexivity|now rewrite IH]. Qed.

Lemma unambiguous_append (a b : string) :
  unambiguous (String.append a b) = unambiguous a && unambiguous b.
Proof. unfold unambiguous. now rewrite list_ascii_append, forallb_app. Qed.

(** One draw of the PeerJS generator gives one character of its
    alphabet, which is none of I, O, 0, 1. *)
Lemma pick_one (r : Q) :
  (0 <= r)%Q -> (r < 1)%Q ->
  String.length (PeerJS.pick r) = 1%nat /\ unambiguous (PeerJS.pick r) = true.
Proof.
  intros H0 H1. unfold PeerJS.pick.
  set (index := Qfloor (r * inject_Z (Z.of_nat (String.length PeerJS.chars)))).
  assert (0 <= index < 32) as Hrange.
  { subst index. change (inject_Z (Z.of_nat (String.length PeerJS.chars))) with 32%Q. split.
    - change 0 with (Qfloor 0). apply Qfloor_resp_le. lra.
    - pose proof (Qfloor_le (r * 32)) as Hle.
      assert (inject_Z (Qfloor (r * 32)) < inject_Z 32)%Q as Hlt
        by (change (inject_Z 32) with 32%Q; lra).
      now rewrite <- Zlt_Qlt in Hlt. }
  assert ((index <? 0) = false) as -> by lia.
  assert (Z.to_nat index < 32)%nat as Hn by lia.
  revert Hn. generalize (Z.to_nat index) as k. intros k Hk.
  do 32 (destruct k as [|k]; [split; reflexivity|]).
  lia.
Qed.

Lemma generateLoop_wellformed (host : Host) :
  (forall k, (0 <= Math_random host k)%Q /\ (Math_random host k < 1)%Q) ->
  forall (n k : nat) (id : string),
    String.length (PeerJS.generateLoop host n k id) = (String.length id + n)%nat /\
    unambiguous (PeerJS.generateLoop host n k id) = unambiguous id.
Proof.
  intros Hrandom. induction n as [|n IH]; intros k id; simpl.
  - split; [lia|reflexivity].
  - destruct (IH (S k) (String.append id (PeerJS.pick (Math_random host k)))) as [Hlen Hok].
    destruct (pick_one (Math_random host k)) as [Hone Hpick]; [apply Hrandom..|].
    rewrite Hlen, Hok, length_append, unambiguous_append, Hone, Hpick.
    split; [lia|apply andb_true_r].
Qed.

(** The PeerJS [generatePartyId] keeps the format: six characters of
    the alphabet without look-alikes. *)
Lemma PeerJS_generatePartyId_wellformed (host : Host) :
  (forall k, (0 <= Math_random host k)%Q /\ (Math_random host k < 1)%Q) ->
  wellFormedCode (PeerJS.generatePartyId host) = true.
Proof.
  intros Hrandom. unfold PeerJS.generatePartyId, wellFormedCode.
  destruct (generateLoop_wellformed host Hrandom 6 0 EmptyString) as [-> ->]. reflexivity.
Qed.

(** A code typed by a joiner becomes the party id and the channel name
    in upper case. *)
Lemma joinParty_uppercase (party : string) (n : NetworkManager.t) :
  NetworkManager.partyId (NetworkManager.joinParty party n) = Some (toUpperCase party) /\
  NetworkManager.channel (NetworkManager.joinParty party n) = Some (toUpperCase party).
Proof. split; reflexivity. Qed.

(** C6 on the cloud-relay [generatePartyId]: when [Math.random()] is
    0.5, whose base-36 rendering is "0.i", the party code is the single
    character "I": not six characters, and a look-alike the format
    excludes.  The host then carries that code as party id and channel. *)
Theorem cloud_generatePartyId_breaks_format :
  NetworkManager.generatePartyId "0.i" = "I" /\
  String.length (NetworkManager.generatePartyId "0.i") = 1%nat /\
  unambiguous (NetworkManager.generatePartyId "0.i") = false /\
  wellFormedCode (NetworkManager.generatePartyId "0.i") = false /\
  NetworkManager.partyId
    (NetworkManager.createParty "0.i"
       (NetworkManager.new {| user_id := "u-host"; user_name := "host" |})) = Some "I".
Proof. repeat split; reflexivity. Qed.

(** ** Leaders *)

Lemma indexOf_split (r : ref) (l : list ref) (index : nat) :
  indexOf r l = Some index ->
  exists l1 l2, l = l1 ++ r :: l2 /\ delete index l = l1 ++ l2.
Proof.
  revert index. induction l as [|r' l IH]; intros index; simpl; [discriminate|].
  destruct (Nat.eqb_spec r' r) as [->|Hne].
  - intros [= <-]. now exists [], l.
  - destruct (indexOf r l) as [k|]; simpl; [|discriminate].
    intros [= <-]. destruct (IH k eq_refl) as (l1 & l2 & -> & Hdel).
    exists (r' :: l1), l2. split; [reflexivity|]. simpl. now rewrite Hdel.
Qed.

(** [addSoldier] takes the soldier with the flag it carries. *)
Lemma addSoldier_leaders (soldier : ref) (a : Army.t) (h : Heap) :
  leaders h (Army.addSoldier soldier a)
  = leaders h a ++ (if readb Soldier.isLeader h soldier then [soldier] else []).
Proof.
  unfold leaders, Army.addSoldier. simpl. rewrite List.filter_app. reflexivity.
Qed.

Lemma filter_nil_false {A : Type} (P : A -> bool) (l : list A) (v : A) :
  List.filter P l = [] -> In v l -> P v = false.
Proof.
  intros Hnil Hin. destruct (P v) eqn:HP; [|reflexivity].
  assert (In v (List.filter P l)) as H by (apply filter_In; now split).
  rewrite Hnil in H. contradiction.
Qed.

(** On the roster a soldier leaves, the invariant of C1 is kept: either
    the army is now empty and without leader, or it still has exactly
    one flagged soldier, its leader. *)
Lemma removeSoldier_one_leader (soldier : ref) (a : Army.t) (h : Heap) :
  NoDup (Army.soldiers a) ->
  Forall (fun r => is_Some (h !! r)) (Army.soldiers a) ->
  one_leader h a ->
  let '(a', h') := Army.removeSoldier soldier a h in
  (Army.soldiers a' = [] /\ Army.leader a' = None) \/ one_leader h' a'.
Proof.
  intros Hnd Hvalid (l & Hleader & Hflags). unfold Army.removeSoldier.
  destruct (indexOf soldier (Army.soldiers a)) as [index|] eqn:Hindex;
    [|right; now exists l].
  destruct (indexOf_split _ _ _ Hindex) as (l1 & l2 & Hsplit & Hdel).
  rewrite Hdel. unfold leaders in Hflags. rewrite Hsplit in Hflags, Hnd, Hvalid.
  rewrite List.filter_app in Hflags. simpl in Hflags.
  assert (NoDup (l1 ++ l2)) as Hnd'.
  { apply NoDup_app in Hnd as (Hnd1 & Hsep & Hnd2).
    apply NoDup_cons in Hnd2 as [_ Hnd2].
    apply NoDup_app. split; [exact Hnd1|]. split; [|exact Hnd2].
    intros v Hv Hv2. apply (Hsep v Hv). now right. }
  assert (Forall (fun r => is_Some (h !! r)) (l1 ++ l2)) as Hvalid'.
  { apply Forall_app in Hvalid as [Hv1 Hv2]. apply Forall_cons in Hv2 as [_ Hv2].
    now apply Forall_app. }
  destruct (readb Soldier.isLeader h soldier) eqn:Hflag; simpl.
  - (* the flagged soldier leaves *)
    assert (List.filter (readb Soldier.isLeader h) (l1 ++ l2) = []) as Hnone.
    { rewrite List.filter_app.
      destruct (List.filter (readb Soldier.isLeader h) l1) as [|v vs]; simpl in Hflags.
      - now injection Hflags as _ ->.
      - injection Hflags as _ Hnil. now destruct vs. }
    destruct (l1 ++ l2) as [|first rest] eqn:Hrest; simpl; [left; now split|].
    right. unfold Army.promoteNewLeader. simpl.
    exists first. split; [reflexivity|].
    apply Forall_cons in Hvalid' as [[s Hfirst] _].
    apply NoDup_cons in Hnd' as [Hfresh _].
    unfold leaders. simpl. unfold modify. rewrite Hfirst.
    match goal with
    | |- context [<[first := ?v]> h] => set (h' := <[first := v]> h)
    end.
    assert (readb Soldier.isLeader h' first = true) as Hpromoted.
    { unfold readb, h'.
      rewrite list_lookup_insert_eq by (now apply lookup_lt_Some in Hfirst).
      simpl. destruct (Soldier.modelMesh s); reflexivity. }
    rewrite Hpromoted. f_equal.
    rewrite (List.filter_ext_in (readb Soldier.isLeader h') (readb Soldier.isLeader h)).
    + simpl in Hnone. destruct (readb Soldier.isLeader h first); [discriminate|exact Hnone].
    + intros v Hv. unfold readb, h'. rewrite list_lookup_insert_ne; [reflexivity|].
      intros ->. apply Hfresh. now apply list_elem_of_In.
  - (* a follower leaves *)
    right. exists l. split; [exact Hleader|].
    unfold leaders. simpl. now rewrite List.filter_app.
Qed.

(** The part of C1 the code keeps: when the flagged soldier leaves a
    roster that stays non-empty, the first remaining soldier is made
    leader in the same call. *)
Lemma removeSoldier_promotes
    (soldier : ref) (a : Army.t) (h : Heap) (index : nat) (first : ref) (rest : list ref)
    (s : Soldier.t) :
  indexOf soldier (Army.soldiers a) = Some index ->
  readb Soldier.isLeader h soldier = true ->
  delete index (Army.soldiers a) = first :: rest ->
  h !! first = Some s ->
  let '(a', h') := Army.removeSoldier soldier a h in
  Army.soldiers a' = first :: rest /\
  Army.leader a' = Some first /\
  readb Soldier.isLeader h' first = true.
Proof.
  intros Hindex Hflag Hrest Hfirst. unfold Army.removeSoldier.
  rewrite Hindex, Hflag.
  cbn [Army.soldiers Army.set_soldiers]. rewrite Hrest.
  cbn [length Nat.eqb negb andb].
  unfold Army.promoteNewLeader. cbn [Army.soldiers Army.set_soldiers].
  split; [reflexivity|]. split; [reflexivity|].
  unfold readb, modify. rewrite Hfirst.
  rewrite list_lookup_insert_eq by (now apply lookup_lt_Some in Hfirst).
  simpl. destruct (Soldier.modelMesh s); reflexivity.
Qed.

(** And when the flagged soldier was the last one, the army has no
    leader any more. *)
Lemma removeSoldier_last (soldier : ref) (a : Army.t) (h : Heap) :
  Army.soldiers a = [soldier] ->
  readb Soldier.isLeader h soldier = true ->
  Army.removeSoldier soldier a h = (Army.set_leader None (Army.set_soldiers [] a), h).
Proof.
  intros Hone Hflag. unfold Army.removeSoldier.
  rewrite Hone. simpl. rewrite Nat.eqb_refl. simpl. now rewrite Hflag.
Qed.

(** C1 on the conversion of a leader.  A Paper soldier meets the Rock
    leader; Paper dominates, the Rock leader converts.  When the
    animation ends Rock has promoted its first remaining soldier, and it
    alone carries the flag there; but the converted soldier arrives in
    Paper's roster with its flag still set, next to Paper's own leader:
    a non-empty army with two flagged soldiers. *)
Theorem converted_leader_second_leader :
  let g := Game.conversionEnds
             (Game.handleCollision 0%nat 6%nat SOLDIER_TYPES.ROCK SOLDIER_TYPES.PAPER
                Examples.battle) in
  leaders (Game.heap Examples.battle) (Examples.army SOLDIER_TYPES.ROCK Examples.battle) = [0%nat] /\
  leaders (Game.heap Examples.battle) (Examples.army SOLDIER_TYPES.PAPER Examples.battle) = [5%nat] /\
  Army.soldiers (Examples.army SOLDIER_TYPES.ROCK g) = [1; 2; 3; 4]%nat /\
  Army.leader (Examples.army SOLDIER_TYPES.ROCK g) = Some 1%nat /\
  leaders (Game.heap g) (Examples.army SOLDIER_TYPES.ROCK g) = [1%nat] /\
  Army.soldiers (Examples.army SOLDIER_TYPES.PAPER g) = [5; 6; 7; 8; 9; 0]%nat /\
  Army.leader (Examples.army SOLDIER_TYPES.PAPER g) = Some 5%nat /\
  leaders (Game.heap g) (Examples.army SOLDIER_TYPES.PAPER g) = [5; 0]%nat /\
  length (leaders (Game.heap g) (Examples.army SOLDIER_TYPES.PAPER g)) <> 1%nat.
Proof. cbv zeta. repeat split; try reflexivity. vm_compute. discriminate. Qed.

(** ** The tick of the host *)

Ltac game_fields :=
  cbn [Game.armies Game.heap Game.state Game.calls Game.conversions Game.isSoloTest
       Game.powerUpManager Game.arena Game.localPlayerType Game.placementTimer
       Game.set_heap Game.set_armies Game.set_conversions Game.call Game.set_state
       Game.set_placement Game.set_powerUpManager].

Lemma modify_length (r : ref) (f : Soldier.t -> Soldier.t) (h : Heap) :
  length (modify r f h) = length h.
Proof. unfold modify. destruct (h !! r); [apply length_insert|reflexivity]. Qed.

Lemma filter_all_false {A : Type} (P : A -> bool) (l : list A) :
  (forall v, In v l -> P v = false) -> List.filter P l = [].
Proof.
  induction l as [|v l IH]; intros Hall; simpl; [reflexivity|].
  rewrite (Hall v (or_introl eq_refl)). apply IH. intros w Hw. apply Hall. now right.
Qed.

(** *** The log *)

Lemma raised_app (g g' : Game.t) (new : list Call) :
  Game.calls g' = Game.calls g ++ new ->
  Game.raised g g' = existsb Game.isTypeError new.
Proof. intros H. unfold Game.raised. now rewrite H, drop_app_length. Qed.

Lemma carries_on_intro (g g' : Game.t) (new : list Call) :
  Game.state g' = Game.state g ->
  Game.armies g' = Game.armies g ->
  Game.powerUpManager g' = Game.powerUpManager g ->
  Game.calls g' = Game.calls g ++ new ->
  carries_on g g'.
Proof.
  intros Hs Ha Hm Hc. unfold carries_on, standing. rewrite Hs, Ha, Hm.
  repeat split; auto. now exists new.
Qed.

Lemma carries_on_refl (g : Game.t) : carries_on g g.
Proof. apply (carries_on_intro g g []); auto using app_nil_r. Qed.

Lemma carries_on_trans (g1 g2 g3 : Game.t) :
  carries_on g1 g2 -> carries_on g2 g3 -> carries_on g1 g3.
Proof.
  intros (Hs & Ha & Hm & n1 & Hc) (Hs' & Ha' & Hm' & n2 & Hc').
  split; [congruence|]. split; [congruence|]. split; [tauto|].
  exists (n1 ++ n2). now rewrite Hc', Hc, app_assoc.
Qed.

Lemma carries_on_raised (g1 g2 g3 : Game.t) :
  carries_on g1 g2 -> carries_on g2 g3 ->
  Game.raised g1 g3 = Game.raised g1 g2 || Game.raised g2 g3.
Proof.
  intros (_ & _ & _ & n1 & Hc) (_ & _ & _ & n2 & Hc').
  rewrite (raised_app g1 g2 n1 Hc), (raised_app g2 g3 n2 Hc').
  rewrite (raised_app g1 g3 (n1 ++ n2)) by (now rewrite Hc', Hc, app_assoc).
  apply existsb_app.
Qed.

Lemma call_carries (c : Call) (g : Game.t) : carries_on g (Game.call c g).
Proof. now apply (carries_on_intro _ _ [c]). Qed.

Lemma call_TypeError_raised (reading : string) (g : Game.t) :
  Game.raised g (Game.call (TypeError reading) g) = true.
Proof. now rewrite (raised_app _ _ [TypeError reading]). Qed.

Lemma andThen_carries (f k : Game.t -> Game.t) (g : Game.t) :
  carries_on g (f g) -> carries_on (f g) (k (f g)) -> carries_on g (Game.andThen f k g).
Proof.
  intros Hf Hk. unfold Game.andThen. cbv zeta.
  destruct (Game.raised g (f g)); [exact Hf|]. now apply (carries_on_trans g (f g)).
Qed.

(** A loop whose body lets the match carry on, from every state that
    satisfies an invariant which carrying on preserves. *)
Lemma forEach_carries {A : Type} (I : Game.t -> Prop) (body : A -> Game.t -> Game.t)
    (l : list A) (g : Game.t) :
  (forall g1 g2, I g1 -> carries_on g1 g2 -> I g2) ->
  (forall item g1, In item l -> I g1 -> carries_on g1 (body item g1)) ->
  I g -> carries_on g (Game.forEach body l g).
Proof.
  intros Hkeep Hbody Hg. unfold Game.forEach.
  assert (forall g1, carries_on g g1 ->
            carries_on g (fold_left (fun g1 item => if Game.raised g g1 then g1 else body item g1)
                            l g1)) as Hloop.
  { induction l as [|item l IH]; intros g1 H1; simpl; [exact H1|].
    apply IH.
    - intros item' g2 Hin. apply Hbody. now right.
    - destruct (Game.raised g g1); [exact H1|].
      apply (carries_on_trans g g1); [exact H1|].
      apply Hbody; [now left|]. now apply (Hkeep g). }
  apply Hloop, carries_on_refl.
Qed.

Lemma fold_left_carries {A : Type} (f : Game.t -> A -> Game.t) (l : list A) :
  (forall g item, carries_on g (f g item)) ->
  forall g, carries_on g (fold_left f l g).
Proof.
  intros Hf. induction l as [|item l IH]; intros g; simpl; [apply carries_on_refl|].
  apply (carries_on_trans g (f g item)); [apply Hf|apply IH].
Qed.

(** *** Armies that stand *)

Lemma JsMap_set_map {V W : Type} (F : V -> W) (k : string) (v v' : V) (m : JsMap.t V) :
  JsMap.get k m = Some v -> F v' = F v ->
  map (fun entry => (fst entry, F (snd entry))) (JsMap.set k v' m)
  = map (fun entry => (fst entry, F (snd entry))) m.
Proof.
  intros Hget HF. induction m as [|[k0 v0] m IH]; simpl in *; [discriminate|].
  destruct (String.eqb k k0).
  - injection Hget as ->. simpl. now rewrite HF.
  - simpl. now rewrite IH.
Qed.

Lemma onArmy_carries (key : string) (f : Army.t -> Heap -> Army.t * Heap) (g : Game.t) :
  (forall a, JsMap.get key (Game.armies g) = Some a ->
             Nat.eqb (length (Army.soldiers (fst (f a (Game.heap g))))) 0
             = Nat.eqb (length (Army.soldiers a)) 0) ->
  carries_on g (Game.onArmy key f g).
Proof.
  intros Hf. unfold Game.onArmy.
  destruct (JsMap.get key (Game.armies g)) as [a|] eqn:Hget; [|apply carries_on_refl].
  specialize (Hf a eq_refl). destruct (f a (Game.heap g)) as [a' h']. simpl in Hf.
  split; [reflexivity|]. split.
  - unfold standing, JsMap.entries. game_fields.
    now apply (JsMap_set_map (fun a => Nat.eqb (length (Army.soldiers a)) 0) key a a').
  - split; [reflexivity|]. exists []. game_fields. now rewrite app_nil_r.
Qed.

Lemma set_heap_carries (h : Heap) (g : Game.t) : carries_on g (Game.set_heap h g).
Proof. apply (carries_on_intro _ _ []); auto using app_nil_r. Qed.

Lemma set_randomCalls_carries (k : nat) (g : Game.t) : carries_on g (Game.set_randomCalls k g).
Proof. apply (carries_on_intro _ _ []); auto using app_nil_r. Qed.

Lemma random_carries (host : Host) (g : Game.t) : carries_on g (snd (Game.random host g)).
Proof. apply set_randomCalls_carries. Qed.

Lemma onManager_carries (f : PowerUpManager.t -> PowerUpManager.t) (g : Game.t) :
  carries_on g (PowerUpEffects.onManager f g).
Proof.
  unfold PowerUpEffects.onManager.
  destruct (Game.powerUpManager g) as [m|] eqn:Hm; [|apply carries_on_refl].
  split; [reflexivity|]. split; [reflexivity|]. split.
  - game_fields. rewrite Hm. split; discriminate.
  - exists []. game_fields. now rewrite app_nil_r.
Qed.

Lemma standing_get (key : string) (g : Game.t) :
  JsMap.get key (standing g)
  = (fun a => Nat.eqb (length (Army.soldiers a)) 0) <$> JsMap.get key (Game.armies g).
Proof.
  unfold standing, JsMap.entries.
  induction (Game.armies g) as [|[k a] m IH]; simpl; [reflexivity|].
  destruct (String.eqb key k); [reflexivity|exact IH].
Qed.

Lemma standing_kept (key : string) (g g' : Game.t) :
  JsMap.get key (standing g) = Some false -> carries_on g g' ->
  JsMap.get key (standing g') = Some false.
Proof. intros H (_ & -> & _). exact H. Qed.

(** *** The armies move *)

Lemma Army_update_army (host : Host) (delta : Q) (input : option Input) (arena : Arena.t)
    (a : Army.t) (h : Heap) :
  fst (Army.update host delta input arena a h) = a.
Proof.
  unfold Army.update. destruct input as [input|]; [|reflexivity].
  destruct (Nat.eqb (length (Army.soldiers a)) 0); [reflexivity|].
  cbv zeta. now destruct (Army.isReversed a).
Qed.

Lemma move_carries (host : Host) (delta : Q) (type : string) (input : Input) (g : Game.t) :
  carries_on g (HostTick.move host delta type input g).
Proof.
  unfold HostTick.move.
  destruct (JsMap.get type (Game.armies g)) as [army|]; [|apply carries_on_refl].
  destruct (Nat.eqb (length (Army.soldiers army)) 0); [apply carries_on_refl|].
  destruct (Game.arena g) as [arena|]; [|apply call_carries].
  apply onArmy_carries. intros a _. now rewrite Army_update_army.
Qed.

Lemma wander_carries (host : Host) (type : string) (g : Game.t) :
  carries_on g (snd (HostTick.wander host type g)).
Proof.
  unfold HostTick.wander. cbv zeta. cbn [snd].
  destruct (match JsMap.get type (Game.aiUpdateTimers g) with
            | Some last => (Date_now host - last >? 2000)%Z
            | None => true
            end); [|apply carries_on_refl].
  unfold Game.random. cbv zeta.
  eapply carries_on_trans; [|apply onArmy_carries; now intros a _].
  apply (carries_on_intro _ _ []); auto using app_nil_r.
Qed.

Lemma getAIInput_carries (host : Host) (type : string) (g : Game.t) :
  carries_on g (snd (HostTick.getAIInput host type g)).
Proof.
  unfold HostTick.getAIInput. cbv zeta.
  destruct (_ ≫= _) as [ld|]; [|apply carries_on_refl].
  destruct (match HostTick.scan host type (Soldier.getPosition ld) (Some 10%Q) _ g with
            | Some (dangerDistance, dangerPos) =>
                if Qltb dangerDistance 8 then Some dangerPos else None
            | None => None
            end); [apply carries_on_refl|].
  destruct (HostTick.scan host type (Soldier.getPosition ld) None _ g) as [[d preyPos]|];
    [apply carries_on_refl|apply wander_carries].
Qed.

Lemma updateArmy_carries (host : Host) (delta : Q) (network : option NetworkManager.t)
    (movement : Input) (isEliminated : bool) (type : string) (g : Game.t) :
  carries_on g (HostTick.updateArmy host delta network movement isEliminated type g).
Proof.
  unfold HostTick.updateArmy. cbv zeta.
  destruct (_ && _); [apply move_carries|].
  destruct (Game.isSoloTest g).
  - pose proof (getAIInput_carries host type g) as Hai.
    destruct (HostTick.getAIInput host type g) as [input g1]. simpl in Hai.
    apply (carries_on_trans g g1); [exact Hai|apply move_carries].
  - destruct network as [n|]; [apply move_carries|apply call_carries].
Qed.

(** *** The collisions *)

Lemma convertSoldier_carries (soldier : ref) (fromArmy toArmy : string) (g : Game.t) :
  carries_on g (Game.convertSoldier soldier fromArmy toArmy g).
Proof. now apply (carries_on_intro _ _ [audio_playConvert]). Qed.

Lemma handleCollision_carries (soldier1 soldier2 : ref) (army1 army2 : string) (g : Game.t) :
  carries_on g (Game.handleCollision soldier1 soldier2 army1 army2 g).
Proof.
  unfold Game.handleCollision.
  destruct (JsMap.get army1 (Game.armies g)) as [a1|]; [|apply carries_on_refl].
  destruct (JsMap.get army2 (Game.armies g)) as [a2|]; [|apply carries_on_refl].
  destruct (_ || _); [apply carries_on_refl|]. cbv zeta.
  destruct (bool_decide _); [apply convertSoldier_carries|].
  destruct (bool_decide _); [apply convertSoldier_carries|apply carries_on_refl].
Qed.

Lemma collideWith_carries (host : Host) (army1 army2 : string) (soldier1 : ref) (g : Game.t)
    (soldier2 : ref) :
  carries_on g (Game.collideWith host army1 army2 soldier1 g soldier2).
Proof.
  unfold Game.collideWith.
  destruct (readb _ _ _); [apply carries_on_refl|].
  destruct (Game.heap g !! soldier1); [|apply carries_on_refl].
  destruct (Game.heap g !! soldier2); [|apply carries_on_refl].
  cbv zeta. destruct (Qltb _ _); [apply handleCollision_carries|apply carries_on_refl].
Qed.

Lemma collideSoldier_carries (host : Host) (army1 army2 : string) (soldiers2 : list ref)
    (g : Game.t) (soldier1 : ref) :
  carries_on g (Game.collideSoldier host army1 army2 soldiers2 g soldier1).
Proof.
  unfold Game.collideSoldier. destruct (readb _ _ _); [apply carries_on_refl|].
  apply fold_left_carries. intros g0 soldier2. apply collideWith_carries.
Qed.

Lemma checkArmyCollisions_carries (host : Host) (g : Game.t) :
  carries_on g (Game.checkArmyCollisions host g).
Proof.
  unfold Game.checkArmyCollisions. generalize (JsMap.entries (Game.armies g)) as armyArray.
  intros armyArray. revert g.
  induction armyArray as [|army1 rest IH]; intros g; simpl; [apply carries_on_refl|].
  eapply carries_on_trans; [|apply IH].
  apply fold_left_carries. intros g0 army2. unfold Game.collideArmies.
  apply fold_left_carries. intros g1 soldier1. apply collideSoldier_carries.
Qed.

(** *** The power-ups *)

Lemma scatter_carries (host : Host) (g : Game.t) (soldier : ref) :
  carries_on g (PowerUpEffects.scatter host g soldier).
Proof.
  unfold PowerUpEffects.scatter. destruct (readb _ _ _); [apply carries_on_refl|].
  unfold Game.random. cbv zeta. apply (carries_on_intro _ _ []); auto using app_nil_r.
Qed.

Lemma applySplitToEnemies_carries (host : Host) (armyType : string) (g : Game.t) :
  carries_on g (PowerUpEffects.applySplitToEnemies host armyType g).
Proof.
  unfold PowerUpEffects.applySplitToEnemies. apply fold_left_carries.
  intros g0 [type enemyArmy]. destruct (String.eqb type armyType); [apply carries_on_refl|].
  apply fold_left_carries, scatter_carries.
Qed.

Lemma createCloneLeader_carries (host : Host) (army : Army.t) (duration : Q) (g : Game.t) :
  carries_on g (PowerUpEffects.createCloneLeader host army duration g).
Proof.
  unfold PowerUpEffects.createCloneLeader.
  destruct (_ ≫= _) as [ld|]; [|apply call_carries].
  unfold Game.random. cbv zeta. now eapply (carries_on_intro _ _ [_]).
Qed.

Lemma applyReverseToRandomEnemy_carries (host : Host) (armyType : string) (duration : Q)
    (g : Game.t) :
  carries_on g (PowerUpEffects.applyReverseToRandomEnemy host armyType duration g).
Proof.
  unfold PowerUpEffects.applyReverseToRandomEnemy. cbv zeta.
  destruct (Nat.eqb _ 0); [apply carries_on_refl|].
  unfold Game.random. cbv zeta.
  destruct (_ !! _) as [randomType|]; [|apply set_randomCalls_carries].
  eapply carries_on_trans; [apply set_randomCalls_carries|].
  apply onArmy_carries. now intros a _.
Qed.

Lemma activateInvincibility_army (duration : Q) (a : Army.t) (h : Heap) :
  Army.soldiers (fst (Army.activateInvincibility duration a h)) = Army.soldiers a.
Proof. reflexivity. Qed.

(** An army that has a soldier keeps one, whatever it collects: the
    only power-up that changes a roster adds to it. *)
Lemma applyPowerUp_carries (host : Host) (type key : string) (g : Game.t) :
  JsMap.get key (standing g) = Some false ->
  carries_on g (PowerUpEffects.applyPowerUp host type key g).
Proof.
  intros Hkey. rewrite standing_get in Hkey. unfold PowerUpEffects.applyPowerUp.
  destruct (JsMap.get key (Game.armies g)) as [army|] eqn:Hget; [|apply carries_on_refl].
  simpl in Hkey. injection Hkey as Hkey.
  destruct (POWERUP_CONFIG.get type) as [config|]; [|apply carries_on_refl].
  destruct (String.eqb type POWERUP_TYPES.SPEED_BOOST);
    [apply onArmy_carries; now intros a _|].
  destruct (String.eqb type POWERUP_TYPES.INVINCIBILITY);
    [apply onArmy_carries; now intros a _|].
  destruct (String.eqb type POWERUP_TYPES.REINFORCEMENT).
  { cbv zeta.
    assert (carries_on g
              (Game.onArmy key
                 (Army.reinforceSoldiers (PowerUpEffects.hostFrom host (Game.randomCalls g))
                    (PowerUpEffects.soldiersToRestoreOf config)) g)) as Hadd.
    { apply onArmy_carries. intros a Ha. assert (a = army) as -> by congruence.
      rewrite reinforceSoldiers_roster, length_app.
      destruct (Army.soldiers army); [discriminate Hkey|reflexivity]. }
    destruct (Army.leader army); [|exact Hadd].
    eapply carries_on_trans; [exact Hadd|apply set_randomCalls_carries]. }
  destruct (String.eqb type POWERUP_TYPES.MAGNET_AURA);
    [apply onArmy_carries; now intros a _|].
  destruct (String.eqb type POWERUP_TYPES.SPLIT_FORMATION);
    [apply applySplitToEnemies_carries|].
  destruct (String.eqb type POWERUP_TYPES.CLONE_LEADER);
    [apply createCloneLeader_carries|].
  destruct (String.eqb type POWERUP_TYPES.REVERSE_CONTROL);
    [apply applyReverseToRandomEnemy_carries|apply carries_on_refl].
Qed.

Lemma collectPowerUp_carries (host : Host) (i : nat) (key : string) (g : Game.t) :
  JsMap.get key (standing g) = Some false ->
  carries_on g (PowerUpEffects.collectPowerUp host i key g).
Proof.
  intros Hkey. unfold PowerUpEffects.collectPowerUp.
  destruct (PowerUpEffects.powerUpsOf g !! i) as [powerUp|]; [|apply carries_on_refl].
  cbv zeta.
  set (g2 := Game.call audio_playPowerUp _).
  assert (carries_on g g2) as H2.
  { subst g2. eapply carries_on_trans; [apply onManager_carries|apply call_carries]. }
  apply (carries_on_trans g g2); [exact H2|].
  apply andThen_carries.
  - apply applyPowerUp_carries. now apply (standing_kept key g).
  - destruct (POWERUP_CONFIG.get _); apply call_carries.
Qed.

Lemma collectNear_carries (host : Host) (key : string) (soldier : ref) (i : nat) (g : Game.t) :
  JsMap.get key (standing g) = Some false ->
  carries_on g (PowerUpEffects.collectNear host key soldier i g).
Proof.
  intros Hkey. unfold PowerUpEffects.collectNear.
  destruct (PowerUpEffects.powerUpsOf g !! i) as [powerUp|]; [|apply carries_on_refl].
  destruct (Game.heap g !! soldier) as [s|]; [|apply carries_on_refl].
  destruct (isCollected powerUp); [apply carries_on_refl|]. cbv zeta.
  destruct (Qltb _ _); [now apply collectPowerUp_carries|apply carries_on_refl].
Qed.

Lemma collectFor_carries (host : Host) (key : string) (g : Game.t) :
  carries_on g (PowerUpEffects.collectFor host key g).
Proof.
  unfold PowerUpEffects.collectFor.
  destruct (JsMap.get key (Game.armies g)) as [army|] eqn:Hget; [|apply carries_on_refl].
  destruct (Army.soldiers army) as [|soldier0 rest] eqn:Hroster; [apply carries_on_refl|].
  apply (forEach_carries (fun g1 => JsMap.get key (standing g1) = Some false)).
  - intros g1 g2. apply standing_kept.
  - intros soldier g1 _ H1.
    apply (forEach_carries (fun g2 => JsMap.get key (standing g2) = Some false)).
    + intros g2 g3. apply standing_kept.
    + intros i g2 _ H2. now apply collectNear_carries.
    + exact H1.
  - rewrite standing_get, Hget. simpl. now rewrite Hroster.
Qed.

Lemma checkCollection_carries (host : Host) (g : Game.t) :
  carries_on g (PowerUpEffects.checkCollection host g).
Proof.
  unfold PowerUpEffects.checkCollection.
  apply (forEach_carries (fun _ => True)); auto.
  intros key g1 _ _. apply collectFor_carries.
Qed.

Lemma spawnPowerUp_carries (host : Host) (g : Game.t) :
  carries_on g (PowerUpEffects.spawnPowerUp host g).
Proof.
  unfold PowerUpEffects.spawnPowerUp, Game.random. cbv zeta.
  cbn [Game.arena Game.set_randomCalls Game.randomCalls].
  destruct (Game.arena g) as [arena|].
  - destruct (_ ≫= _) as [powerUp|].
    + eapply carries_on_trans; [|apply onManager_carries].
      apply (carries_on_intro _ _ []); auto using app_nil_r.
    + apply (carries_on_trans _ (Game.set_randomCalls
                                   (S (Game.randomCalls g)
                                    + Arena.sampleDraws
                                        (PowerUpEffects.hostFrom host (S (Game.randomCalls g)))
                                        20 0 arena)
                                   (Game.set_randomCalls (S (Game.randomCalls g)) g)));
        [|apply call_carries].
      apply (carries_on_intro _ _ []); auto using app_nil_r.
  - apply (carries_on_trans _ (Game.set_randomCalls (S (Game.randomCalls g)) g));
      [apply set_randomCalls_carries|apply call_carries].
Qed.

Lemma runSpawnTimer_carries (host : Host) (delta : Q) (g : Game.t) :
  carries_on g (PowerUpEffects.runSpawnTimer host delta g).
Proof.
  unfold PowerUpEffects.runSpawnTimer. cbv zeta.
  set (g1 := PowerUpEffects.onManager _ g).
  assert (carries_on g g1) as H1 by apply onManager_carries.
  destruct (Game.powerUpManager g1) as [m|]; [|exact H1].
  destruct (Qle_bool _ 0); [|exact H1].
  apply (carries_on_trans g g1); [exact H1|].
  apply andThen_carries; [apply spawnPowerUp_carries|].
  unfold Game.random. cbv zeta.
  eapply carries_on_trans; [apply set_randomCalls_carries|apply onManager_carries].
Qed.

Lemma update_carries (host : Host) (delta : Q) (g : Game.t) :
  carries_on g (PowerUpEffects.update host delta g).
Proof.
  unfold PowerUpEffects.update.
  destruct (Game.powerUpManager g) as [m|]; [|apply call_carries].
  destruct (negb _); [apply carries_on_refl|].
  apply andThen_carries; [apply runSpawnTimer_carries|].
  apply andThen_carries; [apply onManager_carries|].
  apply andThen_carries; [apply checkCollection_carries|apply onManager_carries].
Qed.

Lemma update_no_manager (host : Host) (delta : Q) (g : Game.t) :
  Game.powerUpManager g = None ->
  Game.raised g (PowerUpEffects.update host delta g) = true.
Proof.
  intros Hm. unfold PowerUpEffects.update. rewrite Hm. apply call_TypeError_raised.
Qed.

(** *** The win condition *)

Lemma filter_single {A : Type} (P : A -> bool) (l : list A) (v : A) :
  List.filter P l = [v] ->
  exists before after,
    l = before ++ v :: after /\ P v = true /\
    Forall (fun w => P w = false) (before ++ after).
Proof.
  induction l as [|w l IH]; simpl; [discriminate|].
  destruct (P w) eqn:Hw.
  - intros [= -> Hrest]. exists [], l. split; [reflexivity|]. split; [exact Hw|].
    simpl. apply Forall_forall. intros u Hu. apply list_elem_of_In in Hu.
    destruct (P u) eqn:Hu'; [|reflexivity].
    assert (In u (List.filter P l)) as Hin by (apply filter_In; now split).
    rewrite Hrest in Hin. contradiction.
  - intros Hrest. destruct (IH Hrest) as (before & after & -> & Hv & Hall).
    exists (w :: before), after. split; [reflexivity|]. split; [exact Hv|].
    simpl. now constructor.
Qed.

Lemma survivors_standing (g : Game.t) :
  map fst (Game.activeArmies g)
  = map fst (List.filter (fun flag => negb (snd flag)) (standing g)).
Proof.
  unfold Game.activeArmies, standing, JsMap.entries.
  induction (Game.armies g) as [|[type army] m IH]; simpl; [reflexivity|].
  destruct (Army.soldiers army); simpl; [exact IH|now rewrite IH].
Qed.

Lemma sole_survivor_survivors (g : Game.t) (winner : string) :
  sole_survivor g winner <-> map fst (Game.activeArmies g) = [winner].
Proof.
  unfold sole_survivor, Game.activeArmies. split.
  - intros (before & army & after & -> & Hlive & Hdead).
    apply Forall_app in Hdead as [Hb Ha].
    rewrite List.filter_app. simpl.
    rewrite !filter_all_false.
    + destruct (Army.soldiers army); [contradiction|reflexivity].
    + intros [k a] Hin. rewrite Forall_forall in Ha.
      apply list_elem_of_In in Hin. apply Ha in Hin. simpl in Hin. now rewrite Hin.
    + intros [k a] Hin. rewrite Forall_forall in Hb.
      apply list_elem_of_In in Hin. apply Hb in Hin. simpl in Hin. now rewrite Hin.
  - intros Hone.
    destruct (List.filter _ (JsMap.entries (Game.armies g))) as [|[w army] [|? ?]] eqn:Hf;
      try discriminate Hone.
    injection Hone as ->.
    apply filter_single in Hf as (before & after & Heq & Hlive & Hdead).
    exists before, army, after. split; [exact Heq|]. split.
    + intros Hnil. rewrite Hnil in Hlive. discriminate.
    + eapply Forall_impl; [exact Hdead|]. simpl. intros [k a]. simpl.
      destruct (Army.soldiers a); [reflexivity|discriminate].
Qed.

Lemma sole_survivor_kept (g g' : Game.t) (winner : string) :
  standing g' = standing g -> sole_survivor g winner <-> sole_survivor g' winner.
Proof.
  intros Hst. rewrite !sole_survivor_survivors, !survivors_standing. now rewrite Hst.
Qed.

Lemma sole_survivor_registered (g : Game.t) (winner : string) :
  sole_survivor g winner -> exists army, JsMap.get winner (Game.armies g) = Some army.
Proof.
  intros (before & army & after & Heq & _). unfold JsMap.entries in Heq. rewrite Heq.
  clear Heq. induction before as [|[k a] before IH]; simpl.
  - rewrite String.eqb_refl. now exists army.
  - destruct (String.eqb winner k); [now exists a|exact IH].
Qed.

Lemma endGame_calls (winner : string) (g : Game.t) (army : Army.t) :
  Game.powerUpManager g <> None ->
  JsMap.get winner (Game.armies g) = Some army ->
  Game.calls (Game.endGame winner g)
  = Game.calls g ++ [ui_showGameOver winner (length (Army.soldiers army)); audio_playVictory] /\
  Game.armies (Game.endGame winner g) = Game.armies g.
Proof.
  intros Hm Hget. unfold Game.endGame. cbv zeta. game_fields.
  destruct (Game.powerUpManager g) as [m|]; [|contradiction]. game_fields.
  rewrite Hget. game_fields. now rewrite <- app_assoc.
Qed.

(** The check that closes the tick, in terms of the rosters. *)
Lemma checkWinCondition_cases (g : Game.t) :
  (exists winner, sole_survivor g winner /\
                  Game.checkWinCondition g = Game.endGame winner g) \/
  ((forall winner, ~ sole_survivor g winner) /\ Game.checkWinCondition g = g).
Proof.
  unfold Game.checkWinCondition.
  destruct (Game.activeArmies g) as [|[w army] [|second rest]] eqn:Hactive; simpl.
  - right. split; [|reflexivity]. intros winner Hw.
    apply sole_survivor_survivors in Hw. rewrite Hactive in Hw. discriminate.
  - left. exists w. split; [|reflexivity].
    apply sole_survivor_survivors. now rewrite Hactive.
  - right. split; [|reflexivity]. intros winner Hw.
    apply sole_survivor_survivors in Hw. rewrite Hactive in Hw. discriminate.
Qed.

Lemma sole_survivor_unique (g : Game.t) (w1 w2 : string) :
  sole_survivor g w1 -> sole_survivor g w2 -> w1 = w2.
Proof. rewrite !sole_survivor_survivors. congruence. Qed.

Lemma andThen_cases (f k : Game.t -> Game.t) (g : Game.t) :
  (Game.raised g (f g) = true /\ Game.andThen f k g = f g) \/
  (Game.raised g (f g) = false /\ Game.andThen f k g = k (f g)).
Proof.
  unfold Game.andThen. cbv zeta. destruct (Game.raised g (f g)); [left|right]; now split.
Qed.

(** The tick up to the check: either an exception cut it short, and the
    match carried on up to there, or the check runs on a game that
    carried on and has its power-up manager. *)
Lemma updateHost_cases
    (host : Host) (delta : Q) (network : option NetworkManager.t) (g : Game.t) :
  let g' := HostTick.updateHost host delta network g in
  (carries_on g g' /\ Game.raised g g' = true) \/
  (exists g4, carries_on g g4 /\ Game.raised g g4 = false /\
              Game.powerUpManager g4 <> None /\ g' = Game.checkWinCondition g4).
Proof.
  cbv zeta. unfold HostTick.updateHost. cbv zeta.
  set (armies := Game.forEach _ _).
  assert (carries_on g (armies g)) as H1.
  { subst armies. apply (forEach_carries (fun _ => True)); auto.
    intros type g1 _ _. apply updateArmy_carries. }
  destruct (andThen_cases armies
              (Game.andThen (Game.checkArmyCollisions host)
                 (Game.andThen (PowerUpEffects.update host delta)
                    (Game.andThen Game.updateSoldierCounts Game.checkWinCondition))) g)
    as [[Hr1 ->]|[Hr1 ->]]; [left; now split|].
  set (g1 := armies g) in *.
  assert (carries_on g1 (Game.checkArmyCollisions host g1)) as H2
    by apply checkArmyCollisions_carries.
  destruct (andThen_cases (Game.checkArmyCollisions host)
              (Game.andThen (PowerUpEffects.update host delta)
                 (Game.andThen Game.updateSoldierCounts Game.checkWinCondition)) g1)
    as [[Hr2 ->]|[Hr2 ->]].
  { left. split; [now apply (carries_on_trans g g1)|].
    rewrite (carries_on_raised g g1 _ H1 H2), Hr2. apply orb_true_r. }
  set (g2 := Game.checkArmyCollisions host g1) in *.
  assert (carries_on g g2) as H02 by now apply (carries_on_trans g g1).
  assert (Game.raised g g2 = false) as Hr02
    by (rewrite (carries_on_raised g g1 g2 H1 H2), Hr1, Hr2; reflexivity).
  assert (carries_on g2 (PowerUpEffects.update host delta g2)) as H3 by apply update_carries.
  destruct (andThen_cases (PowerUpEffects.update host delta)
              (Game.andThen Game.updateSoldierCounts Game.checkWinCondition) g2)
    as [[Hr3 ->]|[Hr3 ->]].
  { left. split; [now apply (carries_on_trans g g2)|].
    rewrite (carries_on_raised g g2 _ H02 H3), Hr3. apply orb_true_r. }
  set (g3 := PowerUpEffects.update host delta g2) in *.
  assert (Game.powerUpManager g2 <> None) as Hm2.
  { intros Hnone. subst g3. rewrite (update_no_manager host delta g2 Hnone) in Hr3.
    discriminate. }
  assert (carries_on g g3) as H03 by now apply (carries_on_trans g g2).
  assert (Game.raised g g3 = false) as Hr03
    by (rewrite (carries_on_raised g g2 g3 H02 H3), Hr02, Hr3; reflexivity).
  assert (carries_on g3 (Game.updateSoldierCounts g3)) as H4 by apply call_carries.
  assert (Game.raised g3 (Game.updateSoldierCounts g3) = false) as Hr4
    by (unfold Game.updateSoldierCounts;
        now erewrite (raised_app _ _ [ui_updateSoldierCounts _]) by reflexivity).
  destruct (andThen_cases Game.updateSoldierCounts Game.checkWinCondition g3)
    as [[Hr4' _]|[_ ->]]; [congruence|].
  right. exists (Game.updateSoldierCounts g3).
  split; [now apply (carries_on_trans g g3)|].
  split; [rewrite (carries_on_raised g g3 _ H03 H4), Hr03, Hr4; reflexivity|].
  split; [|reflexivity].
  intros Hnone. apply Hm2. apply H3. apply H4. exact Hnone.
Qed.

(** *** A tick without exceptions *)

Lemma steady_refl (g : Game.t) : steady g g.
Proof.
  split; [apply carries_on_refl|]. split.
  - rewrite (raised_app g g []); [reflexivity|now rewrite app_nil_r].
  - repeat split; auto.
Qed.

Lemma steady_trans (g1 g2 g3 : Game.t) : steady g1 g2 -> steady g2 g3 -> steady g1 g3.
Proof.
  intros (Hc & Hr & Ha & Hs & Hl & Hh & Hp) (Hc' & Hr' & Ha' & Hs' & Hl' & Hh' & Hp').
  split; [now apply (carries_on_trans g1 g2)|]. split.
  - now rewrite (carries_on_raised g1 g2 g3 Hc Hc'), Hr, Hr'.
  - split; [congruence|]. split; [congruence|]. split; [congruence|].
    split; [lia|auto].
Qed.

(** A step that touches neither the armies nor the power-up manager. *)
Lemma steady_frame (g g' : Game.t) (new : list Call) :
  Game.state g' = Game.state g ->
  Game.armies g' = Game.armies g ->
  Game.powerUpManager g' = Game.powerUpManager g ->
  Game.arena g' = Game.arena g ->
  Game.isSoloTest g' = Game.isSoloTest g ->
  (length (Game.heap g) <= length (Game.heap g'))%nat ->
  Game.calls g' = Game.calls g ++ new ->
  existsb Game.isTypeError new = false ->
  steady g g'.
Proof.
  intros Hs Ha Hm Har Hso Hh Hc Hq.
  split; [now apply (carries_on_intro g g' new)|].
  split; [now rewrite (raised_app g g' new Hc)|].
  repeat split; auto; [now rewrite Ha|].
  unfold PowerUpEffects.powerUpsOf. now rewrite Hm.
Qed.

Lemma andThen_steady (f k : Game.t -> Game.t) (g : Game.t) :
  steady g (f g) -> steady (f g) (k (f g)) -> steady g (Game.andThen f k g).
Proof.
  intros Hf Hk. unfold Game.andThen. cbv zeta.
  destruct (Game.raised g (f g)); [exact Hf|]. now apply (steady_trans g (f g)).
Qed.

Lemma forEach_steady {A : Type} (I : Game.t -> Prop) (body : A -> Game.t -> Game.t)
    (l : list A) (g : Game.t) :
  (forall g1 g2, I g1 -> steady g1 g2 -> I g2) ->
  (forall item g1, In item l -> I g1 -> steady g1 (body item g1)) ->
  I g -> steady g (Game.forEach body l g).
Proof.
  intros Hkeep Hbody Hg. unfold Game.forEach.
  assert (forall g1, steady g g1 ->
            steady g (fold_left (fun g1 item => if Game.raised g g1 then g1 else body item g1)
                        l g1)) as Hloop.
  { induction l as [|item l IH]; intros g1 H1; simpl; [exact H1|].
    apply IH.
    - intros item' g2 Hin. apply Hbody. now right.
    - destruct (Game.raised g g1); [exact H1|].
      apply (steady_trans g g1); [exact H1|].
      apply Hbody; [now left|]. now apply (Hkeep g). }
  apply Hloop, steady_refl.
Qed.

Lemma fold_left_steady {A : Type} (f : Game.t -> A -> Game.t) (l : list A) :
  (forall g item, steady g (f g item)) ->
  forall g, steady g (fold_left f l g).
Proof.
  intros Hf. induction l as [|item l IH]; intros g; simpl; [apply steady_refl|].
  apply (steady_trans g (f g item)); [apply Hf|apply IH].
Qed.

Lemma JsMap_get_map {V W : Type} (F : V -> W) (k : string) (m : JsMap.t V) :
  JsMap.get k (map (fun entry => (fst entry, F (snd entry))) m) = F <$> JsMap.get k m.
Proof.
  induction m as [|[k0 v0] m IH]; simpl; [reflexivity|].
  destruct (String.eqb k k0); [reflexivity|exact IH].
Qed.

Lemma led_kept (g g' : Game.t) : led g -> steady g g' -> led g'.
Proof.
  intros Hled ((_ & Hst & _) & _ & _ & _ & Hl & Hh & _) key army' Hget' Hlive'.
  assert (JsMap.get key (standing g') = JsMap.get key (standing g)) as Hs'
    by now rewrite Hst.
  rewrite !standing_get, Hget' in Hs'.
  assert (JsMap.get key (map (fun entry => (fst entry, Army.leader (snd entry)))
                           (Game.armies g'))
          = JsMap.get key (map (fun entry => (fst entry, Army.leader (snd entry)))
                             (Game.armies g))) as Hl'
    by (unfold JsMap.entries in Hl; now rewrite Hl).
  rewrite !JsMap_get_map, Hget' in Hl'.
  destruct (JsMap.get key (Game.armies g)) as [army|] eqn:Hget; [|discriminate Hs'].
  simpl in Hs', Hl'. injection Hs' as Hs'. injection Hl' as Hl'.
  destruct (Hled key army Hget) as (l & Hleader & Hlt).
  - intros Hnil. rewrite Hnil in Hs'. simpl in Hs'.
    destruct (Army.soldiers army'); [contradiction|discriminate].
  - exists l. split; [congruence|lia].
Qed.

Lemma ready_kept (host : Host) (network : option NetworkManager.t) (g g' : Game.t) :
  ready_for_tick host network g -> steady g g' -> ready_for_tick host network g'.
Proof.
  intros (Ha & Hm & Hn & Hr & Hp & Hl) Hst.
  pose proof (led_kept g g' Hl Hst) as Hl'.
  destruct Hst as ((_ & _ & Hm' & _) & _ & Ha' & Hs' & _ & _ & Hp').
  split; [congruence|]. split; [tauto|]. split; [now rewrite Hs'|].
  split; [exact Hr|]. split; [auto|exact Hl'].
Qed.

Lemma onArmy_steady (key : string) (f : Army.t -> Heap -> Army.t * Heap) (g : Game.t) :
  (forall a, JsMap.get key (Game.armies g) = Some a ->
             Nat.eqb (length (Army.soldiers (fst (f a (Game.heap g))))) 0
             = Nat.eqb (length (Army.soldiers a)) 0 /\
             Army.leader (fst (f a (Game.heap g))) = Army.leader a /\
             (length (Game.heap g) <= length (snd (f a (Game.heap g))))%nat) ->
  steady g (Game.onArmy key f g).
Proof.
  intros Hf.
  assert (carries_on g (Game.onArmy key f g)) as Hc
    by (apply onArmy_carries; intros a Ha; now apply Hf).
  split; [exact Hc|]. unfold Game.onArmy in *.
  destruct (JsMap.get key (Game.armies g)) as [a|] eqn:Hget; [|apply steady_refl].
  destruct (Hf a eq_refl) as (_ & Hl & Hh). destruct (f a (Game.heap g)) as [a' h'].
  simpl in Hl, Hh. split.
  - rewrite (raised_app _ _ []); [reflexivity|]. game_fields. now rewrite app_nil_r.
  - split; [reflexivity|]. split; [reflexivity|]. split.
    + game_fields. unfold JsMap.entries. now apply (JsMap_set_map Army.leader key a a').
    + split; [exact Hh|]. now unfold PowerUpEffects.powerUpsOf.
Qed.

Lemma onManager_steady (f : PowerUpManager.t -> PowerUpManager.t) (g : Game.t) :
  (forall m, Game.powerUpManager g = Some m ->
             Forall configured (PowerUpManager.powerUps m) ->
             Forall configured (PowerUpManager.powerUps (f m))) ->
  steady g (PowerUpEffects.onManager f g).
Proof.
  intros Hf. pose proof (onManager_carries f g) as Hc.
  unfold PowerUpEffects.onManager in *.
  destruct (Game.powerUpManager g) as [m|] eqn:Hm; [|apply steady_refl].
  split; [exact Hc|]. split.
  - rewrite (raised_app _ _ []); [reflexivity|]. game_fields. now rewrite app_nil_r.
  - repeat split; auto. unfold PowerUpEffects.powerUpsOf. game_fields. rewrite Hm.
    now apply Hf.
Qed.

Lemma call_steady (c : Call) (g : Game.t) :
  Game.isTypeError c = false -> steady g (Game.call c g).
Proof.
  intros Hc. apply (steady_frame _ _ [c]); auto. simpl. now rewrite Hc.
Qed.

Lemma set_randomCalls_steady (k : nat) (g : Game.t) : steady g (Game.set_randomCalls k g).
Proof. apply (steady_frame _ _ []); auto using app_nil_r. Qed.

(** *** The armies move, without exceptions *)

Lemma followChain_length (host : Host) (speed : Q) (arena : Arena.t) (followers : list ref) :
  forall target h, length (Army.followChain host speed arena target followers h) = length h.
Proof.
  induction followers as [|soldier rest IH]; intros target h; simpl; [reflexivity|].
  rewrite IH. unfold Army.follow. destruct target as [tr|]; [|reflexivity].
  destruct (h !! tr); [|reflexivity]. destruct (h !! soldier); [|reflexivity].
  cbv zeta. destruct (Qgtb _ _); [|reflexivity].
  destruct (Army.resolveMove _ _ _ _ _). apply length_insert.
Qed.

Lemma fold_modify_length (f : Soldier.t -> Soldier.t) (l : list ref) :
  forall h, length (fold_left (fun h r => modify r f h) l h) = length h.
Proof.
  induction l as [|r l IH]; intros h; simpl; [reflexivity|].
  rewrite IH. unfold modify. destruct (h !! r); [apply length_insert|reflexivity].
Qed.

Lemma Army_update_length (host : Host) (delta : Q) (input : option Input) (arena : Arena.t)
    (a : Army.t) (h : Heap) :
  length (snd (Army.update host delta input arena a h)) = length h.
Proof.
  unfold Army.update. destruct input as [input|]; [|reflexivity].
  destruct (Nat.eqb (length (Army.soldiers a)) 0); [reflexivity|].
  cbv zeta.
  assert (forall mx mz speed, length (Army.moveLeader host delta mx mz speed arena a h)
                              = length h) as Hmove.
  { intros mx mz speed. unfold Army.moveLeader. destruct (Army.leader a) as [l|]; [|reflexivity].
    destruct (h !! l); [|reflexivity]. cbv zeta.
    destruct (Army.resolveMove _ _ _ _ _). apply length_insert. }
  destruct (Army.isReversed a); cbn [snd]; unfold Army.animate, Army.updateFollowers;
    now rewrite fold_modify_length, followChain_length, Hmove.
Qed.

Lemma move_steady (host : Host) (delta : Q) (type : string) (input : Input) (g : Game.t) :
  Game.arena g <> None -> steady g (HostTick.move host delta type input g).
Proof.
  intros Harena. unfold HostTick.move.
  destruct (JsMap.get type (Game.armies g)) as [army|]; [|apply steady_refl].
  destruct (Nat.eqb (length (Army.soldiers army)) 0); [apply steady_refl|].
  destruct (Game.arena g) as [arena|]; [|contradiction].
  apply onArmy_steady. intros a _. rewrite Army_update_army, Army_update_length. auto.
Qed.

Lemma wander_steady (host : Host) (type : string) (g : Game.t) :
  steady g (snd (HostTick.wander host type g)).
Proof.
  unfold HostTick.wander. cbv zeta. cbn [snd].
  destruct (match JsMap.get type (Game.aiUpdateTimers g) with
            | Some last => (Date_now host - last >? 2000)%Z
            | None => true
            end); [|apply steady_refl].
  unfold Game.random. cbv zeta.
  eapply steady_trans; [|apply onArmy_steady; intros a _; simpl; auto].
  apply (steady_frame _ _ []); auto using app_nil_r.
Qed.

Lemma getAIInput_steady (host : Host) (type : string) (g : Game.t) :
  steady g (snd (HostTick.getAIInput host type g)).
Proof.
  unfold HostTick.getAIInput. cbv zeta.
  destruct (_ ≫= _) as [ld|]; [|apply steady_refl].
  destruct (match HostTick.scan host type (Soldier.getPosition ld) (Some 10%Q) _ g with
            | Some (dangerDistance, dangerPos) =>
                if Qltb dangerDistance 8 then Some dangerPos else None
            | None => None
            end); [apply steady_refl|].
  destruct (HostTick.scan host type (Soldier.getPosition ld) None _ g) as [[d preyPos]|];
    [apply steady_refl|apply wander_steady].
Qed.

Lemma updateArmy_steady (host : Host) (delta : Q) (network : option NetworkManager.t)
    (movement : Input) (isEliminated : bool) (type : string) (g : Game.t) :
  Game.arena g <> None ->
  Game.isSoloTest g = true \/ network <> None ->
  steady g (HostTick.updateArmy host delta network movement isEliminated type g).
Proof.
  intros Harena Hnet. unfold HostTick.updateArmy. cbv zeta.
  destruct (_ && _); [now apply move_steady|].
  destruct (Game.isSoloTest g).
  - pose proof (getAIInput_steady host type g) as Hai.
    destruct (HostTick.getAIInput host type g) as [input g1]. simpl in Hai.
    apply (steady_trans g g1); [exact Hai|]. apply move_steady.
    destruct Hai as (_ & _ & -> & _). exact Harena.
  - destruct network as [n|]; [now apply move_steady|].
    destruct Hnet as [Hsolo|Hnone]; [discriminate Hsolo|now contradiction Hnone].
Qed.

(** *** The collisions, without exceptions *)

Lemma convertSoldier_steady (soldier : ref) (fromArmy toArmy : string) (g : Game.t) :
  steady g (Game.convertSoldier soldier fromArmy toArmy g).
Proof.
  apply (steady_frame _ _ [audio_playConvert]); auto.
  unfold Game.convertSoldier. cbv zeta. game_fields. now rewrite !modify_length.
Qed.

Lemma checkArmyCollisions_steady (host : Host) (g : Game.t) :
  steady g (Game.checkArmyCollisions host g).
Proof.
  unfold Game.checkArmyCollisions. generalize (JsMap.entries (Game.armies g)) as armyArray.
  intros armyArray. revert g.
  induction armyArray as [|army1 rest IH]; intros g; simpl; [apply steady_refl|].
  eapply steady_trans; [|apply IH].
  apply fold_left_steady. intros g0 army2. unfold Game.collideArmies.
  apply fold_left_steady. intros g1 soldier1. unfold Game.collideSoldier.
  destruct (readb _ _ _); [apply steady_refl|].
  apply fold_left_steady. intros g2 soldier2. unfold Game.collideWith.
  destruct (readb _ _ _); [apply steady_refl|].
  destruct (Game.heap g2 !! soldier1); [|apply steady_refl].
  destruct (Game.heap g2 !! soldier2); [|apply steady_refl].
  cbv zeta. destruct (Qltb _ _); [|apply steady_refl].
  unfold Game.handleCollision.
  destruct (JsMap.get (fst army1) (Game.armies g2)) as [a1|]; [|apply steady_refl].
  destruct (JsMap.get (fst army2) (Game.armies g2)) as [a2|]; [|apply steady_refl].
  destruct (_ || _); [apply steady_refl|]. cbv zeta.
  destruct (bool_decide _); [apply convertSoldier_steady|].
  destruct (bool_decide _); [apply convertSoldier_steady|apply steady_refl].
Qed.

(** *** The power-ups, without exceptions *)

Lemma scatter_steady (host : Host) (g : Game.t) (soldier : ref) :
  steady g (PowerUpEffects.scatter host g soldier).
Proof.
  unfold PowerUpEffects.scatter. destruct (readb _ _ _); [apply steady_refl|].
  unfold Game.random. cbv zeta. apply (steady_frame _ _ []); auto using app_nil_r.
  game_fields. cbn [Game.set_randomCalls Game.heap]. now rewrite modify_length.
Qed.

Lemma applySplitToEnemies_steady (host : Host) (armyType : string) (g : Game.t) :
  steady g (PowerUpEffects.applySplitToEnemies host armyType g).
Proof.
  unfold PowerUpEffects.applySplitToEnemies. apply fold_left_steady.
  intros g0 [type enemyArmy]. destruct (String.eqb type armyType); [apply steady_refl|].
  apply fold_left_steady, scatter_steady.
Qed.

Lemma createCloneLeader_steady (host : Host) (army : Army.t) (duration : Q) (g : Game.t)
    (l : ref) :
  Army.leader army = Some l -> (l < length (Game.heap g))%nat ->
  steady g (PowerUpEffects.createCloneLeader host army duration g).
Proof.
  intros Hl Hlt. unfold PowerUpEffects.createCloneLeader. rewrite Hl. cbn [mbind option_bind].
  destruct (lookup_lt_is_Some_2 _ _ Hlt) as [ld ->].
  unfold Game.random. cbv zeta.
  match goal with
  | |- steady g (Game.call ?c _) => apply (steady_frame _ _ [c]); auto
  end.
Qed.

Lemma applyReverseToRandomEnemy_steady (host : Host) (armyType : string) (duration : Q)
    (g : Game.t) :
  steady g (PowerUpEffects.applyReverseToRandomEnemy host armyType duration g).
Proof.
  unfold PowerUpEffects.applyReverseToRandomEnemy. cbv zeta.
  destruct (Nat.eqb _ 0); [apply steady_refl|].
  unfold Game.random. cbv zeta.
  destruct (_ !! _) as [randomType|]; [|apply set_randomCalls_steady].
  eapply steady_trans; [apply set_randomCalls_steady|].
  apply onArmy_steady. intros a _. simpl. auto.
Qed.

Lemma reinforceLoop_leader_store (host : Host) (n : nat) :
  forall (i : nat) (a : Army.t) (h : Heap),
    Army.leader (fst (Army.reinforceLoop host n i a h)) = Army.leader a /\
    (length h <= length (snd (Army.reinforceLoop host n i a h)))%nat.
Proof.
  induction n as [|n IH]; intros i a h; simpl; [auto|].
  unfold alloc.
  match goal with
  | |- context [Army.reinforceLoop host n (S i) ?a1 ?h1] =>
      destruct (IH (S i) a1 h1) as [Hl Hh]
  end.
  split; [exact Hl|]. rewrite length_app in Hh. simpl in Hh. lia.
Qed.

Lemma applyPowerUp_steady (host : Host) (type key : string) (g : Game.t) :
  JsMap.get key (standing g) = Some false -> led g ->
  steady g (PowerUpEffects.applyPowerUp host type key g).
Proof.
  intros Hkey Hled. rewrite standing_get in Hkey. unfold PowerUpEffects.applyPowerUp.
  destruct (JsMap.get key (Game.armies g)) as [army|] eqn:Hget; [|apply steady_refl].
  simpl in Hkey. injection Hkey as Hkey.
  assert (Army.soldiers army <> []) as Hlive
    by (intros Hnil; rewrite Hnil in Hkey; discriminate).
  destruct (Hled key army Hget Hlive) as (l & Hl & Hlt).
  destruct (POWERUP_CONFIG.get type) as [config|]; [|apply steady_refl].
  destruct (String.eqb type POWERUP_TYPES.SPEED_BOOST);
    [apply onArmy_steady; intros a _; simpl; auto|].
  destruct (String.eqb type POWERUP_TYPES.INVINCIBILITY).
  { apply onArmy_steady. intros a _. simpl. rewrite fold_modify_length. auto. }
  destruct (String.eqb type POWERUP_TYPES.REINFORCEMENT).
  { cbv zeta.
    assert (steady g
              (Game.onArmy key
                 (Army.reinforceSoldiers (PowerUpEffects.hostFrom host (Game.randomCalls g))
                    (PowerUpEffects.soldiersToRestoreOf config)) g)) as Hadd.
    { apply onArmy_steady. intros a Ha. assert (a = army) as -> by congruence.
      rewrite reinforceSoldiers_roster, length_app. unfold Army.reinforceSoldiers.
      split; [destruct (Army.soldiers army); [contradiction|reflexivity]|].
      apply reinforceLoop_leader_store. }
    destruct (Army.leader army); [|exact Hadd].
    eapply steady_trans; [exact Hadd|apply set_randomCalls_steady]. }
  destruct (String.eqb type POWERUP_TYPES.MAGNET_AURA);
    [apply onArmy_steady; intros a _; simpl; auto|].
  destruct (String.eqb type POWERUP_TYPES.SPLIT_FORMATION);
    [apply applySplitToEnemies_steady|].
  destruct (String.eqb type POWERUP_TYPES.CLONE_LEADER);
    [now apply (createCloneLeader_steady host army _ g l)|].
  destruct (String.eqb type POWERUP_TYPES.REVERSE_CONTROL);
    [apply applyReverseToRandomEnemy_steady|apply steady_refl].
Qed.

(** What the loops of [checkCollection] rely on for the army whose turn
    it is. *)
Lemma collecting_kept (key : string) (g g' : Game.t) :
  JsMap.get key (standing g) = Some false /\ led g /\
  Forall configured (PowerUpEffects.powerUpsOf g) ->
  steady g g' ->
  JsMap.get key (standing g') = Some false /\ led g' /\
  Forall configured (PowerUpEffects.powerUpsOf g').
Proof.
  intros (Hkey & Hled & Hp) Hst. split; [|split].
  - apply (standing_kept key g); [exact Hkey|apply Hst].
  - now apply (led_kept g).
  - now apply Hst.
Qed.

Lemma collectPowerUp_steady (host : Host) (i : nat) (key : string) (g : Game.t) :
  JsMap.get key (standing g) = Some false /\ led g /\
  Forall configured (PowerUpEffects.powerUpsOf g) ->
  steady g (PowerUpEffects.collectPowerUp host i key g).
Proof.
  intros Hpre. unfold PowerUpEffects.collectPowerUp.
  destruct (PowerUpEffects.powerUpsOf g !! i) as [powerUp|] eqn:Hi; [|apply steady_refl].
  cbv zeta.
  assert (configured powerUp) as Hconf.
  { destruct Hpre as (_ & _ & Hp). rewrite Forall_forall in Hp. apply Hp.
    now apply list_elem_of_lookup_2 in Hi. }
  set (g2 := Game.call audio_playPowerUp _).
  assert (steady g g2) as H2.
  { subst g2. eapply steady_trans; [|now apply call_steady].
    apply onManager_steady. intros m _ Hall. simpl. now apply Forall_insert. }
  apply (steady_trans g g2); [exact H2|].
  destruct (collecting_kept key g g2 Hpre H2) as (Hkey2 & Hled2 & _).
  apply andThen_steady; [now apply applyPowerUp_steady|].
  unfold configured in Hconf.
  destruct (POWERUP_CONFIG.get (powerUp_type powerUp)); [now apply call_steady|contradiction].
Qed.

Lemma collectFor_steady (host : Host) (key : string) (g : Game.t) :
  led g -> Forall configured (PowerUpEffects.powerUpsOf g) ->
  steady g (PowerUpEffects.collectFor host key g).
Proof.
  intros Hled Hp. unfold PowerUpEffects.collectFor.
  destruct (JsMap.get key (Game.armies g)) as [army|] eqn:Hget; [|apply steady_refl].
  destruct (Army.soldiers army) as [|soldier0 rest] eqn:Hroster; [apply steady_refl|].
  apply (forEach_steady
           (fun g1 => JsMap.get key (standing g1) = Some false /\ led g1 /\
                      Forall configured (PowerUpEffects.powerUpsOf g1))).
  - intros g1 g2. apply collecting_kept.
  - intros soldier g1 _ H1.
    apply (forEach_steady
             (fun g2 => JsMap.get key (standing g2) = Some false /\ led g2 /\
                        Forall configured (PowerUpEffects.powerUpsOf g2))).
    + intros g2 g3. apply collecting_kept.
    + intros i g2 _ H2. unfold PowerUpEffects.collectNear.
      destruct (PowerUpEffects.powerUpsOf g2 !! i) as [powerUp|]; [|apply steady_refl].
      destruct (Game.heap g2 !! soldier) as [s|]; [|apply steady_refl].
      destruct (isCollected powerUp); [apply steady_refl|]. cbv zeta.
      destruct (Qltb _ _); [now apply collectPowerUp_steady|apply steady_refl].
    + exact H1.
  - split; [|now split]. rewrite standing_get, Hget. simpl. now rewrite Hroster.
Qed.

Lemma checkCollection_steady (host : Host) (g : Game.t) :
  led g -> Forall configured (PowerUpEffects.powerUpsOf g) ->
  steady g (PowerUpEffects.checkCollection host g).
Proof.
  intros Hled Hp. unfold PowerUpEffects.checkCollection.
  apply (forEach_steady
           (fun g1 => led g1 /\ Forall configured (PowerUpEffects.powerUpsOf g1))).
  - intros g1 g2 [Hl1 Hp1] Hst. split; [now apply (led_kept g1)|now apply Hst].
  - intros key g1 _ [Hl1 Hp1]. now apply collectFor_steady.
  - now split.
Qed.

Lemma randomType_configured (r : Q) :
  (0 <= r)%Q -> (r < 1)%Q ->
  let index := Qfloor (r * inject_Z (Z.of_nat (length PowerUpEffects.types))) in
  exists type,
    (if index <? 0 then None else PowerUpEffects.types !! Z.to_nat index) = Some type /\
    POWERUP_CONFIG.get type <> None.
Proof.
  intros H0 H1. cbv zeta.
  set (index := Qfloor (r * inject_Z (Z.of_nat (length PowerUpEffects.types)))).
  assert (0 <= index < 7) as Hrange.
  { subst index. change (inject_Z (Z.of_nat (length PowerUpEffects.types))) with 7%Q. split.
    - change 0 with (Qfloor 0). apply Qfloor_resp_le. lra.
    - pose proof (Qfloor_le (r * 7)) as Hle.
      assert (inject_Z (Qfloor (r * 7)) < inject_Z 7)%Q as Hlt
        by (change (inject_Z 7) with 7%Q; lra).
      now rewrite <- Zlt_Qlt in Hlt. }
  assert ((index <? 0) = false) as -> by lia.
  assert (Z.to_nat index < 7)%nat as Hn by lia.
  revert Hn. generalize (Z.to_nat index) as k. intros k Hk.
  do 7 (destruct k as [|k]; [eexists; split; [reflexivity|discriminate]|]).
  lia.
Qed.

Lemma spawnPowerUp_steady (host : Host) (g : Game.t) :
  Game.arena g <> None ->
  (forall k, (0 <= Math_random host k)%Q /\ (Math_random host k < 1)%Q) ->
  steady g (PowerUpEffects.spawnPowerUp host g).
Proof.
  intros Harena Hrandom. unfold PowerUpEffects.spawnPowerUp, Game.random. cbv zeta.
  cbn [Game.arena Game.set_randomCalls Game.randomCalls].
  destruct (Game.arena g) as [arena|]; [|contradiction].
  destruct (Hrandom (Game.randomCalls g)) as [H0 H1].
  destruct (randomType_configured _ H0 H1) as (type & -> & Hconf).
  cbn [mbind option_bind]. unfold PowerUpEffects.PowerUp_new.
  destruct (POWERUP_CONFIG.get type) eqn:Hget; [|contradiction].
  eapply steady_trans; [|apply onManager_steady].
  - apply (steady_frame _ _ []); auto using app_nil_r.
  - intros m _ Hall. simpl. apply Forall_app. split; [exact Hall|].
    constructor; [|constructor]. unfold configured. simpl. now rewrite Hget.
Qed.

Lemma runSpawnTimer_steady (host : Host) (delta : Q) (g : Game.t) :
  Game.arena g <> None ->
  (forall k, (0 <= Math_random host k)%Q /\ (Math_random host k < 1)%Q) ->
  steady g (PowerUpEffects.runSpawnTimer host delta g).
Proof.
  intros Harena Hrandom. unfold PowerUpEffects.runSpawnTimer. cbv zeta.
  set (g1 := PowerUpEffects.onManager _ g).
  assert (steady g g1) as H1 by (apply onManager_steady; now intros m0 _ Hall).
  destruct (Game.powerUpManager g1) as [m1|]; [|exact H1].
  destruct (Qle_bool _ 0); [|exact H1].
  apply (steady_trans g g1); [exact H1|].
  apply andThen_steady.
  - apply spawnPowerUp_steady; [|exact Hrandom].
    destruct H1 as (_ & _ & -> & _). exact Harena.
  - unfold Game.random. cbv zeta.
    eapply steady_trans; [apply set_randomCalls_steady|].
    apply onManager_steady. now intros m0 _ Hall.
Qed.

Lemma PowerUp_update_configured (host : Host) (delta : Q) (p : PowerUp) :
  configured p -> configured (PowerUpEffects.PowerUp_update host delta p).
Proof. unfold configured, PowerUpEffects.PowerUp_update. now destruct (isCollected p). Qed.

Lemma update_steady (host : Host) (network : option NetworkManager.t) (delta : Q)
    (g : Game.t) :
  ready_for_tick host network g -> steady g (PowerUpEffects.update host delta g).
Proof.
  intros Hready. pose proof Hready as (Harena & Hm & _ & Hrandom & _).
  unfold PowerUpEffects.update.
  destruct (Game.powerUpManager g) as [m|] eqn:Hmanager; [|contradiction].
  destruct (negb _); [apply steady_refl|].
  assert (steady g (PowerUpEffects.runSpawnTimer host delta g)) as H1
    by now apply runSpawnTimer_steady.
  apply andThen_steady; [exact H1|].
  pose proof (ready_kept host network _ _ Hready H1) as Hready1.
  set (g1 := PowerUpEffects.runSpawnTimer host delta g) in *.
  match goal with
  | |- steady g1 (Game.andThen ?f _ g1) => assert (steady g1 (f g1)) as H2
  end.
  { apply onManager_steady. intros m0 _ Hall. simpl.
    apply Forall_forall. intros p Hp. apply list_elem_of_fmap in Hp as (p0 & -> & Hp0).
    apply PowerUp_update_configured. rewrite Forall_forall in Hall. now apply Hall. }
  apply andThen_steady; [exact H2|].
  pose proof (ready_kept host network _ _ Hready1 H2) as (_ & _ & _ & _ & Hp2 & Hled2).
  apply andThen_steady; [now apply checkCollection_steady|].
  apply onManager_steady. intros m0 _ Hall. simpl.
  apply Forall_forall. intros p Hp. apply list_elem_of_In, filter_In in Hp as [Hp _].
  rewrite Forall_forall in Hall. apply Hall. now apply list_elem_of_In.
Qed.

(** A tick of the host on a match that is ready for it raises no
    exception. *)
Lemma updateHost_quiet
    (host : Host) (delta : Q) (network : option NetworkManager.t) (g : Game.t) :
  ready_for_tick host network g ->
  exists g4, steady g g4 /\
             HostTick.updateHost host delta network g = Game.checkWinCondition g4.
Proof.
  intros Hready. pose proof Hready as (Harena & _ & Hnet & _).
  unfold HostTick.updateHost. cbv zeta.
  set (armies := Game.forEach _ _).
  assert (steady g (armies g)) as H1.
  { subst armies.
    apply (forEach_steady
             (fun g1 => Game.arena g1 <> None /\
                        (Game.isSoloTest g1 = true \/ network <> None))).
    - intros g1 g2 [Ha Hn] (_ & _ & -> & -> & _). now split.
    - intros type g1 _ [Ha Hn]. now apply updateArmy_steady.
    - now split. }
  destruct (andThen_cases armies
              (Game.andThen (Game.checkArmyCollisions host)
                 (Game.andThen (PowerUpEffects.update host delta)
                    (Game.andThen Game.updateSoldierCounts Game.checkWinCondition))) g)
    as [[Hr _]|[_ ->]]; [destruct H1 as (_ & Hq & _); congruence|].
  set (g1 := armies g) in *.
  assert (steady g1 (Game.checkArmyCollisions host g1)) as H2
    by apply checkArmyCollisions_steady.
  destruct (andThen_cases (Game.checkArmyCollisions host)
              (Game.andThen (PowerUpEffects.update host delta)
                 (Game.andThen Game.updateSoldierCounts Game.checkWinCondition)) g1)
    as [[Hr _]|[_ ->]]; [destruct H2 as (_ & Hq & _); congruence|].
  set (g2 := Game.checkArmyCollisions host g1) in *.
  assert (steady g g2) as H02 by now apply (steady_trans g g1).
  assert (steady g2 (PowerUpEffects.update host delta g2)) as H3
    by (apply (update_steady host network); now apply (ready_kept host network g)).
  destruct (andThen_cases (PowerUpEffects.update host delta)
              (Game.andThen Game.updateSoldierCounts Game.checkWinCondition) g2)
    as [[Hr _]|[_ ->]]; [destruct H3 as (_ & Hq & _); congruence|].
  set (g3 := PowerUpEffects.update host delta g2) in *.
  assert (steady g3 (Game.updateSoldierCounts g3)) as H4 by now apply call_steady.
  destruct (andThen_cases Game.updateSoldierCounts Game.checkWinCondition g3)
    as [[Hr _]|[_ ->]]; [destruct H4 as (_ & Hq & _); congruence|].
  exists (Game.updateSoldierCounts g3). split; [|reflexivity].
  apply (steady_trans g g2); [exact H02|]. now apply (steady_trans g2 g3).
Qed.

(** The check after a tick that was not cut short raises no exception
    either. *)
Lemma checkWinCondition_quiet (g g4 : Game.t) :
  carries_on g g4 -> Game.raised g g4 = false -> Game.powerUpManager g4 <> None ->
  Game.raised g (Game.checkWinCondition g4) = false.
Proof.
  intros (_ & _ & _ & new & Hcalls) Hquiet Hmanager.
  destruct (checkWinCondition_cases g4) as [(w & Hw & ->)|(_ & ->)]; [|exact Hquiet].
  destruct (sole_survivor_registered g4 w Hw) as [army Hget].
  destruct (endGame_calls w g4 army Hmanager Hget) as [Hend _].
  rewrite (raised_app g _ (new ++ [ui_showGameOver w (length (Army.soldiers army));
                                      audio_playVictory])).
  - rewrite existsb_app. rewrite <- (raised_app g g4 new Hcalls), Hquiet. reflexivity.
  - now rewrite Hend, Hcalls, app_assoc.
Qed.

Lemma led_entries (g : Game.t) :
  Forall (fun entry =>
            Army.soldiers (snd entry) <> [] ->
            exists l, Army.leader (snd entry) = Some l /\ (l < length (Game.heap g))%nat)
         (JsMap.entries (Game.armies g)) ->
  led g.
Proof.
  intros Hall key army Hget. rewrite Forall_forall in Hall.
  apply (Hall (key, army)). apply list_elem_of_In. clear Hall.
  unfold JsMap.entries. revert Hget.
  induction (Game.armies g) as [|[k a] m IH]; simpl; [discriminate|].
  destruct (String.eqb_spec key k) as [->|_].
  - intros [= ->]. now left.
  - intros Hget. right. now apply IH.
Qed.

(** C2.  In the Playing phase the tick of the host moves the match to
    Ended exactly when one army, and only one, has a soldier left and no
    exception cuts the tick short before its last statement, the check.
    A match that is ready for the tick (it has its arena, its power-up
    manager and, unless it is a solo test, its network manager, and
    every army that has a soldier has a leader) raises no exception: its
    tick ends the match if and only if exactly one army has a soldier
    left.  The match ends in favour of that army's faction: the
    game-over screen is shown for it with its head count, which is not
    zero, and the victory sound is played.  The check itself ends the
    match in favour of the one faction that has soldiers and changes
    nothing when none, two or more armies have soldiers; a tick that
    does not end the match leaves the phase Playing. *)
Theorem updateHost_ends_iff_sole_survivor
    (host : Host) (delta : Q) (network : option NetworkManager.t) (g : Game.t) :
  Game.state g = GAME_STATES.PLAYING ->
  let g' := HostTick.updateHost host delta network g in
  ((Game.state (Game.checkWinCondition g) = GAME_STATES.ENDED
    <-> exists winner, sole_survivor g winner) /\
   (forall winner, sole_survivor g winner ->
                   Game.checkWinCondition g = Game.endGame winner g) /\
   ((forall winner, ~ sole_survivor g winner) -> Game.checkWinCondition g = g)) /\
  (Game.state g' = GAME_STATES.ENDED
   <-> (exists winner, sole_survivor g winner) /\ Game.raised g g' = false) /\
  (ready_for_tick host network g ->
   Game.raised g g' = false /\
   (Game.state g' = GAME_STATES.ENDED <-> exists winner, sole_survivor g winner)) /\
  (Game.state g' <> GAME_STATES.ENDED -> Game.state g' = GAME_STATES.PLAYING) /\
  (forall winner,
      sole_survivor g winner -> Game.raised g g' = false ->
      NoDup (JsMap.keys (Game.armies g)) ->
      exists army earlier,
        JsMap.get winner (Game.armies g') = Some army /\
        Army.soldiers army <> [] /\
        Game.calls g'
        = earlier ++ [ui_showGameOver winner (length (Army.soldiers army)); audio_playVictory]).
Proof.
  intros Hplaying. cbv zeta.
  assert (GAME_STATES.PLAYING <> GAME_STATES.ENDED) as Hdiff by discriminate.
  split.
  { destruct (checkWinCondition_cases g) as [(w & Hw & ->)|(Hnone & ->)].
    - split; [|split].
      + split; [intros _; now exists w|intros _; apply endGame_state].
      + intros winner Hwinner. now rewrite (sole_survivor_unique g winner w).
      + intros Hnone. now apply Hnone in Hw.
    - split; [|split].
      + split; [congruence|]. intros [w Hw]. now apply Hnone in Hw.
      + intros winner Hwinner. now apply Hnone in Hwinner.
      + reflexivity. }
  assert (Game.state (HostTick.updateHost host delta network g) = GAME_STATES.ENDED
          <-> (exists winner, sole_survivor g winner) /\
              Game.raised g (HostTick.updateHost host delta network g) = false) as Hiff.
  { pose proof (updateHost_cases host delta network g) as Hcases. cbv zeta in Hcases.
    destruct Hcases as [[Hon Hraised]|(g4 & Hon & Hquiet & Hmanager & ->)].
    { destruct Hon as (Hstate & _). rewrite Hstate, Hplaying, Hraised.
      split; [congruence|intros [_ H]; discriminate H]. }
    rewrite (checkWinCondition_quiet g g4 Hon Hquiet Hmanager).
    destruct Hon as (Hstate & Hstanding & _).
    destruct (checkWinCondition_cases g4) as [(w & Hw & ->)|(Hnone & ->)].
    - rewrite endGame_state. split; [intros _; split; [|reflexivity]|reflexivity].
      exists w. now apply (sole_survivor_kept g g4).
    - rewrite Hstate, Hplaying. split; [congruence|].
      intros [[w Hw] _]. apply (sole_survivor_kept g g4 w Hstanding) in Hw.
      now apply Hnone in Hw. }
  split; [exact Hiff|]. split.
  { intros Hready. destruct (updateHost_quiet host delta network g Hready) as (g4 & Hst & Heq).
    assert (Game.raised g (HostTick.updateHost host delta network g) = false) as Hquiet.
    { rewrite Heq. destruct Hst as (Hon & Hq & _).
      apply checkWinCondition_quiet; [exact Hon|exact Hq|].
      destruct Hready as (_ & Hm & _). destruct Hon as (_ & _ & Hm' & _). tauto. }
    split; [exact Hquiet|]. rewrite Hiff, Hquiet. tauto. }
  pose proof (updateHost_cases host delta network g) as Hcases. cbv zeta in Hcases.
  destruct Hcases as [[Hon Hraised]|(g4 & Hon & Hquiet & Hmanager & ->)].
  { destruct Hon as (Hstate & _). rewrite Hstate, Hplaying, Hraised.
    split; [reflexivity|]. intros winner _ H. discriminate H. }
  destruct Hon as (Hstate & Hstanding & _).
  destruct (checkWinCondition_cases g4) as [(w & Hw & ->)|(Hnone & ->)].
  - rewrite endGame_state. split; [intros H; now contradiction H|].
    intros winner Hwinner _ Hnd.
    destruct (sole_survivor_registered g4 w Hw) as [army Hget].
    destruct (endGame_calls w g4 army Hmanager Hget) as [Hend Harmies].
    apply (sole_survivor_kept g g4 winner Hstanding) in Hwinner.
    assert (winner = w) as -> by now apply (sole_survivor_unique g4).
    destruct Hw as (before & survivor & after & Heq & Hlive & _).
    assert (JsMap.get w (Game.armies g4) = Some survivor) as Hsurvivor.
    { apply JsMap_get_elem.
      - assert (JsMap.keys (Game.armies g4) = JsMap.keys (Game.armies g)) as ->; [|exact Hnd].
        unfold JsMap.keys. apply (f_equal (map fst)) in Hstanding.
        unfold standing, JsMap.entries in Hstanding. rewrite !map_map in Hstanding.
        exact Hstanding.
      - unfold JsMap.entries in Heq. rewrite Heq. apply in_app_iff. right. now left. }
    assert (survivor = army) as -> by congruence.
    exists army, (Game.calls g4). rewrite Harmies. now repeat split.
  - rewrite Hstate, Hplaying. split; [reflexivity|].
    intros winner Hwinner. apply (sole_survivor_kept g g4 winner Hstanding) in Hwinner.
    now apply Hnone in Hwinner.
Qed.

Lemma updateHost_ends_iff_sole_survivor_witness :
  Game.state Examples.lastStanding = GAME_STATES.PLAYING /\
  ready_for_tick Examples.host (Some Examples.lobby) Examples.lastStanding /\
  sole_survivor Examples.lastStanding SOLDIER_TYPES.ROCK /\
  Game.state (HostTick.updateHost Examples.host (1 # 60) (Some Examples.lobby)
                Examples.lastStanding)
  = GAME_STATES.ENDED.
Proof.
  assert (Game.state Examples.lastStanding = GAME_STATES.PLAYING) as Hplaying
    by (vm_compute; reflexivity).
  assert (sole_survivor Examples.lastStanding SOLDIER_TYPES.ROCK) as Hrock.
  { apply sole_survivor_survivors. vm_compute. reflexivity. }
  assert (ready_for_tick Examples.host (Some Examples.lobby) Examples.lastStanding) as Hready.
  { split; [vm_compute; discriminate|]. split; [vm_compute; discriminate|].
    split; [right; discriminate|].
    split; [intros k; split; vm_compute; congruence|].
    split; [vm_compute; constructor|].
    apply led_entries. vm_compute.
    constructor; [intros _; exists 0%nat; split; [reflexivity|lia]|].
    constructor; [intros H; now contradiction H|].
    constructor; [intros H; now contradiction H|constructor]. }
  split; [exact Hplaying|]. split; [exact Hready|]. split; [exact Hrock|].
  apply (proj2 (proj1 (proj2 (proj2 (updateHost_ends_iff_sole_survivor Examples.host (1 # 60)
                         (Some Examples.lobby) Examples.lastStanding Hplaying))) Hready)).
  now exists SOLDIER_TYPES.ROCK.
Defined.

(* ===================================================================== *)
(** * Further properties of the code *)
(* ===================================================================== *)

(** ** Maps *)

Lemma JsMap_get_set_eq {V : Type} (k : string) (v : V) (m : JsMap.t V) :
  JsMap.get k (JsMap.set k v m) = Some v.
Proof.
  induction m as [|[k' v'] m IH]; simpl.
  - now rewrite String.eqb_refl.
  - destruct (String.eqb_spec k k') as [->|Hne]; simpl.
    + now rewrite String.eqb_refl.
    + apply String.eqb_neq in Hne. now rewrite Hne.
Qed.

Lemma JsMap_get_set_ne {V : Type} (k k' : string) (v : V) (m : JsMap.t V) :
  k <> k' -> JsMap.get k' (JsMap.set k v m) = JsMap.get k' m.
Proof.
  intros Hne. induction m as [|[k0 v0] m IH]; simpl.
  - assert (String.eqb k' k = false) as -> by (apply String.eqb_neq; congruence).
    reflexivity.
  - destruct (String.eqb_spec k k0) as [->|Hne0]; simpl.
    + assert (String.eqb k' k0 = false) as -> by (apply String.eqb_neq; congruence).
      reflexivity.
    + now rewrite IH.
Qed.

Lemma JsMap_keys_set {V : Type} (k : string) (v : V) (m : JsMap.t V) :
  JsMap.keys (JsMap.set k v m)
  = if JsMap.has k m then JsMap.keys m else JsMap.keys m ++ [k].
Proof.
  unfold JsMap.has, JsMap.keys. induction m as [|[k' v'] m IH]; simpl; [reflexivity|].
  destruct (String.eqb_spec k k') as [->|Hne]; simpl; [reflexivity|].
  rewrite IH. now destruct (JsMap.get k m).
Qed.

Lemma JsMap_has_keys {V : Type} (k : string) (m : JsMap.t V) :
  JsMap.has k m = true <-> In k (JsMap.keys m).
Proof.
  unfold JsMap.has, JsMap.keys. induction m as [|[k' v'] m IH]; simpl.
  - split; [discriminate|tauto].
  - destruct (String.eqb_spec k k') as [->|Hne].
    + split; [now left|reflexivity].
    + rewrite IH. split; [now right|]. intros [H|H]; [congruence|exact H].
Qed.

Lemma JsMap_set_NoDup {V : Type} (k : string) (v : V) (m : JsMap.t V) :
  NoDup (JsMap.keys m) -> NoDup (JsMap.keys (JsMap.set k v m)).
Proof.
  intros Hnd. rewrite JsMap_keys_set.
  destruct (JsMap.has k m) eqn:Hhas; [exact Hnd|].
  apply NoDup_app. split; [exact Hnd|]. split; [|apply NoDup_singleton].
  intros k' Hin Hk. apply list_elem_of_singleton in Hk as ->.
  apply list_elem_of_In, JsMap_has_keys in Hin. congruence.
Qed.

(** ** A new army *)

Lemma createRegulars_spec (n : nat) :
  forall (a : Army.t) (h : Heap),
    exists new,
      snd (Army.createRegulars n a h) = h ++ new /\
      length new = n /\
      Forall (fun s => Soldier.type s = Army.type a /\ Soldier.isLeader s = false /\
                       Soldier.isConverting s = false) new /\
      Army.soldiers (fst (Army.createRegulars n a h)) = Army.soldiers a ++ seq (length h) n /\
      Army.leader (fst (Army.createRegulars n a h)) = Army.leader a /\
      Army.type (fst (Army.createRegulars n a h)) = Army.type a /\
      Army.maxSoldiers (fst (Army.createRegulars n a h)) = Army.maxSoldiers a.
Proof.
  induction n as [|n IH]; intros a h; simpl.
  - exists []. rewrite !app_nil_r. repeat split; constructor.
  - unfold alloc.
    match goal with
    | |- context [Army.createRegulars n ?a1 ?h1] =>
        destruct (IH a1 h1) as (new & Hh & Hlen & Hall & Hs & Hl & Ht & Hm)
    end.
    simpl in *. eexists (_ :: new).
    rewrite Hh, Hs, Hl, Ht, Hm, <- !app_assoc. simpl.
    split; [reflexivity|]. split; [now rewrite Hlen|].
    split; [constructor; [now repeat split|exact Hall]|].
    split; [|now repeat split].
    rewrite length_app. simpl. now rewrite Nat.add_1_r.
Qed.

(** X1. [new Army(...)] on any store: the army gets five fresh soldier
    objects, consecutive and after every existing one, whose first is
    the leader and the only one flagged; all are of the army's faction
    and none is converting; the objects that existed are untouched. *)
Theorem Army_new_wellformed (type : string) (isLocal : bool) (h : Heap) :
  let a := fst (Army.new type isLocal h) in
  let h' := snd (Army.new type isLocal h) in
  Army.type a = type /\
  Army.soldiers a = seq (length h) 5 /\
  Army.leader a = Some (length h) /\
  leaders h' a = [length h] /\
  Z.of_nat (length (Army.soldiers a)) = Army.maxSoldiers a /\
  exists new,
    h' = h ++ new /\ length new = 5%nat /\
    Forall (fun s => Soldier.type s = type /\ Soldier.isConverting s = false) new.
Proof.
  cbv zeta. unfold Army.new, Army.createSoldiers, alloc.
  cbn [Army.set_spawnCounter Army.set_soldiers Army.set_leader Army.type Army.soldiers
       Army.leader app].
  change (Z.to_nat (GAME_CONFIG.SOLDIERS_PER_ARMY - 1)) with 4%nat.
  match goal with
  | |- context [Army.createRegulars 4 ?a1 ?h1] =>
      pose proof (createRegulars_spec 4 a1 h1) as Hspec;
      remember (Army.createRegulars 4 a1 h1) as r eqn:Hr in *
  end.
  clear Hr. destruct Hspec as (new & Hh & Hlen & Hall & Hs & Hl & Ht & Hm).
  simpl in Hs, Hl, Ht, Hm, Hall. rewrite length_app in Hs. simpl in Hs.
  rewrite Nat.add_1_r in Hs.
  split; [exact Ht|]. split; [exact Hs|]. split; [exact Hl|].
  split; [|split].
  - unfold leaders. rewrite Hs, Hh, <- app_assoc. simpl.
    assert (forall k, (k < length new)%nat ->
              readb Soldier.isLeader (h ++ Soldier.new type true (String.append type "_LEADER") :: new)
                    (S (length h + k)) = false) as Hrest.
    { intros k Hk. unfold readb.
      replace (S (length h + k)) with (length h + S k)%nat by lia.
      rewrite lookup_app_r by lia.
      replace (length h + S k - length h)%nat with (S k) by lia. simpl.
      destruct (new !! k) as [s|] eqn:Hs'; [|reflexivity].
      rewrite Forall_forall in Hall.
      apply list_elem_of_lookup_2 in Hs'. now apply Hall in Hs'. }
    unfold readb at 1. rewrite lookup_app_r by lia. rewrite Nat.sub_diag. simpl.
    f_equal.
    destruct new as [|s1 [|s2 [|s3 [|s4 [|]]]]]; try discriminate Hlen.
    replace (S (S (S (S (length h))))) with (S (length h + 3)) by lia.
    replace (S (S (S (length h)))) with (S (length h + 2)) by lia.
    replace (S (S (length h))) with (S (length h + 1)) by lia.
    replace (S (length h)) with (S (length h + 0)) at 1 by lia.
    rewrite (Hrest 0%nat), (Hrest 1%nat), (Hrest 2%nat), (Hrest 3%nat) by (simpl; lia).
    reflexivity.
  - rewrite Hs, Hm. reflexivity.
  - eexists (_ :: new). rewrite Hh, <- app_assoc. simpl.
    split; [reflexivity|]. split; [now rewrite Hlen|].
    constructor; [now split|].
    eapply Forall_impl; [exact Hall|]. simpl. intros s (? & _ & ?). now split.
Qed.

(** ** Leaving and entering a roster *)

Lemma onArmy_found (key : string) (f : Army.t -> Heap -> Army.t * Heap) (g : Game.t)
    (a : Army.t) :
  JsMap.get key (Game.armies g) = Some a ->
  Game.onArmy key f g
  = Game.set_heap (snd (f a (Game.heap g)))
      (Game.set_armies (JsMap.set key (fst (f a (Game.heap g))) (Game.armies g)) g).
Proof.
  intros Hget. unfold Game.onArmy. rewrite Hget.
  now destruct (f a (Game.heap g)).
Qed.

Lemma modify_lookup_ne (r r' : ref) (f : Soldier.t -> Soldier.t) (h : Heap) :
  r <> r' -> modify r f h !! r' = h !! r'.
Proof.
  intros Hne. unfold modify. destruct (h !! r); [|reflexivity].
  now apply list_lookup_insert_ne.
Qed.

Lemma modify_lookup_eq (r : ref) (f : Soldier.t -> Soldier.t) (h : Heap) (s : Soldier.t) :
  h !! r = Some s -> modify r f h !! r = Some (f s).
Proof.
  intros Hr. unfold modify. rewrite Hr.
  apply list_lookup_insert_eq. now apply lookup_lt_Some in Hr.
Qed.

Lemma modify_readb (p : Soldier.t -> bool) (r r' : ref) (f : Soldier.t -> Soldier.t) (h : Heap) :
  (forall s, p (f s) = p s) -> readb p (modify r f h) r' = readb p h r'.
Proof.
  intros Hf. unfold readb. destruct (decide (r = r')) as [->|Hne].
  - destruct (h !! r') as [s|] eqn:Hr.
    + rewrite (modify_lookup_eq _ _ _ _ Hr). apply Hf.
    + unfold modify. rewrite Hr. now rewrite Hr.
  - now rewrite modify_lookup_ne.
Qed.

Lemma changeType_isLeader (t : string) (s : Soldier.t) :
  Soldier.isLeader (Soldier.changeType t s) = Soldier.isLeader s.
Proof. unfold Soldier.changeType. simpl. now destruct (Soldier.leaderRing s). Qed.

Lemma indexOf_In (r : ref) (l : list ref) :
  In r l -> exists index, indexOf r l = Some index.
Proof.
  induction l as [|r' l IH]; simpl; [tauto|].
  destruct (Nat.eqb_spec r' r) as [->|Hne]; [now exists 0%nat|].
  intros [H|H]; [congruence|]. destruct (IH H) as [k ->]. now exists (S k).
Qed.

Lemma indexOf_not_In (r : ref) (l : list ref) : ~ In r l -> indexOf r l = None.
Proof.
  induction l as [|r' l IH]; simpl; [reflexivity|]. intros Hnot.
  destruct (Nat.eqb_spec r' r) as [->|Hne]; [tauto|].
  rewrite IH; [reflexivity|tauto].
Qed.

(** X2. [removeSoldier] on a roster without repetition whose army has
    its one leader: a soldier that is not in the roster changes nothing;
    a soldier of the roster is taken out, and only it, the others keeping
    their order; and afterwards the army is either empty with no leader
    or again has exactly one flagged soldier, its leader. *)
Theorem removeSoldier_effect (soldier : ref) (a : Army.t) (h : Heap) :
  NoDup (Army.soldiers a) ->
  Forall (fun r => is_Some (h !! r)) (Army.soldiers a) ->
  one_leader h a ->
  let a' := fst (Army.removeSoldier soldier a h) in
  let h' := snd (Army.removeSoldier soldier a h) in
  (~ In soldier (Army.soldiers a) -> a' = a /\ h' = h) /\
  (In soldier (Army.soldiers a) ->
   exists before after,
     Army.soldiers a = before ++ soldier :: after /\
     Army.soldiers a' = before ++ after /\
     ~ In soldier (Army.soldiers a')) /\
  ((Army.soldiers a' = [] /\ Army.leader a' = None) \/ one_leader h' a') /\
  same_ids h h'.
Proof.
  intros Hnd Hvalid Hone. cbv zeta.
  pose proof (removeSoldier_one_leader soldier a h Hnd Hvalid Hone) as Hkept.
  pose proof (removeSoldier_same_ids soldier a h) as Hids.
  destruct (Army.removeSoldier soldier a h) as [a' h'] eqn:Hrem. simpl in *.
  split; [|split; [|split; assumption]].
  - intros Hnot. unfold Army.removeSoldier in Hrem.
    rewrite (indexOf_not_In _ _ Hnot) in Hrem. now inversion Hrem.
  - intros Hin. destruct (indexOf_In _ _ Hin) as [index Hindex].
    destruct (indexOf_split _ _ _ Hindex) as (l1 & l2 & Hsplit & Hdel).
    exists l1, l2. split; [exact Hsplit|].
    assert (Army.soldiers a' = l1 ++ l2) as Hroster.
    { unfold Army.removeSoldier in Hrem. rewrite Hindex, Hdel in Hrem.
      destruct (readb Soldier.isLeader h soldier); simpl in Hrem.
      - destruct (negb _).
        + unfold Army.promoteNewLeader in Hrem. simpl in Hrem.
          destruct (l1 ++ l2); inversion Hrem; reflexivity.
        + inversion Hrem. reflexivity.
      - inversion Hrem. reflexivity. }
    split; [exact Hroster|]. rewrite Hroster. rewrite Hsplit in Hnd.
    apply NoDup_app in Hnd as (_ & Hsep & Hnd2).
    apply NoDup_cons in Hnd2 as [Hnot2 _].
    intros Hin'. apply in_app_or in Hin' as [H1|H2].
    + apply (Hsep soldier); [now apply list_elem_of_In|now left].
    + apply Hnot2. now apply list_elem_of_In.
Qed.

Lemma removeSoldier_effect_witness :
  NoDup (Army.soldiers (Examples.rock Examples.battle)) /\
  one_leader (Game.heap Examples.battle) (Examples.rock Examples.battle) /\
  Army.soldiers (fst (Army.removeSoldier 0%nat (Examples.rock Examples.battle)
                        (Game.heap Examples.battle))) = [1; 2; 3; 4]%nat /\
  one_leader (snd (Army.removeSoldier 0%nat (Examples.rock Examples.battle)
                     (Game.heap Examples.battle)))
             (fst (Army.removeSoldier 0%nat (Examples.rock Examples.battle)
                     (Game.heap Examples.battle))).
Proof.
  assert (NoDup (Army.soldiers (Examples.rock Examples.battle))) as Hnd.
  { apply (bool_decide_eq_true_1 _). vm_compute. reflexivity. }
  assert (Forall (fun r => is_Some (Game.heap Examples.battle !! r))
                 (Army.soldiers (Examples.rock Examples.battle))) as Hvalid.
  { vm_compute. repeat constructor; eexists; reflexivity. }
  assert (one_leader (Game.heap Examples.battle) (Examples.rock Examples.battle)) as Hone.
  { exists 0%nat. split; reflexivity. }
  split; [exact Hnd|]. split; [exact Hone|]. split; [reflexivity|].
  destruct (removeSoldier_effect 0%nat (Examples.rock Examples.battle)
              (Game.heap Examples.battle) Hnd Hvalid Hone) as (_ & _ & [[Hempty _]|Hkept] & _).
  - vm_compute in Hempty. discriminate Hempty.
  - exact Hkept.
Defined.


(** ** The conversion of a follower *)

Lemma changeType_type (t : string) (s : Soldier.t) :
  Soldier.type (Soldier.changeType t s) = t.
Proof. unfold Soldier.changeType. simpl. now destruct (Soldier.leaderRing s). Qed.

Lemma leaders_ext (h h' : Heap) (a a' : Army.t) :
  Army.soldiers a' = Army.soldiers a ->
  (forall r, readb Soldier.isLeader h' r = readb Soldier.isLeader h r) ->
  leaders h' a' = leaders h a.
Proof.
  intros Hroster Hflags. unfold leaders. rewrite Hroster.
  apply List.filter_ext. exact Hflags.
Qed.

(** X3. The whole conversion of a soldier that is not flagged leader,
    from a roster that holds it into another army: the from-army loses
    exactly this soldier and the to-army gains it at the end of its
    roster, so one count falls by one and the other rises by one; the
    soldier carries the to-army's faction, its old id, and is no longer
    converting; both armies keep exactly one leader, the one they had;
    armies under other keys are not touched; and in a multiplayer match
    the move is announced with the soldier's id and the two factions. *)
Theorem follower_conversion_moves_one
    (g : Game.t) (soldier : ref) (fromArmy toArmy : string)
    (fa ta : Army.t) (s : Soldier.t) :
  fromArmy <> toArmy ->
  JsMap.get fromArmy (Game.armies g) = Some fa ->
  JsMap.get toArmy (Game.armies g) = Some ta ->
  In soldier (Army.soldiers fa) ->
  NoDup (Army.soldiers fa) ->
  Forall (fun r => is_Some (Game.heap g !! r)) (Army.soldiers fa) ->
  Game.heap g !! soldier = Some s ->
  Soldier.isLeader s = false ->
  one_leader (Game.heap g) fa ->
  one_leader (Game.heap g) ta ->
  let g' := Game.conversionCallback soldier fromArmy toArmy g in
  exists fa' ta' s',
    JsMap.get fromArmy (Game.armies g') = Some fa' /\
    JsMap.get toArmy (Game.armies g') = Some ta' /\
    (exists before after,
        Army.soldiers fa = before ++ soldier :: after /\
        Army.soldiers fa' = before ++ after) /\
    S (length (Army.soldiers fa')) = length (Army.soldiers fa) /\
    Army.soldiers ta' = Army.soldiers ta ++ [soldier] /\
    Army.leader fa' = Army.leader fa /\ one_leader (Game.heap g') fa' /\
    Army.leader ta' = Army.leader ta /\ one_leader (Game.heap g') ta' /\
    Game.heap g' !! soldier = Some s' /\
    Soldier.type s' = Army.type ta /\
    Soldier.id s' = Soldier.id s /\
    Soldier.isConverting s' = false /\
    Soldier.isLeader s' = false /\
    (forall key, key <> fromArmy -> key <> toArmy ->
                 JsMap.get key (Game.armies g') = JsMap.get key (Game.armies g)) /\
    (Game.isSoloTest g = false ->
     Game.calls g'
     = Game.calls g ++ [network_sendConversion (Soldier.id s) (Army.type fa) (Army.type ta)]).
Proof.
  intros Hkeys Hfrom Hto Hin Hnd Hvalid Hs Hflag (lf & Hlf & Hleadf) (lt & Hlt & Hleadt).
  cbv zeta.
  assert (readb Soldier.isLeader (Game.heap g) soldier = false) as Hreadb
    by (unfold readb; now rewrite Hs).
  destruct (indexOf_In _ _ Hin) as [index Hindex].
  destruct (indexOf_split _ _ _ Hindex) as (l1 & l2 & Hsplit & Hdel).
  assert (Army.removeSoldier soldier fa (Game.heap g)
          = (Army.set_soldiers (l1 ++ l2) fa, Game.heap g)) as Hrem.
  { unfold Army.removeSoldier. now rewrite Hindex, Hdel, Hreadb. }
  unfold Game.conversionCallback. cbv zeta.
  rewrite (onArmy_found fromArmy _ g fa Hfrom), Hrem. cbn [fst snd].
  set (g1 := Game.set_heap (Game.heap g)
               (Game.set_armies (JsMap.set fromArmy (Army.set_soldiers (l1 ++ l2) fa)
                                   (Game.armies g)) g)).
  assert (JsMap.get toArmy (Game.armies g1) = Some ta) as Hto1.
  { subst g1. game_fields. now rewrite JsMap_get_set_ne. }
  rewrite (onArmy_found toArmy _ g1 ta Hto1). cbn [fst snd].
  set (g2 := Game.set_heap (Game.heap g1)
               (Game.set_armies (JsMap.set toArmy (Army.addSoldier soldier ta)
                                   (Game.armies g1)) g1)).
  assert (Game.typeOf toArmy g2 = Army.type ta) as HtypeTo.
  { unfold Game.typeOf. subst g2. game_fields. now rewrite JsMap_get_set_eq. }
  assert (Game.heap g2 = Game.heap g) as Hheap2 by reflexivity.
  rewrite HtypeTo, Hheap2.
  set (h3 := modify soldier (Soldier.changeType (Army.type ta)) (Game.heap g)).
  set (g3 := Game.set_heap h3 g2).
  set (h4 := modify soldier (Soldier.set_isConverting false) (Game.heap g3)).
  set (g4 := Game.set_heap h4 g3).
  assert (h4 !! soldier
          = Some (Soldier.set_isConverting false (Soldier.changeType (Army.type ta) s))) as Hs4.
  { subst h4 g3 h3. game_fields. apply modify_lookup_eq. now apply modify_lookup_eq. }
  assert (forall r, readb Soldier.isLeader h4 r = readb Soldier.isLeader (Game.heap g) r)
    as Hflags.
  { intros r. subst h4 g3 h3. game_fields.
    rewrite modify_readb by reflexivity.
    apply modify_readb. intros s0. apply changeType_isLeader. }
  assert (JsMap.get fromArmy (Game.armies g4) = Some (Army.set_soldiers (l1 ++ l2) fa))
    as Hfrom4.
  { subst g4 g3 g2 g1. game_fields.
    rewrite JsMap_get_set_ne by congruence. apply JsMap_get_set_eq. }
  assert (JsMap.get toArmy (Game.armies g4) = Some (Army.addSoldier soldier ta)) as Hto4.
  { subst g4 g3 g2. game_fields. apply JsMap_get_set_eq. }
  assert (Game.heap g4 = h4) as Hheap4 by reflexivity.
  assert (Game.armies g4 = Game.armies g2) as Harmies4 by reflexivity.
  assert (exists g', (if negb (Game.isSoloTest g4)
                      then match Game.heap g4 !! soldier with
                           | Some s0 =>
                               Game.call (network_sendConversion (Soldier.id s0)
                                            (Game.typeOf fromArmy g4) (Game.typeOf toArmy g4)) g4
                           | None => g4
                           end
                      else g4) = g' /\
                     Game.armies g' = Game.armies g4 /\ Game.heap g' = h4 /\
                     (Game.isSoloTest g = false ->
                      Game.calls g'
                      = Game.calls g ++ [network_sendConversion (Soldier.id s)
                                           (Army.type fa) (Army.type ta)]))
    as (g' & -> & Harmies' & Hheap' & Hcalls').
  { eexists. split; [reflexivity|].
    change (Game.isSoloTest g4) with (Game.isSoloTest g).
    rewrite Hheap4, Hs4.
    destruct (Game.isSoloTest g); simpl; [repeat split; discriminate|].
    repeat split. intros _.
    unfold Game.typeOf. rewrite Hfrom4, Hto4. simpl.
    now rewrite changeType_id. }
  exists (Army.set_soldiers (l1 ++ l2) fa), (Army.addSoldier soldier ta),
         (Soldier.set_isConverting false (Soldier.changeType (Army.type ta) s)).
  rewrite Harmies', Hheap'.
  split; [exact Hfrom4|]. split; [exact Hto4|].
  split; [exists l1, l2; split; [exact Hsplit|reflexivity]|].
  split; [simpl; rewrite Hsplit, !length_app; simpl; lia|].
  split; [reflexivity|]. split; [reflexivity|].
  split.
  { exists lf. split; [exact Hlf|].
    unfold leaders. simpl. rewrite (List.filter_ext _ _ Hflags).
    unfold leaders in Hleadf. rewrite Hsplit, List.filter_app in Hleadf. simpl in Hleadf.
    rewrite Hreadb in Hleadf. now rewrite List.filter_app. }
  split; [reflexivity|].
  split.
  { exists lt. split; [exact Hlt|].
    unfold leaders. simpl. rewrite (List.filter_ext _ _ Hflags).
    rewrite List.filter_app. simpl. rewrite Hreadb.
    unfold leaders in Hleadt. now rewrite Hleadt. }
  split; [exact Hs4|].
  split; [cbn [Soldier.type Soldier.set_isConverting]; apply changeType_type|].
  split; [cbn [Soldier.id Soldier.set_isConverting]; apply changeType_id|].
  split; [reflexivity|].
  split; [cbn [Soldier.isLeader Soldier.set_isConverting]; rewrite changeType_isLeader; exact Hflag|].
  split; [|exact Hcalls'].
  intros key Hk1 Hk2. rewrite Harmies4. subst g2 g1. game_fields.
  rewrite JsMap_get_set_ne by congruence. now rewrite JsMap_get_set_ne by congruence.
Qed.

Lemma follower_conversion_moves_one_witness :
  "scissors" <> "rock" /\
  exists fa' ta' s',
    JsMap.get "scissors"
      (Game.armies (Game.conversionCallback 11%nat "scissors" "rock" Examples.battle))
    = Some fa' /\
    JsMap.get "rock"
      (Game.armies (Game.conversionCallback 11%nat "scissors" "rock" Examples.battle))
    = Some ta' /\
    S (length (Army.soldiers fa')) = 5%nat /\
    Army.soldiers ta' = [0; 1; 2; 3; 4; 11]%nat /\
    Game.heap (Game.conversionCallback 11%nat "scissors" "rock" Examples.battle) !! 11%nat
    = Some s' /\
    Soldier.type s' = "rock" /\ Soldier.id s' = "scissors_0".
Proof.
  split; [discriminate|].
  assert (JsMap.get "scissors" (Game.armies Examples.battle)
          = Some (Examples.army "scissors" Examples.battle)) as Hfrom
    by (vm_compute; reflexivity).
  assert (JsMap.get "rock" (Game.armies Examples.battle)
          = Some (Examples.army "rock" Examples.battle)) as Hto
    by (vm_compute; reflexivity).
  assert (NoDup (Army.soldiers (Examples.army "scissors" Examples.battle))) as Hnd
    by (apply (bool_decide_eq_true_1 _); vm_compute; reflexivity).
  assert (Forall (fun r => is_Some (Game.heap Examples.battle !! r))
                 (Army.soldiers (Examples.army "scissors" Examples.battle))) as Hvalid
    by (vm_compute; repeat constructor; eexists; reflexivity).
  assert (In 11%nat (Army.soldiers (Examples.army "scissors" Examples.battle))) as Hin
    by (vm_compute; tauto).
  assert (Game.heap Examples.battle !! 11%nat
          = Some (Soldier.new "scissors" false "scissors_0")) as Hs
    by (vm_compute; reflexivity).
  assert (Soldier.isLeader (Soldier.new "scissors" false "scissors_0") = false) as Hflag
    by reflexivity.
  assert (one_leader (Game.heap Examples.battle) (Examples.army "scissors" Examples.battle))
    as Hlf by (exists 10%nat; split; vm_compute; reflexivity).
  assert (one_leader (Game.heap Examples.battle) (Examples.army "rock" Examples.battle))
    as Hlt by (exists 0%nat; split; vm_compute; reflexivity).
  assert ("scissors" <> "rock") as Hne by discriminate.
  destruct (follower_conversion_moves_one Examples.battle 11%nat "scissors" "rock"
              (Examples.army "scissors" Examples.battle) (Examples.army "rock" Examples.battle)
              (Soldier.new "scissors" false "scissors_0")
              Hne Hfrom Hto Hin Hnd Hvalid Hs Hflag Hlf Hlt)
    as (fa' & ta' & s' & Hfa & Hta & _ & Hlen & Hroster & _ & _ & _ & _ & Hs' & Htype & Hid & _).
  exists fa', ta', s'.
  split; [exact Hfa|]. split; [exact Hta|].
  split; [rewrite Hlen; vm_compute; reflexivity|].
  split; [rewrite Hroster; vm_compute; reflexivity|].
  split; [exact Hs'|].
  split; [rewrite Htype; vm_compute; reflexivity|rewrite Hid; vm_compute; reflexivity].
Defined.

(** ** What a reinforcement adds *)

Lemma reinforceLoop_store (host : Host) (n : nat) :
  forall (i : nat) (a : Army.t) (h : Heap),
    Forall (fun r => (r < length h)%nat) (Army.soldiers a) ->
    exists new,
      snd (Army.reinforceLoop host n i a h) = h ++ new /\
      length new = n /\
      Forall (fun s => Soldier.type s = Army.type a /\ Soldier.isLeader s = false /\
                       Soldier.isConverting s = false) new /\
      Army.leader (fst (Army.reinforceLoop host n i a h)) = Army.leader a /\
      Army.type (fst (Army.reinforceLoop host n i a h)) = Army.type a.
Proof.
  induction n as [|n IH]; intros i a h Hold; simpl.
  - exists []. rewrite app_nil_r. repeat split; constructor.
  - unfold alloc.
    match goal with
    | |- context [Army.reinforceLoop host n (S i) ?a1 ?h1] =>
        destruct (IH (S i) a1 h1) as (new & Hh & Hlen & Hall & Hl & Ht)
    end.
    { simpl. apply Forall_app. split.
      - eapply Forall_impl; [exact Hold|]. simpl. intros r Hr. rewrite length_app. simpl. lia.
      - constructor; [|constructor]. rewrite length_app. simpl. lia. }
    simpl in Hl, Ht, Hall. eexists (_ :: new).
    rewrite Hh, Hl, Ht, <- app_assoc. simpl.
    split; [reflexivity|]. split; [now rewrite Hlen|]. split; [|now split].
    constructor; [|exact Hall].
    destruct (Army.leader a ≫= _); now repeat split.
Qed.

(** X4. [reinforceSoldiers] only adds rank and file: whatever the count,
    the clock and the random draws, the new soldiers are fresh objects
    of the army's own faction, none flagged leader and none converting;
    they are appended to the roster; every soldier that existed is left
    as it was; and the army's leader and its set of flagged soldiers are
    the same as before. *)
Theorem reinforceSoldiers_adds_followers
    (host : Host) (count : Z) (a : Army.t) (h : Heap) :
  Forall (fun r => (r < length h)%nat) (Army.soldiers a) ->
  let a' := fst (Army.reinforceSoldiers host count a h) in
  let h' := snd (Army.reinforceSoldiers host count a h) in
  exists new,
    h' = h ++ new /\
    Army.soldiers a' = Army.soldiers a ++ seq (length h) (length new) /\
    Forall (fun s => Soldier.type s = Army.type a /\ Soldier.isLeader s = false /\
                     Soldier.isConverting s = false) new /\
    Army.leader a' = Army.leader a /\
    leaders h' a' = leaders h a /\
    (one_leader h a -> one_leader h' a').
Proof.
  intros Hold. cbv zeta.
  pose proof (reinforceSoldiers_roster host count a h) as Hroster.
  unfold Army.reinforceSoldiers in *.
  set (n := Z.to_nat _) in *.
  destruct (reinforceLoop_store host n 0 a h Hold) as (new & Hh & Hlen & Hall & Hl & Ht).
  exists new. rewrite Hh, Hroster, Hl, Hlen.
  split; [reflexivity|]. split; [reflexivity|]. split; [exact Hall|]. split; [reflexivity|].
  assert (leaders (h ++ new)
            (fst (Army.reinforceLoop host n 0 a h)) = leaders h a) as Hleaders.
  { unfold leaders. rewrite Hroster, List.filter_app.
    rewrite (List.filter_ext_in (readb Soldier.isLeader (h ++ new)) (readb Soldier.isLeader h)).
    - rewrite (filter_all_false (readb Soldier.isLeader (h ++ new))); [apply app_nil_r|].
      intros r Hr. apply in_seq in Hr. unfold readb.
      rewrite lookup_app_r by lia.
      destruct (new !! (r - length h)%nat) as [s|] eqn:Hs; [|reflexivity].
      rewrite Forall_forall in Hall. apply list_elem_of_lookup_2 in Hs.
      apply Hall in Hs as (_ & -> & _). reflexivity.
    - intros r Hr. unfold readb. rewrite lookup_app_l; [reflexivity|].
      rewrite Forall_forall in Hold. apply Hold. now apply list_elem_of_In. }
  split; [exact Hleaders|].
  intros (l & Hleader & Hflags). exists l. split; [now rewrite Hl|].
  now rewrite Hleaders.
Qed.

Lemma reinforceSoldiers_adds_followers_witness :
  Forall (fun r => (r < length (Game.heap Examples.depleted))%nat)
         (Army.soldiers (Examples.rock Examples.depleted)) /\
  leaders
    (snd (Army.reinforceSoldiers Examples.host 2 (Examples.rock Examples.depleted)
            (Game.heap Examples.depleted)))
    (fst (Army.reinforceSoldiers Examples.host 2 (Examples.rock Examples.depleted)
            (Game.heap Examples.depleted)))
  = [0%nat].
Proof.
  assert (Forall (fun r => (r < length (Game.heap Examples.depleted))%nat)
                 (Army.soldiers (Examples.rock Examples.depleted))) as Hold
    by (vm_compute; repeat constructor).
  split; [exact Hold|].
  destruct (reinforceSoldiers_adds_followers Examples.host 2 (Examples.rock Examples.depleted)
              (Game.heap Examples.depleted) Hold) as (new & _ & _ & _ & _ & Hleaders & _).
  rewrite Hleaders. reflexivity.
Defined.

(** ** The collision pass *)

Lemma marked_isConverting (s : Soldier.t) : Soldier.isConverting (marked s) = true.
Proof. unfold marked, Army.setEmissive. simpl. now destruct (Soldier.modelMesh s). Qed.

Lemma marked_marked (s : Soldier.t) : marked (marked s) = marked s.
Proof.
  destruct s as [ty il ic idr i p ry sc [m|] lr]; reflexivity.
Qed.

(** What [convertSoldier] does to the soldier it is given. *)
Lemma firstFrame_marked (s : Soldier.t) :
  Game.firstFrame (Soldier.scale (Soldier.set_isConverting true s))
    (Soldier.set_isConverting true s)
  = marked s.
Proof.
  destruct s as [ty il ic idr i p ry sc [m|] lr]; reflexivity.
Qed.

Lemma convertSoldier_eq
    (soldier : ref) (fromArmy toArmy : string) (g : Game.t) (s : Soldier.t) :
  Game.heap g !! soldier = Some s ->
  Game.convertSoldier soldier fromArmy toArmy g
  = Game.set_conversions
      (Game.conversions g ++
         [{| conv_soldier := soldier; conv_fromArmy := fromArmy;
             conv_toArmy := toArmy; conv_startScale := Soldier.scale s |}])
      (Game.set_heap (<[soldier := marked s]> (Game.heap g))
         (Game.call audio_playConvert g)).
Proof.
  intros Hs. unfold Game.convertSoldier. cbv zeta.
  cbn [Game.heap Game.set_heap Game.call Game.conversions].
  rewrite (modify_lookup_eq _ _ _ s Hs).
  assert (modify soldier
            (Game.firstFrame (Soldier.scale (Soldier.set_isConverting true s)))
            (modify soldier (Soldier.set_isConverting true) (Game.heap g))
          = <[soldier := marked s]> (Game.heap g)) as ->.
  { unfold modify at 1. rewrite (modify_lookup_eq _ _ _ s Hs).
    unfold modify. rewrite Hs, list_insert_insert_eq. now rewrite firstFrame_marked. }
  reflexivity.
Qed.

Lemma marked_stays (g g' : Game.t) (new : list Conversion) (r : ref) :
  only_marks g g' new ->
  readb Soldier.isConverting (Game.heap g) r = true ->
  readb Soldier.isConverting (Game.heap g') r = true.
Proof.
  intros (_ & _ & Hheap & _) Hr. unfold readb in *.
  destruct (Hheap r) as [-> | ->]; [exact Hr|].
  destruct (Game.heap g !! r); [apply marked_isConverting|discriminate].
Qed.

Lemma only_marks_trans (g g1 g2 : Game.t) (n1 n2 : list Conversion) :
  only_marks g g1 n1 -> only_marks g1 g2 n2 -> only_marks g g2 (n1 ++ n2).
Proof.
  intros (Ha & Hs & Hh & Hc & Hl) (Ha' & Hs' & Hh' & Hc' & Hl').
  repeat split.
  - congruence.
  - congruence.
  - intros r. destruct (Hh' r) as [-> | ->]; destruct (Hh r) as [-> | ->]; auto.
    right. destruct (Game.heap g !! r); [|reflexivity].
    simpl. now rewrite marked_marked.
  - rewrite Hc', Hc. now rewrite app_assoc.
  - rewrite Hl', Hl, length_app, repeat_app. now rewrite app_assoc.
Qed.

Lemma fair_conversion_armies (g g' : Game.t) (c : Conversion) :
  Game.armies g' = Game.armies g -> fair_conversion g' c -> fair_conversion g c.
Proof. unfold fair_conversion. now intros ->. Qed.

Lemma started_refl (exempt : option ref) (g : Game.t) : started exempt g g [].
Proof.
  repeat split; simpl; auto using app_nil_r.
Qed.

Lemma started_trans (exempt : option ref) (g g1 g2 : Game.t) (n1 n2 : list Conversion) :
  started exempt g g1 n1 -> started exempt g1 g2 n2 -> started exempt g g2 (n1 ++ n2).
Proof.
  intros (Hm & Hnew & Hflag) (Hm' & Hnew' & Hflag').
  split; [now apply (only_marks_trans g g1)|]. split.
  - apply Forall_app. split.
    + eapply Forall_impl; [exact Hnew|]. simpl. intros c (Hfair & Hset & Hwas).
      split; [exact Hfair|]. split; [|exact Hwas].
      now apply (marked_stays g1 g2 n2).
    + eapply Forall_impl; [exact Hnew'|]. simpl. intros c (Hfair & Hset & Hwas).
      split; [apply (fair_conversion_armies g g1); [apply Hm|exact Hfair]|].
      split; [exact Hset|].
      destruct Hwas as [Hex|Hwas]; [now left|right].
      destruct (readb Soldier.isConverting (Game.heap g) (conv_soldier c)) eqn:Hg;
        [|reflexivity].
      apply (marked_stays g g1 n1) in Hg; [congruence|exact Hm].
  - intros r Hr. rewrite map_app, in_app_iff.
    destruct (Hflag' r Hr) as [H1|H2]; [|tauto].
    destruct (Hflag r H1); tauto.
Qed.

Lemma started_fold {A : Type} (exempt : option ref) (f : Game.t -> A -> Game.t)
    (I : Game.t -> Prop) (l : list A) :
  (forall g x, I g -> In x l -> exists new, started exempt g (f g x) new) ->
  (forall g g' new, I g -> started exempt g g' new -> I g') ->
  forall g, I g -> exists new, started exempt g (fold_left f l g) new.
Proof.
  intros Hstep Hkeep. induction l as [|x l IH]; intros g Hg; simpl.
  - exists []. apply started_refl.
  - destruct (Hstep g x Hg (or_introl eq_refl)) as (n1 & H1).
    destruct IH with (g := f g x) as (n2 & H2).
    + intros g0 y H0 Hy. apply Hstep; [exact H0|now right].
    + eapply Hkeep; eassumption.
    + exists (n1 ++ n2). now apply (started_trans exempt g (f g x)).
Qed.

Lemma convertSoldier_started
    (exempt : option ref) (soldier : ref) (fromArmy toArmy : string) (g : Game.t)
    (s : Soldier.t) :
  Game.heap g !! soldier = Some s ->
  (forall scale,
      fair_conversion g {| conv_soldier := soldier; conv_fromArmy := fromArmy;
                           conv_toArmy := toArmy; conv_startScale := scale |}) ->
  Some soldier = exempt \/ readb Soldier.isConverting (Game.heap g) soldier = false ->
  exists new, started exempt g (Game.convertSoldier soldier fromArmy toArmy g) new.
Proof.
  intros Hs Hfair Hwas. eexists [_]. rewrite (convertSoldier_eq _ _ _ _ s Hs).
  assert (soldier < length (Game.heap g))%nat as Hlt by now apply lookup_lt_Some in Hs.
  unfold started, only_marks. game_fields.
  split; [|split].
  - repeat split; game_fields; try reflexivity.
    intros r. destruct (decide (r = soldier)) as [->|Hne].
    + right. rewrite list_lookup_insert_eq by exact Hlt. now rewrite Hs.
    + left. apply list_lookup_insert_ne. congruence.
  - constructor; [|constructor]. cbn [conv_soldier]. split; [apply Hfair|].
    split; [|exact Hwas].
    unfold readb. rewrite list_lookup_insert_eq by exact Hlt. apply marked_isConverting.
  - intros r Hr. cbn [map conv_soldier].
    destruct (decide (r = soldier)) as [->|Hne]; [right; now left|left].
    unfold readb in *. rewrite list_lookup_insert_ne in Hr by congruence. exact Hr.
Qed.

Lemma handleCollision_started
    (soldier1 soldier2 : ref) (army1 army2 : string) (a1 a2 : Army.t) (g : Game.t)
    (s1 s2 : Soldier.t) :
  JsMap.get army1 (Game.armies g) = Some a1 ->
  JsMap.get army2 (Game.armies g) = Some a2 ->
  In soldier1 (Army.soldiers a1) ->
  In soldier2 (Army.soldiers a2) ->
  Game.heap g !! soldier1 = Some s1 ->
  Game.heap g !! soldier2 = Some s2 ->
  readb Soldier.isConverting (Game.heap g) soldier2 = false ->
  exists new,
    started (Some soldier1) g (Game.handleCollision soldier1 soldier2 army1 army2 g) new.
Proof.
  intros H1 H2 Hin1 Hin2 Hs1 Hs2 Hfree. unfold Game.handleCollision. rewrite H1, H2.
  destruct (Army.isInvincible a1) eqn:Hi1; [exists []; apply started_refl|].
  destruct (Army.isInvincible a2) eqn:Hi2; [exists []; apply started_refl|].
  cbv zeta. cbn [orb].
  destruct (bool_decide_reflect
              (Game.getRPSWinner (Army.type a1) (Army.type a2) = Some (Army.type a1)))
    as [Hw1|_].
  - apply (convertSoldier_started _ _ _ _ _ s2 Hs2); [|now right].
    intros scale. exists a2, a1. cbn [conv_soldier conv_fromArmy conv_toArmy].
    repeat split; try assumption. now rewrite getRPSWinner_sym.
  - destruct (bool_decide_reflect
                (Game.getRPSWinner (Army.type a1) (Army.type a2) = Some (Army.type a2)))
      as [Hw2|_]; [|exists []; apply started_refl].
    apply (convertSoldier_started _ _ _ _ _ s1 Hs1); [|now left].
    intros scale. exists a1, a2. cbn [conv_soldier conv_fromArmy conv_toArmy].
    repeat split; assumption.
Qed.

Lemma collideWith_started
    (host : Host) (soldier1 soldier2 : ref) (army1 army2 : string) (a1 a2 : Army.t)
    (g : Game.t) :
  JsMap.get army1 (Game.armies g) = Some a1 ->
  JsMap.get army2 (Game.armies g) = Some a2 ->
  In soldier1 (Army.soldiers a1) ->
  In soldier2 (Army.soldiers a2) ->
  exists new,
    started (Some soldier1) g (Game.collideWith host army1 army2 soldier1 g soldier2) new.
Proof.
  intros H1 H2 Hin1 Hin2. unfold Game.collideWith.
  destruct (readb Soldier.isConverting (Game.heap g) soldier2) eqn:Hfree;
    [exists []; apply started_refl|].
  destruct (Game.heap g !! soldier1) as [s1|] eqn:Hs1; [|exists []; apply started_refl].
  destruct (Game.heap g !! soldier2) as [s2|] eqn:Hs2; [|exists []; apply started_refl].
  cbv zeta. destruct (Qltb _ _); [|exists []; apply started_refl].
  now apply (handleCollision_started _ _ _ _ a1 a2 _ s1 s2).
Qed.

Lemma started_armies (exempt : option ref) (g g' : Game.t) (new : list Conversion)
    (key : string) (a : Army.t) :
  started exempt g g' new ->
  JsMap.get key (Game.armies g) = Some a -> JsMap.get key (Game.armies g') = Some a.
Proof. intros ((-> & _) & _). auto. Qed.

Lemma started_unexempt (soldier : ref) (g g' : Game.t) (new : list Conversion) :
  readb Soldier.isConverting (Game.heap g) soldier = false ->
  started (Some soldier) g g' new -> started None g g' new.
Proof.
  intros Hfree (Hm & Hnew & Hflag). split; [exact Hm|]. split; [|exact Hflag].
  eapply Forall_impl; [exact Hnew|]. simpl. intros c (Hfair & Hset & Hwas).
  split; [exact Hfair|]. split; [exact Hset|]. right.
  destruct Hwas as [Hex|Hwas]; [|exact Hwas]. now injection Hex as ->.
Qed.

Lemma collideSoldier_started
    (host : Host) (soldier1 : ref) (army1 army2 : string) (a1 a2 : Army.t) (g : Game.t) :
  JsMap.get army1 (Game.armies g) = Some a1 ->
  JsMap.get army2 (Game.armies g) = Some a2 ->
  In soldier1 (Army.soldiers a1) ->
  exists new,
    started None g (Game.collideSoldier host army1 army2 (Army.soldiers a2) g soldier1) new.
Proof.
  intros H1 H2 Hin1. unfold Game.collideSoldier.
  destruct (readb Soldier.isConverting (Game.heap g) soldier1) eqn:Hfree;
    [exists []; apply started_refl|].
  destruct (started_fold (Some soldier1) (Game.collideWith host army1 army2 soldier1)
              (fun g => JsMap.get army1 (Game.armies g) = Some a1 /\
                        JsMap.get army2 (Game.armies g) = Some a2)
              (Army.soldiers a2)) with (g := g) as (new & Hnew).
  - intros g0 soldier2 (H1' & H2') Hin2. now apply (collideWith_started _ _ _ _ _ a1 a2).
  - intros g0 g' new (H1' & H2') Hst. split; eapply started_armies; eassumption.
  - now split.
  - exists new. now apply (started_unexempt soldier1).
Qed.

Lemma collideArmies_started
    (host : Host) (army1 army2 : string * Army.t) (g : Game.t) :
  JsMap.get (fst army1) (Game.armies g) = Some (snd army1) ->
  JsMap.get (fst army2) (Game.armies g) = Some (snd army2) ->
  exists new, started None g (Game.collideArmies host army1 g army2) new.
Proof.
  intros H1 H2. unfold Game.collideArmies.
  apply (started_fold None _
           (fun g => JsMap.get (fst army1) (Game.armies g) = Some (snd army1) /\
                     JsMap.get (fst army2) (Game.armies g) = Some (snd army2))).
  - intros g0 soldier1 (H1' & H2') Hin1. now apply (collideSoldier_started _ _ _ _ (snd army1)).
  - intros g0 g' new (H1' & H2') Hst. split; eapply started_armies; eassumption.
  - now split.
Qed.

Lemma collidePairs_started (host : Host) (armyArray : list (string * Army.t)) :
  forall g,
    Forall (fun army => JsMap.get (fst army) (Game.armies g) = Some (snd army)) armyArray ->
    exists new, started None g (Game.collidePairs host armyArray g) new.
Proof.
  induction armyArray as [|army1 rest IH]; intros g Hall; simpl.
  - exists []. apply started_refl.
  - apply Forall_cons_1 in Hall as (H1 & Hrest).
    destruct (started_fold None (Game.collideArmies host army1)
                (fun g => Forall (fun army => JsMap.get (fst army) (Game.armies g)
                                              = Some (snd army)) (army1 :: rest))
                rest) with (g := g) as (n1 & Hn1).
    + intros g0 army2 Hall0 Hin2. apply Forall_cons_1 in Hall0 as (H1' & Hrest').
      apply collideArmies_started; [exact H1'|].
      rewrite Forall_forall in Hrest'. apply Hrest'. now apply list_elem_of_In.
    + intros g0 g' new Hall0 Hst. eapply Forall_impl; [exact Hall0|].
      simpl. intros army. now apply (started_armies None g0 g' new).
    + now constructor.
    + destruct (IH (fold_left (Game.collideArmies host army1) rest g)) as (n2 & Hn2).
      * eapply Forall_impl; [exact Hrest|].
        simpl. intros army. now apply (started_armies None _ _ n1).
      * exists (n1 ++ n2). eapply started_trans; eassumption.
Qed.

Lemma JsMap_get_entry {V : Type} (m : JsMap.t V) :
  NoDup (JsMap.keys m) ->
  Forall (fun e => JsMap.get (fst e) m = Some (snd e)) (JsMap.entries m).
Proof.
  unfold JsMap.keys, JsMap.entries. induction m as [|[k v] m IH]; intros Hnd.
  - constructor.
  - cbn [map fst] in Hnd. apply NoDup_cons in Hnd as (Hk & Hnd).
    constructor; [simpl; now rewrite String.eqb_refl|].
    specialize (IH Hnd). rewrite Forall_forall in IH |- *.
    intros [k' v'] Hin. simpl.
    destruct (String.eqb_spec k' k) as [->|_]; [|now apply (IH (k', v'))].
    exfalso. apply Hk. apply list_elem_of_fmap. now exists (k, v').
Qed.

(** X5. One pass of [checkArmyCollisions] only starts conversions.
    No roster, no army and not the phase changes, and a soldier changes
    at most in that its [isConverting] flag is now set and, the first
    frame of its animation being drawn, the emissive colour of its model
    is black at intensity 0 (a model that was never lit had intensity 1);
    its scale is rewritten with the value it has.  The queue of
    running conversions grows at its end, with one [playConvert] sound
    for each new entry, and each new entry takes a soldier that was not
    converting before the pass, from the roster of its own army to an
    army whose faction beats it, neither army being invincible.  A
    soldier that is flagged after the pass and was not before has an
    entry in the queue. *)
Theorem checkArmyCollisions_only_starts_conversions (host : Host) (g : Game.t) :
  NoDup (JsMap.keys (Game.armies g)) ->
  let g' := Game.checkArmyCollisions host g in
  exists new,
    only_marks g g' new /\
    Forall (fun c => fair_conversion g c /\
                     readb Soldier.isConverting (Game.heap g) (conv_soldier c) = false /\
                     readb Soldier.isConverting (Game.heap g') (conv_soldier c) = true) new /\
    (forall r, readb Soldier.isConverting (Game.heap g') r = true ->
               readb Soldier.isConverting (Game.heap g) r = true \/
               In r (map conv_soldier new)).
Proof.
  intros Hnd. cbv zeta. unfold Game.checkArmyCollisions.
  destruct (collidePairs_started host (JsMap.entries (Game.armies g)) g
              (JsMap_get_entry _ Hnd)) as (new & Hm & Hnew & Hflag).
  exists new. split; [exact Hm|]. split; [|exact Hflag].
  eapply Forall_impl; [exact Hnew|]. simpl. intros c (Hfair & Hset & [Hex|Hwas]);
    [discriminate Hex|now repeat split].
Qed.

Lemma checkArmyCollisions_only_starts_conversions_witness :
  NoDup (JsMap.keys (Game.armies Examples.battle)) /\
  Game.armies (Game.checkArmyCollisions Examples.host Examples.battle)
  = Game.armies Examples.battle.
Proof.
  assert (NoDup (JsMap.keys (Game.armies Examples.battle))) as Hnd
    by (apply (bool_decide_eq_true_1 _); vm_compute; reflexivity).
  split; [exact Hnd|].
  destruct (checkArmyCollisions_only_starts_conversions Examples.host Examples.battle Hnd)
    as (new & (Harmies & _) & _).
  exact Harmies.
Defined.

(** ** What a state message leaves alone *)

Lemma moved_only_refl (s : Soldier.t) : moved_only s s.
Proof. unfold moved_only. destruct s as [? ? ? ? ? [? ? ?] ? ? ? ?]. reflexivity. Qed.

Lemma moved_only_trans (s1 s2 s3 : Soldier.t) :
  moved_only s1 s2 -> moved_only s2 s3 -> moved_only s1 s3.
Proof.
  unfold moved_only. intros H12 H23. rewrite H23 at 1. rewrite H12 at 1 2. reflexivity.
Qed.

Lemma retuned_refl (a : Army.t) : retuned a a.
Proof. unfold retuned. now destruct a. Qed.

Lemma retuned_trans (a1 a2 a3 : Army.t) : retuned a1 a2 -> retuned a2 a3 -> retuned a1 a3.
Proof. unfold retuned. intros H12 H23. rewrite H23 at 1. rewrite H12 at 1. reflexivity. Qed.

Lemma mirrors_refl (game : Game.t) : mirrors game game.
Proof.
  repeat split.
  - now destruct game.
  - intros key a Ha. exists a. split; [exact Ha|apply retuned_refl].
  - intros r s Hs. exists s. split; [exact Hs|apply moved_only_refl].
Qed.

Lemma mirrors_trans (g1 g2 g3 : Game.t) : mirrors g1 g2 -> mirrors g2 g3 -> mirrors g1 g3.
Proof.
  intros (He & Hk & Ha & Hl & Hs) (He' & Hk' & Ha' & Hl' & Hs').
  repeat split.
  - rewrite He' at 1. rewrite He at 1. reflexivity.
  - congruence.
  - intros key a H1. destruct (Ha key a H1) as (a2 & H2 & Hr2).
    destruct (Ha' key a2 H2) as (a3 & H3 & Hr3).
    exists a3. split; [exact H3|]. now apply (retuned_trans a a2).
  - congruence.
  - intros r s H1. destruct (Hs r s H1) as (s2 & H2 & Hm2).
    destruct (Hs' r s2 H2) as (s3 & H3 & Hm3).
    exists s3. split; [exact H3|]. now apply (moved_only_trans s s2).
Qed.

Lemma syncSoldier_moves_only (army : Army.t) (h : Heap) (serverSoldier : ServerSoldier) :
  length (NetworkManager.syncSoldier army h serverSoldier) = length h /\
  forall r s, h !! r = Some s ->
    exists s', NetworkManager.syncSoldier army h serverSoldier !! r = Some s' /\
               moved_only s s'.
Proof.
  unfold NetworkManager.syncSoldier.
  destruct (findById h (server_id serverSoldier) (Army.soldiers army)) as [r0|].
  - split; [apply modify_length|]. intros r s Hs.
    destruct (decide (r0 = r)) as [->|Hne].
    + rewrite (modify_lookup_eq _ _ _ s Hs). eexists. split; [reflexivity|].
      unfold moved_only. reflexivity.
    + rewrite modify_lookup_ne by exact Hne. exists s. split; [exact Hs|apply moved_only_refl].
  - split; [reflexivity|]. intros r s Hs. exists s. split; [exact Hs|apply moved_only_refl].
Qed.

Lemma syncSoldiers_moves_only (army : Army.t) (l : list ServerSoldier) :
  forall h,
    length (fold_left (NetworkManager.syncSoldier army) l h) = length h /\
    forall r s, h !! r = Some s ->
      exists s', fold_left (NetworkManager.syncSoldier army) l h !! r = Some s' /\
                 moved_only s s'.
Proof.
  induction l as [|serverSoldier l IH]; intros h; simpl.
  - split; [reflexivity|]. intros r s Hs. exists s. split; [exact Hs|apply moved_only_refl].
  - destruct (syncSoldier_moves_only army h serverSoldier) as (Hl1 & H1).
    destruct (IH (NetworkManager.syncSoldier army h serverSoldier)) as (Hl2 & H2).
    split; [congruence|]. intros r s Hs.
    destruct (H1 r s Hs) as (s2 & Hs2 & Hm2). destruct (H2 r s2 Hs2) as (s3 & Hs3 & Hm3).
    exists s3. split; [exact Hs3|]. now apply (moved_only_trans s s2).
Qed.

Lemma syncArmy_mirrors (game : Game.t) (entry : string * ArmyData) :
  mirrors game (NetworkManager.syncArmy game entry).
Proof.
  destruct entry as [type armyData]. unfold NetworkManager.syncArmy.
  destruct (JsMap.get type (Game.armies game)) as [army|] eqn:Harmy; [|apply mirrors_refl].
  cbv zeta.
  destruct (syncSoldiers_moves_only army (data_soldiers armyData) (Game.heap game))
    as (Hlen & Hmoved).
  unfold mirrors. game_fields.
  split; [reflexivity|]. split; [|split; [|split; assumption]].
  - rewrite JsMap_keys_set. unfold JsMap.has. now rewrite Harmy.
  - intros key a Ha. destruct (String.eqb_spec type key) as [<-|Hne].
    + rewrite JsMap_get_set_eq. eexists. split; [reflexivity|].
      assert (a = army) as -> by congruence. unfold retuned. reflexivity.
    + rewrite JsMap_get_set_ne by exact Hne. exists a. split; [exact Ha|apply retuned_refl].
Qed.

Lemma syncArmies_mirrors (armies : list (string * ArmyData)) :
  forall game, mirrors game (fold_left NetworkManager.syncArmy armies game).
Proof.
  induction armies as [|entry armies IH]; intros game; simpl; [apply mirrors_refl|].
  apply (mirrors_trans game (NetworkManager.syncArmy game entry));
    [apply syncArmy_mirrors|apply IH].
Qed.

(** X6. A [game_state] message only moves soldiers.  Whatever the
    message holds, the client's game afterwards has the same armies
    under the same keys, each with its roster, leader and faction as
    before (of an army only [isInvincible] and [speedMultiplier] can
    differ); no soldier object is added or removed, and a soldier
    differs at most in the x and z of its position, so ids, factions,
    leader flags and conversion flags are as they were; the phase, the
    running conversions and the rest of the game are untouched, and
    nothing but the game changes in the network manager.  On the host,
    or while the game is not being played, the message changes nothing
    at all. *)
Theorem handleGameStateSync_only_moves
    (armies : list (string * ArmyData)) (n : NetworkManager.t) (game : Game.t) :
  NetworkManager.app_game n = Some game ->
  let n' := NetworkManager.handleGameStateSync armies n in
  (exists game',
      n' = NetworkManager.set_game (Some game') n /\ mirrors game game') /\
  (NetworkManager.isHost n = true \/ Game.state game <> "playing" -> n' = n).
Proof.
  intros Hgame. cbv zeta. unfold NetworkManager.handleGameStateSync. rewrite Hgame.
  assert (n = NetworkManager.set_game (Some game) n) as Hsame
    by (rewrite <- Hgame; now destruct n).
  split.
  - destruct (NetworkManager.isHost n);
      [exists game; split; [exact Hsame|apply mirrors_refl]|].
    destruct (String.eqb (Game.state game) "playing"); cbn [negb].
    + eexists. split; [reflexivity|apply syncArmies_mirrors].
    + exists game. split; [exact Hsame|apply mirrors_refl].
  - intros [-> | Hstate]; [reflexivity|].
    destruct (NetworkManager.isHost n); [reflexivity|].
    apply String.eqb_neq in Hstate. now rewrite Hstate.
Qed.

Lemma handleGameStateSync_only_moves_witness :
  NetworkManager.app_game Examples.client = Some Examples.battle /\
  exists game',
    NetworkManager.handleGameStateSync Examples.report Examples.client
    = NetworkManager.set_game (Some game') Examples.client /\
    JsMap.keys (Game.armies game') = JsMap.keys (Game.armies Examples.battle).
Proof.
  assert (NetworkManager.app_game Examples.client = Some Examples.battle) as Hgame
    by reflexivity.
  split; [exact Hgame|].
  destruct (handleGameStateSync_only_moves Examples.report Examples.client Examples.battle Hgame)
    as ((game' & Hn & _ & Hkeys & _) & _).
  exists game'. split; [exact Hn|exact Hkeys].
Defined.

(** ** The roster on the wire *)

Lemma JsMap_set_fresh {V : Type} (k : string) (v : V) (m : JsMap.t V) :
  ~ In k (JsMap.keys m) -> JsMap.set k v m = m ++ [(k, v)].
Proof.
  unfold JsMap.keys. induction m as [|[k' v'] m IH]; simpl; intros Hnot; [reflexivity|].
  destruct (String.eqb_spec k k') as [->|Hne]; [tauto|].
  rewrite IH; [reflexivity|tauto].
Qed.

Lemma syncPlayers_fold (arr : list PlayerEntry) :
  forall m : JsMap.t Player,
    NoDup (JsMap.keys m ++ map entry_type arr) ->
    fold_left
      (fun m p =>
         JsMap.set (entry_type p)
           {| player_id := entry_id p; username := entry_username p;
              connected := entry_connected p |} m)
      arr m
    = m ++ map (fun p => (entry_type p,
                          {| player_id := entry_id p; username := entry_username p;
                             connected := entry_connected p |})) arr.
Proof.
  induction arr as [|p arr IH]; intros m Hnd; simpl; [now rewrite app_nil_r|].
  simpl in Hnd. apply NoDup_app in Hnd as (Hm & Hsep & Harr).
  apply NoDup_cons in Harr as (Hp & Harr).
  rewrite JsMap_set_fresh.
  - rewrite IH; [now rewrite <- app_assoc|].
    unfold JsMap.keys. rewrite map_app. simpl. rewrite <- app_assoc. simpl.
    apply NoDup_app. split; [exact Hm|]. split; [exact Hsep|].
    apply NoDup_cons. split; [exact Hp|exact Harr].
  - intros Hin. apply (Hsep (entry_type p)); [now apply list_elem_of_In|left].
Qed.

Lemma syncPlayersFromArray_getPlayersArray (host n : NetworkManager.t) :
  NoDup (JsMap.keys (NetworkManager.players host)) ->
  NetworkManager.players
    (NetworkManager.syncPlayersFromArray (NetworkManager.getPlayersArray host) n)
  = NetworkManager.players host.
Proof.
  intros Hnd. unfold NetworkManager.syncPlayersFromArray, NetworkManager.getPlayersArray.
  cbn [NetworkManager.players NetworkManager.set_players].
  rewrite syncPlayers_fold.
  - unfold JsMap.empty, JsMap.entries. simpl. rewrite map_map.
    induction (NetworkManager.players host) as [|[type [i u c]] m IH]; simpl; [reflexivity|].
    rewrite IH; [reflexivity|]. unfold JsMap.keys in Hnd. simpl in Hnd.
    now apply NoDup_cons in Hnd.
  - unfold JsMap.empty, JsMap.entries, JsMap.keys in *. simpl. rewrite map_map.
    erewrite map_ext; [exact Hnd|]. now intros [type data].
Qed.

(** X7. Joining, seen from both ends.  A host whose roster has a free
    seat answers the [join_request] of another user with one
    [player_assigned] message.  When the joiner handles that message
    it holds the host's roster, entry for entry and in the same order,
    and its own faction is the one under which the host has entered it,
    which is never Rock; its lobby is shown with that faction.  Any
    other client that handles the message adopts the same roster and
    keeps the faction it had. *)
Theorem join_round_trip
    (host joiner other : NetworkManager.t) (username : string) :
  NetworkManager.isHost host = true ->
  NoDup (JsMap.keys (NetworkManager.players host)) ->
  user_id (NetworkManager.currentUser joiner) <> user_id (NetworkManager.currentUser host) ->
  user_id (NetworkManager.currentUser other) <> user_id (NetworkManager.currentUser host) ->
  user_id (NetworkManager.currentUser other) <> user_id (NetworkManager.currentUser joiner) ->
  JsMap.has SOLDIER_TYPES.PAPER (NetworkManager.players host)
  && JsMap.has SOLDIER_TYPES.SCISSORS (NetworkManager.players host) = false ->
  let id := user_id (NetworkManager.currentUser joiner) in
  let host' :=
    NetworkManager.handleMessage {| fromId := id; payload := join_request id username |} host in
  exists reply type,
    NetworkManager.outbox host' = NetworkManager.outbox host ++ [reply] /\
    type <> SOLDIER_TYPES.ROCK /\
    JsMap.get type (NetworkManager.players host')
    = Some {| player_id := id; username := username; connected := true |} /\
    NetworkManager.players (NetworkManager.handleMessage reply joiner)
    = NetworkManager.players host' /\
    NetworkManager.localPlayerType (NetworkManager.handleMessage reply joiner) = Some type /\
    In (showLobby (NetworkManager.partyId joiner) (Some type))
       (NetworkManager.ui (NetworkManager.handleMessage reply joiner)) /\
    NetworkManager.players (NetworkManager.handleMessage reply other)
    = NetworkManager.players host' /\
    NetworkManager.localPlayerType (NetworkManager.handleMessage reply other)
    = NetworkManager.localPlayerType other.
Proof.
  intros Hhost Hnd Hjoiner Hother Hdiff Hfree id host'.
  set (seat := {| player_id := id; username := username; connected := true |}).
  assert (exists type,
             type <> SOLDIER_TYPES.ROCK /\
             host' = NetworkManager.updatePlayerList
                       (NetworkManager.broadcast
                          (player_assigned id type
                             (NetworkManager.getPlayersArray
                                (NetworkManager.set_players
                                   (JsMap.set type seat (NetworkManager.players host)) host)))
                          (NetworkManager.set_players
                             (JsMap.set type seat (NetworkManager.players host)) host)))
    as (type & Hrock & Hhost').
  { subst host'. unfold NetworkManager.handleMessage. cbn [fromId payload].
    assert (String.eqb id (user_id (NetworkManager.currentUser host)) = false) as ->
      by (now apply String.eqb_neq).
    unfold NetworkManager.handleJoinRequest. rewrite Hhost, getNextAvailableType_cases.
    destruct (JsMap.has SOLDIER_TYPES.PAPER _); simpl.
    - destruct (JsMap.has SOLDIER_TYPES.SCISSORS _); simpl; [discriminate Hfree|].
      eexists. split; [|reflexivity]. discriminate.
    - eexists. split; [|reflexivity]. discriminate. }
  clearbody host'. subst host'.
  set (host1 := NetworkManager.set_players
                  (JsMap.set type seat (NetworkManager.players host)) host).
  assert (NoDup (JsMap.keys (NetworkManager.players host1))) as Hnd1
    by (apply JsMap_set_NoDup; exact Hnd).
  exists {| fromId := user_id (NetworkManager.currentUser host);
            payload := player_assigned id type (NetworkManager.getPlayersArray host1) |}, type.
  split; [reflexivity|]. split; [exact Hrock|].
  split; [apply JsMap_get_set_eq|].
  unfold NetworkManager.handleMessage. cbn [fromId payload].
  assert (String.eqb (user_id (NetworkManager.currentUser host))
                     (user_id (NetworkManager.currentUser joiner)) = false) as ->
    by (apply String.eqb_neq; congruence).
  assert (String.eqb (user_id (NetworkManager.currentUser host))
                     (user_id (NetworkManager.currentUser other)) = false) as ->
    by (apply String.eqb_neq; congruence).
  subst id. rewrite String.eqb_refl.
  assert (String.eqb (user_id (NetworkManager.currentUser joiner))
                     (user_id (NetworkManager.currentUser other)) = false) as ->
    by (apply String.eqb_neq; congruence).
  split; [exact (syncPlayersFromArray_getPlayersArray host1 _ Hnd1)|].
  split; [reflexivity|].
  split; [cbn; rewrite !in_app_iff; simpl; tauto|].
  split; [exact (syncPlayersFromArray_getPlayersArray host1 _ Hnd1)|reflexivity].
Qed.

Lemma join_round_trip_witness :
  NetworkManager.isHost Examples.lobby = true /\
  exists reply type,
    NetworkManager.outbox (NetworkManager.handleMessage (Examples.ask "u-a" "a") Examples.lobby)
    = NetworkManager.outbox Examples.lobby ++ [reply] /\
    NetworkManager.localPlayerType
      (NetworkManager.handleMessage reply
         (NetworkManager.joinParty "k3j2x9"
            (NetworkManager.new {| user_id := "u-a"; user_name := "a" |})))
    = Some type.
Proof.
  assert (NetworkManager.isHost Examples.lobby = true) as Hhost by reflexivity.
  split; [exact Hhost|].
  assert (NoDup (JsMap.keys (NetworkManager.players Examples.lobby))) as Hnd
    by (apply (bool_decide_eq_true_1 _); vm_compute; reflexivity).
  assert ("u-a" <> "u-host") as Ha by discriminate.
  assert ("u-b" <> "u-host") as Hb by discriminate.
  assert ("u-b" <> "u-a") as Hab by discriminate.
  destruct (join_round_trip Examples.lobby
              (NetworkManager.joinParty "k3j2x9"
                 (NetworkManager.new {| user_id := "u-a"; user_name := "a" |}))
              (NetworkManager.new {| user_id := "u-b"; user_name := "b" |})
              "a" Hhost Hnd Ha Hb Hab eq_refl)
    as (reply & type & Hout & _ & _ & _ & Htype & _).
  exists reply, type. split; [exact Hout|exact Htype].
Defined.

(** ** What the host puts on the wire *)

Lemma Qltb_spec (a b : Q) : reflect (a < b)%Q (Qltb a b).
Proof.
  unfold Qltb. destruct (Qle_bool b a) eqn:H; simpl; constructor.
  - apply Qle_bool_iff in H. lra.
  - apply Qnot_le_lt. intros Hle. apply Qle_bool_iff in Hle. congruence.
Qed.

Lemma toFixed2_close (v : Q) : (Qabs (NetworkManager.toFixed2 v - v) <= 1 # 200)%Q.
Proof.
  unfold NetworkManager.toFixed2. cbv zeta.
  set (y := (Qabs v * 100 + (1 # 2))%Q).
  pose proof (Qfloor_le y) as Hlo. pose proof (Qlt_floor y) as Hhi.
  rewrite inject_Z_plus in Hhi. change (inject_Z 1) with 1%Q in Hhi.
  apply Qabs_Qle_condition.
  destruct (Qltb_spec v 0) as [Hneg|Hpos].
  - assert (Qabs v == - v)%Q as Habs by (apply Qabs_neg; lra).
    rewrite inject_Z_opp. subst y. unfold Qdiv. change (/ 100)%Q with (1 # 100)%Q.
    split; lra.
  - assert (Qabs v == v)%Q as Habs by (apply Qabs_pos; lra).
    subst y. unfold Qdiv. change (/ 100)%Q with (1 # 100)%Q. split; lra.
Qed.

Lemma hostSync_soldiers (game : Game.t) (roster : list ref) :
  Forall (fun r => is_Some (Game.heap game !! r)) roster ->
  Forall2
    (fun r serverSoldier =>
       exists s, Game.heap game !! r = Some s /\
                 server_id serverSoldier = Soldier.id s /\
                 server_isLeader serverSoldier = Soldier.isLeader s /\
                 (Qabs (server_x serverSoldier - x (Soldier.position s)) <= 1 # 200)%Q /\
                 (Qabs (server_z serverSoldier - z (Soldier.position s)) <= 1 # 200)%Q)
    roster
    (omap (fun r =>
             (fun s =>
                {| server_id := Soldier.id s;
                   server_x := NetworkManager.toFixed2 (x (Soldier.position s));
                   server_z := NetworkManager.toFixed2 (z (Soldier.position s));
                   server_isLeader := Soldier.isLeader s |})
             <$> Game.heap game !! r) roster).
Proof.
  induction 1 as [|r roster [s Hs] Hrest IH]; simpl; [constructor|].
  rewrite Hs. simpl. constructor; [|exact IH].
  exists s. split; [exact Hs|]. split; [reflexivity|]. split; [reflexivity|].
  split; apply toFixed2_close.
Qed.

(** X8. The host's periodic broadcast is a faithful picture of its
    armies.  While the game is being played, [startHostSync]'s timer
    sends exactly one [game_state] message; it lists the armies under
    their keys in the order of the map, each with its [isInvincible]
    and [speedMultiplier], and the soldiers of each roster one for one
    and in roster order, each with its id and leader flag and with
    coordinates that are within 0.005 of where the soldier stands.
    Nothing else of the manager changes; outside the playing phase
    nothing is sent. *)
Theorem hostSync_reports_armies (n : NetworkManager.t) (game : Game.t) :
  NetworkManager.app_game n = Some game ->
  (forall type army, In (type, army) (JsMap.entries (Game.armies game)) ->
                     Forall (fun r => is_Some (Game.heap game !! r)) (Army.soldiers army)) ->
  (Game.state game <> "playing" -> NetworkManager.hostSync n = n) /\
  (Game.state game = "playing" ->
   exists armies,
     NetworkManager.hostSync n = NetworkManager.broadcast (game_state armies) n /\
     Forall2
       (fun entry sent =>
          fst sent = fst entry /\
          data_isInvincible (snd sent) = Army.isInvincible (snd entry) /\
          data_speedMultiplier (snd sent) = Army.speedMultiplier (snd entry) /\
          Forall2
            (fun r serverSoldier =>
               exists s, Game.heap game !! r = Some s /\
                 server_id serverSoldier = Soldier.id s /\
                 server_isLeader serverSoldier = Soldier.isLeader s /\
                 (Qabs (server_x serverSoldier - x (Soldier.position s)) <= 1 # 200)%Q /\
                 (Qabs (server_z serverSoldier - z (Soldier.position s)) <= 1 # 200)%Q)
            (Army.soldiers (snd entry)) (data_soldiers (snd sent)))
       (JsMap.entries (Game.armies game)) armies).
Proof.
  intros Hgame Hvalid. unfold NetworkManager.hostSync. rewrite Hgame. split.
  - intros Hstate. apply String.eqb_neq in Hstate. now rewrite Hstate.
  - intros Hstate. rewrite Hstate. cbn [String.eqb Ascii.eqb Bool.eqb negb].
    eexists. split; [reflexivity|].
    unfold JsMap.entries in *.
    induction (Game.armies game) as [|[type army] m IH]; simpl; [constructor|].
    constructor.
    + split; [reflexivity|]. split; [reflexivity|]. split; [reflexivity|].
      apply hostSync_soldiers. apply (Hvalid type army). now left.
    + apply IH. intros type' army' Hin. apply (Hvalid type' army'). now right.
Qed.

Lemma hostSync_reports_armies_witness :
  NetworkManager.app_game Examples.client = Some Examples.battle /\
  exists armies,
    NetworkManager.hostSync Examples.client
    = NetworkManager.broadcast (game_state armies) Examples.client /\
    length armies = 3%nat.
Proof.
  assert (NetworkManager.app_game Examples.client = Some Examples.battle) as Hgame
    by reflexivity.
  split; [exact Hgame|].
  assert (forall type army, In (type, army) (JsMap.entries (Game.armies Examples.battle)) ->
            Forall (fun r => is_Some (Game.heap Examples.battle !! r)) (Army.soldiers army))
    as Hvalid.
  { intros type army Hin. vm_compute in Hin.
    destruct Hin as [H|[H|[H|[]]]]; inversion H; subst;
      repeat constructor; eexists; vm_compute; reflexivity. }
  destruct (hostSync_reports_armies Examples.client Examples.battle Hgame Hvalid)
    as (_ & Hsent).
  assert (Game.state Examples.battle = "playing") as Hstate by reflexivity.
  destruct (Hsent Hstate) as (armies & Hsync & Hall).
  exists armies. split; [exact Hsync|].
  apply Forall2_length in Hall. rewrite <- Hall. vm_compute. reflexivity.
Defined.

(** ** Party codes, typed and generated *)

Lemma upcase_idempotent (c : ascii) : upcase (upcase c) = upcase c.
Proof. destruct c as [[] [] [] [] [] [] [] []]; reflexivity. Qed.

Lemma toUpperCase_idempotent (s : string) : toUpperCase (toUpperCase s) = toUpperCase s.
Proof. induction s as [|c s IH]; simpl; [reflexivity|]. now rewrite upcase_idempotent, IH. Qed.

Lemma toUpperCase_length (s : string) : String.length (toUpperCase s) = String.length s.
Proof. induction s as [|c s IH]; simpl; [reflexivity|]. now rewrite IH. Qed.

Lemma substring_length_le (n m : nat) (s : string) :
  (String.length (String.substring n m s) <= m)%nat.
Proof.
  revert n m. induction s as [|c s IH]; intros [|n] [|m]; simpl; try lia.
  - specialize (IH 0%nat m). lia.
  - apply (IH n 0%nat).
  - apply (IH n (S m)).
Qed.

(** X9. The cloud relay's party code, from the host to a joiner.
    Whatever [Math.random()] gave, the code [createParty] stores and
    shows has at most six characters and is its own upper-case form;
    the host sits on the channel named by it, as Rock and entered in
    the roster under Rock.  A joiner who types the code in any mix of
    letter cases ends on the same channel with the same party id, as a
    non-host, and its [join_request] with its own id and name is the
    last message it has sent; typing the code as shown, or the
    lower-case string it was made from, does. *)
Theorem cloud_party_code_round_trip
    (random36 typed : string) (host joiner : NetworkManager.t) :
  toUpperCase typed = NetworkManager.generatePartyId random36 ->
  let code := NetworkManager.generatePartyId random36 in
  let host' := NetworkManager.createParty random36 host in
  let joiner' := NetworkManager.joinParty typed joiner in
  (String.length code <= 6)%nat /\
  toUpperCase code = code /\
  toUpperCase (js_substring 2 8 random36) = code /\
  NetworkManager.partyId host' = Some code /\
  NetworkManager.channel host' = Some code /\
  NetworkManager.isHost host' = true /\
  NetworkManager.localPlayerType host' = Some SOLDIER_TYPES.ROCK /\
  JsMap.get SOLDIER_TYPES.ROCK (NetworkManager.players host')
  = Some {| player_id := user_id (NetworkManager.currentUser host);
            username := user_name (NetworkManager.currentUser host); connected := true |} /\
  NetworkManager.partyId joiner' = NetworkManager.partyId host' /\
  NetworkManager.channel joiner' = NetworkManager.channel host' /\
  NetworkManager.isHost joiner' = false /\
  NetworkManager.outbox joiner'
  = NetworkManager.outbox joiner
    ++ [{| fromId := user_id (NetworkManager.currentUser joiner);
           payload := join_request (user_id (NetworkManager.currentUser joiner))
                        (user_name (NetworkManager.currentUser joiner)) |}].
Proof.
  intros Htyped. cbv zeta.
  split.
  { unfold NetworkManager.generatePartyId, js_substring. rewrite toUpperCase_length.
    apply (substring_length_le 2 (8 - 2)). }
  split; [apply toUpperCase_idempotent|]. split; [reflexivity|].
  split; [reflexivity|]. split; [reflexivity|]. split; [reflexivity|].
  split; [reflexivity|].
  split; [unfold NetworkManager.createParty; cbn; apply JsMap_get_set_eq|].
  split; [cbn; now rewrite Htyped|]. split; [cbn; now rewrite Htyped|].
  split; reflexivity.
Qed.

Lemma cloud_party_code_round_trip_witness :
  toUpperCase "k3j2x9" = NetworkManager.generatePartyId "0.k3j2x9abcde" /\
  NetworkManager.channel
    (NetworkManager.joinParty "k3j2x9"
       (NetworkManager.new {| user_id := "u-a"; user_name := "a" |}))
  = NetworkManager.channel Examples.lobby.
Proof.
  assert (toUpperCase "k3j2x9" = NetworkManager.generatePartyId "0.k3j2x9abcde") as Htyped
    by reflexivity.
  split; [exact Htyped|].
  exact (proj1 (proj2 (proj2 (proj2 (proj2 (proj2 (proj2 (proj2 (proj2 (proj2
           (cloud_party_code_round_trip "0.k3j2x9abcde" "k3j2x9"
              (NetworkManager.new {| user_id := "u-host"; user_name := "host" |})
              (NetworkManager.new {| user_id := "u-a"; user_name := "a" |})
              Htyped))))))))))).
Defined.

Lemma alphabet_upcase (c : ascii) : inAlphabet c = true -> upcase c = c.
Proof. destruct c as [[] [] [] [] [] [] [] []]; vm_compute; congruence. Qed.

Lemma unambiguous_toUpperCase (s : string) : unambiguous s = true -> toUpperCase s = s.
Proof.
  unfold unambiguous. induction s as [|c s IH]; simpl; [reflexivity|].
  intros H. apply andb_prop in H as [Hc Hs]. apply andb_prop in Hc as [Hc _].
  now rewrite (alphabet_upcase c Hc), IH.
Qed.

(** X10. The PeerJS [generatePartyId], for every random stream with
    draws in [0, 1): the code has exactly six characters, all from the
    alphabet without I, O, 0 and 1, and it is its own upper-case form,
    so a joiner who types it as shown gets the host's party id from
    [joinParty]'s [toUpperCase]. *)
Theorem peer_party_code_survives_join (host : Host) (joiner : NetworkManager.t) :
  (forall k, (0 <= Math_random host k)%Q /\ (Math_random host k < 1)%Q) ->
  let code := PeerJS.generatePartyId host in
  String.length code = 6%nat /\
  unambiguous code = true /\
  toUpperCase code = code /\
  NetworkManager.partyId (NetworkManager.joinParty code joiner) = Some code.
Proof.
  intros Hrandom. cbv zeta.
  destruct (generateLoop_wellformed host Hrandom 6 0 EmptyString) as [Hlen Hok].
  change (PeerJS.generateLoop host 6 0 EmptyString) with (PeerJS.generatePartyId host) in *.
  assert (unambiguous (PeerJS.generatePartyId host) = true) as Hun
    by (rewrite Hok; reflexivity).
  split; [exact Hlen|]. split; [exact Hun|].
  pose proof (unambiguous_toUpperCase _ Hun) as Hup.
  split; [exact Hup|]. rewrite (proj1 (joinParty_uppercase _ _)). now rewrite Hup.
Qed.

Lemma peer_party_code_survives_join_witness :
  (forall k, (0 <= Math_random Examples.host k)%Q /\ (Math_random Examples.host k < 1)%Q) /\
  String.length (PeerJS.generatePartyId Examples.host) = 6%nat.
Proof.
  assert (forall k, (0 <= Math_random Examples.host k)%Q /\
                    (Math_random Examples.host k < 1)%Q) as Hrandom
    by (intros k; split; vm_compute; congruence).
  split; [exact Hrandom|].
  exact (proj1 (peer_party_code_survives_join Examples.host
                  (NetworkManager.new {| user_id := "u-a"; user_name := "a" |}) Hrandom)).
Defined.

(** ** A tick of an army *)

Lemma steered_refl (s : Soldier.t) : steered s s.
Proof. unfold steered. now destruct s. Qed.

Lemma steered_trans (s1 s2 s3 : Soldier.t) : steered s1 s2 -> steered s2 s3 -> steered s1 s3.
Proof. unfold steered. intros H12 H23. rewrite H23 at 1. rewrite H12 at 1. reflexivity. Qed.

Lemma drives_refl (touched : ref -> Prop) (h : Heap) : drives touched h h.
Proof.
  split; [reflexivity|]. intros r s Hs. exists s.
  split; [exact Hs|]. split; [apply steered_refl|]. split; auto.
Qed.

Lemma drives_trans (touched : ref -> Prop) (h1 h2 h3 : Heap) :
  drives touched h1 h2 -> drives touched h2 h3 -> drives touched h1 h3.
Proof.
  intros (Hl & H12) (Hl' & H23). split; [congruence|].
  intros r s Hs. destruct (H12 r s Hs) as (s2 & Hs2 & Hst2 & Hin2 & Hun2).
  destruct (H23 r s2 Hs2) as (s3 & Hs3 & Hst3 & Hin3 & Hun3).
  exists s3. split; [exact Hs3|]. split; [now apply (steered_trans s s2)|].
  split; [auto|]. intros Hnot. rewrite (Hun3 Hnot). now apply Hun2.
Qed.

Lemma drives_insert (touched : ref -> Prop) (h : Heap) (r : ref) (s s' : Soldier.t) :
  h !! r = Some s -> touched r -> steered s s' -> (inArena s -> inArena s') ->
  drives touched h (<[r := s']> h).
Proof.
  intros Hs Htouched Hsteered Hinside. split; [apply length_insert|].
  intros r0 s0 Hs0. destruct (decide (r = r0)) as [<-|Hne].
  - exists s'. rewrite list_lookup_insert_eq by (now apply lookup_lt_Some in Hs).
    assert (s0 = s) as -> by congruence.
    split; [reflexivity|]. split; [exact Hsteered|]. split; [exact Hinside|]. tauto.
  - exists s0. rewrite list_lookup_insert_ne by exact Hne.
    split; [exact Hs0|]. split; [apply steered_refl|]. split; auto.
Qed.

Lemma clamp_within (lo hi v : Q) : (lo <= hi)%Q -> (lo <= clamp lo hi v <= hi)%Q.
Proof.
  intros Hle. unfold clamp. split; [apply Q.le_max_l|].
  apply Q.max_lub; [exact Hle|apply Q.le_min_l].
Qed.

Lemma moveTo_inArena
    (host : Host) (arena : Arena.t) (cx cz newX newZ dirX dirZ : Q) (s : Soldier.t) :
  inArena (Army.moveTo host (fst (Army.resolveMove arena cx cz newX newZ))
             (snd (Army.resolveMove arena cx cz newX newZ)) dirX dirZ s).
Proof.
  unfold Army.resolveMove. cbv zeta.
  destruct (if collision _ then _ else _) as [X Z]. cbn [fst snd].
  assert (inArena
            (Soldier.set_position
               {| x := clamp (- GAME_CONFIG.ARENA_WIDTH / 2 + GAME_CONFIG.SOLDIER_COLLISION_RADIUS)
                         (GAME_CONFIG.ARENA_WIDTH / 2 - GAME_CONFIG.SOLDIER_COLLISION_RADIUS) X;
                  y := y (Soldier.position s);
                  z := clamp (- GAME_CONFIG.ARENA_HEIGHT / 2 + GAME_CONFIG.SOLDIER_COLLISION_RADIUS)
                         (GAME_CONFIG.ARENA_HEIGHT / 2 - GAME_CONFIG.SOLDIER_COLLISION_RADIUS) Z |}
               s)) as Hin.
  { unfold inArena. cbv zeta. cbn [Soldier.position Soldier.set_position x z].
    split; [|split; [|split]]; apply clamp_within; vm_compute; discriminate. }
  unfold Army.moveTo. cbv zeta. destruct (Qneq0 dirX || Qneq0 dirZ); exact Hin.
Qed.

Lemma moveTo_steered (host : Host) (newX newZ dirX dirZ : Q) (s : Soldier.t) :
  steered s (Army.moveTo host newX newZ dirX dirZ s).
Proof.
  unfold Army.moveTo, steered. cbv zeta.
  destruct (Qneq0 dirX || Qneq0 dirZ); now destruct s.
Qed.

Lemma moveLeader_drives
    (host : Host) (delta inputX inputZ speed : Q) (arena : Arena.t) (a : Army.t) (h : Heap) :
  drives (fun r => Army.leader a = Some r) h
         (Army.moveLeader host delta inputX inputZ speed arena a h).
Proof.
  unfold Army.moveLeader. destruct (Army.leader a) as [l|]; [|apply drives_refl].
  destruct (h !! l) as [s|] eqn:Hs; [|apply drives_refl]. cbv zeta.
  match goal with
  | |- context [Army.resolveMove ?ar ?cx ?cz ?nx ?nz] =>
      pose proof (moveTo_inArena host ar cx cz nx nz inputX inputZ s) as Hin;
      destruct (Army.resolveMove ar cx cz nx nz) as [X Z]
  end.
  cbn [fst snd] in Hin.
  apply (drives_insert _ h l s); [exact Hs|reflexivity|apply moveTo_steered|auto].
Qed.

Lemma follow_drives
    (host : Host) (speed : Q) (arena : Arena.t) (target : option ref) (soldier : ref)
    (touched : ref -> Prop) (h : Heap) :
  touched soldier ->
  drives touched h (Army.follow host speed arena target soldier h).
Proof.
  intros Htouched. unfold Army.follow. destruct target as [tr|]; [|apply drives_refl].
  destruct (h !! tr) as [tg|]; [|apply drives_refl].
  destruct (h !! soldier) as [s|] eqn:Hs; [|apply drives_refl]. cbv zeta.
  destruct (Qgtb _ _); [|apply drives_refl].
  match goal with
  | |- context [Army.resolveMove ?ar ?cx ?cz ?nx ?nz] =>
      pose proof (fun dx dz => moveTo_inArena host ar cx cz nx nz dx dz s) as Hin;
      destruct (Army.resolveMove ar cx cz nx nz) as [X Z]
  end.
  cbn [fst snd] in Hin.
  apply (drives_insert _ h soldier s); [exact Hs|exact Htouched|apply moveTo_steered|].
  intros _. apply Hin.
Qed.

Lemma followChain_drives
    (host : Host) (speed : Q) (arena : Arena.t) (touched : ref -> Prop)
    (followers : list ref) :
  (forall r, In r followers -> touched r) ->
  forall target h, drives touched h (Army.followChain host speed arena target followers h).
Proof.
  induction followers as [|soldier rest IH]; intros Hall target h; simpl;
    [apply drives_refl|].
  apply (drives_trans _ h (Army.follow host speed arena target soldier h)).
  - apply follow_drives. apply Hall. now left.
  - apply IH. intros r Hr. apply Hall. now right.
Qed.

Lemma update_steered (host : Host) (delta : Q) (s : Soldier.t) :
  steered s (Soldier.update host delta s) /\
  x (Soldier.position (Soldier.update host delta s)) = x (Soldier.position s) /\
  z (Soldier.position (Soldier.update host delta s)) = z (Soldier.position s).
Proof.
  unfold Soldier.update, steered. cbv zeta. cbn [Soldier.leaderRing Soldier.set_position].
  destruct (Soldier.leaderRing s); repeat split; now destruct s.
Qed.

Lemma animate_drives (host : Host) (delta : Q) (touched : ref -> Prop) (roster : list ref) :
  (forall r, In r roster -> touched r) ->
  forall h, drives touched h
              (fold_left (fun h r => modify r (Soldier.update host delta) h) roster h).
Proof.
  induction roster as [|r roster IH]; intros Hall h; simpl; [apply drives_refl|].
  apply (drives_trans _ h (modify r (Soldier.update host delta) h)).
  - unfold modify. destruct (h !! r) as [s|] eqn:Hs; [|apply drives_refl].
    destruct (update_steered host delta s) as (Hst & Hx & Hz).
    apply (drives_insert _ h r s); [exact Hs|apply Hall; now left|exact Hst|].
    unfold inArena. cbv zeta. now rewrite Hx, Hz.
  - apply IH. intros r0 Hr0. apply Hall. now right.
Qed.

Lemma drives_weaken (touched touched' : ref -> Prop) (h h' : Heap) :
  (forall r, touched r -> touched' r) -> drives touched h h' -> drives touched' h h'.
Proof.
  intros Himp (Hl & H). split; [exact Hl|]. intros r s Hs.
  destruct (H r s Hs) as (s' & Hs' & Hst & Hin & Hun).
  exists s'. split; [exact Hs'|]. split; [exact Hst|]. split; [exact Hin|].
  intros Hnot. apply Hun. intros Ht. apply Hnot, Himp, Ht.
Qed.

(** X11. A tick of an army neither loses a soldier nor lets one out of
    the arena.  For every input (also none), time step, arena, speed
    state and outcome of [Math.sqrt], [Math.atan2] and [Math.sin],
    [Army.update] leaves the army record as it is (roster, leader,
    flags) and the store at its size; a soldier differs afterwards at
    most in position, heading and the look of its leader ring, so id,
    faction, leader flag and conversion flag are as before; a soldier
    that stood inside the boundary, a collision radius from the walls,
    still does; and a soldier that is neither on the roster nor the
    army's leader is not touched at all. *)
Theorem Army_update_keeps_soldiers_in_arena
    (host : Host) (delta : Q) (input : option Input) (arena : Arena.t)
    (a : Army.t) (h : Heap) :
  fst (Army.update host delta input arena a h) = a /\
  drives (fun r => In r (Army.soldiers a) \/ Army.leader a = Some r) h
         (snd (Army.update host delta input arena a h)).
Proof.
  unfold Army.update. destruct input as [input|]; [|split; [reflexivity|apply drives_refl]].
  destruct (Nat.eqb (length (Army.soldiers a)) 0); [split; [reflexivity|apply drives_refl]|].
  cbv zeta. destruct (if Army.isReversed a then _ else _) as [moveX moveZ].
  split; [reflexivity|]. cbn [snd].
  match goal with
  | |- context [Army.updateFollowers host delta ?speed arena a ?moved] =>
      apply (drives_trans _ h moved);
      [|apply (drives_trans _ moved (Army.updateFollowers host delta speed arena a moved))]
  end.
  - apply (drives_weaken (fun r => Army.leader a = Some r)); [|apply moveLeader_drives].
    intros r Hr. right. exact Hr.
  - unfold Army.updateFollowers. cbv zeta. apply followChain_drives.
    intros r Hr. apply filter_In in Hr as [Hr _]. now left.
  - unfold Army.animate. apply animate_drives. intros r Hr. now left.
Qed.

(** ** Walls and free places *)

Lemma checkWalls_spec (px pz r : Q) (ws : list Bounds) :
  let c := Arena.checkWalls px pz r ws in
  (collision c = false -> clearOf px pz r ws /\ pushX c = 0%Q /\ pushZ c = 0%Q) /\
  (collision c = true ->
   exists before bounds after,
     ws = before ++ bounds :: after /\
     clearOf px pz r before /\
     (wallDistSquared px pz bounds < r * r)%Q /\
     pushX c = (px - Qmax (minX bounds) (Qmin px (maxX bounds)))%Q /\
     pushZ c = (pz - Qmax (minZ bounds) (Qmin pz (maxZ bounds)))%Q).
Proof.
  cbv zeta. induction ws as [|bounds ws IH]; simpl.
  - split; [intros _; repeat split; constructor|discriminate].
  - fold (wallDistSquared px pz bounds).
    change ((px - Qmax (minX bounds) (Qmin px (maxX bounds))) *
            (px - Qmax (minX bounds) (Qmin px (maxX bounds))) +
            (pz - Qmax (minZ bounds) (Qmin pz (maxZ bounds))) *
            (pz - Qmax (minZ bounds) (Qmin pz (maxZ bounds))))%Q
      with (wallDistSquared px pz bounds).
    destruct (Qltb_spec (wallDistSquared px pz bounds) (r * r)) as [Hnear|Hfar].
    + split; [discriminate|]. intros _. exists [], bounds, ws.
      repeat split; [constructor|exact Hnear].
    + destruct IH as [IHclear IHhit]. split.
      * intros Hc. destruct (IHclear Hc) as (Hclear & Hx & Hz).
        split; [|now split]. constructor; [lra|exact Hclear].
      * intros Hc. destruct (IHhit Hc) as (before & wall & after & -> & Hclear & Hnear & Hx & Hz).
        exists (bounds :: before), wall, after.
        split; [reflexivity|]. split; [constructor; [lra|exact Hclear]|].
        now repeat split.
Qed.

Lemma checkWallCollision_free (px pz r : Q) (a : Arena.t) :
  collision (Arena.checkWallCollision px pz r a) = false <-> clearOf px pz r (Arena.walls a).
Proof.
  unfold Arena.checkWallCollision.
  destruct (checkWalls_spec px pz r (Arena.walls a)) as [Hclear Hhit].
  split; [intros Hc; now apply Hclear|].
  intros Hall.
  destruct (collision (Arena.checkWalls px pz r (Arena.walls a))) eqn:Hc; [|reflexivity].
  destruct (Hhit eq_refl) as (before & bounds & after & Hw & _ & Hnear & _).
  unfold clearOf in Hall. rewrite Hw in Hall. apply Forall_app in Hall as [_ Hall].
  apply Forall_cons_1 in Hall as [Hfar _]. lra.
Qed.

(** X12. [checkWallCollision] answers for the first wall, in the
    order the arena holds them, whose box is nearer to the point than
    the radius: it reports no collision exactly when every wall is at
    least the radius away, and otherwise the push it returns is the
    offset of the point from the closest point of that first wall,
    every wall before it being clear. *)
Theorem checkWallCollision_first_near_wall (px pz r : Q) (a : Arena.t) :
  let c := Arena.checkWallCollision px pz r a in
  (collision c = false <-> clearOf px pz r (Arena.walls a)) /\
  (collision c = true ->
   exists before bounds after,
     Arena.walls a = before ++ bounds :: after /\
     clearOf px pz r before /\
     (wallDistSquared px pz bounds < r * r)%Q /\
     pushX c = (px - Qmax (minX bounds) (Qmin px (maxX bounds)))%Q /\
     pushZ c = (pz - Qmax (minZ bounds) (Qmin pz (maxZ bounds)))%Q).
Proof.
  cbv zeta. split; [apply checkWallCollision_free|].
  unfold Arena.checkWallCollision. apply checkWalls_spec.
Qed.

Lemma samplePosition_spec (host : Host) (a : Arena.t) :
  (forall k, (0 <= Math_random host k)%Q /\ (Math_random host k < 1)%Q) ->
  forall attempts k,
    let p := Arena.samplePosition host attempts k a in
    ((- (17) <= input_x p)%Q /\ (input_x p <= 17)%Q /\
     (- (9) <= input_z p)%Q /\ (input_z p <= 9)%Q) /\
    (p = {| input_x := 0%Q; input_z := 0%Q |} \/
     collision (Arena.checkWallCollision (input_x p) (input_z p) (15 # 10)%Q a) = false).
Proof.
  intros Hrandom. induction attempts as [|attempts IH]; intros k; simpl.
  - split; [repeat split; vm_compute; discriminate|now left].
  - destruct (collision _) eqn:Hc; simpl.
    + apply IH.
    + destruct (Hrandom k) as [H0 H1]. destruct (Hrandom (S k)) as [H0' H1'].
      split; [|right; exact Hc]. cbn [input_x input_z].
      unfold GAME_CONFIG.ARENA_WIDTH, GAME_CONFIG.ARENA_HEIGHT.
      repeat split; lra.
Qed.

(** X13. Where a power-up can appear.  For every random stream with
    draws in [0, 1) and every arena, [getRandomPowerUpPosition] returns
    a point at least 3 inside the boundary on both axes (|x| <= 17,
    |z| <= 9), and this point is either the centre of the arena, the
    fallback after twenty failed tries, or a point with every wall at
    least 1.5 away.  In the arena that [create] builds the centre is
    itself clear of every wall, so there the point is always clear. *)
Theorem getRandomPowerUpPosition_clear (host : Host) (a : Arena.t) :
  (forall k, (0 <= Math_random host k)%Q /\ (Math_random host k < 1)%Q) ->
  let p := Arena.getRandomPowerUpPosition host a in
  (- (17) <= input_x p)%Q /\ (input_x p <= 17)%Q /\
  (- (9) <= input_z p)%Q /\ (input_z p <= 9)%Q /\
  (p = {| input_x := 0%Q; input_z := 0%Q |} \/
   clearOf (input_x p) (input_z p) (15 # 10)%Q (Arena.walls a)) /\
  (a = Arena.create -> clearOf (input_x p) (input_z p) (15 # 10)%Q (Arena.walls a)).
Proof.
  intros Hrandom. cbv zeta. unfold Arena.getRandomPowerUpPosition.
  destruct (samplePosition_spec host a Hrandom 20 0) as ((Hx1 & Hx2 & Hz1 & Hz2) & Hp).
  split; [exact Hx1|]. split; [exact Hx2|]. split; [exact Hz1|]. split; [exact Hz2|].
  assert (Arena.samplePosition host 20 0 a = {| input_x := 0%Q; input_z := 0%Q |} \/
          clearOf (input_x (Arena.samplePosition host 20 0 a))
                  (input_z (Arena.samplePosition host 20 0 a)) (15 # 10)%Q (Arena.walls a))
    as Hclear.
  { destruct Hp as [Hp|Hp]; [now left|right].
    now apply (proj1 (checkWallCollision_free _ _ _ _)). }
  split; [exact Hclear|]. intros ->.
  destruct Hclear as [->|Hclear]; [|exact Hclear].
  apply (proj1 (checkWallCollision_free _ _ _ _)). vm_compute. reflexivity.
Qed.

Lemma getRandomPowerUpPosition_clear_witness :
  (forall k, (0 <= Math_random Examples.host k)%Q /\ (Math_random Examples.host k < 1)%Q) /\
  clearOf (input_x (Arena.getRandomPowerUpPosition Examples.host Arena.create))
          (input_z (Arena.getRandomPowerUpPosition Examples.host Arena.create))
          (15 # 10)%Q (Arena.walls Arena.create).
Proof.
  assert (forall k, (0 <= Math_random Examples.host k)%Q /\
                    (Math_random Examples.host k < 1)%Q) as Hrandom
    by (intros k; split; vm_compute; congruence).
  split; [exact Hrandom|].
  destruct (getRandomPowerUpPosition_clear Examples.host Arena.create Hrandom)
    as (_ & _ & _ & _ & _ & Hclear).
  exact (Hclear eq_refl).
Defined.

(** ** Power-ups aimed at the enemies *)

Lemma JsMap_get_In_keys {V : Type} (k : string) (m : JsMap.t V) :
  In k (JsMap.keys m) -> exists v, JsMap.get k m = Some v.
Proof.
  intros Hin. apply JsMap_has_keys in Hin. unfold JsMap.has in Hin.
  destruct (JsMap.get k m) as [v|]; [now exists v|discriminate].
Qed.

(** X14. [applyReverseToRandomEnemy] never turns on the army that
    collected the power-up.  Whatever [Math.random()] gives, no soldier
    is touched and the armies keep their keys; either no army changes,
    or exactly one does: an army under a key other than the collector's
    faction, which gets [activateReverseControl] (reversed, with the
    timer that undoes it).  The collector's own army is as before.  And
    when there is an enemy and the draw is in [0, 1), an enemy is
    always hit. *)
Theorem applyReverseToRandomEnemy_hits_one_enemy
    (host : Host) (armyType : string) (duration : Q) (g : Game.t) :
  let g' := PowerUpEffects.applyReverseToRandomEnemy host armyType duration g in
  let hit :=
    exists enemy a,
      enemy <> armyType /\
      JsMap.get enemy (Game.armies g) = Some a /\
      Game.armies g'
      = JsMap.set enemy (Army.activateReverseControl duration a) (Game.armies g) in
  Game.heap g' = Game.heap g /\
  JsMap.keys (Game.armies g') = JsMap.keys (Game.armies g) /\
  (Game.armies g' = Game.armies g \/ hit) /\
  JsMap.get armyType (Game.armies g') = JsMap.get armyType (Game.armies g) /\
  ((0 <= Math_random host (Game.randomCalls g))%Q ->
   (Math_random host (Game.randomCalls g) < 1)%Q ->
   (exists key, In key (JsMap.keys (Game.armies g)) /\ key <> armyType) ->
   hit).
Proof.
  cbv zeta. unfold PowerUpEffects.applyReverseToRandomEnemy. cbv zeta.
  set (enemyTypes := List.filter (fun t => negb (String.eqb t armyType))
                       (JsMap.keys (Game.armies g))).
  assert (forall t, In t enemyTypes <-> In t (JsMap.keys (Game.armies g)) /\ t <> armyType)
    as Henemy.
  { intros t. subst enemyTypes. rewrite filter_In, negb_true_iff, String.eqb_neq. tauto. }
  destruct (Nat.eqb_spec (length enemyTypes) 0) as [Hnone|Hsome].
  - split; [reflexivity|]. split; [reflexivity|]. split; [now left|]. split; [reflexivity|].
    intros _ _ (key & Hkey & Hne). exfalso.
    assert (In key enemyTypes) as Hin by (apply Henemy; now split).
    destruct enemyTypes; [contradiction|discriminate].
  - unfold Game.random.
    set (index := Z.to_nat (Qfloor (Math_random host (Game.randomCalls g)
                                    * inject_Z (Z.of_nat (length enemyTypes))))).
    destruct (enemyTypes !! index) as [randomType|] eqn:Hpick.
    + assert (In randomType enemyTypes) as Hin
        by (apply list_elem_of_In; eapply list_elem_of_lookup_2; exact Hpick).
      apply Henemy in Hin as [Hkey Hne].
      destruct (JsMap_get_In_keys _ _ Hkey) as [a Ha].
      rewrite (onArmy_found randomType _ _ a) by exact Ha.
      game_fields. cbn [Game.set_randomCalls Game.armies Game.heap].
      assert (exists enemy a0,
                 enemy <> armyType /\ JsMap.get enemy (Game.armies g) = Some a0 /\
                 JsMap.set randomType (Army.activateReverseControl duration a) (Game.armies g)
                 = JsMap.set enemy (Army.activateReverseControl duration a0) (Game.armies g))
        as Hhit by (exists randomType, a; now repeat split).
      split; [reflexivity|].
      split; [rewrite JsMap_keys_set; unfold JsMap.has; now rewrite Ha|].
      split; [now right|]. split; [apply JsMap_get_set_ne; exact Hne|].
      intros _ _ _. exact Hhit.
    + cbn [Game.set_randomCalls Game.armies Game.heap].
      split; [reflexivity|]. split; [reflexivity|]. split; [now left|]. split; [reflexivity|].
      intros H0 H1 _. exfalso.
      apply lookup_ge_None in Hpick. subst index.
      assert (0 < length enemyTypes)%nat as Hpos by lia.
      set (len := length enemyTypes) in *.
      assert (Qfloor (Math_random host (Game.randomCalls g) * inject_Z (Z.of_nat len))
              < Z.of_nat len) as Hlt.
      { rewrite Zlt_Qlt.
        eapply Qle_lt_trans; [apply Qfloor_le|].
        assert (0 < inject_Z (Z.of_nat len))%Q as Hlen
          by (change 0%Q with (inject_Z 0); rewrite <- Zlt_Qlt; lia).
        nra. }
      lia.
Qed.

Lemma scatters_refl (touched : ref -> Prop) (h : Heap) : scatters touched h h.
Proof.
  split; [reflexivity|]. intros r s Hs. exists s.
  split; [exact Hs|]. split; [apply moved_only_refl|]. split; auto.
Qed.

Lemma scatters_trans (touched : ref -> Prop) (h1 h2 h3 : Heap) :
  scatters touched h1 h2 -> scatters touched h2 h3 -> scatters touched h1 h3.
Proof.
  intros (Hl & H12) (Hl' & H23). split; [congruence|].
  intros r s Hs. destruct (H12 r s Hs) as (s2 & Hs2 & Hm2 & Hlead2 & Hun2).
  destruct (H23 r s2 Hs2) as (s3 & Hs3 & Hm3 & Hlead3 & Hun3).
  exists s3. split; [exact Hs3|]. split; [now apply (moved_only_trans s s2)|]. split.
  - intros Hflag. specialize (Hlead2 Hflag). subst s2. now apply Hlead3.
  - intros Hnot. rewrite (Hun3 Hnot). now apply Hun2.
Qed.

Lemma scatter_scatters (host : Host) (touched : ref -> Prop) (g : Game.t) (soldier : ref) :
  touched soldier ->
  Game.armies (PowerUpEffects.scatter host g soldier) = Game.armies g /\
  scatters touched (Game.heap g) (Game.heap (PowerUpEffects.scatter host g soldier)).
Proof.
  intros Htouched. unfold PowerUpEffects.scatter.
  destruct (readb Soldier.isLeader (Game.heap g) soldier) eqn:Hflag;
    [split; [reflexivity|apply scatters_refl]|].
  unfold Game.random. cbv zeta. game_fields. cbn [Game.set_randomCalls Game.heap Game.armies].
  split; [reflexivity|]. split; [apply modify_length|].
  intros r s Hs. destruct (decide (soldier = r)) as [->|Hne].
  - rewrite (modify_lookup_eq _ _ _ s Hs). eexists. split; [reflexivity|].
    split; [unfold moved_only; reflexivity|]. split; [|tauto].
    intros Hlead. unfold readb in Hflag. rewrite Hs in Hflag. congruence.
  - rewrite modify_lookup_ne by exact Hne. exists s.
    split; [exact Hs|]. split; [apply moved_only_refl|]. split; auto.
Qed.

Lemma scatter_fold (host : Host) (touched : ref -> Prop) (roster : list ref) :
  (forall r, In r roster -> touched r) ->
  forall g,
    Game.armies (fold_left (PowerUpEffects.scatter host) roster g) = Game.armies g /\
    scatters touched (Game.heap g)
             (Game.heap (fold_left (PowerUpEffects.scatter host) roster g)).
Proof.
  induction roster as [|r roster IH]; intros Hall g; simpl;
    [split; [reflexivity|apply scatters_refl]|].
  destruct (scatter_scatters host touched g r) as [Ha Hs]; [apply Hall; now left|].
  destruct (IH (fun r0 Hr0 => Hall r0 (or_intror Hr0)) (PowerUpEffects.scatter host g r))
    as [Ha' Hs'].
  split; [congruence|]. eapply scatters_trans; eassumption.
Qed.

(** X15. [applySplitToEnemies] pushes only the rank and file of the
    other armies.  Whatever the random draws, the armies (rosters,
    leaders, flags) are as before and no soldier object comes or goes; a
    soldier differs afterwards at most in the x and z of its position;
    a soldier flagged leader does not move; and a soldier that is on no
    roster other than rosters under the collector's faction does not
    move either. *)
Theorem applySplitToEnemies_spares_own_and_leaders
    (host : Host) (armyType : string) (g : Game.t) :
  let g' := PowerUpEffects.applySplitToEnemies host armyType g in
  Game.armies g' = Game.armies g /\
  scatters (fun r => exists type enemyArmy,
                       In (type, enemyArmy) (JsMap.entries (Game.armies g)) /\
                       type <> armyType /\ In r (Army.soldiers enemyArmy))
           (Game.heap g) (Game.heap g').
Proof.
  cbv zeta. unfold PowerUpEffects.applySplitToEnemies.
  set (touched := fun r => exists type enemyArmy,
                    In (type, enemyArmy) (JsMap.entries (Game.armies g)) /\
                    type <> armyType /\ In r (Army.soldiers enemyArmy)).
  assert (forall entries g0,
             (forall e, In e entries -> In e (JsMap.entries (Game.armies g))) ->
             let g1 :=
               fold_left
                 (fun g1 '(type, enemyArmy) =>
                    if String.eqb type armyType then g1
                    else fold_left (PowerUpEffects.scatter host) (Army.soldiers enemyArmy) g1)
                 entries g0 in
             Game.armies g1 = Game.armies g0 /\
             scatters touched (Game.heap g0) (Game.heap g1)) as Hfold.
  { induction entries as [|[type enemyArmy] entries IH]; intros g0 Hsub; simpl;
      [split; [reflexivity|apply scatters_refl]|].
    assert (forall e, In e entries -> In e (JsMap.entries (Game.armies g))) as Hsub'
      by (intros e He; apply Hsub; now right).
    destruct (String.eqb_spec type armyType) as [->|Hne]; [now apply IH|].
    destruct (scatter_fold host touched (Army.soldiers enemyArmy)) with (g := g0)
      as [Ha Hs].
    { intros r Hr. exists type, enemyArmy. split; [apply Hsub; now left|now split]. }
    destruct (IH (fold_left (PowerUpEffects.scatter host) (Army.soldiers enemyArmy) g0) Hsub')
      as [Ha' Hs'].
    split; [congruence|]. eapply scatters_trans; eassumption. }
  apply Hfold. auto.
Qed.

(** ** Placement *)

Lemma inRect_iff (px pz : Q) (zone : Rect) :
  Arena.inRect px pz zone = true <->
  (rect_x zone - width zone / 2 <= px)%Q /\ (px <= rect_x zone + width zone / 2)%Q /\
  (rect_z zone - height zone / 2 <= pz)%Q /\ (pz <= rect_z zone + height zone / 2)%Q.
Proof.
  unfold Arena.inRect. rewrite !andb_true_iff, !Qle_bool_iff. tauto.
Qed.

(** X16. Dragging a soldier during placement.  A pointer move in the
    placement phase touches nothing but the dragged soldier, and this
    soldier at most in the x and z of its position: it is either left
    where it was, or put at a point of the local faction's spawn zone
    that is at least 1 away from the zone's border and not in the
    neutral zone.  Outside the placement phase, or with no soldier
    held, a pointer move changes nothing. *)
Theorem onMouseMove_stays_in_spawn_zone
    (soldier : ref) (intersection : Vector3) (g : Game.t)
    (ar : Arena.t) (type : string) (zone : Rect) (s : Soldier.t) :
  Game.arena g = Some ar ->
  Game.localPlayerType g = Some type ->
  Arena.getSpawnZone type ar = Some zone ->
  (2 <= width zone)%Q -> (2 <= height zone)%Q ->
  Game.heap g !! soldier = Some s ->
  let g' := Game.onMouseMove (Some soldier) intersection g in
  Game.onMouseMove None intersection g = g /\
  (Game.state g <> GAME_STATES.PLACEMENT -> g' = g) /\
  g' = Game.set_heap (Game.heap g') g /\
  length (Game.heap g') = length (Game.heap g) /\
  (forall r, r <> soldier -> Game.heap g' !! r = Game.heap g !! r) /\
  exists s',
    Game.heap g' !! soldier = Some s' /\ moved_only s s' /\
    (s' = s \/
     (Game.state g = GAME_STATES.PLACEMENT /\
      (rect_x zone - width zone / 2 + 1 <= x (Soldier.position s'))%Q /\
      (x (Soldier.position s') <= rect_x zone + width zone / 2 - 1)%Q /\
      (rect_z zone - height zone / 2 + 1 <= z (Soldier.position s'))%Q /\
      (z (Soldier.position s') <= rect_z zone + height zone / 2 - 1)%Q /\
      Arena.isInSpawnZone (x (Soldier.position s')) (z (Soldier.position s')) type ar
      = Some true /\
      Arena.isInNeutralZone (x (Soldier.position s')) (z (Soldier.position s')) ar = false)).
Proof.
  intros Harena Htype Hzone Hw Hh Hs. cbv zeta.
  split; [reflexivity|].
  assert (g = Game.set_heap (Game.heap g) g) as Hsame by (now destruct g).
  unfold Game.onMouseMove.
  destruct (String.eqb_spec (Game.state g) GAME_STATES.PLACEMENT) as [Hstate|Hstate];
    cbn [negb].
  - split; [intros Hnot; contradiction|].
    rewrite Harena, Htype. cbn [mbind option_bind]. rewrite Hzone. cbv zeta.
    set (px := Qmax (rect_x zone - width zone / 2 + 1)
                    (Qmin (rect_x zone + width zone / 2 - 1) (x intersection))).
    set (pz := Qmax (rect_z zone - height zone / 2 + 1)
                    (Qmin (rect_z zone + height zone / 2 - 1) (z intersection))).
    destruct (Arena.isInNeutralZone px pz ar) eqn:Hneutral; cbn [negb].
    + split; [exact Hsame|]. split; [reflexivity|]. split; [reflexivity|].
      exists s. split; [exact Hs|]. split; [apply moved_only_refl|now left].
    + game_fields. split; [reflexivity|]. split; [apply modify_length|].
      split; [intros r Hr; apply modify_lookup_ne; congruence|].
      rewrite (modify_lookup_eq _ _ _ s Hs). eexists. split; [reflexivity|].
      split; [unfold moved_only; reflexivity|]. right.
      cbn [Soldier.position Soldier.set_position x z].
      assert (forall v, v / 2 == v * (1 # 2))%Q as Hhalf by (intros v; reflexivity).
      pose proof (Hhalf (width zone)) as Hhw. pose proof (Hhalf (height zone)) as Hhh.
      destruct (clamp_within (rect_x zone - width zone / 2 + 1)
                  (rect_x zone + width zone / 2 - 1) (x intersection)) as [Hx1 Hx2];
        [lra|].
      destruct (clamp_within (rect_z zone - height zone / 2 + 1)
                  (rect_z zone + height zone / 2 - 1) (z intersection)) as [Hz1 Hz2];
        [lra|].
      unfold clamp in Hx1, Hx2, Hz1, Hz2. fold px in Hx1, Hx2. fold pz in Hz1, Hz2.
      split; [exact Hstate|]. split; [exact Hx1|]. split; [exact Hx2|].
      split; [exact Hz1|]. split; [exact Hz2|]. split; [|exact Hneutral].
      unfold Arena.isInSpawnZone. rewrite Hzone. cbn [fmap option_fmap option_map].
      f_equal. apply inRect_iff. repeat split; lra.
  - split; [reflexivity|]. split; [exact Hsame|]. split; [reflexivity|].
    split; [reflexivity|].
    exists s. split; [exact Hs|]. split; [apply moved_only_refl|now left].
Qed.

Lemma onMouseMove_stays_in_spawn_zone_witness :
  Game.arena Examples.placement = Some Arena.create /\
  Game.localPlayerType Examples.placement = Some SOLDIER_TYPES.ROCK /\
  exists s',
    Game.heap (Game.onMouseMove (Some 1%nat) {| x := 0%Q; y := 0%Q; z := 0%Q |}
                 Examples.placement) !! 1%nat = Some s' /\
    Arena.isInNeutralZone (x (Soldier.position s')) (z (Soldier.position s')) Arena.create
    = false.
Proof.
  assert (Game.arena Examples.placement = Some Arena.create) as Harena
    by (vm_compute; reflexivity).
  assert (Game.localPlayerType Examples.placement = Some SOLDIER_TYPES.ROCK) as Htype
    by (vm_compute; reflexivity).
  split; [exact Harena|]. split; [exact Htype|].
  assert (exists s, Game.heap Examples.placement !! 1%nat = Some s) as [s Hs]
    by (vm_compute; eexists; reflexivity).
  assert (Arena.getSpawnZone SOLDIER_TYPES.ROCK Arena.create
          = Some {| rect_x := (- GAME_CONFIG.ARENA_WIDTH / 3)%Q;
                    rect_z := (GAME_CONFIG.ARENA_HEIGHT / 3 - 1)%Q;
                    width := 10%Q; height := 8%Q |}) as Hzone by reflexivity.
  assert (2 <= 10)%Q as Hw by (vm_compute; discriminate).
  assert (2 <= 8)%Q as Hh by (vm_compute; discriminate).
  destruct (onMouseMove_stays_in_spawn_zone 1%nat {| x := 0%Q; y := 0%Q; z := 0%Q |}
              Examples.placement Arena.create SOLDIER_TYPES.ROCK _ s
              Harena Htype Hzone Hw Hh Hs)
    as (_ & _ & _ & _ & _ & s' & Hs' & _ & [Hsame|(_ & _ & _ & _ & _ & _ & Hneutral)]).
  - exists s. split; [now rewrite <- Hsame|].
    clear Hsame Hs'. vm_compute in Hs. injection Hs as <-. vm_compute. reflexivity.
  - exists s'. split; [exact Hs'|exact Hneutral].
Defined.

Lemma bobbed_refl (s : Soldier.t) : bobbed s s.
Proof. unfold bobbed. destruct s as [? ? ? ? ? [? ? ?] ? ? ? ?]. reflexivity. Qed.

Lemma bobbed_trans (s1 s2 s3 : Soldier.t) : bobbed s1 s2 -> bobbed s2 s3 -> bobbed s1 s3.
Proof.
  unfold bobbed. intros H12 H23. rewrite H23 at 1. rewrite H12 at 1 2 3. reflexivity.
Qed.

Lemma update_bobbed (host : Host) (delta : Q) (s : Soldier.t) :
  bobbed s (Soldier.update host delta s).
Proof.
  unfold Soldier.update, bobbed. cbv zeta. cbn [Soldier.leaderRing Soldier.set_position].
  destruct (Soldier.leaderRing s); now destruct s.
Qed.

Lemma animate_bobbed (host : Host) (delta : Q) (roster : list ref) :
  forall h,
    length (fold_left (fun h r => modify r (Soldier.update host delta) h) roster h) = length h /\
    forall r s, h !! r = Some s ->
      exists s',
        fold_left (fun h r => modify r (Soldier.update host delta) h) roster h !! r = Some s' /\
        bobbed s s'.
Proof.
  induction roster as [|r0 roster IH]; intros h; simpl.
  - split; [reflexivity|]. intros r s Hs. exists s. split; [exact Hs|apply bobbed_refl].
  - destruct (IH (modify r0 (Soldier.update host delta) h)) as [Hlen Hall].
    split; [now rewrite Hlen, modify_length|]. intros r s Hs.
    destruct (decide (r0 = r)) as [->|Hne].
    + destruct (Hall r _ (modify_lookup_eq _ _ _ s Hs)) as (s' & Hs' & Hb).
      exists s'. split; [exact Hs'|].
      apply (bobbed_trans s (Soldier.update host delta s)); [apply update_bobbed|exact Hb].
    + apply Hall. now rewrite modify_lookup_ne.
Qed.

Lemma updatePlacement_armies (host : Host) (delta : Q) (keys : list string) :
  forall g,
    let g' := fold_left (fun g type => Game.onArmy type (Army.updatePlacement host delta) g)
                keys g in
    g' = Game.set_heap (Game.heap g') g /\
    length (Game.heap g') = length (Game.heap g) /\
    forall r s, Game.heap g !! r = Some s ->
      exists s', Game.heap g' !! r = Some s' /\ bobbed s s'.
Proof.
  induction keys as [|key keys IH]; intros g; simpl.
  - split; [now destruct g|]. split; [reflexivity|].
    intros r s Hs. exists s. split; [exact Hs|apply bobbed_refl].
  - assert (exists h1,
               Game.onArmy key (Army.updatePlacement host delta) g = Game.set_heap h1 g /\
               length h1 = length (Game.heap g) /\
               forall r s, Game.heap g !! r = Some s ->
                 exists s', h1 !! r = Some s' /\ bobbed s s') as (h1 & -> & Hlen1 & Hall1).
    { unfold Game.onArmy. destruct (JsMap.get key (Game.armies g)) as [a|] eqn:Ha.
      - unfold Army.updatePlacement, Army.animate.
        destruct (animate_bobbed host delta (Army.soldiers a) (Game.heap g)) as [Hlen Hall].
        eexists. split; [|split; [exact Hlen|exact Hall]].
        rewrite (JsMap_set_get_id _ _ _ Ha). now destruct g.
      - exists (Game.heap g). split; [now destruct g|]. split; [reflexivity|].
        intros r s Hs. exists s. split; [exact Hs|apply bobbed_refl]. }
    destruct (IH (Game.set_heap h1 g)) as (Heq & Hlen & Hall). cbv zeta in Heq, Hlen, Hall.
    split; [rewrite Heq at 1; reflexivity|]. split; [rewrite Hlen; exact Hlen1|].
    intros r s Hs. destruct (Hall1 r s Hs) as (s1 & Hs1 & Hb1).
    destruct (Hall r s1 Hs1) as (s' & Hs' & Hb').
    exists s'. split; [exact Hs'|]. now apply (bobbed_trans s s1).
Qed.

(** X17. A tick of the placement phase.  The timer falls by the time
    step and the UI is told the number of whole seconds left, first of
    all; no army changes and no soldier moves on the ground (a soldier
    differs at most in its height and the look of its ring).  When the
    timer has not run out nothing else changes; when it has, the battle
    begins within the same tick: the state is [playing], the HUD is
    shown, the power-ups start spawning and the click is played. *)
Theorem updatePlacement_counts_down
    (host : Host) (delta : Q) (g : Game.t) (m : PowerUpManager.t) :
  Game.powerUpManager g = Some m ->
  let g' := fst (Game.updatePlacement host delta g) in
  let calls := snd (Game.updatePlacement host delta g) in
  Game.placementTimer g' = (Game.placementTimer g - delta)%Q /\
  (exists rest,
      calls = Game.ui_updatePlacementTimer (Qceiling (Game.placementTimer g - delta)) :: rest) /\
  Game.armies g' = Game.armies g /\
  length (Game.heap g') = length (Game.heap g) /\
  (forall r s, Game.heap g !! r = Some s ->
     exists s', Game.heap g' !! r = Some s' /\ bobbed s s') /\
  ((0 < Game.placementTimer g - delta)%Q ->
   g' = Game.set_heap (Game.heap g')
          (Game.set_placement (Game.placementTimer g - delta)%Q (Game.isReady g) g)) /\
  ((Game.placementTimer g - delta <= 0)%Q ->
   Game.state g' = GAME_STATES.PLAYING /\
   Game.powerUpManager g' = Some (PowerUpManager.startSpawning m) /\
   Game.calls g' = Game.calls g ++ [ui_showGameHUD; audio_playClick]).
Proof.
  intros Hm. cbv zeta. unfold Game.updatePlacement. cbv zeta.
  set (g1 := Game.set_placement (Game.placementTimer g - delta)%Q (Game.isReady g) g).
  assert (Game.powerUpManager g1 = Some m) as Hm1 by exact Hm.
  rewrite Hm1. rewrite bool_decide_eq_true_2 by (now eexists). cbn [negb].
  rewrite andb_false_r. cbn [fst snd].
  set (g2 := if Qle_bool (Game.placementTimer g1) 0 then Game.startBattle g1 else g1).
  destruct (updatePlacement_armies host delta (JsMap.keys (Game.armies g2)) g2)
    as (Heq & Hlen & Hall).
  cbv zeta in Heq, Hlen, Hall.
  set (g3 := fold_left (fun g type => Game.onArmy type (Army.updatePlacement host delta) g)
               (JsMap.keys (Game.armies g2)) g2) in *.
  assert (Game.armies g2 = Game.armies g /\ Game.heap g2 = Game.heap g /\
          Game.placementTimer g2 = (Game.placementTimer g - delta)%Q) as (Ha2 & Hh2 & Ht2).
  { subst g2. destruct (Qle_bool (Game.placementTimer g1) 0); [|now repeat split].
    unfold Game.startBattle. cbv zeta. game_fields. rewrite Hm1. now repeat split. }
  split; [rewrite Heq; exact Ht2|].
  split; [eexists; reflexivity|].
  split; [rewrite Heq; exact Ha2|].
  split; [now rewrite Hlen, Hh2|].
  split; [intros r s Hs; apply Hall; now rewrite Hh2|].
  split.
  - intros Hpos. assert (Qle_bool (Game.placementTimer g1) 0 = false) as Hno.
    { destruct (Qle_bool (Game.placementTimer g1) 0) eqn:Hle; [|reflexivity].
      apply Qle_bool_iff in Hle. change (Game.placementTimer g1)
        with (Game.placementTimer g - delta)%Q in Hle. lra. }
    rewrite Heq at 1. subst g2. now rewrite Hno.
  - intros Hout. assert (Qle_bool (Game.placementTimer g1) 0 = true) as Hyes
      by (apply Qle_bool_iff; exact Hout).
    rewrite Heq. subst g2. rewrite Hyes. unfold Game.startBattle. cbv zeta. game_fields.
    rewrite Hm1. cbn. rewrite <- app_assoc. now repeat split.
Qed.

Lemma updatePlacement_counts_down_witness :
  Game.powerUpManager Examples.placement = Some PowerUpManager.new /\
  Game.state (fst (Game.updatePlacement Examples.host 10%Q Examples.placement))
  = GAME_STATES.PLAYING.
Proof.
  assert (Game.powerUpManager Examples.placement = Some PowerUpManager.new) as Hm
    by (vm_compute; reflexivity).
  split; [exact Hm|].
  destruct (updatePlacement_counts_down Examples.host 10%Q Examples.placement
              PowerUpManager.new Hm) as (_ & _ & _ & _ & _ & _ & Hstart).
  apply Hstart. vm_compute. discriminate.
Defined.

(** ** Messages that arrive twice, players that leave *)

Lemma findById_modify
    (r : ref) (f : Soldier.t -> Soldier.t) (h : Heap) (id : string) (roster : list ref) :
  (forall s, Soldier.id (f s) = Soldier.id s) ->
  findById (modify r f h) id roster = findById h id roster.
Proof.
  intros Hid. unfold findById. induction roster as [|r0 roster IH]; simpl; [reflexivity|].
  rewrite IH.
  assert (match modify r f h !! r0 with
          | Some s => String.eqb (Soldier.id s) id
          | None => false
          end
          = match h !! r0 with
            | Some s => String.eqb (Soldier.id s) id
            | None => false
            end) as ->; [|reflexivity].
  destruct (decide (r = r0)) as [->|Hne].
  - destruct (h !! r0) as [s|] eqn:Hs.
    + rewrite (modify_lookup_eq _ _ _ s Hs). now rewrite Hid.
    + unfold modify. rewrite Hs. now rewrite Hs.
  - now rewrite modify_lookup_ne.
Qed.

(** X18. A [conversion] message that is delivered twice converts
    once: handling the same message again right after the first time
    changes nothing more, whatever the state of the receiver. *)
Theorem handleRemoteConversion_twice
    (soldierId fromType toType : string) (n : NetworkManager.t) :
  NetworkManager.handleRemoteConversion soldierId fromType toType
    (NetworkManager.handleRemoteConversion soldierId fromType toType n)
  = NetworkManager.handleRemoteConversion soldierId fromType toType n.
Proof.
  assert (NetworkManager.handleRemoteConversion soldierId fromType toType n = n \/
          exists game fromArmy toArmy r,
            NetworkManager.app_game n = Some game /\
            JsMap.get fromType (Game.armies game) = Some fromArmy /\
            JsMap.get toType (Game.armies game) = Some toArmy /\
            findById (Game.heap game) soldierId (Army.soldiers fromArmy) = Some r /\
            NetworkManager.handleRemoteConversion soldierId fromType toType n
            = NetworkManager.set_game
                (Some (Game.convertSoldier r fromType toType game)) n) as [Hsame|Hconv].
  { unfold NetworkManager.handleRemoteConversion.
    destruct (NetworkManager.app_game n) as [game|]; [|now left].
    destruct (JsMap.get fromType (Game.armies game)) as [fromArmy|] eqn:Hfrom; [|now left].
    destruct (JsMap.get toType (Game.armies game)) as [toArmy|] eqn:Hto; [|now left].
    cbv zeta.
    destruct (findById (Game.heap game) soldierId (Army.soldiers fromArmy)) as [r|] eqn:Hfind;
      [|now left].
    destruct (readb Soldier.isConverting (Game.heap game) r); cbn [negb]; [now left|].
    right. exists game, fromArmy, toArmy, r. now repeat split. }
  - rewrite Hsame. exact Hsame.
  - destruct Hconv as (game & fromArmy & toArmy & r & Hgame & Hfrom & Hto & Hfind & ->).
    destruct (findById_found _ _ _ _ Hfind) as (s & Hs & _).
    rewrite (convertSoldier_eq _ _ _ _ s Hs).
    assert (<[r := marked s]> (Game.heap game) = modify r marked (Game.heap game)) as Hm
      by (unfold modify; now rewrite Hs).
    unfold NetworkManager.handleRemoteConversion. cbv zeta.
    cbn [NetworkManager.app_game NetworkManager.set_game]. game_fields.
    rewrite Hfrom, Hto, Hm, findById_modify
      by (intros s0; unfold marked; now rewrite setEmissive_id).
    rewrite Hfind.
    assert (readb Soldier.isConverting (modify r marked (Game.heap game)) r = true) as ->.
    { unfold readb. rewrite (modify_lookup_eq _ _ _ s Hs). apply marked_isConverting. }
    reflexivity.
Qed.

Lemma disconnect_spec (playerId : string) (m : JsMap.t Player) :
  match NetworkManager.disconnect playerId m with
  | None => forall type p, In (type, p) m -> player_id p <> playerId
  | Some m' =>
      JsMap.keys m' = JsMap.keys m /\
      (exists type p, In (type, p) m /\ player_id p = playerId) /\
      (exists type p', In (type, p') m' /\ player_id p' = playerId /\ connected p' = false) /\
      forall type p, JsMap.get type m = Some p ->
        exists p', JsMap.get type m' = Some p' /\
                   player_id p' = player_id p /\ username p' = username p /\
                   (p' = p \/ (player_id p = playerId /\ connected p' = false))
  end.
Proof.
  induction m as [|[type0 data] m IH]; simpl; [tauto|].
  destruct (String.eqb_spec (player_id data) playerId) as [Hid|Hid].
  - split; [reflexivity|]. split; [exists type0, data; split; [now left|exact Hid]|]. split.
    + eexists type0, _. split; [now left|]. now split.
    + intros type p. simpl. destruct (String.eqb type type0).
      * intros [= <-]. eexists. split; [reflexivity|]. repeat split. right. now split.
      * intros Hp. exists p. repeat split; auto.
  - destruct (NetworkManager.disconnect playerId m) as [m'|]; simpl.
    + destruct IH as (Hkeys & (type1 & p1 & Hin1 & Hp1) & (type & p' & Hin & Hp') & Hget).
      split; [unfold JsMap.keys in *; simpl; now rewrite Hkeys|].
      split; [exists type1, p1; split; [now right|exact Hp1]|]. split.
      * exists type, p'. split; [now right|exact Hp'].
      * intros type2 p. simpl. destruct (String.eqb type2 type0); [|apply Hget].
        intros [= <-]. exists data. repeat split; auto.
    + intros type p [[= <- <-]|Hin]; [exact Hid|]. now apply (IH type).
Qed.

(** X19. A player who leaves keeps the seat.  [handlePeerDisconnect]
    never removes an entry of the roster: the factions claimed are the
    same afterwards, every player keeps its id and name, and the only
    change is that the first player carrying the given id is marked as
    not connected, after which the player list is redrawn once.  So the
    faction of a player who left is not offered to the next joiner.  An
    id that no player carries changes nothing. *)
Theorem handlePeerDisconnect_keeps_seat (playerId : string) (n : NetworkManager.t) :
  let n' := NetworkManager.handlePeerDisconnect playerId n in
  JsMap.keys (NetworkManager.players n') = JsMap.keys (NetworkManager.players n) /\
  NetworkManager.getNextAvailableType n' = NetworkManager.getNextAvailableType n /\
  (forall type p, JsMap.get type (NetworkManager.players n) = Some p ->
     exists p', JsMap.get type (NetworkManager.players n') = Some p' /\
                player_id p' = player_id p /\ username p' = username p /\
                (p' = p \/ (player_id p = playerId /\ connected p' = false))) /\
  ((forall type p, In (type, p) (JsMap.entries (NetworkManager.players n)) ->
                   player_id p <> playerId) -> n' = n) /\
  ((exists type p, In (type, p) (JsMap.entries (NetworkManager.players n)) /\
                   player_id p = playerId) ->
   (exists slots, NetworkManager.ui n' = NetworkManager.ui n ++ [updatePlayerSlots slots]) /\
   exists type p', In (type, p') (JsMap.entries (NetworkManager.players n')) /\
                   player_id p' = playerId /\ connected p' = false).
Proof.
  cbv zeta. unfold NetworkManager.handlePeerDisconnect.
  pose proof (disconnect_spec playerId (NetworkManager.players n)) as Hspec.
  destruct (NetworkManager.disconnect playerId (NetworkManager.players n)) as [m'|].
  - destruct Hspec as (Hkeys & Hwas & Hmarked & Hget).
    cbn [NetworkManager.players NetworkManager.updatePlayerList NetworkManager.uiCall
         NetworkManager.set_players NetworkManager.ui].
    split; [exact Hkeys|]. split.
    { rewrite !getNextAvailableType_cases.
      cbn [NetworkManager.players NetworkManager.updatePlayerList NetworkManager.uiCall
           NetworkManager.set_players].
      assert (forall k, JsMap.has k m' = JsMap.has k (NetworkManager.players n)) as Hhas.
      { intros k. destruct (JsMap.has k m') eqn:H1.
        - symmetry. apply JsMap_has_keys. rewrite <- Hkeys. now apply JsMap_has_keys.
        - destruct (JsMap.has k (NetworkManager.players n)) eqn:H2; [|reflexivity].
          apply JsMap_has_keys in H2. rewrite <- Hkeys in H2.
          apply JsMap_has_keys in H2. congruence. }
      now rewrite !Hhas. }
    split; [exact Hget|]. split.
    + intros Hnone. exfalso. destruct Hwas as (type & p & Hin & Hid).
      now apply (Hnone type p).
    + intros _. split; [eexists; reflexivity|]. exact Hmarked.
  - cbn [NetworkManager.players].
    split; [reflexivity|]. split; [reflexivity|]. split.
    + intros type p Hp. exists p. repeat split; auto.
    + split; [reflexivity|]. intros (type & p & Hin & Hid). exfalso.
      now apply (Hspec type p).
Qed.

(** ** The start of a game *)

Lemma modify_app_r (k : nat) (f : Soldier.t -> Soldier.t) (h l : Heap) :
  modify (length h + k) f (h ++ l) = h ++ modify k f l.
Proof.
  unfold modify. rewrite lookup_app_r by lia.
  replace (length h + k - length h)%nat with k by lia.
  destruct (l !! k) as [s|]; [|reflexivity].
  rewrite insert_app_r_alt by lia.
  now replace (length h + k - length h)%nat with k by lia.
Qed.

Lemma readb_app_r (p : Soldier.t -> bool) (k : nat) (h l : Heap) :
  readb p (h ++ l) (length h + k) = readb p l k.
Proof.
  unfold readb. rewrite lookup_app_r by lia.
  now replace (length h + k - length h)%nat with k by lia.
Qed.

Lemma filter_relocate (p : Soldier.t -> bool) (h l : Heap) (roster : list ref) :
  List.filter (fun r => negb (readb p (h ++ l) r)) (map (Nat.add (length h)) roster)
  = map (Nat.add (length h)) (List.filter (fun r => negb (readb p l r)) roster).
Proof.
  induction roster as [|r roster IH]; simpl; [reflexivity|].
  rewrite readb_app_r, IH. now destruct (negb (readb p l r)).
Qed.

Lemma placeRing_relocate
    (host : Host) (centerX centerZ spacing angleStep : Q) (h : Heap) (others : list ref) :
  forall i l,
    Army.placeRing host centerX centerZ spacing angleStep i
      (map (Nat.add (length h)) others) (h ++ l)
    = h ++ Army.placeRing host centerX centerZ spacing angleStep i others l.
Proof.
  induction others as [|r others IH]; intros i l; simpl; [reflexivity|].
  now rewrite modify_app_r, IH.
Qed.

Lemma setSpawnPosition_relocate
    (host : Host) (centerX centerZ : Q) (a : Army.t) (h l : Heap) :
  Army.setSpawnPosition host centerX centerZ (relocate (length h) a) (h ++ l)
  = h ++ Army.setSpawnPosition host centerX centerZ a l.
Proof.
  unfold Army.setSpawnPosition, relocate. cbv zeta.
  cbn [Army.leader Army.soldiers Army.set_leader Army.set_soldiers].
  assert (match Nat.add (length h) <$> Army.leader a with
          | Some l0 =>
              modify l0 (Soldier.setPosition centerX GAME_CONFIG.SOLDIER_SIZE centerZ) (h ++ l)
          | None => h ++ l
          end
          = h ++ match Army.leader a with
                 | Some l0 =>
                     modify l0 (Soldier.setPosition centerX GAME_CONFIG.SOLDIER_SIZE centerZ) l
                 | None => l
                 end) as ->.
  { destruct (Army.leader a); simpl; [apply modify_app_r|reflexivity]. }
  rewrite filter_relocate, length_map. apply placeRing_relocate.
Qed.

Lemma createRegulars_relocate (h : Heap) (n : nat) :
  forall (a : Army.t) (l : Heap),
    Army.createRegulars n (relocate (length h) a) (h ++ l)
    = (relocate (length h) (fst (Army.createRegulars n a l)),
       h ++ snd (Army.createRegulars n a l)).
Proof.
  induction n as [|n IH]; intros a l; [reflexivity|].
  cbn [Army.createRegulars]. unfold alloc.
  specialize (IH (Army.set_soldiers
                    (Army.soldiers (Army.set_spawnCounter (Army.spawnCounter a + 1) a)
                     ++ [length l])
                    (Army.set_spawnCounter (Army.spawnCounter a + 1) a))
                 (l ++ [Soldier.new (Army.type a) false
                          (String.append (Army.type a)
                             (String.append "_" (pretty (Army.spawnCounter a))))])).
  rewrite <- IH. rewrite <- app_assoc. f_equal.
  unfold relocate.
  cbn [Army.soldiers Army.leader Army.type Army.spawnCounter Army.set_soldiers
       Army.set_leader Army.set_spawnCounter].
  rewrite map_app, length_app. reflexivity.
Qed.

Lemma Army_new_relocate (type : string) (isLocal : bool) (h : Heap) :
  Army.new type isLocal h
  = (relocate (length h) (fst (Army.new type isLocal [])),
     h ++ snd (Army.new type isLocal [])).
Proof.
  unfold Army.new, Army.createSoldiers. cbv zeta. unfold alloc.
  cbn [Army.type Army.soldiers Army.set_spawnCounter app length].
  match goal with
  | |- Army.createRegulars ?n ?a (h ++ [?s]) = _ =>
      pose proof (createRegulars_relocate h n
                    (Army.set_soldiers [0%nat]
                       (Army.set_leader (Some 0%nat)
                          (Army.set_spawnCounter 0
                             {| Army.type := type; Army.isLocal := isLocal;
                                Army.soldiers := []; Army.leader := None;
                                Army.isInvincible := false; Army.speedMultiplier := 1%Q;
                                Army.isReversed := false; Army.magnetActive := false;
                                Army.maxSoldiers := GAME_CONFIG.SOLDIERS_PER_ARMY;
                                Army.aiWanderDir := {| input_x := 0%Q; input_z := 0%Q |};
                                Army.spawnCounter := 0; Army.timers := [] |})))
                    [s]) as Hrel
  end.
  unfold relocate at 1 in Hrel.
  cbn [Army.soldiers Army.leader Army.set_soldiers Army.set_leader Army.set_spawnCounter
       map fmap option_fmap option_map] in Hrel.
  rewrite Nat.add_0_r in Hrel. exact Hrel.
Qed.

Lemma createArmy_relocate
    (host : Host) (playerType : string) (g : Game.t) (type : string) (ar : Arena.t)
    (zone : Rect) :
  Game.arena g = Some ar ->
  Arena.getSpawnZone type ar = Some zone ->
  Game.createArmy host playerType g type
  = Game.set_heap
      (Game.heap g
       ++ Army.setSpawnPosition host (rect_x zone) (rect_z zone)
            (fst (Army.new type (String.eqb type playerType) []))
            (snd (Army.new type (String.eqb type playerType) [])))
      (Game.set_armies
         (JsMap.set type
            (relocate (length (Game.heap g))
               (fst (Army.new type (String.eqb type playerType) [])))
            (Game.armies g)) g).
Proof.
  intros Harena Hzone. unfold Game.createArmy. cbv zeta.
  rewrite Army_new_relocate. game_fields. rewrite Harena. cbn [mbind option_bind].
  rewrite Hzone. rewrite setSpawnPosition_relocate. reflexivity.
Qed.

Lemma squad_facts (host : Host) (type : string) (isLocal : bool) (cx cz : Q) :
  let a := fst (Army.new type isLocal []) in
  let squad := Army.setSpawnPosition host cx cz a (snd (Army.new type isLocal [])) in
  Army.type a = type /\ Army.isLocal a = isLocal /\
  Army.soldiers a = [0; 1; 2; 3; 4]%nat /\ Army.leader a = Some 0%nat /\
  length squad = 5%nat /\
  List.filter (readb Soldier.isLeader squad) [0; 1; 2; 3; 4]%nat = [0%nat] /\
  Forall (fun s => Soldier.type s = type /\ Soldier.isConverting s = false) squad /\
  exists ld, squad !! 0%nat = Some ld /\
             x (Soldier.position ld) = cx /\ z (Soldier.position ld) = cz.
Proof.
  cbv zeta.
  split; [vm_compute; reflexivity|]. split; [vm_compute; reflexivity|].
  split; [vm_compute; reflexivity|]. split; [vm_compute; reflexivity|].
  split; [vm_compute; reflexivity|]. split; [vm_compute; reflexivity|].
  split; [vm_compute; repeat constructor|].
  eexists. split; [vm_compute; reflexivity|]. split; reflexivity.
Qed.

Lemma leaders_relocate (h l : Heap) (a : Army.t) :
  leaders (h ++ l) (relocate (length h) a) = map (Nat.add (length h)) (leaders l a).
Proof.
  unfold leaders, relocate. cbn [Army.soldiers Army.set_leader Army.set_soldiers].
  induction (Army.soldiers a) as [|r roster IH]; simpl; [reflexivity|].
  rewrite readb_app_r, IH. now destruct (readb Soldier.isLeader l r).
Qed.

Lemma filter_readb_app_l (p : Soldier.t -> bool) (l l' : Heap) (roster : list ref) :
  Forall (fun r => (r < length l)%nat) roster ->
  List.filter (readb p (l ++ l')) roster = List.filter (readb p l) roster.
Proof.
  intros Hall. apply List.filter_ext_in. intros r Hr. unfold readb.
  rewrite Forall_forall in Hall. rewrite lookup_app_l; [reflexivity|].
  apply Hall. now apply list_elem_of_In.
Qed.

Lemma armies_three (A B C : Army.t) :
  JsMap.set SOLDIER_TYPES.SCISSORS C
    (JsMap.set SOLDIER_TYPES.PAPER B (JsMap.set SOLDIER_TYPES.ROCK A JsMap.empty))
  = [(SOLDIER_TYPES.ROCK, A); (SOLDIER_TYPES.PAPER, B); (SOLDIER_TYPES.SCISSORS, C)].
Proof. reflexivity. Qed.

(** One army of a game that was just started: the squad [squad] of
    the army [a0], as both read once the squad sits in the store behind
    the objects [before]. *)
Lemma squad_in_place
    (type : string) (isLocal : bool) (cx cz : Q) (before after squad : Heap) (a0 : Army.t) :
  (Army.type a0 = type /\ Army.isLocal a0 = isLocal /\
   Army.soldiers a0 = [0; 1; 2; 3; 4]%nat /\ Army.leader a0 = Some 0%nat /\
   length squad = 5%nat /\
   List.filter (readb Soldier.isLeader squad) [0; 1; 2; 3; 4]%nat = [0%nat] /\
   Forall (fun s => Soldier.type s = type /\ Soldier.isConverting s = false) squad /\
   exists ld, squad !! 0%nat = Some ld /\
              x (Soldier.position ld) = cx /\ z (Soldier.position ld) = cz) ->
  let a := relocate (length before) a0 in
  let h' := before ++ squad ++ after in
  Army.type a = type /\ Army.isLocal a = isLocal /\
  Army.soldiers a = seq (length before) 5 /\
  Army.leader a = Some (length before) /\
  leaders h' a = [length before] /\
  (forall r s, In r (Army.soldiers a) -> h' !! r = Some s ->
               Soldier.type s = type /\ Soldier.isConverting s = false) /\
  exists ld, h' !! length before = Some ld /\
             x (Soldier.position ld) = cx /\ z (Soldier.position ld) = cz.
Proof.
  intros (Htype & Hlocal & Hroster & Hleader & Hlen & Hflags & Hall & ld & Hld & Hx & Hz).
  cbv zeta.
  split; [exact Htype|]. split; [exact Hlocal|].
  assert (Army.soldiers (relocate (length before) a0) = seq (length before) 5) as Hseq.
  { unfold relocate. cbn [Army.soldiers Army.set_leader Army.set_soldiers].
    rewrite Hroster. cbn [map seq]. repeat f_equal; lia. }
  split; [exact Hseq|].
  split; [unfold relocate; cbn [Army.leader Army.set_leader]; rewrite Hleader;
          cbn; f_equal; lia|].
  split.
  { rewrite leaders_relocate. unfold leaders. rewrite Hroster.
    rewrite filter_readb_app_l by (rewrite Hlen; repeat constructor; lia).
    rewrite Hflags. cbn. f_equal. lia. }
  split.
  - intros r s Hr Hs. rewrite Hseq in Hr. apply in_seq in Hr.
    rewrite lookup_app_r in Hs by lia. rewrite lookup_app_l in Hs by lia.
    rewrite Forall_forall in Hall. apply Hall. eapply list_elem_of_lookup_2. exact Hs.
  - exists ld. split; [|now split].
    rewrite lookup_app_r by lia. rewrite Nat.sub_diag.
    rewrite lookup_app_l by lia. exact Hld.
Qed.
Lemma startGame_eq
    (host : Host) (playerType : string) (g : Game.t) (zoneR zoneP zoneS : Rect) :
  Arena.getSpawnZone SOLDIER_TYPES.ROCK Arena.create = Some zoneR ->
  Arena.getSpawnZone SOLDIER_TYPES.PAPER Arena.create = Some zoneP ->
  Arena.getSpawnZone SOLDIER_TYPES.SCISSORS Arena.create = Some zoneS ->
  let squad type zone :=
    Army.setSpawnPosition host (rect_x zone) (rect_z zone)
      (fst (Army.new type (String.eqb type playerType) []))
      (snd (Army.new type (String.eqb type playerType) [])) in
  let army type := fst (Army.new type (String.eqb type playerType) []) in
  let h1 := Game.heap g ++ squad SOLDIER_TYPES.ROCK zoneR in
  let h2 := h1 ++ squad SOLDIER_TYPES.PAPER zoneP in
  let h3 := h2 ++ squad SOLDIER_TYPES.SCISSORS zoneS in
  Game.startGame host playerType g
  = Game.call ui_showPlacementUI
      (Game.set_powerUpManager (Some PowerUpManager.new)
         (Game.set_heap h3
            (Game.set_armies
               [(SOLDIER_TYPES.ROCK, relocate (length (Game.heap g)) (army SOLDIER_TYPES.ROCK));
                (SOLDIER_TYPES.PAPER, relocate (length h1) (army SOLDIER_TYPES.PAPER));
                (SOLDIER_TYPES.SCISSORS, relocate (length h2) (army SOLDIER_TYPES.SCISSORS))]
               (Game.set_arena (Some Arena.create)
                  (Game.cleanup
                     (Game.set_keys Game.wasdKeys
                        (Game.set_placement GAME_CONFIG.PLACEMENT_TIME false
                           (Game.set_state GAME_STATES.PLACEMENT
                              (Game.set_localPlayerType (Some playerType) g))))))))).
Proof.
  intros HzR HzP HzS. cbv zeta. unfold Game.startGame. cbv zeta.
  set (g5 := Game.set_arena (Some Arena.create) _).
  unfold SOLDIER_TYPES.values. cbn [fold_left].
  rewrite (createArmy_relocate host playerType g5 SOLDIER_TYPES.ROCK Arena.create zoneR
             eq_refl HzR).
  match goal with
  | |- context [Game.createArmy host playerType ?g1 SOLDIER_TYPES.PAPER] =>
      rewrite (createArmy_relocate host playerType g1 SOLDIER_TYPES.PAPER Arena.create zoneP
                 eq_refl HzP)
  end.
  match goal with
  | |- context [Game.createArmy host playerType ?g2 SOLDIER_TYPES.SCISSORS] =>
      rewrite (createArmy_relocate host playerType g2 SOLDIER_TYPES.SCISSORS Arena.create zoneS
                 eq_refl HzS)
  end.
  reflexivity.
Qed.

(** X20. [startGame] builds a well-formed match, whatever game was
    there before and whoever the local player is.  Afterwards the phase
    is placement with the full placement time, the arena is the one
    [create] builds and the power-up manager is new; there are exactly
    the three armies Rock, Paper and Scissors, in this order, the local
    one being the player's; fifteen soldier objects were added to the
    store and none that existed was changed; army number i owns the five
    consecutive new objects from 5 i on, so the rosters are disjoint and
    without repetition; its first soldier is its leader and the only one
    flagged, every soldier carries the army's faction and none is
    converting, and the leader stands on the centre of the army's spawn
    zone.  The key map holds w, a, s, d only, so from now on a key
    event is recorded exactly when the lower-case form of its key is one
    of these four, and under that form: W counts as w, and the arrow
    keys are no longer recorded. *)
Theorem startGame_builds_three_armies (host : Host) (playerType : string) (g : Game.t) :
  let g' := Game.startGame host playerType g in
  let n := length (Game.heap g) in
  Game.state g' = GAME_STATES.PLACEMENT /\
  Game.placementTimer g' = GAME_CONFIG.PLACEMENT_TIME /\
  Game.localPlayerType g' = Some playerType /\
  Game.arena g' = Some Arena.create /\
  Game.powerUpManager g' = Some PowerUpManager.new /\
  Game.calls g' = Game.calls g ++ [ui_showPlacementUI] /\
  JsMap.keys (Game.armies g') = SOLDIER_TYPES.values /\
  (exists born, Game.heap g' = Game.heap g ++ born /\ length born = 15%nat) /\
  (forall i type, SOLDIER_TYPES.values !! i = Some type ->
     exists a zone,
       JsMap.get type (Game.armies g') = Some a /\
       Arena.getSpawnZone type Arena.create = Some zone /\
       Army.type a = type /\ Army.isLocal a = String.eqb type playerType /\
       Army.soldiers a = seq (n + 5 * i) 5 /\
       Army.leader a = Some (n + 5 * i)%nat /\
       leaders (Game.heap g') a = [(n + 5 * i)%nat] /\
       (forall r s, In r (Army.soldiers a) -> Game.heap g' !! r = Some s ->
                    Soldier.type s = type /\ Soldier.isConverting s = false) /\
       exists ld, Game.heap g' !! (n + 5 * i)%nat = Some ld /\
                  x (Soldier.position ld) = rect_x zone /\
                  z (Soldier.position ld) = rect_z zone) /\
  Game.keys g' = Game.wasdKeys /\
  (forall eventKey pressed,
      ~ In (toLowerCase eventKey) ["w"; "a"; "s"; "d"] ->
      Game.onKey eventKey pressed g' = g') /\
  (forall eventKey pressed,
      In (toLowerCase eventKey) ["w"; "a"; "s"; "d"] ->
      Game.onKey eventKey pressed g'
      = Game.set_keys (JsMap.set (toLowerCase eventKey) pressed Game.wasdKeys) g' /\
      JsMap.get (toLowerCase eventKey) (Game.keys (Game.onKey eventKey pressed g'))
      = Some pressed).
Proof.
  cbv zeta.
  assert (exists zone, Arena.getSpawnZone SOLDIER_TYPES.ROCK Arena.create = Some zone)
    as [zoneR HzR] by (eexists; reflexivity).
  assert (exists zone, Arena.getSpawnZone SOLDIER_TYPES.PAPER Arena.create = Some zone)
    as [zoneP HzP] by (eexists; reflexivity).
  assert (exists zone, Arena.getSpawnZone SOLDIER_TYPES.SCISSORS Arena.create = Some zone)
    as [zoneS HzS] by (eexists; reflexivity).
  rewrite (startGame_eq host playerType g zoneR zoneP zoneS HzR HzP HzS). cbv zeta.
  pose proof (squad_facts host SOLDIER_TYPES.ROCK (String.eqb SOLDIER_TYPES.ROCK playerType)
                (rect_x zoneR) (rect_z zoneR)) as HfR.
  pose proof (squad_facts host SOLDIER_TYPES.PAPER (String.eqb SOLDIER_TYPES.PAPER playerType)
                (rect_x zoneP) (rect_z zoneP)) as HfP.
  pose proof (squad_facts host SOLDIER_TYPES.SCISSORS
                (String.eqb SOLDIER_TYPES.SCISSORS playerType)
                (rect_x zoneS) (rect_z zoneS)) as HfS.
  cbv zeta in HfR, HfP, HfS.
  set (aR := fst (Army.new SOLDIER_TYPES.ROCK (String.eqb SOLDIER_TYPES.ROCK playerType) []))
    in *.
  set (sR := Army.setSpawnPosition host (rect_x zoneR) (rect_z zoneR) aR
               (snd (Army.new SOLDIER_TYPES.ROCK (String.eqb SOLDIER_TYPES.ROCK playerType) [])))
    in *.
  set (aP := fst (Army.new SOLDIER_TYPES.PAPER (String.eqb SOLDIER_TYPES.PAPER playerType) []))
    in *.
  set (sP := Army.setSpawnPosition host (rect_x zoneP) (rect_z zoneP) aP
               (snd (Army.new SOLDIER_TYPES.PAPER
                       (String.eqb SOLDIER_TYPES.PAPER playerType) []))) in *.
  set (aS := fst (Army.new SOLDIER_TYPES.SCISSORS
                    (String.eqb SOLDIER_TYPES.SCISSORS playerType) [])) in *.
  set (sS := Army.setSpawnPosition host (rect_x zoneS) (rect_z zoneS) aS
               (snd (Army.new SOLDIER_TYPES.SCISSORS
                       (String.eqb SOLDIER_TYPES.SCISSORS playerType) []))) in *.
  clearbody sR sP sS aR aP aS.
  assert (length sR = 5%nat) as HlR by (apply HfR).
  assert (length sP = 5%nat) as HlP by (apply HfP).
  assert (length sS = 5%nat) as HlS by (apply HfS).
  cbn [Game.keys Game.set_keys Game.set_arena Game.set_heap Game.set_armies
       Game.set_powerUpManager Game.call Game.cleanup Game.set_placement Game.set_state
       Game.set_localPlayerType Game.state Game.placementTimer Game.localPlayerType
       Game.arena Game.powerUpManager Game.calls Game.armies Game.heap] .
  split; [reflexivity|]. split; [reflexivity|]. split; [reflexivity|].
  split; [reflexivity|]. split; [reflexivity|]. split; [reflexivity|].
  split; [reflexivity|].
  split.
  { exists (sR ++ sP ++ sS). split; [now rewrite <- !app_assoc|].
    rewrite !length_app, HlR, HlP, HlS. reflexivity. }
  split.
  - intros i type Hi.
    destruct i as [|[|[|i]]]; cbn in Hi; try discriminate Hi; injection Hi as <-.
    + exists (relocate (length (Game.heap g)) aR), zoneR.
      split; [reflexivity|]. split; [exact HzR|].
      replace (length (Game.heap g) + 5 * 0)%nat with (length (Game.heap g)) by lia.
      replace (((Game.heap g ++ sR) ++ sP) ++ sS) with (Game.heap g ++ sR ++ sP ++ sS)
        by (now rewrite <- !app_assoc).
      exact (squad_in_place _ _ _ _ (Game.heap g) (sP ++ sS) sR aR HfR).
    + exists (relocate (length (Game.heap g ++ sR)) aP), zoneP.
      split; [reflexivity|]. split; [exact HzP|].
      replace (length (Game.heap g) + 5 * 1)%nat with (length (Game.heap g ++ sR))
        by (rewrite length_app, HlR; lia).
      replace (((Game.heap g ++ sR) ++ sP) ++ sS) with ((Game.heap g ++ sR) ++ sP ++ sS)
        by (now rewrite <- !app_assoc).
      exact (squad_in_place _ _ _ _ (Game.heap g ++ sR) sS sP aP HfP).
    + exists (relocate (length ((Game.heap g ++ sR) ++ sP)) aS), zoneS.
      split; [reflexivity|]. split; [exact HzS|].
      replace (length (Game.heap g) + 5 * 2)%nat with (length ((Game.heap g ++ sR) ++ sP))
        by (rewrite !length_app, HlR, HlP; lia).
      replace (((Game.heap g ++ sR) ++ sP) ++ sS)
        with (((Game.heap g ++ sR) ++ sP) ++ sS ++ []) by (now rewrite app_nil_r).
      exact (squad_in_place _ _ _ _ ((Game.heap g ++ sR) ++ sP) [] sS aS HfS).
  - split; [reflexivity|]. split.
    + intros eventKey pressed Hkey. unfold Game.onKey. cbv zeta.
      cbn [Game.keys Game.set_keys Game.set_arena Game.set_heap Game.set_armies
           Game.set_powerUpManager Game.call Game.cleanup Game.set_placement Game.set_state
           Game.set_localPlayerType].
      assert (JsMap.has (toLowerCase eventKey) Game.wasdKeys = false) as ->; [|reflexivity].
      destruct (JsMap.has (toLowerCase eventKey) Game.wasdKeys) eqn:Hhas; [|reflexivity].
      apply JsMap_has_keys in Hhas. contradiction.
    + intros eventKey pressed Hkey. unfold Game.onKey. cbv zeta.
      cbn [Game.keys Game.set_keys Game.set_arena Game.set_heap Game.set_armies
           Game.set_powerUpManager Game.call Game.cleanup Game.set_placement Game.set_state
           Game.set_localPlayerType].
      destruct Hkey as [<-|[<-|[<-|[<-|[]]]]]; split; reflexivity.
Qed.

(** ** Input on the wire *)

(** X21. A client's input reaches the host's army and nothing else.
    [sendInput] on a client that has its faction sends exactly one
    [player_input] message.  A host that handles it answers
    [getPlayerInput] for that faction with exactly the input sent, and
    for every other faction as before; nothing else of the host
    changes.  The sender ignores its own message, every other non-host
    ignores it too, and a host never sends input. *)
Theorem player_input_round_trip
    (client host : NetworkManager.t) (type : string) (input : Input) :
  NetworkManager.isHost client = false ->
  NetworkManager.localPlayerType client = Some type ->
  NetworkManager.isHost host = true ->
  user_id (NetworkManager.currentUser client) <> user_id (NetworkManager.currentUser host) ->
  let client' := NetworkManager.sendInput input client in
  exists m,
    NetworkManager.outbox client' = NetworkManager.outbox client ++ [m] /\
    NetworkManager.handleMessage m host
    = NetworkManager.set_remoteInputs
        (JsMap.set type input (NetworkManager.remoteInputs host)) host /\
    NetworkManager.getPlayerInput type (NetworkManager.handleMessage m host) = input /\
    (forall other, other <> type ->
       NetworkManager.getPlayerInput other (NetworkManager.handleMessage m host)
       = NetworkManager.getPlayerInput other host) /\
    NetworkManager.handleMessage m client' = client' /\
    (forall peer, NetworkManager.isHost peer = false ->
                  NetworkManager.handleMessage m peer = peer) /\
    NetworkManager.sendInput input host = host.
Proof.
  intros Hclient Htype Hhost Hother. cbv zeta.
  unfold NetworkManager.sendInput. rewrite Hclient, Hhost, Htype.
  eexists. split; [reflexivity|].
  assert (forall n, NetworkManager.isHost n = true ->
            user_id (NetworkManager.currentUser client) <> user_id (NetworkManager.currentUser n) ->
            NetworkManager.handleMessage
              {| fromId := user_id (NetworkManager.currentUser client);
                 payload := player_input (Some type) (input_x input) (input_z input) |} n
            = NetworkManager.set_remoteInputs
                (JsMap.set type input (NetworkManager.remoteInputs n)) n) as Hrecv.
  { intros n Hn Hne. unfold NetworkManager.handleMessage. cbn [fromId payload].
    apply String.eqb_neq in Hne. rewrite Hne, Hn. now destruct input. }
  rewrite (Hrecv host Hhost Hother).
  split; [reflexivity|]. unfold NetworkManager.getPlayerInput.
  cbn [NetworkManager.remoteInputs NetworkManager.set_remoteInputs].
  split; [now rewrite JsMap_get_set_eq|].
  split; [intros other Hne; rewrite JsMap_get_set_ne by congruence; reflexivity|].
  split.
  - unfold NetworkManager.handleMessage. cbn [fromId payload NetworkManager.currentUser
      NetworkManager.broadcast]. now rewrite String.eqb_refl.
  - split; [|reflexivity]. intros peer Hpeer. unfold NetworkManager.handleMessage.
    cbn [fromId payload]. rewrite Hpeer. now destruct (String.eqb _ _).
Qed.

Lemma player_input_round_trip_witness :
  NetworkManager.isHost Examples.client = false /\
  NetworkManager.isHost Examples.fullLobby = true /\
  exists m,
    NetworkManager.outbox
      (NetworkManager.sendInput {| input_x := 1%Q; input_z := 0%Q |} Examples.client)
    = NetworkManager.outbox Examples.client ++ [m] /\
    NetworkManager.getPlayerInput SOLDIER_TYPES.PAPER
      (NetworkManager.handleMessage m Examples.fullLobby)
    = {| input_x := 1%Q; input_z := 0%Q |}.
Proof.
  assert (NetworkManager.isHost Examples.client = false) as Hclient by reflexivity.
  assert (NetworkManager.isHost Examples.fullLobby = true) as Hhost by reflexivity.
  assert (NetworkManager.localPlayerType Examples.client = Some SOLDIER_TYPES.PAPER) as Htype
    by reflexivity.
  assert (user_id (NetworkManager.currentUser Examples.client)
          <> user_id (NetworkManager.currentUser Examples.fullLobby)) as Hne
    by (vm_compute; discriminate).
  split; [exact Hclient|]. split; [exact Hhost|].
  destruct (player_input_round_trip Examples.client Examples.fullLobby SOLDIER_TYPES.PAPER
              {| input_x := 1%Q; input_z := 0%Q |} Hclient Htype Hhost Hne)
    as (m & Hout & _ & Hget & _).
  exists m. split; [exact Hout|exact Hget].
Defined.

(** ** The shield *)

Lemma repainted_refl (s : Soldier.t) : repainted s s.
Proof. unfold repainted. now destruct s. Qed.

Lemma repainted_trans (s1 s2 s3 : Soldier.t) :
  repainted s1 s2 -> repainted s2 s3 -> repainted s1 s3.
Proof. unfold repainted. intros H12 H23. rewrite H23 at 1. rewrite H12 at 1. reflexivity. Qed.

Lemma setEmissive_repainted (c : Z) (i : Q) (s : Soldier.t) :
  repainted s (Army.setEmissive c i s).
Proof.
  unfold Army.setEmissive, repainted. destruct (Soldier.modelMesh s) eqn:Hm.
  - reflexivity.
  - destruct s. simpl in Hm. subst. reflexivity.
Qed.

Lemma glow_repaints (c : Z) (i : Q) (roster : list ref) :
  forall h,
    length (fold_left (fun h r => modify r (Army.setEmissive c i) h) roster h) = length h /\
    forall r s, h !! r = Some s ->
      exists s',
        fold_left (fun h r => modify r (Army.setEmissive c i) h) roster h !! r = Some s' /\
        repainted s s'.
Proof.
  induction roster as [|r0 roster IH]; intros h; simpl.
  - split; [reflexivity|]. intros r s Hs. exists s. split; [exact Hs|apply repainted_refl].
  - destruct (IH (modify r0 (Army.setEmissive c i) h)) as [Hlen Hall].
    split; [now rewrite Hlen, modify_length|]. intros r s Hs.
    destruct (decide (r0 = r)) as [->|Hne].
    + destruct (Hall r _ (modify_lookup_eq _ _ _ s Hs)) as (s' & Hs' & Hb).
      exists s'. split; [exact Hs'|].
      apply (repainted_trans s (Army.setEmissive c i s));
        [apply setEmissive_repainted|exact Hb].
    + apply Hall. now rewrite modify_lookup_ne.
Qed.

(** X22. The invincibility power-up, from collection to collision.
    Applied for a registered army it sets [isInvincible], arms the
    timer that resets it after four seconds, and changes nothing else
    of the army or of any other army; soldiers change at most in the
    look of their model and none is added or removed.  From then on
    [handleCollision] does nothing at all when this army is one of the
    two, whichever side it is on and whatever the other army; and when
    the timer fires the army is no longer invincible. *)
Theorem invincibility_blocks_conversions
    (host : Host) (key : string) (g : Game.t) (a : Army.t) :
  JsMap.get key (Game.armies g) = Some a ->
  let g1 := PowerUpEffects.applyPowerUp host POWERUP_TYPES.INVINCIBILITY key g in
  exists a1 ms,
    JsMap.get key (Game.armies g1) = Some a1 /\
    a1 = Army.set_timers (Army.timers a ++ [(ms, ResetInvincible)])
           (Army.set_isInvincible true a) /\
    (ms == 4000)%Q /\
    (forall other, other <> key ->
       JsMap.get other (Game.armies g1) = JsMap.get other (Game.armies g)) /\
    length (Game.heap g1) = length (Game.heap g) /\
    (forall r s, Game.heap g !! r = Some s ->
       exists s', Game.heap g1 !! r = Some s' /\ repainted s s') /\
    (forall soldier1 soldier2 other,
       Game.handleCollision soldier1 soldier2 key other g1 = g1 /\
       Game.handleCollision soldier1 soldier2 other key g1 = g1) /\
    Army.isInvincible (fst (Army.fire ResetInvincible a1 (Game.heap g1))) = false.
Proof.
  intros Ha. cbv zeta. unfold PowerUpEffects.applyPowerUp. rewrite Ha.
  change (POWERUP_CONFIG.get POWERUP_TYPES.INVINCIBILITY)
    with (Some {| duration := Some 4%Q; multiplier := None; soldiersToRestore := None;
                  icon := "🛡️" |}).
  change (String.eqb POWERUP_TYPES.INVINCIBILITY POWERUP_TYPES.SPEED_BOOST) with false.
  change (String.eqb POWERUP_TYPES.INVINCIBILITY POWERUP_TYPES.INVINCIBILITY) with true.
  cbv iota. rewrite (onArmy_found key _ g a Ha).
  unfold Army.activateInvincibility. cbv zeta. cbn [fst snd Army.soldiers Army.set_isInvincible].
  destruct (glow_repaints 0xffd700 (5 # 10)%Q (Army.soldiers a) (Game.heap g)) as [Hlen Hall].
  set (h1 := fold_left _ (Army.soldiers a) (Game.heap g)) in *.
  game_fields.
  eexists _, _. split; [apply JsMap_get_set_eq|].
  split; [reflexivity|]. split; [vm_compute; reflexivity|].
  split; [intros other Hne; apply JsMap_get_set_ne; congruence|].
  split; [exact Hlen|]. split; [exact Hall|]. split; [|reflexivity].
  intros soldier1 soldier2 other. unfold Game.handleCollision. game_fields.
  rewrite JsMap_get_set_eq.
  cbn [Army.isInvincible Army.set_timers Army.set_isInvincible orb].
  split; [now destruct (JsMap.get other _)|].
  destruct (JsMap.get other _) as [a2|]; [|reflexivity].
  now rewrite orb_true_r.
Qed.

Lemma invincibility_blocks_conversions_witness :
  JsMap.get SOLDIER_TYPES.ROCK (Game.armies Examples.battle)
  = Some (Examples.rock Examples.battle) /\
  Game.handleCollision 11%nat 1%nat SOLDIER_TYPES.PAPER SOLDIER_TYPES.ROCK
    (PowerUpEffects.applyPowerUp Examples.host POWERUP_TYPES.INVINCIBILITY SOLDIER_TYPES.ROCK
       Examples.battle)
  = PowerUpEffects.applyPowerUp Examples.host POWERUP_TYPES.INVINCIBILITY SOLDIER_TYPES.ROCK
      Examples.battle.
Proof.
  assert (JsMap.get SOLDIER_TYPES.ROCK (Game.armies Examples.battle)
          = Some (Examples.rock Examples.battle)) as Ha by (vm_compute; reflexivity).
  split; [exact Ha|].
  destruct (invincibility_blocks_conversions Examples.host SOLDIER_TYPES.ROCK Examples.battle
              (Examples.rock Examples.battle) Ha)
    as (a1 & ms & _ & _ & _ & _ & _ & _ & Hblock & _).
  apply Hblock.
Defined.

(** ** The tick of a client *)

(** X23. A client's tick never moves a soldier and sends at most one
    input.  [updateClient] leaves the armies as they are and no soldier
    object comes, goes or moves on the ground (a soldier differs at
    most in its height and the look of its ring); the phase and the
    running conversions are untouched and the soldier counts are
    reported to the UI once, last.  Either nothing is sent, or exactly
    one [player_input] message carrying the manager's faction and the
    movement read from the keys, and then the sender is not the host,
    its local army has soldiers left and the time of sending is
    recorded.  An eliminated player sends nothing, and so does a player
    who sent less than 50 ms ago. *)
Theorem updateClient_only_animates
    (host : Host) (delta : Q) (lastInputTime : option Z)
    (n : NetworkManager.t) (game : Game.t) :
  NetworkManager.app_game n = Some game ->
  let n' := fst (Client.updateClient host delta lastInputTime n) in
  let last' := snd (Client.updateClient host delta lastInputTime n) in
  let sent :=
    {| fromId := user_id (NetworkManager.currentUser n);
       payload := player_input (NetworkManager.localPlayerType n)
                    (input_x (Client.movement host game))
                    (input_z (Client.movement host game)) |} in
  (exists game',
      NetworkManager.app_game n' = Some game' /\
      Game.armies game' = Game.armies game /\
      Game.state game' = Game.state game /\
      Game.conversions game' = Game.conversions game /\
      length (Game.heap game') = length (Game.heap game) /\
      (forall r s, Game.heap game !! r = Some s ->
         exists s', Game.heap game' !! r = Some s' /\ bobbed s s') /\
      exists counts, Game.calls game' = Game.calls game ++ [ui_updateSoldierCounts counts]) /\
  NetworkManager.players n' = NetworkManager.players n /\
  NetworkManager.isHost n' = NetworkManager.isHost n /\
  ((NetworkManager.outbox n' = NetworkManager.outbox n /\
    (last' = lastInputTime \/ NetworkManager.isHost n = true)) \/
   (NetworkManager.outbox n' = NetworkManager.outbox n ++ [sent] /\
    NetworkManager.isHost n = false /\ Client.isEliminated game = false /\
    last' = Some (Date_now host))) /\
  (Client.isEliminated game = true ->
   NetworkManager.outbox n' = NetworkManager.outbox n /\ last' = lastInputTime) /\
  (forall last, lastInputTime = Some last -> last <> 0 -> Date_now host - last <= 50 ->
   NetworkManager.outbox n' = NetworkManager.outbox n /\ last' = lastInputTime).
Proof.
  intros Hgame. cbv zeta. unfold Client.updateClient. rewrite Hgame. cbv zeta.
  destruct (updatePlacement_armies host delta (JsMap.keys (Game.armies game)) game)
    as (Heq & Hlen & Hall).
  cbv zeta in Heq, Hlen, Hall.
  set (game1 := fold_left (fun g type => Game.onArmy type (Army.updatePlacement host delta) g)
                  (JsMap.keys (Game.armies game)) game) in *.
  set (due := match lastInputTime with
              | Some last => Z.eqb last 0 || Z.gtb (Date_now host - last) 50
              | None => true
              end).
  assert (exists game',
             Game.updateSoldierCounts game1 = game' /\
             Game.armies game' = Game.armies game /\
             Game.state game' = Game.state game /\
             Game.conversions game' = Game.conversions game /\
             length (Game.heap game') = length (Game.heap game) /\
             (forall r s, Game.heap game !! r = Some s ->
                exists s', Game.heap game' !! r = Some s' /\ bobbed s s') /\
             exists counts, Game.calls game' = Game.calls game ++ [ui_updateSoldierCounts counts])
    as (game' & Hgame' & Hfacts).
  { eexists. split; [reflexivity|]. unfold Game.updateSoldierCounts. game_fields.
    rewrite Heq. game_fields. repeat split; try assumption. eexists. reflexivity. }
  rewrite Hgame'.
  destruct (negb (Client.isEliminated game) && due) eqn:Hsend; cbn [fst snd].
  - apply andb_prop in Hsend as [Helim Hdue]. apply negb_true_iff in Helim.
    unfold NetworkManager.sendInput.
    destruct (NetworkManager.isHost n) eqn:Hhost.
    + split; [exists game'; split; [reflexivity|exact Hfacts]|].
      split; [reflexivity|]. split; [exact Hhost|].
      split; [left; split; [reflexivity|now right]|].
      split; [intros Hcontra; congruence|].
      intros last -> Hne Hle. exfalso. subst due. apply orb_prop in Hdue as [H|H]; lia.
    + split; [exists game'; split; [reflexivity|exact Hfacts]|].
      split; [reflexivity|]. split; [exact Hhost|].
      split; [right; now repeat split|].
      split; [intros Hcontra; congruence|].
      intros last -> Hne Hle. exfalso. subst due. apply orb_prop in Hdue as [H|H]; lia.
  - split; [exists game'; split; [reflexivity|exact Hfacts]|].
    split; [reflexivity|]. split; [reflexivity|].
    split; [left; split; [reflexivity|now left]|].
    split; intros; split; reflexivity.
Qed.

Lemma updateClient_only_animates_witness :
  NetworkManager.app_game Examples.client = Some Examples.battle /\
  exists game',
    NetworkManager.app_game (fst (Client.updateClient Examples.host (1 # 60)%Q None Examples.client))
    = Some game' /\
    Game.armies game' = Game.armies Examples.battle.
Proof.
  assert (NetworkManager.app_game Examples.client = Some Examples.battle) as Hgame
    by reflexivity.
  split; [exact Hgame|].
  destruct (updateClient_only_animates Examples.host (1 # 60)%Q None Examples.client
              Examples.battle Hgame) as ((game' & Happ & Harmies & _) & _).
  exists game'. split; [exact Happ|exact Harmies].
Defined.

(** ** A faction change leaves no trace of the old faction *)

(** X24. [changeType] overwrites.  For the three factions, the keys
    of [COLORS] (for any other string the source raises an exception
    once the faction tag is overwritten, which is outside this
    embedding), a soldier whose faction is changed gets a model of the
    new faction that is not lit: emissive black at the intensity 1 of a
    new material, whatever the old model showed (the gold of an
    invincible army, the flash of a conversion).  Nothing of the old
    faction or the old model is left: two soldiers that differ only in
    faction and model become the same soldier, and so two changes in a
    row give exactly the soldier that the second change alone gives. *)
Theorem changeType_overwrites (a b : string) (s : Soldier.t) :
  In a SOLDIER_TYPES.values -> In b SOLDIER_TYPES.values ->
  Soldier.changeType b (Soldier.changeType a s) = Soldier.changeType b s /\
  (forall c m, Soldier.changeType b (Soldier.set_modelMesh m (Soldier.set_type c s))
               = Soldier.changeType b s) /\
  (forall c i, Soldier.changeType b (Army.setEmissive c i s) = Soldier.changeType b s) /\
  exists model,
    Soldier.modelMesh (Soldier.changeType b s) = Some model /\
    geometry model = b /\
    material_emissive model = 0 /\ material_emissiveIntensity model = 1%Q.
Proof.
  intros _ _. split; [|split; [|split]].
  - destruct s as [ty il ic idr i p ry sc mm [r|]]; reflexivity.
  - intros c m. destruct s as [ty il ic idr i p ry sc mm [r|]]; reflexivity.
  - intros c i. destruct s as [ty il ic idr i0 p ry sc [m|] [r|]]; reflexivity.
  - destruct s as [ty il ic idr i p ry sc mm [r|]];
      (eexists; split; [reflexivity|]; split; [reflexivity|]; split; reflexivity).
Qed.

Lemma changeType_overwrites_witness :
  In "rock" SOLDIER_TYPES.values /\ In "paper" SOLDIER_TYPES.values /\
  Soldier.changeType "paper" (Soldier.changeType "rock" (Soldier.new "scissors" true "scissors_LEADER"))
  = Soldier.changeType "paper" (Soldier.new "scissors" true "scissors_LEADER").
Proof.
  assert (In "rock" SOLDIER_TYPES.values) as Ha by (simpl; auto).
  assert (In "paper" SOLDIER_TYPES.values) as Hb by (simpl; auto).
  split; [exact Ha|]. split; [exact Hb|].
  exact (proj1 (changeType_overwrites "rock" "paper"
                  (Soldier.new "scissors" true "scissors_LEADER") Ha Hb)).
Defined.

(** ** The decoy *)

(** X25. [createCloneLeader] only shows a decoy, and shows it near the
    leader.  For an army whose leader exists and draws in [0, 1), one
    decoy is put on the scene, less than 2 away from the leader on each
    axis, for the given duration; two random numbers are consumed and
    nothing else of the game changes: no army, no soldier. *)
Theorem createCloneLeader_decoy_near_leader
    (host : Host) (army : Army.t) (duration : Q) (g : Game.t) (l : ref) (ld : Soldier.t) :
  Army.leader army = Some l ->
  Game.heap g !! l = Some ld ->
  (forall k, (0 <= Math_random host k)%Q /\ (Math_random host k < 1)%Q) ->
  let g' := PowerUpEffects.createCloneLeader host army duration g in
  exists px pz,
    g' = Game.call (scene_addDecoy px pz duration)
           (Game.set_randomCalls (S (S (Game.randomCalls g))) g) /\
    (Qabs (px - x (Soldier.position ld)) <= 2)%Q /\
    (Qabs (pz - z (Soldier.position ld)) <= 2)%Q /\
    Game.armies g' = Game.armies g /\ Game.heap g' = Game.heap g.
Proof.
  intros Hleader Hld Hrandom. cbv zeta. unfold PowerUpEffects.createCloneLeader.
  rewrite Hleader. cbn [mbind option_bind]. rewrite Hld. unfold Game.random. cbv zeta.
  cbn [Game.randomCalls Game.set_randomCalls]. unfold Soldier.getPosition.
  eexists _, _. split; [reflexivity|].
  destruct (Hrandom (Game.randomCalls g)) as [H0 H1].
  destruct (Hrandom (S (Game.randomCalls g))) as [H0' H1'].
  split; [apply Qabs_Qle_condition; split; lra|].
  split; [apply Qabs_Qle_condition; split; lra|].
  split; reflexivity.
Qed.

Lemma createCloneLeader_decoy_near_leader_witness :
  Army.leader (Examples.rock Examples.battle) = Some 0%nat /\
  Game.armies (PowerUpEffects.createCloneLeader Examples.host (Examples.rock Examples.battle)
                 6%Q Examples.battle)
  = Game.armies Examples.battle.
Proof.
  assert (Army.leader (Examples.rock Examples.battle) = Some 0%nat) as Hleader
    by (vm_compute; reflexivity).
  assert (exists ld, Game.heap Examples.battle !! 0%nat = Some ld) as [ld Hld]
    by (vm_compute; eexists; reflexivity).
  assert (forall k, (0 <= Math_random Examples.host k)%Q /\
                    (Math_random Examples.host k < 1)%Q) as Hrandom
    by (intros k; split; vm_compute; congruence).
  split; [exact Hleader|].
  destruct (createCloneLeader_decoy_near_leader Examples.host (Examples.rock Examples.battle)
              6%Q Examples.battle 0%nat ld Hleader Hld Hrandom)
    as (px & pz & _ & _ & _ & Harmies & _).
  exact Harmies.
Defined.

(** ** A soldier that loses to several enemies at once *)

Lemma getRPSWinner_other (A B : string) : Game.getRPSWinner A B = Some B -> A <> B.
Proof. intros Hw ->. rewrite getRPSWinner_same in Hw. discriminate. Qed.

(** X26. The inner loop of [checkArmyCollisions] tests [soldier1]
    for a running conversion only before it starts.  So a soldier of
    the dominated army, not converting when its turn comes, is handed
    to [convertSoldier] once for every enemy soldier that is near it
    and not converting: the queue of running conversions grows by one
    entry for this same soldier per such enemy, all from its army to
    the enemy's, and nothing else is queued. *)
Theorem collideSoldier_queues_once_per_near_enemy
    (host : Host) (army1 army2 : string) (a1 a2 : Army.t) (soldiers2 : list ref)
    (g : Game.t) (soldier1 : ref) (s1 : Soldier.t) :
  JsMap.get army1 (Game.armies g) = Some a1 ->
  JsMap.get army2 (Game.armies g) = Some a2 ->
  Army.isInvincible a1 = false -> Army.isInvincible a2 = false ->
  Game.getRPSWinner (Army.type a1) (Army.type a2) = Some (Army.type a2) ->
  Game.heap g !! soldier1 = Some s1 ->
  Soldier.isConverting s1 = false ->
  Forall (fun soldier2 =>
            soldier2 <> soldier1 /\
            exists s2, Game.heap g !! soldier2 = Some s2 /\
                       Soldier.isConverting s2 = false /\
                       Qltb (Game.distanceTo host (Soldier.position s1) (Soldier.position s2))
                            (GAME_CONFIG.SOLDIER_COLLISION_RADIUS * 2) = true) soldiers2 ->
  Game.conversions (Game.collideSoldier host army1 army2 soldiers2 g soldier1)
  = Game.conversions g
    ++ map (fun _ => {| conv_soldier := soldier1; conv_fromArmy := army1;
                        conv_toArmy := army2; conv_startScale := Soldier.scale s1 |})
           soldiers2.
Proof.
  intros H1 H2 Hi1 Hi2 Hw Hs1 Hfree Hnear.
  unfold Game.collideSoldier, readb. rewrite Hs1, Hfree.
  assert (forall g0,
             Game.armies g0 = Game.armies g ->
             (exists s, Game.heap g0 !! soldier1 = Some s /\
                        Soldier.position s = Soldier.position s1 /\
                        Soldier.scale s = Soldier.scale s1) ->
             (forall r, r <> soldier1 -> Game.heap g0 !! r = Game.heap g !! r) ->
             Game.conversions (fold_left (Game.collideWith host army1 army2 soldier1) soldiers2 g0)
             = Game.conversions g0
               ++ map (fun _ => {| conv_soldier := soldier1; conv_fromArmy := army1;
                                   conv_toArmy := army2; conv_startScale := Soldier.scale s1 |})
                      soldiers2) as Hloop.
  { clear Hs1 Hfree. induction soldiers2 as [|soldier2 rest IH]; intros g0 Harm Hone Hothers;
      simpl; [now rewrite app_nil_r|].
    apply Forall_cons_1 in Hnear as ((Hne & s2 & Hs2 & Hfree2 & Hclose) & Hrest).
    destruct Hone as (s & Hs & Hpos & Hscale).
    assert (Game.collideWith host army1 army2 soldier1 g0 soldier2
            = Game.convertSoldier soldier1 army1 army2 g0) as ->.
    { unfold Game.collideWith, readb. rewrite (Hothers soldier2 Hne), Hs2, Hfree2, Hs.
      cbv zeta. rewrite Hpos, Hclose.
      unfold Game.handleCollision. rewrite Harm, H1, H2, Hi1, Hi2, Hw. cbn [orb]. cbv zeta.
      rewrite bool_decide_eq_false_2
        by (intros [= Heq]; now apply (getRPSWinner_other _ _ Hw)).
      now rewrite bool_decide_eq_true_2. }
    rewrite (convertSoldier_eq _ _ _ _ s Hs).
    rewrite IH.
    - game_fields. rewrite Hscale, <- app_assoc. reflexivity.
    - exact Hrest.
    - exact Harm.
    - game_fields. exists (marked s).
      split; [apply list_lookup_insert_eq; now apply lookup_lt_Some in Hs|].
      unfold marked, Army.setEmissive.
      destruct (Soldier.modelMesh (Soldier.set_isConverting true s)); now split.
    - intros r Hr. game_fields.
      rewrite list_lookup_insert_ne by congruence. now apply Hothers. }
  apply Hloop; [reflexivity| |reflexivity]. exists s1. now repeat split.
Qed.

Lemma collideSoldier_queues_once_per_near_enemy_witness :
  Game.heap Examples.battle !! 1%nat = Some (Soldier.new "rock" false "rock_0") /\
  Game.conversions (Game.collideSoldier Examples.host "rock" "paper" [6; 7]%nat
                      Examples.battle 1%nat)
  = [{| conv_soldier := 1%nat; conv_fromArmy := "rock"; conv_toArmy := "paper";
        conv_startScale := 1%Q |};
     {| conv_soldier := 1%nat; conv_fromArmy := "rock"; conv_toArmy := "paper";
        conv_startScale := 1%Q |}].
Proof.
  assert (Game.heap Examples.battle !! 1%nat = Some (Soldier.new "rock" false "rock_0")) as Hs1
    by (vm_compute; reflexivity).
  split; [exact Hs1|].
  assert (JsMap.get "rock" (Game.armies Examples.battle)
          = Some (Examples.army "rock" Examples.battle)) as H1 by (vm_compute; reflexivity).
  assert (JsMap.get "paper" (Game.armies Examples.battle)
          = Some (Examples.army "paper" Examples.battle)) as H2 by (vm_compute; reflexivity).
  assert (Army.isInvincible (Examples.army "rock" Examples.battle) = false) as Hi1
    by (vm_compute; reflexivity).
  assert (Army.isInvincible (Examples.army "paper" Examples.battle) = false) as Hi2
    by (vm_compute; reflexivity).
  assert (Game.getRPSWinner (Army.type (Examples.army "rock" Examples.battle))
            (Army.type (Examples.army "paper" Examples.battle))
          = Some (Army.type (Examples.army "paper" Examples.battle))) as Hw
    by (vm_compute; reflexivity).
  assert (Soldier.isConverting (Soldier.new "rock" false "rock_0") = false) as Hfree
    by reflexivity.
  assert (Forall (fun soldier2 =>
            soldier2 <> 1%nat /\
            exists s2, Game.heap Examples.battle !! soldier2 = Some s2 /\
                       Soldier.isConverting s2 = false /\
                       Qltb (Game.distanceTo Examples.host
                               (Soldier.position (Soldier.new "rock" false "rock_0"))
                               (Soldier.position s2))
                            (GAME_CONFIG.SOLDIER_COLLISION_RADIUS * 2) = true) [6; 7]%nat)
    as Hnear.
  { apply List.Forall_cons;
      [split; [discriminate|]|apply List.Forall_cons; [split; [discriminate|]|]].
    - exists (Soldier.new "paper" false "paper_0").
      split; [vm_compute; reflexivity|split; vm_compute; reflexivity].
    - exists (Soldier.new "paper" false "paper_1").
      split; [vm_compute; reflexivity|split; vm_compute; reflexivity].
    - apply List.Forall_nil. }
  rewrite (collideSoldier_queues_once_per_near_enemy Examples.host "rock" "paper"
             (Examples.army "rock" Examples.battle) (Examples.army "paper" Examples.battle)
             [6; 7]%nat Examples.battle 1%nat (Soldier.new "rock" false "rock_0")
             H1 H2 Hi1 Hi2 Hw Hs1 Hfree Hnear).
  vm_compute. reflexivity.
Defined.

Lemma removeSoldier_roster (soldier : ref) (a : Army.t) (h : Heap) (index : nat) :
  indexOf soldier (Army.soldiers a) = Some index ->
  Army.soldiers (fst (Army.removeSoldier soldier a h)) = delete index (Army.soldiers a).
Proof.
  intros Hindex. unfold Army.removeSoldier. rewrite Hindex.
  destruct (readb Soldier.isLeader h soldier); simpl.
  - destruct (negb _); [|reflexivity].
    unfold Army.promoteNewLeader. simpl. now destruct (delete index (Army.soldiers a)).
  - reflexivity.
Qed.

Lemma conversionCallback_armies
    (soldier : ref) (fromArmy toArmy : string) (g : Game.t) (fa ta : Army.t) :
  fromArmy <> toArmy ->
  JsMap.get fromArmy (Game.armies g) = Some fa ->
  JsMap.get toArmy (Game.armies g) = Some ta ->
  Game.armies (Game.conversionCallback soldier fromArmy toArmy g)
  = JsMap.set toArmy (Army.addSoldier soldier ta)
      (JsMap.set fromArmy (fst (Army.removeSoldier soldier fa (Game.heap g)))
         (Game.armies g)).
Proof.
  intros Hne Hfrom Hto. unfold Game.conversionCallback. cbv zeta.
  rewrite (onArmy_found fromArmy _ g fa Hfrom).
  match goal with
  | |- context [Game.onArmy toArmy ?f ?g1] =>
      assert (JsMap.get toArmy (Game.armies g1) = Some ta) as Hto1
        by (game_fields; now rewrite JsMap_get_set_ne);
      rewrite (onArmy_found toArmy f g1 ta Hto1)
  end.
  cbn [fst snd]. game_fields.
  destruct (negb _); [|reflexivity].
  now destruct (_ !! soldier).
Qed.

(** X27. A conversion that is run twice puts the soldier on the
    roster twice.  When the callback of [convertSoldier] runs a second
    time for the same soldier and the same two armies, its
    [removeSoldier] finds nothing to remove and its [addSoldier] pushes
    again: the from-army has lost the soldier once, the to-army holds
    it in its last two places, so its roster has a repetition and the
    two rosters together count one soldier more than before. *)
Theorem conversionCallback_twice_doubles
    (g : Game.t) (soldier : ref) (fromArmy toArmy : string) (fa ta : Army.t) :
  fromArmy <> toArmy ->
  JsMap.get fromArmy (Game.armies g) = Some fa ->
  JsMap.get toArmy (Game.armies g) = Some ta ->
  In soldier (Army.soldiers fa) ->
  NoDup (Army.soldiers fa) ->
  let g2 := Game.conversionCallback soldier fromArmy toArmy
              (Game.conversionCallback soldier fromArmy toArmy g) in
  exists fa' ta',
    JsMap.get fromArmy (Game.armies g2) = Some fa' /\
    JsMap.get toArmy (Game.armies g2) = Some ta' /\
    ~ In soldier (Army.soldiers fa') /\
    S (length (Army.soldiers fa')) = length (Army.soldiers fa) /\
    Army.soldiers ta' = Army.soldiers ta ++ [soldier; soldier] /\
    ~ NoDup (Army.soldiers ta') /\
    (length (Army.soldiers fa') + length (Army.soldiers ta')
     = S (length (Army.soldiers fa) + length (Army.soldiers ta)))%nat.
Proof.
  intros Hne Hfrom Hto Hin Hnd. cbv zeta.
  destruct (indexOf_In _ _ Hin) as [index Hindex].
  destruct (indexOf_split _ _ _ Hindex) as (l1 & l2 & Hsplit & Hdel).
  set (g1 := Game.conversionCallback soldier fromArmy toArmy g).
  set (fa1 := fst (Army.removeSoldier soldier fa (Game.heap g))).
  assert (Army.soldiers fa1 = l1 ++ l2) as Hroster1
    by (subst fa1; rewrite (removeSoldier_roster _ _ _ _ Hindex); exact Hdel).
  assert (~ In soldier (l1 ++ l2)) as Hgone.
  { rewrite Hsplit in Hnd. apply NoDup_app in Hnd as (_ & Hsep & Hnd2).
    apply NoDup_cons in Hnd2 as [Hnot2 _].
    intros Hin'. apply in_app_or in Hin' as [H1|H2].
    - apply (Hsep soldier); [now apply list_elem_of_In|now left].
    - apply Hnot2. now apply list_elem_of_In. }
  pose proof (conversionCallback_armies soldier fromArmy toArmy g fa ta Hne Hfrom Hto) as Ha1.
  fold g1 fa1 in Ha1.
  assert (JsMap.get fromArmy (Game.armies g1) = Some fa1) as Hfrom1
    by (rewrite Ha1, JsMap_get_set_ne by congruence; apply JsMap_get_set_eq).
  assert (JsMap.get toArmy (Game.armies g1) = Some (Army.addSoldier soldier ta)) as Hto1
    by (rewrite Ha1; apply JsMap_get_set_eq).
  rewrite (conversionCallback_armies soldier fromArmy toArmy g1 _ _ Hne Hfrom1 Hto1).
  assert (Army.removeSoldier soldier fa1 (Game.heap g1) = (fa1, Game.heap g1)) as ->.
  { unfold Army.removeSoldier. rewrite <- Hroster1 in Hgone.
    now rewrite (indexOf_not_In _ _ Hgone). }
  cbn [fst].
  exists fa1, (Army.addSoldier soldier (Army.addSoldier soldier ta)).
  split; [rewrite JsMap_get_set_ne by congruence; apply JsMap_get_set_eq|].
  split; [apply JsMap_get_set_eq|].
  split; [now rewrite Hroster1|].
  split; [rewrite Hroster1, Hsplit, !length_app; simpl; lia|].
  assert (Army.soldiers (Army.addSoldier soldier (Army.addSoldier soldier ta))
          = Army.soldiers ta ++ [soldier; soldier]) as Hroster2
    by (unfold Army.addSoldier; cbn [Army.soldiers Army.set_soldiers];
        now rewrite <- app_assoc).
  split; [exact Hroster2|]. split.
  - rewrite Hroster2. intros Hnd2. apply NoDup_app in Hnd2 as (_ & _ & Hnd2).
    apply NoDup_cons in Hnd2 as [Hnot _]. apply Hnot. now left.
  - rewrite Hroster2, Hroster1, Hsplit, !length_app. simpl. lia.
Qed.

Lemma conversionCallback_twice_doubles_witness :
  "rock" <> "paper" /\
  exists ta',
    JsMap.get "paper"
      (Game.armies (Game.conversionCallback 1%nat "rock" "paper"
                      (Game.conversionCallback 1%nat "rock" "paper" Examples.battle)))
    = Some ta' /\
    Army.soldiers ta' = [5; 6; 7; 8; 9; 1; 1]%nat.
Proof.
  assert ("rock" <> "paper") as Hne by discriminate.
  split; [exact Hne|].
  assert (JsMap.get "rock" (Game.armies Examples.battle)
          = Some (Examples.army "rock" Examples.battle)) as H1 by (vm_compute; reflexivity).
  assert (JsMap.get "paper" (Game.armies Examples.battle)
          = Some (Examples.army "paper" Examples.battle)) as H2 by (vm_compute; reflexivity).
  assert (In 1%nat (Army.soldiers (Examples.army "rock" Examples.battle))) as Hin
    by (vm_compute; tauto).
  assert (NoDup (Army.soldiers (Examples.army "rock" Examples.battle))) as Hnd
    by (apply (bool_decide_eq_true_1 _); vm_compute; reflexivity).
  destruct (conversionCallback_twice_doubles Examples.battle 1%nat "rock" "paper"
              (Examples.army "rock" Examples.battle) (Examples.army "paper" Examples.battle)
              Hne H1 H2 Hin Hnd)
    as (fa' & ta' & _ & Hto & _ & _ & Hroster & _).
  exists ta'. split; [exact Hto|]. rewrite Hroster. vm_compute. reflexivity.
Defined.
